(* ===== verification/_CoqProject ===== *)
-Q . S2P
Prelude.v
WrappingIntegers.v
ByteStream.v
StreamReassembler.v
Buffer.v
NetParser.v
Checksum.v
IPv4Header.v
TCPHeader.v
TCPSegment.v
IPv4Datagram.v
Ethernet.v
ARP.v
Address.v
Kernel.v
FileDescriptor.v
Socket.v
EventLoop.v
Confined.v
StreamCopy.v
NetworkInterface.v
Router.v
FdAdapter.v
SegmentStream.v
TCPReceiver.v
TCPSender.v
TCPConnection.v
TCPState.v
BuiltSegments.v
EndToEnd.v
Progress.v
WireReady.v
SpongeSocket.v
Simulator.v
Lossless.v
Benchmark.v
Text.v
Printed.v
CommandLine.v
Capture.v
Options.v
Resolution.v
Clients.v
Bouncer.v
Lab7.v
Programs.v
Executions.v
Gateway.v
