(* ===== verification/Prelude.v ===== *)
(** * Sponge: a verified model of a TCP/IP stack

    This library models the C++ stack under [src/libsponge]: a byte stream and
    a reassembler, a TCP receiver, sender and connection over them, the wire
    formats of TCP, IPv4, Ethernet and ARP, a network interface, a router, the
    adapters that carry TCP segments over UDP, TUN and TAP devices, and the
    event loop, descriptors and sockets that make it a running program; and
    the programs of [src/apps]: the stream copy, the network simulator, the
    benchmark, the packet dump, the bouncer, the gateway of lab 7, and the
    small clients.

    ** The program and its parts

    An application writes to and reads from a [TCPConnection]
    ([tcp_connection.cc]).  The connection owns a [TCPSender], which reads the
    application's [ByteStream] and produces [TCPSegment]s, and a [TCPReceiver],
    which turns incoming segments into substrings of the peer's stream for a
    [StreamReassembler]; the reassembler writes what is contiguous to the
    inbound [ByteStream].  Sequence numbers on the wire are [WrappingInt32];
    [wrap] and [unwrap] relate them to 64-bit stream positions.  The segments
    that the connection queues are written by a datagram adapter
    ([tcp_over_ip.cc], [fd_adapter.cc], [tuntap_adapter.cc]) as the payload of
    IPv4 or UDP datagrams; over Ethernet, a [NetworkInterface] puts the
    datagrams in frames and resolves addresses by ARP.  A [Router] moves
    datagrams between several interfaces.  A [TCPSpongeSocket]
    ([tcp_sponge_socket.cc]) runs one connection from an [EventLoop]: four
    rules move datagrams between the adapter's device and the connection, and
    bytes between the connection and a local socket whose other end the owner
    holds.  The descriptors and sockets it uses are wrappers of [util/]
    around system calls.

    ** The files

    - [Prelude]: machine integers at their widths ([u8] to [u64], [s32],
      [s64]), bytes, integer-indexed lists, the [outcome] type for exceptions,
      the state monads [st] and [ste], the tactics [wrap_lia], [zlen] and
      [bsplit], and the hint and rewrite databases.
    - [WrappingIntegers]: [wrapping_integers.hh], [wrapping_integers.cc].
    - [ByteStream]: [byte_stream.cc], the flat string with its shifting loops,
      and the abstract FIFO it refines.
    - [StreamReassembler]: [stream_reassembler.cc], two parallel strings
      (bytes and marks), and reachability over arbitrary excerpts.
    - [Buffer], [NetParser], [Checksum]: [util/buffer.cc], [util/parser.cc]
      and [InternetChecksum] of [util/util.cc].
    - [TCPHeader], [TCPSegment], [IPv4Header], [IPv4Datagram], [Ethernet],
      [ARP]: the wire formats of [tcp_helpers/].
    - [Address]: an address as the protocols see it, a number and a port;
      [Resolution]: all of [util/address.cc], on the stored bytes of a
      [sockaddr], and that it implements [Address].
    - [NetworkInterface]: [network_interface.cc]; [Router]: [router.cc].
    - [FdAdapter]: the adapters, behind the class [FdAdapter] with the
      contract [Transport].
    - [SegmentStream]: what it means for a segment to carry an excerpt of a
      stream; the vocabulary shared by sender and receiver.
    - [TCPReceiver], [TCPSender], [TCPConnection], [TCPState]: the files of
      the same names.
    - [EndToEnd]: two connections over an unreliable network; the class
      [GenuineSource] states what an endpoint promises its peer, and the
      receiver's theorems are proved against it.
    - [BuiltSegments]: a property of segments that everything a connection
      does keeps, as a class; [WireReady] is an instance of it.
    - [Progress]: the retransmission protocol between two connections makes
      progress.
    - [WireReady]: every segment a connection can queue fits the wire format.
    - [Kernel]: the operating system, a parameter (below).
    - [FileDescriptor]: [util/file_descriptor.cc] and [SystemCall] of
      [util/util.cc]; [Socket]: [util/socket.cc], [util/tun.cc].
    - [EventLoop]: [util/eventloop.cc].
    - [Confined]: code that keeps to its own descriptors, by which two threads
      of a process can share the kernel and the table of descriptors.
    - [StreamCopy]: [apps/bidirectional_stream_copy.cc].
    - [SpongeSocket]: [tcp_sponge_socket.cc], and two sockets over a network
      of datagrams.
    - [Simulator]: [apps/network_simulator.cc].
    - [Lossless], [Benchmark]: what a connection does when nothing is lost,
      and [apps/tcp_benchmark.cc], two connections in one loop.
    - [Text]: characters, output streams with their flags, and the number
      formats and parsers of the C++ library that the code uses; [Printed]:
      [to_string] and [summary] of headers and messages, and [hexdump].
    - [CommandLine], [Options]: [argv], usage messages, and the argument
      loops of [tcp_udp.cc], [tcp_ipv4.cc] and [tcp_ip_ethernet.cc].
    - [Capture]: [apps/udp_tcpdump.cc].
    - [Clients]: [apps/webget.cc], [apps/tcp_native.cc], [apps/tun.cc].
    - [Bouncer]: [apps/bouncer.cc].
    - [Lab7]: [apps/lab7.cc].
    - [Programs]: the [main] functions of [apps/tcp_ipv4.cc], [tcp_udp.cc]
      and [tcp_ip_ethernet.cc], with starting and joining the thread of
      [tcp_sponge_socket.cc]: a process is a main thread and the thread of a
      connection over one kernel and one table of descriptors, and a step is
      an iteration of a loop of one of them.
    - [Executions]: that these steps are the functions of the components
      ([steps_are_functions], by which the step functions can be read against
      the source), and how a process ends.
    - [Gateway]: the program of [apps/lab7.cc], three threads over one kernel
      and one table of descriptors.

    A component's state is a [Record] with the members of the C++ class, each
    method is a [Definition] of the same name, and setters stand for single
    assignments.  Integer members are [Z], reduced where the C++ type
    reduces.  Code that throws returns an [outcome]; where the object changes
    before the exception leaves, the state is returned with it.  Undefined
    behaviour that a theorem rules out is the outcome [Undefined] or an
    out-of-range [option].  Where the code changes a queued object in place
    (the datagram at the front of a router's queue), the model does too.

    Code that calls the system is a program over a [World]: the state of the
    kernel, the shared descriptor wrappers (a handle is the key of its
    wrapper, so that duplicates share the flags and counters as the
    [shared_ptr]s do), and the variables that the closures capture.  The
    kernel is the class [Kernel], one operation for each system call with its
    return value and [errno]; nothing is assumed of it but the laws of
    [KernelLaws], which state what the manual pages promise ([read] returns
    the next bytes of its stream, [writev] writes a prefix of the buffers,
    other calls move no bytes, ...) and leave readiness, partial transfers,
    failures and time free.  [SimKernel] is an executable kernel that keeps
    the laws; the witnesses run on it.

    ** What the theorems show

    - The whole program: [programs_deliver] (between two processes like
      [tcp_ipv4], with four threads interleaved in any order, what one prints
      is a prefix of what the other was given), from the invariant
      [process_ok] of a process, [stream_copy_conserves]'s invariant of the
      copy and [Confined]; [sockets_deliver] (what one owner receives is a
      prefix of what the thread of the other socket has read so far, over two
      event loops, two kernels and a network that loses, repeats and reorders
      datagrams, with TUN adapters or lossy ones), from [sponge_ok], the
      invariant of a socket's thread, [end_to_end_prefix]'s invariant of the
      connections, [queued_segments_fit] and the class [OverTun] of the
      adapter; [exit_joined] (a process
      does not end while the thread of its connection runs); [lab7_ends] (nor
      does lab 7's, and its join of the network thread ends).  That a socket
      pair is a pair of pipes is the hypothesis [joined] of
      [programs_deliver], about the two kernels at the moment it speaks of.
    - Data transfer: [end_to_end_prefix] (what an application reads is a
      prefix of what its peer writes, for every interleaving of calls and
      every loss, duplication and reordering), from [reassembly_correct],
      [reassembly_complete], [receiver_correct], [ackno_correct],
      [sender_segments_genuine] and [connection_segments_genuine].
    - Progress: [delivery_possible] (from every reachable state in which the
      writer is open, the whole stream can still arrive, whatever was lost),
      from [ready_reached], the invariants that hold in such a state, and
      [serve_round], one retransmission and its acknowledgment.
    - The sender: [fill_window_exact] (termination, and exactly what fits the
      window), [sender_flight_exact], [ack_received_exact],
      [retransmission_backoff].
    - The connection's life: [opening_states], [shutdown_complete] (an
      operation that ends a connection has reset it, or has left nothing
      unassembled and nothing in flight, with both streams at their end),
      [linger_time], [retransmission_limit] (both streams fail, and a RST is
      queued), [inactive_forever].
    - Containers and arithmetic: [byte_stream_refines],
      [byte_stream_memory_safe] (no access of a run of calls is out of
      range), [push_substring_settled], [unwrap_wrap],
      [unwrap_closest], [buffer_list_remove_prefix], [checksum_verifies].
    - Wire formats: [segment_roundtrip], [datagram_roundtrip],
      [arp_roundtrip], [segment_crosses_tun], [unwrap_filter],
      [lossy_transport].
    - Input and output: [write_all_correct], [udp_whole_datagrams],
      [wait_next_event_invariant] (the rule by which every program over the
      event loop is verified), [stream_copy_conserves].
    - The network: [interface_invariant], [datagrams_in_order],
      [address_resolution], [longest_prefix_match], [route_correct] (the
      router does what the longest of the covering routes says),
      [check_exact] (what the simulator's own check decides), and
      [network_simulator_passes], the whole simulation evaluated.
    - Programs: [benchmark_completes] (the benchmark ends, with every byte
      delivered in order and nothing left in flight on either side),
      [webget_complete] (what is printed is what the server sent),
      [bouncer_relays] (each side receives an in-order selection of what came
      from the other, sent to the address that was learnt there),
      [lab7_gateway] and
      [gateways_in_tandem] (a datagram of one host for the other goes
      through two gateways and reaches it), [payload_found] and [capture_failures]
      (the payload of a captured UDP datagram is found, whatever extension
      headers precede it, and what is reported otherwise),
      [options_understood] (an argument list written from a configuration
      is read back as that configuration, and any other one as the table of
      options says).
    - Addresses and printing: [address_faithful] (an address built from a
      number, from text or from a [sockaddr] gives back its parts, and
      equality of addresses is equality of the parts), [hexdump_roundtrip].
    - Behaviour that differs from its documentation or purpose, each with a
      concrete instance: [empty_eof_ends_early], [fin_ahead_acked] and
      [truncated_by_reordering] (a FIN ahead of its data), [four_gib_stall],
      [stale_window_overdrawn], [timer_survives_full_ack],
      [advertised_window], [listen_opens_on_stray], [unwrap_signed_overflow],
      [peek_output_overread], [write_after_end_input],
      [as_string_unsupported], [segment_parse_verdict],
      [datagram_parse_verdict], [frame_parse_accepts],
      [wrong_version_blocks], [request_repeated], [unmasked_route_dead],
      [poll_error_ignored].

    ** Bounds and fuel

    Capacities and streams are below [2^32] bytes in the theorems on whole
    streams, because the counters of [ByteStream] have 32 bits;
    [end_to_end_prefix] asks for streams below [2^31 - 2] bytes so that every
    segment the network may still hold is within unwrapping distance.
    [fill_window] runs its loop with the fuel [buffer_size + 2], which
    [fill_window_exact] proves enough; the loop of [InternetChecksum::value]
    runs with two iterations, proved enough for every 32-bit sum; the routing
    loop runs for the length of the queue, which no iteration extends; the
    write loop of [FileDescriptor] has one more iteration than there are
    bytes, enough by [write_all_correct]; rule 4 of a socket and the check of
    a simulated host run for the length of their queues, which only shrink.
    The loops that serve events until the program ends ([copy_loop],
    [loop_from]) take the number of iterations as an argument, and their
    theorems hold for every number; so do the loops of the programs that serve
    until they are stopped.  In [Programs] these loops have no bound: a run is
    any sequence of steps.  The loop of the
    benchmark ends within a number of iterations that
    [benchmark_completes] gives; the argument loops have one more iteration
    than there are arguments and the extension headers of a capture as many
    as there are captured bytes, since each iteration consumes one;
    [webget]'s loop ends within two more reads than there are bytes to read,
    and the bouncer's within its number of ports.  All other loops are
    structural.  The clock of a network interface is assumed not to pass [2^64 - 30000] milliseconds.

    ** What is not modelled

    The members of a socket that two threads of a process share are changed
    by whole steps, an iteration of a loop each; that a step is not
    interrupted within is part of the model.  Left out are the debugging
    messages of the sockets, what the main thread of lab 7 prints, and the
    terminal output of the simulator.  The C library and what it reaches is a
    parameter: the sources of time and of random numbers (arguments, streams
    of numbers, or calls into the kernel), [getaddrinfo] and [getnameinfo]
    (the class [NetDb]), packet capture, and the texts of exceptions.  The
    tests and the documentation's examples are not part of the program. *)
From stdpp Require Import base tactics list numbers option.
From Stdlib Require Import ZArith Lia.
From Stdlib Require Export Strings.Byte.

#[global] Open Scope Z_scope.

(** ** Machine integers

    A C++ unsigned integer of width [w] is a [Z]; every arithmetic operation
    that the source performs at that width is written with the reduction
    [uN].  A signed conversion is written with [sN], the two's complement
    reading of the low bits. *)
Definition u8 (z : Z) : Z := z mod 2 ^ 8.
Definition u16 (z : Z) : Z := z mod 2 ^ 16.
Definition u32 (z : Z) : Z := z mod 2 ^ 32.
Definition u64 (z : Z) : Z := z mod 2 ^ 64.
Definition s32 (z : Z) : Z := (z + 2 ^ 31) mod 2 ^ 32 - 2 ^ 31.
Definition s64 (z : Z) : Z := (z + 2 ^ 63) mod 2 ^ 64 - 2 ^ 63.

(** A boolean used as an integer ([true] is 1). *)
Definition b2i (b : bool) : Z := if b then 1 else 0.

(** [wrap_lia] decides linear goals about wrap-around arithmetic: it exposes the
    reductions and replaces each [mod] by its Euclidean equations. *)
Ltac wunfold := unfold u8, u16, u32, u64, s32, s64, b2i in *.
Ltac wrap_lia := wunfold; Z.to_euclidean_division_equations; lia.

Create HintDb sponge.
Create HintDb word.
Create Rewrite HintDb wordrw.
#[export] Hint Unfold u8 u16 u32 u64 s32 s64 : word.

Lemma u8_small z : 0 <= z < 2 ^ 8 -> u8 z = z.
Proof. apply Z.mod_small. Qed.
Lemma u16_small z : 0 <= z < 2 ^ 16 -> u16 z = z.
Proof. apply Z.mod_small. Qed.
Lemma u32_small z : 0 <= z < 2 ^ 32 -> u32 z = z.
Proof. apply Z.mod_small. Qed.
Lemma u64_small z : 0 <= z < 2 ^ 64 -> u64 z = z.
Proof. apply Z.mod_small. Qed.
Lemma u32_bound z : 0 <= u32 z < 2 ^ 32.
Proof. apply Z.mod_pos_bound; lia. Qed.
Lemma u64_bound z : 0 <= u64 z < 2 ^ 64.
Proof. apply Z.mod_pos_bound; lia. Qed.
Lemma u32_add_l x y : u32 (u32 x + y) = u32 (x + y).
Proof. apply Z.add_mod_idemp_l; lia. Qed.
Lemma u32_add_r x y : u32 (x + u32 y) = u32 (x + y).
Proof. apply Z.add_mod_idemp_r; lia. Qed.
Lemma u32_sub_l x y : u32 (u32 x - y) = u32 (x - y).
Proof. apply Zminus_mod_idemp_l. Qed.
Lemma u32_sub_r x y : u32 (x - u32 y) = u32 (x - y).
Proof. apply Zminus_mod_idemp_r. Qed.
Lemma u64_add_l x y : u64 (u64 x + y) = u64 (x + y).
Proof. apply Z.add_mod_idemp_l; lia. Qed.
Lemma u32_u32 x : u32 (u32 x) = u32 x.
Proof. apply Z.mod_mod; lia. Qed.

#[export] Hint Rewrite u32_add_l u32_add_r u32_sub_l u32_sub_r u32_u32 : wordrw.

(** ** Bytes and byte strings *)

#[global] Instance byte_eq_dec' : EqDecision byte := Byte.byte_eq_dec.
#[global] Instance byte_inhabited : Inhabited byte := populate x00.

(** The unsigned value of a byte, and the byte with the low eight bits of an integer. *)
Definition b2z (b : byte) : Z := Z.of_N (Byte.to_N b).
Definition z2b (z : Z) : byte :=
  match Byte.of_N (Z.to_N (u8 z)) with Some b => b | None => x00 end.

Lemma b2z_bound b : 0 <= b2z b < 256.
Proof. unfold b2z. pose proof (Byte.to_N_bounded b). lia. Qed.

Lemma b2z_z2b z : b2z (z2b z) = u8 z.
Proof.
  unfold b2z, z2b.
  assert (0 <= u8 z < 256) as Hb by (apply Z.mod_pos_bound; lia).
  destruct (Byte.of_N (Z.to_N (u8 z))) eqn:E.
  - apply Byte.to_of_N in E. lia.
  - apply Byte.of_N_None_iff in E. lia.
Qed.

Lemma b2z_inj a b : b2z a = b2z b -> a = b.
Proof.
  unfold b2z. intros H. apply N2Z.inj in H.
  pose proof (Byte.of_to_N a). pose proof (Byte.of_to_N b). congruence.
Qed.

Lemma z2b_b2z b : z2b (b2z b) = b.
Proof. apply b2z_inj. rewrite b2z_z2b. apply u8_small, b2z_bound. Qed.

#[export] Hint Rewrite b2z_z2b z2b_b2z : wordrw.

(** The length of a list as an integer ([size_t] in the source). *)
Definition Zlen {A} (l : list A) : Z := Z.of_nat (length l).

Lemma Zlen_nonneg {A} (l : list A) : 0 <= Zlen l.
Proof. unfold Zlen. lia. Qed.
Lemma Zlen_app {A} (l k : list A) : Zlen (l ++ k) = Zlen l + Zlen k.
Proof. unfold Zlen. rewrite length_app. lia. Qed.
Lemma Zlen_nil {A} : Zlen (@nil A) = 0.
Proof. reflexivity. Qed.
Lemma Zlen_cons {A} (x : A) l : Zlen (x :: l) = 1 + Zlen l.
Proof. unfold Zlen. simpl. lia. Qed.
Lemma Zlen_0_inv {A} (l : list A) : Zlen l = 0 -> l = [].
Proof. unfold Zlen. destruct l; [done|simpl; lia]. Qed.

(** [ztake n l] and [zdrop n l]: the first [n] elements and the rest, with an
    integer count. *)
Definition ztake {A} (n : Z) (l : list A) : list A := take (Z.to_nat n) l.
Definition zdrop {A} (n : Z) (l : list A) : list A := drop (Z.to_nat n) l.

Lemma Zlen_ztake {A} n (l : list A) : 0 <= n -> Zlen (ztake n l) = Z.min n (Zlen l).
Proof. intros. unfold Zlen, ztake. rewrite length_take. lia. Qed.
Lemma Zlen_zdrop {A} n (l : list A) : 0 <= n -> Zlen (zdrop n l) = Z.max 0 (Zlen l - n).
Proof. intros. unfold Zlen, zdrop. rewrite length_drop. lia. Qed.
Lemma ztake_zdrop {A} n (l : list A) : ztake n l ++ zdrop n l = l.
Proof. apply take_drop. Qed.
Lemma ztake_ge {A} n (l : list A) : Zlen l <= n -> ztake n l = l.
Proof. intros. unfold ztake. apply take_ge. unfold Zlen in *. lia. Qed.
Lemma zdrop_ge {A} n (l : list A) : Zlen l <= n -> zdrop n l = [].
Proof. intros. unfold zdrop. apply drop_ge. unfold Zlen in *. lia. Qed.
Lemma zdrop_zdrop {A} n m (l : list A) : 0 <= n -> 0 <= m -> zdrop n (zdrop m l) = zdrop (m + n) l.
Proof. intros. unfold zdrop. rewrite drop_drop. f_equal. lia. Qed.
Lemma zdrop_app_le {A} n (l k : list A) : n <= Zlen l -> zdrop n (l ++ k) = zdrop n l ++ k.
Proof. intros. unfold zdrop. apply drop_app_le. unfold Zlen in *. lia. Qed.
Lemma ztake_app_len {A} (l k : list A) : ztake (Zlen l) (l ++ k) = l.
Proof. unfold ztake, Zlen. by rewrite Nat2Z.id, take_app_length. Qed.
Lemma zdrop_app_len {A} (l k : list A) : zdrop (Zlen l) (l ++ k) = k.
Proof. unfold zdrop, Zlen. by rewrite Nat2Z.id, drop_app_length. Qed.
Lemma Zlen_map {A B} (f : A -> B) l : Zlen (map f l) = Zlen l.
Proof. unfold Zlen. by rewrite length_map. Qed.
Lemma zdrop_0 {A} (l : list A) : zdrop 0 l = l.
Proof. reflexivity. Qed.
Lemma Zlen_replicate {A} n (x : A) : Zlen (replicate n x) = Z.of_nat n.
Proof. unfold Zlen. rewrite length_replicate. lia. Qed.
Lemma Zlen_insert {A} i (x : A) l : Zlen (<[i:=x]> l) = Zlen l.
Proof. unfold Zlen. rewrite length_insert. reflexivity. Qed.

Create Rewrite HintDb len.
#[export] Hint Rewrite @Zlen_app @Zlen_nil @Zlen_cons @Zlen_replicate @Zlen_insert : len.
#[export] Hint Rewrite @Zlen_ztake @Zlen_zdrop using lia : len.

(** [zlen] normalises integer lengths and finishes with [lia]. *)
Ltac zlen := autorewrite with len in *; try lia.

(** Boolean tests of the source, turned into propositions. *)
Ltac bsplit :=
  repeat match goal with
  | H : (_ && _)%bool = true |- _ => apply andb_true_iff in H as [? ?]
  | H : (_ || _)%bool = false |- _ => apply orb_false_iff in H as [? ?]
  | H : negb _ = true |- _ => apply negb_true_iff in H
  | H : negb _ = false |- _ => apply negb_false_iff in H
  | H : (_ <? _) = true |- _ => apply Z.ltb_lt in H
  | H : (_ <? _) = false |- _ => apply Z.ltb_ge in H
  | H : (_ <=? _) = true |- _ => apply Z.leb_le in H
  | H : (_ <=? _) = false |- _ => apply Z.leb_gt in H
  | H : (_ =? _) = true |- _ => apply Z.eqb_eq in H
  | H : (_ =? _) = false |- _ => apply Z.eqb_neq in H
  end.

(** Total lookup in a byte string: the default is the zero byte. *)
Lemma bytes_lookup_ge (l : list byte) i : (length l <= i)%nat -> l !!! i = x00.
Proof. intros H. rewrite list_lookup_total_alt. rewrite lookup_ge_None_2 by done. done. Qed.

Lemma bytes_lookup_blank n i : replicate n x00 !!! i = x00.
Proof.
  destruct (decide (i < n)%nat).
  - by apply lookup_total_replicate_2.
  - apply bytes_lookup_ge. rewrite length_replicate. lia.
Qed.

(** A byte string is determined by its length and its total lookups. *)
Lemma bytes_ext (l k : list byte) :
  Zlen l = Zlen k -> (forall i, Z.of_nat i < Zlen l -> l !!! i = k !!! i) -> l = k.
Proof.
  unfold Zlen. intros Hlen H. apply list_eq. intros i.
  destruct (decide (i < length l)%nat).
  - rewrite !list_lookup_lookup_total_lt by lia. f_equal. apply H. lia.
  - rewrite !lookup_ge_None_2 by lia. done.
Qed.

Lemma ztake_lookup (l : list byte) n i : Z.of_nat i < n -> ztake n l !!! i = l !!! i.
Proof. intros. unfold ztake. rewrite !list_lookup_total_alt, lookup_take_lt by lia. done. Qed.
Lemma zdrop_lookup (l : list byte) n i : zdrop n l !!! i = l !!! (Z.to_nat n + i)%nat.
Proof. apply lookup_total_drop. Qed.

(** ** Exceptions and state

    Code that throws returns an [outcome]; code that also mutates an object
    passes it through [ste], so that the changes made before a [throw] stay. *)
Inductive exn : Type :=
  | OutOfRange          (** [std::out_of_range] *)
  | RuntimeError        (** [std::runtime_error] *)
  | LengthError         (** [std::length_error], of [std::string::resize] *)
  | InvalidArgument     (** [std::invalid_argument], of [std::stoi] *)
  | GaiError (code : Z)   (** [tagged_error] of [getaddrinfo] and [getnameinfo], with their result *)
  | UnixError (code : Z)  (** [unix_error] of [util.hh], with its [errno] *)
  | Undefined.          (** not an exception: the execution has undefined behaviour *)

Inductive outcome (A : Type) : Type :=
  | Ok (a : A)
  | Throw (e : exn).
Arguments Ok {A} a.
Arguments Throw {A} e.

#[global] Instance outcome_ret : MRet outcome := fun A a => Ok a.
#[global] Instance outcome_bind : MBind outcome := fun A B f m =>
  match m with Ok a => f a | Throw e => Throw e end.

Definition st (S A : Type) : Type := S -> S * A.
#[global] Instance st_ret {S} : MRet (st S) := fun A a s => (s, a).
#[global] Instance st_bind {S} : MBind (st S) := fun A B f m s =>
  let '(s', a) := m s in f a s'.

Definition ste (S A : Type) : Type := S -> S * outcome A.
#[global] Instance ste_ret {S} : MRet (ste S) := fun A a s => (s, Ok a).
#[global] Instance ste_bind {S} : MBind (ste S) := fun A B f m s =>
  match m s with
  | (s', Ok a) => f a s'
  | (s', Throw e) => (s', Throw e)
  end.

(** Throwing, keeping a part of the state, and lifting a stateless computation. *)
Definition throw {S A} (e : exn) : ste S A := fun s => (s, Throw e).
Definition lift {S A} (o : outcome A) : ste S A := fun s => (s, o).
Definition gets {S A} (f : S -> A) : ste S A := fun s => (s, Ok (f s)).
Definition modify {S} (f : S -> S) : ste S unit := fun s => (f s, Ok tt).
Definition when {S} (b : bool) (m : ste S unit) : ste S unit := if b then m else mret tt.

Lemma Ok_inj {A} (a b : A) : Ok a = Ok b -> a = b.
Proof. congruence. Qed.

Lemma outcome_bind_Ok {A B} (m : outcome A) (f : A -> outcome B) b :
  m ≫= f = Ok b <-> exists a, m = Ok a /\ f a = Ok b.
Proof.
  destruct m as [a|e]; cbn; split; [eauto | by intros (? & [= <-] & ?) | done | by intros (? & [=] & _)].
Qed.

(** [std::string::resize]: cut, or pad with zero characters. *)
Definition str_resize (n : Z) (l : list byte) : list byte :=
  ztake n l ++ replicate (Z.to_nat (n - Zlen l)) x00.

Lemma str_resize_pad n l :
  Zlen l <= n -> str_resize n l = l ++ replicate (Z.to_nat (n - Zlen l)) x00.
Proof. intros. unfold str_resize. by rewrite ztake_ge. Qed.

Lemma str_resize_app l k : str_resize (Zlen l) (l ++ k) = l.
Proof.
  unfold str_resize. rewrite ztake_app_len, Zlen_app. pose proof (Zlen_nonneg k).
  replace (Z.to_nat _) with O by lia. apply app_nil_r.
Qed.

Lemma Zlen_str_resize n l : 0 <= n -> Zlen (str_resize n l) = n.
Proof. intros. unfold str_resize. zlen. Qed.

(** The flag test [static_cast<bool>(x & mask)]. *)
Definition has_bit (x mask : Z) : bool := negb (Z.land x mask =? 0).
