(* ===== verification/WrappingIntegers.v ===== *)
(** * 32-bit wrapping sequence numbers

    Models [src/libsponge/wrapping_integers.hh] and [wrapping_integers.cc]:
    the [WrappingInt32] class with its operators, [wrap] and [unwrap]. *)
From stdpp Require Import base tactics numbers.
From Stdlib Require Import ZArith Lia.
From S2P Require Import Prelude.

Record WrappingInt32 := mkWrappingInt32 { raw_value : Z }.

#[global] Instance WrappingInt32_eq_dec : EqDecision WrappingInt32.
Proof. solve_decision. Defined.

(** The representation invariant of the class: a [uint32_t]. *)
Definition valid (w : WrappingInt32) : Prop := 0 <= raw_value w < 2 ^ 32.

(** [operator-(WrappingInt32, WrappingInt32)]: the signed 32-bit offset. *)
Definition wi_diff (a b : WrappingInt32) : Z := s32 (u32 (raw_value a - raw_value b)).

(** [operator==] and [operator!=]. *)
Definition wi_eqb (a b : WrappingInt32) : bool := raw_value a =? raw_value b.
Definition wi_neqb (a b : WrappingInt32) : bool := negb (wi_eqb a b).

(** [operator+(WrappingInt32, uint32_t)]; a wider argument is converted. *)
Definition wi_add (a : WrappingInt32) (b : Z) : WrappingInt32 :=
  mkWrappingInt32 (u32 (raw_value a + u32 b)).

(** [operator-(WrappingInt32, uint32_t)] is [a + -b]. *)
Definition wi_sub (a : WrappingInt32) (b : Z) : WrappingInt32 := wi_add a (u32 (- b)).

Definition uint32_bits : Z := 2 ^ 32.

(** [wrap]: an absolute 64-bit sequence number as a relative 32-bit one. *)
Definition wrap (n : Z) (isn : WrappingInt32) : WrappingInt32 :=
  let isn_raw := raw_value isn in
  let mod_result := ((n mod uint32_bits) + (isn_raw mod uint32_bits)) mod uint32_bits in
  mkWrappingInt32 mod_result.

(** [unwrap]: the absolute sequence number that wraps to [n], near the checkpoint. *)
Definition unwrap (n isn : WrappingInt32) (checkpoint : Z) : Z :=
  let diff := wi_diff n (wrap checkpoint isn) in
  u64 (checkpoint + diff + (if s64 (s64 checkpoint + diff) <? 0 then uint32_bits else 0)).

(** ** Properties of the operators *)

Lemma wi_ext a b : raw_value a = raw_value b -> a = b.
Proof. destruct a, b; simpl; congruence. Qed.

Lemma wi_eqb_spec a b : wi_eqb a b = true <-> a = b.
Proof.
  unfold wi_eqb. rewrite Z.eqb_eq. split; [apply wi_ext | congruence].
Qed.

Lemma wrap_raw n isn : raw_value (wrap n isn) = u32 (n + raw_value isn).
Proof. unfold wrap, uint32_bits, u32. simpl. rewrite <- Z.add_mod by lia. reflexivity. Qed.

Lemma wrap_valid n isn : valid (wrap n isn).
Proof. unfold valid. rewrite wrap_raw. apply u32_bound. Qed.

Lemma wi_add_valid a b : valid (wi_add a b).
Proof. unfold valid, wi_add; simpl. apply u32_bound. Qed.

Lemma wi_add_wrap isn n : wi_add isn n = wrap n isn.
Proof.
  apply wi_ext. rewrite wrap_raw. unfold wi_add. simpl.
  autorewrite with wordrw. f_equal. lia.
Qed.

Lemma wrap_add n m isn : wi_add (wrap n isn) m = wrap (n + m) isn.
Proof.
  apply wi_ext. unfold wi_add. cbn [raw_value]. rewrite !wrap_raw.
  autorewrite with wordrw. f_equal. lia.
Qed.

(** The offset is the unique representative of the difference in [-2^31, 2^31). *)
Lemma wi_diff_spec a b :
  (wi_diff a b - (raw_value a - raw_value b)) mod 2 ^ 32 = 0 /\
  - 2 ^ 31 <= wi_diff a b < 2 ^ 31.
Proof. unfold wi_diff. split; wrap_lia. Qed.

(** Adding a signed offset to a checkpoint undoes the subtraction in sequence space. *)
Lemma wi_diff_wrap n m isn :
  (wi_diff (wrap n isn) (wrap m isn) - (n - m)) mod 2 ^ 32 = 0.
Proof.
  destruct (wi_diff_spec (wrap n isn) (wrap m isn)) as [H _].
  rewrite !wrap_raw in H. wrap_lia.
Qed.

(** Two numbers that agree modulo [2^32] and lie in the same window are equal. *)
Lemma mod_window_eq x y :
  (x - y) mod 2 ^ 32 = 0 -> - 2 ^ 32 < x - y < 2 ^ 32 -> x = y.
Proof. intros. wrap_lia. Qed.

(** The checkpoint range in which the signed cast of [unwrap] is exact. *)
Definition checkpoint_ok (checkpoint : Z) : Prop := 0 <= checkpoint < 2 ^ 63 - 2 ^ 31.

Lemma unwrap_exact n isn c :
  checkpoint_ok c ->
  unwrap n isn c =
    c + wi_diff n (wrap c isn) + (if c + wi_diff n (wrap c isn) <? 0 then 2 ^ 32 else 0).
Proof.
  unfold checkpoint_ok, unwrap, uint32_bits. intros Hc.
  destruct (wi_diff_spec n (wrap c isn)) as [_ Hd].
  set (d := wi_diff n (wrap c isn)) in *.
  replace (s64 (s64 c + d)) with (c + d) by wrap_lia.
  apply u64_small. destruct (Z.ltb_spec (c + d) 0); lia.
Qed.

Lemma unwrap_near n isn c :
  checkpoint_ok c -> 0 <= n -> - 2 ^ 31 <= n - c < 2 ^ 31 ->
  unwrap (wrap n isn) isn c = n.
Proof.
  intros Hc Hn Hd. rewrite unwrap_exact by assumption.
  pose proof (wi_diff_wrap n c isn) as Hm.
  destruct (wi_diff_spec (wrap n isn) (wrap c isn)) as [_ Hr].
  assert (wi_diff (wrap n isn) (wrap c isn) = n - c) as ->
    by (apply mod_window_eq; [assumption | lia]).
  destruct (Z.ltb_spec (c + (n - c)) 0); lia.
Qed.

(** Round trip: wrapping an absolute sequence number and unwrapping it
    against any checkpoint less than [2^31] away gives the number back, for
    every initial sequence number and every checkpoint below [2^63 - 2^31]. *)
Theorem unwrap_wrap n isn c :
  checkpoint_ok c -> 0 <= n -> - 2 ^ 31 <= n - c < 2 ^ 31 ->
  unwrap (wrap n isn) isn c = n.
Proof. apply unwrap_near. Qed.

(** Every result of [unwrap] wraps back to the sequence number it came from. *)
Lemma wrap_unwrap n isn c :
  valid n -> wrap (unwrap n isn c) isn = n.
Proof.
  intros Hv. apply wi_ext. rewrite wrap_raw. unfold unwrap, uint32_bits.
  destruct (wi_diff_spec n (wrap c isn)) as [Hd _].
  rewrite wrap_raw in Hd. unfold valid in Hv.
  set (d := wi_diff n (wrap c isn)) in *.
  destruct (_ <? 0); wrap_lia.
Qed.

(** [unwrap] returns a [uint64_t]. *)
Lemma unwrap_bound n isn c : 0 <= unwrap n isn c < 2 ^ 64.
Proof. apply u64_bound. Qed.

(** Two absolute numbers with the same wrapped form differ by a multiple of [2^32]. *)
Lemma wrap_inj_mod n m isn :
  wrap n isn = wrap m isn -> (n - m) mod 2 ^ 32 = 0.
Proof. intros H. apply (f_equal raw_value) in H. rewrite !wrap_raw in H. wrap_lia. Qed.

(** C30. The documented contract of [unwrap]: the result wraps to [n], and no
    other absolute sequence number that wraps to [n] is closer to the
    checkpoint. *)
Theorem unwrap_closest n isn c :
  valid n -> checkpoint_ok c ->
  wrap (unwrap n isn c) isn = n /\
  forall m, 0 <= m -> wrap m isn = n -> Z.abs (unwrap n isn c - c) <= Z.abs (m - c).
Proof.
  intros Hv Hc. split; [by apply wrap_unwrap|]. intros m Hm Hw.
  assert (wrap (unwrap n isn c) isn = wrap m isn) as E by (rewrite wrap_unwrap; congruence).
  apply wrap_inj_mod in E. rewrite unwrap_exact in * by assumption.
  destruct (wi_diff_spec n (wrap c isn)) as [_ Hd].
  set (d := wi_diff n (wrap c isn)) in *. clearbody d. unfold checkpoint_ok in Hc.
  destruct (Z.ltb_spec (c + d) 0); wrap_lia.
Qed.

(** An initial sequence number close to the top of the 32-bit range. *)
Definition isn_ex : WrappingInt32 := mkWrappingInt32 4294967290.

Lemma unwrap_wrap_witness : unwrap (wrap 4294967300 isn_ex) isn_ex 4294967200 = 4294967300.
Proof. apply unwrap_wrap; [split|..]; vm_compute; intuition congruence. Defined.

Lemma unwrap_closest_witness :
  wrap (unwrap (mkWrappingInt32 3) isn_ex 7) isn_ex = mkWrappingInt32 3 /\
  forall m, 0 <= m -> wrap m isn_ex = mkWrappingInt32 3 ->
    Z.abs (unwrap (mkWrappingInt32 3) isn_ex 7 - 7) <= Z.abs (m - 7).
Proof. apply unwrap_closest; split; vm_compute; intuition congruence. Defined.

(** Beyond the signed range the contract breaks: for a checkpoint in
    [2^63, 2^64 - 2^33) the cast to [int64_t] is negative, so [unwrap] adds
    [2^32] and misses the number the checkpoint itself stands for. *)
Theorem unwrap_signed_overflow c isn :
  2 ^ 63 <= c < 2 ^ 64 - 2 ^ 33 -> unwrap (wrap c isn) isn c = c + 2 ^ 32.
Proof.
  intros Hc. unfold unwrap, uint32_bits.
  assert (wi_diff (wrap c isn) (wrap c isn) = 0) as ->.
  { unfold wi_diff. rewrite Z.sub_diag. reflexivity. }
  replace (s64 (s64 c + 0) <? 0) with true by (symmetry; apply Z.ltb_lt; wrap_lia).
  rewrite Z.add_0_r. apply u64_small. lia.
Qed.

Lemma unwrap_signed_overflow_witness :
  unwrap (wrap (2 ^ 63) isn_ex) isn_ex (2 ^ 63) = 2 ^ 63 + 2 ^ 32.
Proof. apply unwrap_signed_overflow; vm_compute; intuition congruence. Defined.

(** Operators agree with the source on the test values of the repository. *)
Example wrap_test1 : wrap (3 * 2 ^ 32) (mkWrappingInt32 0) = mkWrappingInt32 0.
Proof. reflexivity. Qed.
Example wrap_test2 : wrap (3 * 2 ^ 32 + 17) (mkWrappingInt32 15) = mkWrappingInt32 32.
Proof. reflexivity. Qed.
Example unwrap_test1 : unwrap (mkWrappingInt32 (2 ^ 32 - 1)) (mkWrappingInt32 0) 0 = 2 ^ 32 - 1.
Proof. reflexivity. Qed.

#[global] Arguments wrap : simpl never.
#[global] Arguments unwrap : simpl never.
#[global] Arguments wi_add : simpl never.
#[global] Arguments wi_diff : simpl never.
