(* ===== verification/ByteStream.v ===== *)
(** * The in-order byte stream

    Models [src/libsponge/byte_stream.hh] and [byte_stream.cc].  The stream
    keeps a string of [_capacity] characters of which the first [endOfBuffer]
    are the bytes written and not yet popped; [write] appends at
    [endOfBuffer], [pop_output] moves the remaining bytes to the front.  The
    counters are [unsigned int] and wrap at [2^32].

    The second half gives the abstract stream (a queue with unbounded
    counters) and proves that every sequence of calls that respects the
    documented bounds of [peek_output] and [pop_output], and writes nothing
    after the end of the input, is observed as a run of the abstract stream.
    The methods that reach into the string are written once, for any way of
    accessing it; with accesses that fail out of range they never fail. *)
From stdpp Require Import base tactics list numbers.
From Stdlib Require Import ZArith Lia.
From S2P Require Import Prelude.

Record ByteStream := mkByteStream {
  _capacity : Z;
  buffer : list byte;
  endOfBuffer : Z;
  bytesRead : Z;
  bytesWritten : Z;
  isInputEnded : bool;
  _error : bool
}.

(** [ByteStream(capacity)]: the buffer is [string(capacity, ' ')]. *)
Definition new (capacity : Z) : ByteStream :=
  mkByteStream capacity (replicate (Z.to_nat capacity) x20) 0 0 0 false false.

Definition set_error (s : ByteStream) : ByteStream :=
  mkByteStream (_capacity s) (buffer s) (endOfBuffer s) (bytesRead s) (bytesWritten s)
    (isInputEnded s) true.

Definition error (s : ByteStream) : bool := _error s.

(** The difference is computed in [size_t]. *)
Definition remaining_capacity (s : ByteStream) : Z := u64 (_capacity s - endOfBuffer s).

(** The characters of the string are reached by [buffer[i]], which is undefined
    out of range.  The methods are written once, over what an access does:
    [plain] accesses just happen, and [checked] ones fail out of range. *)
Record Access (M : Type -> Type) := mkAccess {
  acc_ret : forall {A}, A -> M A;
  acc_bind : forall {A B}, M A -> (A -> M B) -> M B;
  acc_get : list byte -> Z -> M byte;
  acc_put : list byte -> Z -> byte -> M (list byte)
}.
Arguments acc_ret {M} _ {A}.
Arguments acc_bind {M} _ {A B}.
Arguments acc_get {M}.
Arguments acc_put {M}.

Definition plain : Access (fun A => A) :=
  mkAccess (fun A => A) (fun _ x => x) (fun _ _ x f => f x)
    (fun buf i => buf !!! Z.to_nat i) (fun buf i b => <[Z.to_nat i := b]> buf).
Definition in_string (buf : list byte) (i : Z) : bool := (0 <=? i) && (i <? Zlen buf).
Definition checked : Access option :=
  mkAccess option (fun _ => Some) (fun _ _ x f => x ≫= f)
    (fun buf i => if in_string buf i then Some (buf !!! Z.to_nat i) else None)
    (fun buf i b => if in_string buf i then Some (<[Z.to_nat i := b]> buf) else None).

(** The loop of [write]: [buffer[endOfBuffer++] = data[i]]. *)
Fixpoint write_loop {M} (acc : Access M) (data : list byte) (buf : list byte) (e : Z) : M (list byte * Z)%type :=
  match data with
  | [] => acc_ret acc (buf, e)
  | b :: data' => acc_bind acc (acc_put acc buf e b) (fun buf => write_loop acc data' buf (u32 (e + 1)))
  end.

Definition write_in {M} (acc : Access M) (s : ByteStream) (data : list byte) : M (ByteStream * Z)%type :=
  let writeSize := Z.min (Zlen data) (remaining_capacity s) in
  acc_bind acc (write_loop acc (ztake writeSize data) (buffer s) (endOfBuffer s)) (fun '(buf, e) =>
  acc_ret acc (mkByteStream (_capacity s) buf e (bytesRead s) (u32 (bytesWritten s + writeSize))
              (isInputEnded s) (_error s),
            writeSize)).
Definition write (s : ByteStream) (data : list byte) : ByteStream * Z := write_in plain s data.

(** [buffer.substr(0, len)]. *)
Definition peek_output (s : ByteStream) (len : Z) : list byte := ztake len (buffer s).

(** The loop of [pop_output], [n] iterations from index [i]:
    [buffer[i - len] = buffer[i]]. *)
Fixpoint pop_loop {M} (acc : Access M) (n : nat) (i len : Z) (buf : list byte) : M (list byte) :=
  match n with
  | O => acc_ret acc buf
  | S n' =>
      acc_bind acc (acc_get acc buf i) (fun b =>
      acc_bind acc (acc_put acc buf (u64 (i - len)) b) (fun buf =>
      pop_loop acc n' (i + 1) len buf))
  end.

Definition pop_output_in {M} (acc : Access M) (s : ByteStream) (len : Z) : M ByteStream :=
  let i0 := u32 len in
  acc_bind acc (pop_loop acc (Z.to_nat (endOfBuffer s - i0)) i0 len (buffer s)) (fun buf =>
  acc_ret acc (mkByteStream (_capacity s) buf
    (u32 (endOfBuffer s - len)) (u32 (bytesRead s + len)) (bytesWritten s)
    (isInputEnded s) (_error s))).
Definition pop_output (s : ByteStream) (len : Z) : ByteStream := pop_output_in plain s len.

Definition read_in {M} (acc : Access M) (s : ByteStream) (len : Z) : M (ByteStream * list byte)%type :=
  let read_len := if len <? endOfBuffer s then len else endOfBuffer s in
  let readStr := peek_output s read_len in
  acc_bind acc (pop_output_in acc s read_len) (fun s => acc_ret acc (s, readStr)).
Definition read (s : ByteStream) (len : Z) : ByteStream * list byte := read_in plain s len.

Definition end_input (s : ByteStream) : ByteStream :=
  mkByteStream (_capacity s) (buffer s) (endOfBuffer s) (bytesRead s) (bytesWritten s)
    true (_error s).

Definition input_ended (s : ByteStream) : bool := isInputEnded s.
Definition buffer_size (s : ByteStream) : Z := endOfBuffer s.
Definition buffer_empty (s : ByteStream) : bool := endOfBuffer s =? 0.
Definition eof (s : ByteStream) : bool := isInputEnded s && buffer_empty s.
Definition bytes_written (s : ByteStream) : Z := bytesWritten s.
Definition bytes_read (s : ByteStream) : Z := bytesRead s.

Lemma write_eq s data :
  write s data =
    let writeSize := Z.min (Zlen data) (remaining_capacity s) in
    let '(buf, e) := write_loop plain (ztake writeSize data) (buffer s) (endOfBuffer s) in
    (mkByteStream (_capacity s) buf e (bytesRead s) (u32 (bytesWritten s + writeSize)) (isInputEnded s) (_error s), writeSize).
Proof. done. Qed.
Lemma read_eq s len :
  read s len =
    let read_len := if len <? endOfBuffer s then len else endOfBuffer s in (pop_output s read_len, peek_output s read_len).
Proof. done. Qed.

(** ** Representation invariant and abstraction *)

(** The bytes a reader can still get. *)
Definition contents (s : ByteStream) : list byte := ztake (endOfBuffer s) (buffer s).

Record wf (s : ByteStream) : Prop := {
  wf_cap : 0 <= _capacity s < 2 ^ 32;
  wf_buf : Zlen (buffer s) = _capacity s;
  wf_end : 0 <= endOfBuffer s <= _capacity s;
  wf_read : 0 <= bytesRead s < 2 ^ 32;
  wf_written : bytesWritten s = u32 (bytesRead s + endOfBuffer s)
}.

Lemma new_wf c : 0 <= c < 2 ^ 32 -> wf (new c).
Proof. intros. split; simpl; zlen; reflexivity. Qed.

Lemma wf_written_bound s : wf s -> 0 <= bytesWritten s < 2 ^ 32.
Proof. intros H. rewrite (wf_written s H). apply u32_bound. Qed.

Lemma Zlen_contents s : wf s -> Zlen (contents s) = endOfBuffer s.
Proof. intros [? ? ? ? ?]. unfold contents. zlen. Qed.

Lemma remaining_capacity_eq s : wf s -> remaining_capacity s = _capacity s - endOfBuffer s.
Proof. intros [? ? ? ? ?]. apply u64_small. lia. Qed.

(** ** The write loop *)

Lemma write_loop_spec data buf e :
  0 <= e -> e + Zlen data <= Zlen buf -> Zlen buf < 2 ^ 32 ->
  exists buf', write_loop plain data buf e = (buf', e + Zlen data) /\
    Zlen buf' = Zlen buf /\ ztake (e + Zlen data) buf' = ztake e buf ++ data.
Proof.
  revert buf e. induction data as [|b data IH]; intros buf e He Hfit Hlt; simpl.
  - exists buf. zlen. rewrite Z.add_0_r, app_nil_r. done.
  - rewrite Zlen_cons in *. pose proof (Zlen_nonneg data).
    rewrite u32_small by lia.
    destruct (IH (<[Z.to_nat e:=b]> buf) (e + 1)) as (buf' & -> & Hlen & Htake);
      [zlen; lia..|].
    exists buf'. rewrite Zlen_insert in Hlen.
    replace (e + (1 + Zlen data)) with (e + 1 + Zlen data) by lia.
    split; [done|]. split; [done|]. rewrite Htake. unfold ztake.
    replace (Z.to_nat (e + 1)) with (S (Z.to_nat e)) by lia.
    unfold Zlen in *.
    rewrite (take_S_r _ _ b) by (apply list_lookup_insert_eq; lia).
    rewrite take_insert_ge by lia. rewrite <- app_assoc. done.
Qed.

Lemma write_spec s data :
  wf s ->
  let n := Z.min (Zlen data) (_capacity s - endOfBuffer s) in
  let s' := fst (write s data) in
  snd (write s data) = n /\ contents s' = contents s ++ ztake n data /\
  endOfBuffer s' = endOfBuffer s + n /\ _capacity s' = _capacity s /\
  Zlen (buffer s') = Zlen (buffer s) /\
  bytesRead s' = bytesRead s /\ bytesWritten s' = u32 (bytesWritten s + n) /\
  isInputEnded s' = isInputEnded s /\ _error s' = _error s.
Proof.
  intros Hwf n s'. subst s'. rewrite write_eq. cbv zeta. rewrite remaining_capacity_eq by done.
  fold n. destruct Hwf as [? Hb ? ? ?]. pose proof (Zlen_nonneg data).
  assert (Zlen (ztake n data) = n) as Hn by zlen.
  destruct (write_loop_spec (ztake n data) (buffer s) (endOfBuffer s))
    as (buf' & -> & Hlen & Htake); [lia..|].
  rewrite Hn in *. unfold contents. simpl. rewrite Htake. tauto.
Qed.

Lemma write_wf s data : wf s -> wf (fst (write s data)).
Proof.
  intros Hwf. destruct (write_spec s data Hwf) as (_ & _ & He & Hc & Hb & Hr & Hw & _).
  pose proof (Zlen_nonneg data). destruct Hwf as [? ? ? ? Hwr].
  split; rewrite ?He, ?Hc, ?Hb, ?Hr, ?Hw; try lia.
  rewrite Hwr. autorewrite with wordrw. f_equal. lia.
Qed.

(** ** The pop loop *)

Lemma pop_loop_length n i len buf : Zlen (pop_loop plain n i len buf) = Zlen buf.
Proof. revert i buf. induction n; intros; simpl; [done|]. rewrite IHn. zlen. Qed.

Lemma pop_loop_lookup n i len buf j :
  0 <= len <= i -> i + Z.of_nat n <= Zlen buf -> Zlen buf < 2 ^ 32 ->
  (pop_loop plain n i len buf : list byte) !! j =
    if decide (i - len <= Z.of_nat j < i - len + Z.of_nat n)
    then buf !! (j + Z.to_nat len)%nat else buf !! j.
Proof.
  revert i buf. induction n as [|n IH]; intros i buf Hi Hn Hlt; simpl.
  - rewrite decide_False by lia. done.
  - rewrite u64_small by lia. rewrite IH by (zlen; lia).
    unfold Zlen in *.
    destruct (decide (Z.of_nat j = i - len)) as [Hj|Hj].
    + rewrite decide_False by lia. rewrite decide_True by lia.
      replace (Z.to_nat (i - len)) with j by lia.
      rewrite list_lookup_insert_eq by lia.
      replace (j + Z.to_nat len)%nat with (Z.to_nat i) by lia.
      symmetry. apply list_lookup_lookup_total_lt. lia.
    + destruct (decide (i + 1 - len <= Z.of_nat j < i + 1 - len + Z.of_nat n)).
      * rewrite decide_True by lia. rewrite list_lookup_insert_ne by lia. done.
      * rewrite decide_False by lia. rewrite list_lookup_insert_ne by lia. done.
Qed.

Lemma pop_output_spec s len :
  wf s -> 0 <= len <= endOfBuffer s ->
  let s' := pop_output s len in
  contents s' = zdrop len (contents s) /\
  endOfBuffer s' = endOfBuffer s - len /\ _capacity s' = _capacity s /\
  Zlen (buffer s') = Zlen (buffer s) /\
  bytesRead s' = u32 (bytesRead s + len) /\ bytesWritten s' = bytesWritten s /\
  isInputEnded s' = isInputEnded s /\ _error s' = _error s.
Proof.
  intros Hwf Hlen s'. subst s'. destruct Hwf as [? Hb ? ? ?].
  unfold pop_output, pop_output_in. simpl. rewrite !u32_small by lia. rewrite pop_loop_length.
  split; [|tauto]. unfold contents. simpl. apply list_eq. intros j.
  unfold ztake, zdrop, Zlen in *. rewrite lookup_drop.
  destruct (decide (Z.of_nat j < endOfBuffer s - len)).
  - rewrite !lookup_take_lt by lia.
    rewrite pop_loop_lookup by (unfold Zlen; lia). rewrite decide_True by lia.
    f_equal. lia.
  - rewrite !lookup_take_ge by lia. done.
Qed.

Lemma pop_output_wf s len : wf s -> 0 <= len <= endOfBuffer s -> wf (pop_output s len).
Proof.
  intros Hwf Hlen. destruct (pop_output_spec s len Hwf Hlen) as (_ & He & Hc & Hb & Hr & Hw & _).
  destruct Hwf as [? ? ? ? Hwr].
  split; rewrite ?He, ?Hc, ?Hb, ?Hr, ?Hw; try lia; [apply u32_bound|].
  rewrite Hwr. autorewrite with wordrw. f_equal. lia.
Qed.

Lemma peek_output_spec s len :
  len <= endOfBuffer s -> peek_output s len = ztake len (contents s).
Proof.
  intros Hl. unfold peek_output, contents, ztake. rewrite take_take. f_equal. lia.
Qed.

Lemma read_spec s len :
  wf s -> 0 <= len ->
  let n := Z.min len (endOfBuffer s) in
  let s' := fst (read s len) in
  snd (read s len) = ztake n (contents s) /\ contents s' = zdrop n (contents s) /\
  endOfBuffer s' = endOfBuffer s - n /\ _capacity s' = _capacity s /\
  Zlen (buffer s') = Zlen (buffer s) /\
  bytesRead s' = u32 (bytesRead s + n) /\ bytesWritten s' = bytesWritten s /\
  isInputEnded s' = isInputEnded s /\ _error s' = _error s.
Proof.
  intros Hwf Hl n s'. subst s'. rewrite read_eq. cbv zeta.
  assert ((if len <? endOfBuffer s then len else endOfBuffer s) = n) as ->
    by (destruct (Z.ltb_spec len (endOfBuffer s)); lia).
  cbn [fst snd]. destruct Hwf as [? ? ? ? ?] eqn:E. split.
  - apply peek_output_spec. lia.
  - apply pop_output_spec; [done|lia].
Qed.

Lemma read_wf s len : wf s -> 0 <= len -> wf (fst (read s len)).
Proof.
  intros Hwf Hl. rewrite read_eq. simpl. apply pop_output_wf; [done|].
  destruct Hwf. destruct (Z.ltb_spec len (endOfBuffer s)); lia.
Qed.

Lemma end_input_wf s : wf s -> wf (end_input s).
Proof. intros []. by split. Qed.
Lemma set_error_wf s : wf s -> wf (set_error s).
Proof. intros []. by split. Qed.

#[export] Hint Resolve new_wf write_wf read_wf pop_output_wf end_input_wf set_error_wf : sponge.

#[global] Arguments write_in : simpl never.
#[global] Arguments pop_output_in : simpl never.
#[global] Arguments read_in : simpl never.
#[global] Arguments write : simpl never.
#[global] Arguments pop_output : simpl never.
#[global] Arguments read : simpl never.
#[global] Arguments peek_output : simpl never.
#[global] Arguments new : simpl never.

(** ** Memory safety

    With checked accesses the methods are the same programs; under the
    invariant none of their accesses fails, and they do what they do with
    plain ones. *)
Lemma in_string_true buf i : 0 <= i < Zlen buf -> in_string buf i = true.
Proof. intros. apply andb_true_iff. split; lia. Qed.

Lemma write_loop_safe data buf e :
  0 <= e -> e + Zlen data <= Zlen buf -> Zlen buf < 2 ^ 32 ->
  write_loop checked data buf e = Some (write_loop plain data buf e).
Proof.
  revert buf e. induction data as [|b data IH]; intros buf e ? Hfit ?; simpl; [done|].
  rewrite Zlen_cons in Hfit. pose proof (Zlen_nonneg data).
  rewrite in_string_true by lia. cbn [mbind option_bind].
  apply IH; zlen; rewrite u32_small; lia.
Qed.

Lemma pop_loop_safe n i len buf :
  0 <= len <= i -> i + Z.of_nat n <= Zlen buf -> Zlen buf < 2 ^ 32 ->
  pop_loop checked n i len buf = Some (pop_loop plain n i len buf).
Proof.
  revert i buf. induction n as [|n IH]; intros i buf ? Hfit ?; simpl; [done|].
  rewrite (u64_small (i - len)) by lia.
  rewrite !in_string_true by lia. cbn [mbind option_bind].
  apply IH; zlen; lia.
Qed.

Lemma write_safe s data : wf s -> write_in checked s data = Some (write s data).
Proof.
  intros Hwf. rewrite write_eq. unfold write_in. rewrite remaining_capacity_eq by done.
  destruct Hwf as [? Hb ? ? ?]. pose proof (Zlen_nonneg data).
  rewrite write_loop_safe by zlen. cbn [checked acc_bind mbind option_bind]. by destruct (write_loop plain _ _ _).
Qed.

Lemma pop_output_safe s len : wf s -> 0 <= len <= endOfBuffer s -> pop_output_in checked s len = Some (pop_output s len).
Proof.
  intros [? Hb ? ? ?] Hlen. unfold pop_output, pop_output_in. rewrite !u32_small by lia. by rewrite pop_loop_safe by lia.
Qed.

Lemma read_safe s len : wf s -> 0 <= len -> read_in checked s len = Some (read s len).
Proof.
  intros Hwf Hlen. unfold read_in. rewrite pop_output_safe; [done..|].
  pose proof (wf_end s Hwf). destruct (Z.ltb_spec len (endOfBuffer s)); lia.
Qed.

(** ** The abstract stream

    The promise to writers and readers: a stream is the history of the bytes
    accepted so far and the number of them already popped; once the input has
    ended, no more bytes can be written. *)
Record Stream := mkStream {
  cap : Z;
  hist : list byte;
  popped : Z;
  ended : bool;
  failed : bool
}.

Definition pending (a : Stream) : list byte := zdrop (popped a) (hist a).

Inductive call : Type :=
  | Write (data : list byte)
  | Peek (len : Z)
  | Pop (len : Z)
  | Read (len : Z)
  | EndInput
  | SetError
  | Query.

(** What a caller observes: a count, bytes, nothing, or the eight accessors. *)
Inductive obs : Type :=
  | ONum (n : Z)
  | OBytes (l : list byte)
  | OUnit
  | OStatus (rem size : Z) (empty is_eof is_ended is_err : bool) (written nread : Z).

Definition impl_call (s : ByteStream) (c : call) : ByteStream * obs :=
  match c with
  | Write d => let '(s', n) := write s d in (s', ONum n)
  | Peek n => (s, OBytes (peek_output s n))
  | Pop n => (pop_output s n, OUnit)
  | Read n => let '(s', l) := read s n in (s', OBytes l)
  | EndInput => (end_input s, OUnit)
  | SetError => (set_error s, OUnit)
  | Query => (s, OStatus (remaining_capacity s) (buffer_size s) (buffer_empty s) (eof s)
                  (input_ended s) (error s) (bytes_written s) (bytes_read s))
  end.

Definition spec_call (a : Stream) (c : call) : Stream * obs :=
  let size := Zlen (pending a) in
  match c with
  | Write d =>
      let n := if ended a then 0 else Z.min (Zlen d) (cap a - size) in
      (mkStream (cap a) (hist a ++ ztake n d) (popped a) (ended a) (failed a), ONum n)
  | Peek n => (a, OBytes (ztake n (pending a)))
  | Pop n => (mkStream (cap a) (hist a) (popped a + n) (ended a) (failed a), OUnit)
  | Read n =>
      let k := Z.min n size in
      (mkStream (cap a) (hist a) (popped a + k) (ended a) (failed a), OBytes (ztake k (pending a)))
  | EndInput => (mkStream (cap a) (hist a) (popped a) true (failed a), OUnit)
  | SetError => (mkStream (cap a) (hist a) (popped a) (ended a) true, OUnit)
  | Query =>
      (a, OStatus (cap a - size) size (size =? 0) (ended a && (size =? 0)) (ended a) (failed a)
            (u32 (Zlen (hist a))) (u32 (popped a)))
  end.

(** What the documentation asks of callers: only buffered bytes are peeked or
    popped, and nothing is written after the end of the input. *)
Definition legal (a : Stream) (c : call) : bool :=
  match c with
  | Write _ => negb (ended a)
  | Peek n | Pop n => (0 <=? n) && (n <=? Zlen (pending a))
  | Read n => 0 <=? n
  | _ => true
  end.

Section Runs.
Context {S : Type} (step : S -> call -> S * obs).
Fixpoint run (s : S) (cs : list call) : S * list obs :=
  match cs with
  | [] => (s, [])
  | c :: cs' => let '(s1, o) := step s c in let '(s2, os) := run s1 cs' in (s2, o :: os)
  end.
End Runs.

Fixpoint legal_run (a : Stream) (cs : list call) : bool :=
  match cs with
  | [] => true
  | c :: cs' => legal a c && legal_run (fst (spec_call a c)) cs'
  end.

(** The simulation relation. *)
Record refines (s : ByteStream) (a : Stream) : Prop := {
  ref_wf : wf s;
  ref_cap : _capacity s = cap a;
  ref_contents : contents s = pending a;
  ref_popped : 0 <= popped a <= Zlen (hist a);
  ref_read : bytesRead s = u32 (popped a);
  ref_ended : isInputEnded s = ended a;
  ref_failed : _error s = failed a
}.

Lemma Zlen_pending s a : refines s a -> Zlen (pending a) = endOfBuffer s.
Proof. intros []. rewrite <- ref_contents0. by apply Zlen_contents. Qed.

Lemma ref_written s a : refines s a -> bytesWritten s = u32 (Zlen (hist a)).
Proof.
  intros H. pose proof (Zlen_pending _ _ H) as Hp. destruct H as [[] ? ? ? Hr ? ?].
  rewrite wf_written0, Hr. autorewrite with wordrw. f_equal.
  rewrite <- Hp. unfold pending. zlen.
Qed.

Lemma refines_new c :
  0 <= c < 2 ^ 32 -> refines (new c) (mkStream c [] 0 false false).
Proof. intros. split; auto with sponge; simpl; zlen; done. Qed.

(** The bytes that [write] accepts extend the history, whatever the flags. *)
Lemma refines_extend s a d :
  let n := Z.min (Zlen d) (cap a - Zlen (pending a)) in
  refines s a ->
  snd (write s d) = n /\
  refines (fst (write s d)) (mkStream (cap a) (hist a ++ ztake n d) (popped a) (ended a) (failed a)).
Proof.
  intros n H. subst n. rewrite (Zlen_pending _ _ H). destruct H as [Hwf Hc Hcont Hp Hr He Hf].
  destruct (write_spec s d Hwf) as (Hn & Hcont' & _ & Hc' & _ & Hr' & _ & He' & Hf').
  rewrite <- Hc, Hn. split; [done|]. pose proof (Zlen_nonneg d). destruct Hwf as [? ? ? ? ?] eqn:E.
  split; cbn [cap hist popped ended failed]; try congruence.
  - by apply write_wf.
  - unfold pending. simpl. rewrite zdrop_app_le by lia.
    change (zdrop (popped a) (hist a)) with (pending a). congruence.
  - zlen.
Qed.

Lemma refines_write s a d :
  refines s a -> ended a = false ->
  snd (write s d) = Z.min (Zlen d) (cap a - Zlen (pending a)) /\
  refines (fst (write s d)) (fst (spec_call a (Write d))).
Proof. intros H Hend. cbn [spec_call fst]. pose proof (refines_extend s a d H) as E. by rewrite Hend in *. Qed.

Lemma refines_pop s a n :
  refines s a -> 0 <= n <= Zlen (pending a) ->
  refines (pop_output s n) (mkStream (cap a) (hist a) (popped a + n) (ended a) (failed a)).
Proof.
  intros H Hn. pose proof (Zlen_pending _ _ H) as Hs. rewrite Hs in Hn.
  assert (Zlen (pending a) = Zlen (hist a) - popped a) as Hl
    by (destruct H; unfold pending; zlen).
  destruct H as [Hwf Hc Hcont Hp Hr He Hf].
  destruct (pop_output_spec s n Hwf Hn) as (Hcont' & _ & Hc' & _ & Hr' & _ & He' & Hf').
  split; cbn [cap hist popped ended failed]; try congruence; try lia.
  - by apply pop_output_wf.
  - rewrite Hcont', Hcont. unfold pending. simpl. apply zdrop_zdrop; lia.
  - rewrite Hr', Hr. autorewrite with wordrw. done.
Qed.

Lemma refines_call s a c :
  refines s a -> legal a c = true ->
  snd (impl_call s c) = snd (spec_call a c) /\
  refines (fst (impl_call s c)) (fst (spec_call a c)).
Proof.
  intros H Hl. pose proof (Zlen_pending _ _ H) as Hs.
  destruct c as [d|n|n|n| | |]; simpl in *; bsplit.
  - destruct (refines_write s a d H) as [Hn Hr]; [done|]. destruct (write s d) as [s' k]. simpl in *.
    split; [by rewrite Hl, Hn|done].
  - split; [|done]. destruct H as [Hwf Hc Hcont Hp Hr He Hf].
    rewrite peek_output_spec by lia. congruence.
  - split; [done|]. by apply refines_pop.
  - change (pop_output_in plain) with pop_output.
    assert ((if n <? endOfBuffer s then n else endOfBuffer s) = Z.min n (Zlen (pending a))) as ->
      by (rewrite Hs; destruct (Z.ltb_spec n (endOfBuffer s)); lia).
    split; [|apply refines_pop; [done | pose proof (Zlen_nonneg (pending a)); lia]].
    rewrite peek_output_spec by lia. by rewrite (ref_contents _ _ H).
  - split; [done|]. destruct H. split; simpl; auto with sponge.
  - split; [done|]. destruct H. split; simpl; auto with sponge.
  - split; [|done]. rewrite Hs, <- (ref_written _ _ H).
    destruct H as [Hwf Hc Hcont Hp Hr He Hf]. rewrite remaining_capacity_eq by done.
    unfold buffer_size, buffer_empty, eof, input_ended, error, bytes_written, bytes_read.
    unfold buffer_empty. congruence.
Qed.

(** C28. Refinement: for every capacity below [2^32] and every sequence of calls
    that peeks and pops only buffered bytes and writes nothing after the end of
    the input, the observations of the implementation, counters included, are
    those of the abstract FIFO stream. *)
Theorem byte_stream_refines c cs :
  0 <= c < 2 ^ 32 -> legal_run (mkStream c [] 0 false false) cs = true ->
  snd (run impl_call (new c) cs) = snd (run spec_call (mkStream c [] 0 false false) cs).
Proof.
  intros Hc. pose proof (refines_new c Hc) as H. revert H.
  generalize (new c) (mkStream c [] 0 false false).
  induction cs as [|k cs IH]; intros s a H Hl; simpl in *; [done|]. bsplit.
  destruct (refines_call s a k H) as [Ho Hr]; [done|].
  destruct (impl_call s k) as [s1 o1], (spec_call a k) as [a1 o2]. simpl in *. subst.
  specialize (IH s1 a1 Hr). destruct (run impl_call s1 cs), (run spec_call a1 cs). simpl in *.
  f_equal. auto.
Qed.

(** *** The calls with checked accesses *)

Definition checked_call (s : ByteStream) (c : call) : option (ByteStream * obs) :=
  match c with
  | Write d => '(s', n) ← write_in checked s d; Some (s', ONum n)
  | Pop n => s' ← pop_output_in checked s n; Some (s', OUnit)
  | Read n => '(s', l) ← read_in checked s n; Some (s', OBytes l)
  | _ => Some (impl_call s c)
  end.
Fixpoint checked_run (s : ByteStream) (cs : list call) : option (ByteStream * list obs) :=
  match cs with
  | [] => Some (s, [])
  | c :: cs' => '(s1, o) ← checked_call s c; '(s2, os) ← checked_run s1 cs'; Some (s2, o :: os)
  end.

(** Pops and reads of as many bytes as there are; writes at any time. *)
Fixpoint within_buffer (s : ByteStream) (cs : list call) : bool :=
  match cs with
  | [] => true
  | c :: cs' =>
      match c with
      | Pop n => (0 <=? n) && (n <=? buffer_size s)
      | Read n => 0 <=? n
      | _ => true
      end && within_buffer (fst (impl_call s c)) cs'
  end.

(** C29. Memory safety: whatever the capacity below [2^32], in every sequence of
    calls, writes after the end of the input included, that pops only buffered
    bytes, no access of [write], [pop_output] or [read] to the string is out of
    range: with checked accesses no call fails, and the run is the same. *)
Theorem byte_stream_memory_safe c cs :
  0 <= c < 2 ^ 32 -> within_buffer (new c) cs = true ->
  checked_run (new c) cs = Some (run impl_call (new c) cs).
Proof.
  intros Hc. pose proof (new_wf c Hc) as Hwf. revert Hwf. generalize (new c).
  induction cs as [|k cs IH]; intros s Hwf Hl; [done|]. cbn [within_buffer checked_run run] in *. bsplit.
  assert (checked_call s k = Some (impl_call s k) /\ wf (fst (impl_call s k))) as [-> Hwf'].
  { unfold buffer_size in *. destruct k as [d|n|n|n| | |]; cbn [checked_call impl_call]; bsplit; try (split; [done|cbn [fst]; by auto with sponge]).
    - rewrite write_safe by done. pose proof (write_wf s d Hwf). by destruct (write s d).
    - rewrite pop_output_safe by (done || lia). split; [done|]. apply pop_output_wf; [done|lia].
    - rewrite read_safe by (done || lia). assert (wf (fst (read s n))) by (apply read_wf; [done|lia]). by destruct (read s n). }
  destruct (impl_call s k) as [s1 o1]. cbn [mbind option_bind fst] in *. rewrite IH by done.
  by destruct (run impl_call s1 cs).
Qed.

(** ** Witnesses and boundary behaviour *)

Definition ex_calls : list call :=
  [Write [x61; x62; x63; x64; x65]; Query; Peek 2; Read 3; Write [x66; x67; x68]; Query;
   Pop 1; Read 9; EndInput; Query].

Lemma byte_stream_refines_witness :
  snd (run impl_call (new 4) ex_calls) = snd (run spec_call (mkStream 4 [] 0 false false) ex_calls)
  /\ legal_run (mkStream 4 [] 0 false false) ex_calls = true.
Proof.
  split; [|reflexivity]. apply byte_stream_refines; [lia | reflexivity].
Defined.

(** Both calls that move bytes within the string, at its limits. *)
Lemma byte_stream_memory_safe_witness :
  let cs := [Write [x61; x62; x63; x64]; Pop 2; EndInput; Write [x65; x66; x67]; Read 9; Pop 0] in
  within_buffer (new 3) cs = true /\ checked_run (new 3) cs = Some (run impl_call (new 3) cs).
Proof.
  intros cs. assert (within_buffer (new 3) cs = true) as H by (vm_compute; reflexivity).
  split; [exact H|]. apply byte_stream_memory_safe; [lia|exact H].
Defined.

(** [write] does not look at the end-of-input flag: after [end_input] it
    still accepts as many bytes as fit, although the class comment says that
    no more bytes can be written. *)
Theorem write_after_end_input s data :
  wf s ->
  snd (write (end_input s) data) = Z.min (Zlen data) (remaining_capacity s) /\
  contents (fst (write (end_input s) data)) =
    contents s ++ ztake (Z.min (Zlen data) (remaining_capacity s)) data.
Proof.
  intros Hwf. pose proof (write_spec (end_input s) data (end_input_wf s Hwf)) as H.
  rewrite remaining_capacity_eq by done. simpl in H. tauto.
Qed.

Lemma write_after_end_input_witness :
  snd (write (end_input (new 4)) [x61; x62]) = Z.min (Zlen [x61; x62]) (remaining_capacity (new 4)) /\
  contents (fst (write (end_input (new 4)) [x61; x62])) =
    contents (new 4) ++ ztake (Z.min (Zlen [x61; x62]) (remaining_capacity (new 4))) [x61; x62].
Proof. apply write_after_end_input. apply new_wf. lia. Defined.

(** [peek_output] is not limited to the buffered bytes: asked for the whole
    capacity it returns the whole internal string, padding and stale bytes
    included, for any stream that is not full. *)
Theorem peek_output_overread s :
  wf s -> buffer_size s < _capacity s ->
  Zlen (peek_output s (_capacity s)) = _capacity s /\
  peek_output s (_capacity s) <> contents s.
Proof.
  unfold buffer_size. intros Hwf Hlt. pose proof (Zlen_contents s Hwf) as Hc.
  destruct Hwf as [? Hb ? ? ?].
  assert (Zlen (peek_output s (_capacity s)) = _capacity s) as Hp
    by (unfold peek_output; zlen).
  split; [done|]. intros E. rewrite E in Hp. lia.
Qed.

Lemma peek_output_overread_witness :
  Zlen (peek_output (fst (write (new 4) [x61])) 4) = 4 /\
  peek_output (fst (write (new 4) [x61])) 4 <> contents (fst (write (new 4) [x61])).
Proof.
  apply (peek_output_overread (fst (write (new 4) [x61]))).
  - apply write_wf, new_wf. lia.
  - reflexivity.
Defined.
