(* ===== verification/StreamReassembler.v ===== *)
(** * The stream reassembler

    Models [src/libsponge/stream_reassembler.hh] and [stream_reassembler.cc].
    [_buffer] holds the bytes of the window that starts at the first
    unassembled byte, [_written] marks (with a nonzero character) the
    positions received so far, and [write_segment] moves the contiguous
    prefix to the output stream. *)
From stdpp Require Import base tactics list numbers.
From Stdlib Require Import ZArith Lia.
From S2P Require Import Prelude ByteStream.

Record StreamReassembler := mkStreamReassembler {
  _output : ByteStream;
  _capacity : Z;
  _received_EOF : bool;
  _buffer : list byte;
  _written : list byte;
  _num_unassembled_bytes : Z
}.

Definition new (capacity : Z) : StreamReassembler :=
  mkStreamReassembler (ByteStream.new capacity) capacity false
    (replicate (Z.to_nat capacity) x20) (replicate (Z.to_nat capacity) x00) 0.

Definition stream_out (r : StreamReassembler) : ByteStream := _output r.

(** The owner of the reassembler works on the output stream through the
    reference returned by the non-const [stream_out()]. *)
Definition set_output (r : StreamReassembler) (s : ByteStream) : StreamReassembler :=
  mkStreamReassembler s (_capacity r) (_received_EOF r) (_buffer r) (_written r)
    (_num_unassembled_bytes r).

Definition unassembled_bytes (r : StreamReassembler) : Z := _num_unassembled_bytes r.
Definition empty (r : StreamReassembler) : bool := _num_unassembled_bytes r =? 0.

(** [n] iterations of the loop of [create_segment] from absolute index [it]. *)
Fixpoint create_loop (n : nat) (it first_unassembled index : Z) (data buf wr : list byte) (num : Z)
  : list byte * list byte * Z :=
  match n with
  | O => (buf, wr, num)
  | S n' =>
      let pos := Z.to_nat (u64 (it - first_unassembled)) in
      if decide (wr !!! pos = x00) then
        create_loop n' (it + 1) first_unassembled index data
          (<[pos := data !!! Z.to_nat (u64 (it - index))]> buf) (<[pos := x01]> wr) (u64 (num + 1))
      else create_loop n' (it + 1) first_unassembled index data buf wr num
  end.

Definition create_segment (r : StreamReassembler) (first_unassembled index l_index r_index : Z)
    (data : list byte) : StreamReassembler :=
  if r_index <=? l_index then r
  else
    let '(buf, wr, num) :=
      create_loop (Z.to_nat (r_index - l_index)) l_index first_unassembled index data
        (_buffer r) (_written r) (_num_unassembled_bytes r) in
    mkStreamReassembler (_output r) (_capacity r) (_received_EOF r) buf wr num.

(** The counting loop of [write_segment], over the first [_capacity] flags. *)
Fixpoint count_assembled (wr : list byte) : Z :=
  match wr with
  | [] => 0
  | b :: wr' => if decide (b = x00) then 0 else 1 + count_assembled wr'
  end.

Definition write_segment (r : StreamReassembler) : StreamReassembler :=
  let num_assembled_bytes := count_assembled (ztake (_capacity r) (_written r)) in
  mkStreamReassembler
    (fst (ByteStream.write (_output r) (ztake num_assembled_bytes (_buffer r))))
    (_capacity r) (_received_EOF r)
    (zdrop num_assembled_bytes (_buffer r) ++ replicate (Z.to_nat num_assembled_bytes) x20)
    (zdrop num_assembled_bytes (_written r) ++ replicate (Z.to_nat num_assembled_bytes) x00)
    (u64 (_num_unassembled_bytes r - num_assembled_bytes)).

Definition set_received_EOF (r : StreamReassembler) : StreamReassembler :=
  mkStreamReassembler (_output r) (_capacity r) true (_buffer r) (_written r)
    (_num_unassembled_bytes r).

Definition push_substring (r : StreamReassembler) (data : list byte) (index : Z) (eof : bool)
  : StreamReassembler :=
  let first_unassembled := ByteStream.bytes_written (_output r) in
  let first_unacceptable :=
    u64 (u64 (first_unassembled + _capacity r) - ByteStream.buffer_size (_output r)) in
  let l_index := Z.max first_unassembled index in
  let r_index := Z.min first_unacceptable (u64 (index + Zlen data)) in
  let r1 := if eof && (r_index =? u64 (index + Zlen data)) then set_received_EOF r else r in
  let r2 := write_segment (create_segment r1 first_unassembled index l_index r_index data) in
  if _received_EOF r2 && (_num_unassembled_bytes r2 =? 0)
  then set_output r2 (ByteStream.end_input (_output r2))
  else r2.

(** Runs of the code on small inputs: out of order, overlap, capacity. *)
Example push_in_order :
  let r := push_substring (push_substring (new 8) [x61; x62] 0 false) [x63] 2 true in
  (contents (_output r), unassembled_bytes r, eof (fst (read (_output r) 3)) )
  = ([x61; x62; x63], 0, true).
Proof. reflexivity. Qed.

Example push_out_of_order :
  let r := push_substring (new 4) [x63; x64; x65] 2 false in
  let r' := push_substring r [x61; x62; x63] 0 false in
  (unassembled_bytes r, contents (_output r'), unassembled_bytes r')
  = (2, [x61; x62; x63; x64], 0).
Proof. reflexivity. Qed.

(** ** Invariant *)

(** Number of positions marked as received. *)
Fixpoint count_written (wr : list byte) : Z :=
  match wr with
  | [] => 0
  | b :: wr' => (if decide (b = x00) then 0 else 1) + count_written wr'
  end.

(** Position [i] of the window has been received and waits for assembly. *)
Definition marked (wr : list byte) (i : nat) : Prop := wr !!! i <> x00.
#[global] Instance marked_dec wr i : Decision (marked wr i).
Proof. unfold marked. apply _. Defined.

Record wf (r : StreamReassembler) : Prop := {
  wf_output : ByteStream.wf (_output r);
  wf_cap : ByteStream._capacity (_output r) = _capacity r;
  wf_buffer : Zlen (_buffer r) = _capacity r;
  wf_wr : Zlen (_written r) = _capacity r;
  wf_num : _num_unassembled_bytes r = count_written (_written r);
  wf_window : forall i, marked (_written r) i ->
    Z.of_nat i < _capacity r - ByteStream.endOfBuffer (_output r)
}.

(** Between calls the first position of the window is a hole: everything
    contiguous has been assembled. *)
Definition settled (r : StreamReassembler) : Prop := wf r /\ ~ marked (_written r) 0.

Lemma count_written_bound wr : 0 <= count_written wr <= Zlen wr.
Proof.
  induction wr as [|b wr IH]; [done|]. simpl. rewrite Zlen_cons.
  destruct (decide _); lia.
Qed.

Lemma count_written_mark wr i :
  (i < length wr)%nat -> ~ marked wr i -> count_written (<[i:=x01]> wr) = count_written wr + 1.
Proof.
  unfold marked. revert i. induction wr as [|b wr IH]; intros [|i] Hi H; simpl in *; try lia.
  - rewrite decide_True by (apply dec_stable; exact H). simpl. lia.
  - rewrite IH by (lia || done). destruct (decide _); lia.
Qed.

Lemma count_written_app l k : count_written (l ++ k) = count_written l + count_written k.
Proof. induction l as [|b l IH]; simpl; [done|]. rewrite IH. lia. Qed.

Lemma count_written_blank n : count_written (replicate n x00) = 0.
Proof. induction n as [|n IH]; simpl; [done|]. rewrite IH. done. Qed.

Lemma marked_lt wr i : marked wr i -> (i < length wr)%nat.
Proof.
  unfold marked. intros H. destruct (decide (i < length wr)%nat); [done|].
  exfalso. apply H, bytes_lookup_ge. lia.
Qed.

Lemma count_assembled_spec wr :
  0 <= count_assembled wr <= Zlen wr /\
  (forall i, Z.of_nat i < count_assembled wr -> marked wr i) /\
  ~ marked wr (Z.to_nat (count_assembled wr)).
Proof.
  unfold marked. induction wr as [|b wr (IH1 & IH2 & IH3)]; simpl.
  - split; [done|]. split; [lia|]. tauto.
  - rewrite Zlen_cons. destruct (decide (b = x00)) as [->|Hb].
    + pose proof (Zlen_nonneg wr). split; [lia|]. split; [lia|]. simpl. tauto.
    + split; [lia|]. split.
      * intros [|i] Hi; [done|]. simpl. apply IH2. lia.
      * replace (Z.to_nat (1 + count_assembled wr)) with (S (Z.to_nat (count_assembled wr))) by lia.
        done.
Qed.

(** The assembled prefix counts once for every one of its bytes. *)
Lemma count_written_prefix wr n :
  0 <= n <= Zlen wr -> (forall i, Z.of_nat i < n -> marked wr i) ->
  count_written (zdrop n wr) = count_written wr - n.
Proof.
  unfold marked. revert n. induction wr as [|b wr IH]; intros n Hn Hm.
  - rewrite (@Zlen_nil byte) in Hn. replace n with 0 by lia. reflexivity.
  - rewrite Zlen_cons in Hn. destruct (decide (n = 0)) as [->|Hn0].
    + change (zdrop 0 (b :: wr)) with (b :: wr). lia.
    + pose proof (Hm 0%nat ltac:(lia)) as Hb. simpl in Hb. unfold zdrop in *.
      replace (Z.to_nat n) with (S (Z.to_nat (n - 1))) by lia. simpl.
      rewrite decide_False by done. rewrite IH; [lia..|].
      intros i Hi. apply (Hm (S i)). lia.
Qed.

Lemma new_settled c : 0 <= c < 2 ^ 32 -> settled (new c).
Proof.
  intros. split; [split; simpl; auto with sponge; zlen|].
  - by rewrite count_written_blank.
  - intros i []. apply bytes_lookup_blank.
  - intros []. apply bytes_lookup_blank.
Qed.

(** ** The loop of [create_segment] *)

(** Marking position [p] while copying a byte into it. *)
Lemma marked_insert wr p j :
  (p < length wr)%nat -> marked (<[p:=x01]> wr) j <-> j = p \/ marked wr j.
Proof.
  intros Hp. unfold marked. destruct (decide (p = j)) as [->|Hne].
  - rewrite list_lookup_total_insert_eq by done. split; [by left | intros _; done].
  - rewrite list_lookup_total_insert_ne by done. split; [by right | intros [|]; congruence].
Qed.

Lemma create_loop_spec n it fu index data buf wr num :
  0 <= fu <= it -> 0 <= index <= it -> it - fu + Z.of_nat n <= Zlen wr -> Zlen buf = Zlen wr ->
  Zlen wr < 2 ^ 32 -> it + Z.of_nat n < 2 ^ 64 -> num = count_written wr ->
  exists buf' wr',
    create_loop n it fu index data buf wr num = (buf', wr', count_written wr') /\
    Zlen buf' = Zlen buf /\ Zlen wr' = Zlen wr /\
    (forall j, marked wr' j <-> marked wr j \/ it - fu <= Z.of_nat j < it - fu + Z.of_nat n) /\
    (forall j, buf' !!! j =
       if decide (~ marked wr j /\ it - fu <= Z.of_nat j < it - fu + Z.of_nat n)
       then data !!! Z.to_nat (Z.of_nat j + fu - index) else buf !!! j).
Proof.
  revert it buf wr num.
  induction n as [|n IH]; intros it buf wr num Hfu Hix Hfit Hbl Hlt Hmax Hnum; simpl.
  - exists buf, wr. rewrite Hnum. split_and!; [done..| |].
    + intros j. split; [tauto|]. intros [|]; [done|lia].
    + intros j. rewrite decide_False by lia. done.
  - rewrite !u64_small by lia. set (p := Z.to_nat (it - fu)).
    assert (p < length wr)%nat as Hp by (unfold Zlen in *; lia).
    destruct (decide (wr !!! p = x00)) as [Hz|Hz].
    + assert (~ marked wr p) as Hnm by (unfold marked; tauto).
      destruct (IH (it + 1) (<[p:=data !!! Z.to_nat (it - index)]> buf) (<[p:=x01]> wr)
                  (u64 (num + 1))) as (buf' & wr' & -> & Hb & Hw & Hm & Hd); [zlen; lia..| |].
      { rewrite count_written_mark, Hnum by done.
        pose proof (count_written_bound wr). apply u64_small. lia. }
      exists buf', wr'. rewrite !Zlen_insert in *. split_and!; [done..| |].
      * intros j. rewrite Hm, marked_insert by done. split.
        -- intros [[->|?]|?]; [right; lia|tauto|right; lia].
        -- intros [?|?]; [tauto|]. destruct (decide (j = p)); [tauto|right; lia].
      * intros j. rewrite Hd. destruct (decide (j = p)) as [->|Hjp].
        -- rewrite decide_False by (rewrite marked_insert by done; tauto).
           rewrite decide_True by (split; [done|lia]).
           rewrite list_lookup_total_insert_eq by (unfold Zlen in *; lia).
           f_equal. lia.
        -- rewrite list_lookup_total_insert_ne by done.
           destruct (decide (~ marked wr j /\ _)) as [[H1 H2]|H].
           ++ rewrite decide_True; [done|]. rewrite marked_insert by done. split; [tauto|lia].
           ++ rewrite decide_False; [done|]. rewrite marked_insert by done.
              intros [H1 H2]. apply H. split; [tauto|lia].
    + assert (marked wr p) as Hmk by exact Hz.
      destruct (IH (it + 1) buf wr num) as (buf' & wr' & -> & Hb & Hw & Hm & Hd); [lia..|].
      exists buf', wr'. split_and!; [done..| |].
      * intros j. rewrite Hm. split; intros [?|?]; [tauto|right; lia|tauto|].
        destruct (decide (j = p)) as [->|]; [tauto|right; lia].
      * intros j. rewrite Hd. destruct (decide (j = p)) as [->|Hjp].
        -- rewrite !decide_False by tauto. done.
        -- destruct (decide (~ marked wr j /\ _)) as [[H1 H2]|H].
           ++ rewrite decide_True; [done|]. split; [tauto|lia].
           ++ rewrite decide_False; [done|]. intros [H1 H2]. apply H. split; [tauto|lia].
Qed.

(** ** [create_segment] and [write_segment] *)

Lemma create_segment_spec r index rr data :
  wf r -> let fu := bytesWritten (_output r) in let l := Z.max fu index in
  0 <= index -> rr <= fu + (_capacity r - endOfBuffer (_output r)) ->
  let r' := create_segment r fu index l rr data in
  wf r' /\ _output r' = _output r /\ _capacity r' = _capacity r /\
  _received_EOF r' = _received_EOF r /\
  (forall j, marked (_written r') j <->
     marked (_written r) j \/ l - fu <= Z.of_nat j < rr - fu) /\
  (forall j, _buffer r' !!! j =
     if decide (~ marked (_written r) j /\ l - fu <= Z.of_nat j < rr - fu)
     then data !!! Z.to_nat (Z.of_nat j + fu - index) else _buffer r !!! j).
Proof.
  intros Hwf fu l Hix Hrr r'. subst r'. unfold create_segment.
  destruct (Z.leb_spec rr l) as [Hle|Hgt].
  - split; [done|]. split_and!; try done.
    + intros j. split; [tauto|]. intros [|]; [done|lia].
    + intros j. rewrite decide_False by lia. done.
  - destruct Hwf as [Hout Hcap Hbl Hwl Hnum Hwin]. destruct Hout as [? ? ? ? Hw] eqn:E.
    assert (0 <= fu < 2 ^ 32) as Hfu by (unfold fu; by apply wf_written_bound).
    destruct (create_loop_spec (Z.to_nat (rr - l)) l fu index data (_buffer r) (_written r)
                (_num_unassembled_bytes r)) as (buf' & wr' & -> & Hb & Hw' & Hm & Hd); [lia..|].
    rewrite Z2Nat.id in * by lia. replace (l - fu + (rr - l)) with (rr - fu) in * by lia.
    split; [split; simpl; try congruence; try lia | by split_and!].
    intros i. rewrite Hm. intros [Hi|Hi]; [by apply Hwin|lia].
Qed.

(** The bytes of the contiguous prefix always fit into the output stream. *)
Lemma assembled_fits r :
  wf r -> 0 <= count_assembled (_written r) <= _capacity r - endOfBuffer (_output r).
Proof.
  intros [Hout Hcap Hbl Hwl Hnum Hwin]. destruct Hout.
  destruct (count_assembled_spec (_written r)) as (Hb & Hm & _).
  set (n := count_assembled (_written r)) in *.
  destruct (decide (n = 0)); [lia|].
  specialize (Hwin (Z.to_nat (n - 1)) ltac:(apply Hm; lia)). lia.
Qed.

Lemma write_segment_spec r :
  wf r -> let n := count_assembled (_written r) in
  let r' := write_segment r in
  settled r' /\ _capacity r' = _capacity r /\ _received_EOF r' = _received_EOF r /\
  _output r' = fst (ByteStream.write (_output r) (ztake n (_buffer r))) /\
  Zlen (ztake n (_buffer r)) = n /\
  (forall j, marked (_written r') j <-> marked (_written r) (Z.to_nat n + j)) /\
  (forall j, Z.of_nat j < _capacity r - n ->
     _buffer r' !!! j = _buffer r !!! (Z.to_nat n + j)%nat).
Proof.
  intros Hwf n r'. pose proof (assembled_fits r Hwf) as Hn. fold n in Hn.
  destruct Hwf as [Hout Hcap Hbl Hwl Hnum Hwin] eqn:E.
  assert (r' = mkStreamReassembler (fst (ByteStream.write (_output r) (ztake n (_buffer r))))
            (_capacity r) (_received_EOF r)
            (zdrop n (_buffer r) ++ replicate (Z.to_nat n) x20)
            (zdrop n (_written r) ++ replicate (Z.to_nat n) x00)
            (u64 (_num_unassembled_bytes r - n))) as ->.
  { unfold r', write_segment. rewrite (ztake_ge (_capacity r)) by lia. done. }
  destruct (count_assembled_spec (_written r)) as (Hb & Hm & Hh). fold n in Hb, Hm, Hh.
  assert (Zlen (ztake n (_buffer r)) = n) as Hlen by zlen.
  destruct (write_spec (_output r) (ztake n (_buffer r)) Hout) as (_ & _ & He & Hc & _).
  rewrite Hlen, Hcap, Z.min_l in He by lia.
  assert (forall j, marked (zdrop n (_written r) ++ replicate (Z.to_nat n) x00) j <->
                    marked (_written r) (Z.to_nat n + j)) as Hmark.
  { intros j. unfold marked. destruct (decide (j < length (zdrop n (_written r)))%nat) as [Hj|Hj].
    - rewrite lookup_total_app_l by done. rewrite zdrop_lookup. done.
    - rewrite lookup_total_app_r by lia. rewrite bytes_lookup_blank.
      rewrite bytes_lookup_ge; [done|]. unfold zdrop in Hj. rewrite length_drop in Hj. lia. }
  split; [split; [split|]|]; simpl.
  - by apply write_wf.
  - congruence.
  - zlen.
  - zlen.
  - rewrite count_written_app, count_written_blank, Z.add_0_r.
    rewrite count_written_prefix by done. rewrite Hnum.
    pose proof (count_written_bound (zdrop n (_written r))) as Hcb.
    rewrite count_written_prefix in Hcb by done. destruct Hout.
    rewrite u64_small; [done|]. zlen.
  - intros i Hi%Hmark. apply Hwin in Hi. rewrite He. lia.
  - rewrite Hmark, Nat.add_0_r. exact Hh.
  - split_and!; try done. intros j Hj. rewrite <- zdrop_lookup.
    apply lookup_total_app_l. unfold zdrop. rewrite length_drop. unfold Zlen in *. lia.
Qed.

(** ** [push_substring] *)

(** The first absolute index beyond the window. *)
Definition window_end (r : StreamReassembler) (w : Z) : Z :=
  w + (_capacity r - endOfBuffer (_output r)).

(** With [w] bytes assembled so far, the byte at absolute index [p] has been received. *)
Definition received (r : StreamReassembler) (w p : Z) : Prop :=
  0 <= p < w \/ w <= p /\ marked (_written r) (Z.to_nat (p - w)).

(** The byte the reassembler holds for index [p] after [data] arrived at [index]:
    the first copy received wins. *)
Definition byte_for (r : StreamReassembler) (w : Z) (data : list byte) (index p : Z) : byte :=
  if decide (marked (_written r) (Z.to_nat (p - w)))
  then _buffer r !!! Z.to_nat (p - w) else data !!! Z.to_nat (p - index).

Lemma first_unacceptable_eq r :
  wf r ->
  u64 (u64 (bytesWritten (_output r) + _capacity r) - endOfBuffer (_output r)) =
  window_end r (bytesWritten (_output r)).
Proof.
  intros [Hout Hcap _ _ _ _]. pose proof (wf_written_bound _ Hout). destruct Hout.
  unfold window_end. rewrite (u64_small (_ + _)) by lia. rewrite u64_small by lia. lia.
Qed.

Lemma set_received_EOF_wf r : wf r -> wf (set_received_EOF r).
Proof. intros []. by split. Qed.

(** The state after [create_segment] and [write_segment], before the end-of-file test. *)
Definition push_core (r : StreamReassembler) (data : list byte) (index : Z) (eof : bool)
  : StreamReassembler :=
  let w := bytesWritten (_output r) in
  let e := u64 (index + Zlen data) in
  let rr := Z.min (window_end r w) e in
  let r1 := if eof && (rr =? e) then set_received_EOF r else r in
  write_segment (create_segment r1 w index (Z.max w index) rr data).

Lemma push_substring_core r data index eof :
  wf r ->
  let r2 := push_core r data index eof in
  push_substring r data index eof =
    if _received_EOF r2 && (_num_unassembled_bytes r2 =? 0)
    then set_output r2 (end_input (_output r2)) else r2.
Proof.
  intros Hwf. unfold push_substring, push_core, bytes_written, buffer_size.
  rewrite first_unacceptable_eq by done. done.
Qed.

(** [write_segment] moves bytes to the output and forgets none of them. *)
Lemma write_segment_received r w p :
  wf r -> 0 <= w ->
  received (write_segment r) (w + count_assembled (_written r)) p <-> received r w p.
Proof.
  intros Hwf Hw. destruct (write_segment_spec r Hwf) as (_ & _ & _ & _ & _ & Hmark & _).
  destruct (count_assembled_spec (_written r)) as (Hb & Hall & _).
  set (n := count_assembled (_written r)) in *. unfold received. rewrite Hmark.
  replace (Z.to_nat n + Z.to_nat (p - (w + n)))%nat with (Z.to_nat (Z.max (p - w) n)) by lia.
  destruct (decide (p < w)); [|destruct (decide (p < w + n))].
  - split; intros [?|[? _]]; left; lia.
  - split; [intros _; right|intros _; left; lia]. split; [lia|]. apply Hall. lia.
  - rewrite Z.max_l by lia. split; intros [?|[? ?]]; [lia| by right; split; [lia|] |lia|].
    right. split; [lia|done].
Qed.

(** [create_segment] adds exactly the part of the segment inside the window. *)
Lemma create_segment_received r index rr data p :
  wf r -> let w := bytesWritten (_output r) in
  0 <= index -> rr <= window_end r w ->
  received (create_segment r w index (Z.max w index) rr data) w p <->
  received r w p \/ Z.max w index <= p < rr.
Proof.
  intros Hwf w Hix Hrr. unfold window_end in Hrr.
  destruct (create_segment_spec r index rr data Hwf Hix Hrr) as (_ & _ & _ & _ & Hmark & _).
  fold w in Hmark. unfold received. rewrite Hmark.
  assert (0 <= w) by (unfold w; destruct Hwf as [H _ _ _ _ _]; apply wf_written_bound in H; lia).
  destruct (decide (p < w)).
  - split; [intros [?|[? _]]|intros [[?|[? _]]|?]]; first [lia | tauto].
  - rewrite Z2Nat.id by lia. split.
    + intros [?|[? [?|?]]]; [lia | tauto | right; lia].
    + intros [[?|[? ?]]|?]; right; (split; [lia|]); [lia | tauto | right; lia].
Qed.

(** Where the bytes of the window come from after [create_segment]. *)
Lemma create_segment_bytes r index rr data i :
  wf r -> let w := bytesWritten (_output r) in
  0 <= index -> rr <= window_end r w ->
  let r2 := create_segment r w index (Z.max w index) rr data in
  marked (_written r2) i ->
  _buffer r2 !!! i = byte_for r w data index (w + Z.of_nat i).
Proof.
  intros Hwf w Hix Hrr r2 Hi. unfold window_end in Hrr.
  destruct (create_segment_spec r index rr data Hwf Hix Hrr) as (_ & _ & _ & _ & Hmark & Hbuf).
  fold w r2 in Hmark, Hbuf. rewrite Hmark in Hi. rewrite Hbuf. unfold byte_for.
  replace (Z.to_nat (w + Z.of_nat i - w)) with i by lia.
  destruct (decide (marked (_written r) i)) as [Hm|Hm].
  - rewrite decide_False by tauto. done.
  - rewrite decide_True by (split; [done|]; destruct Hi; [done|lia]). f_equal. lia.
Qed.

Lemma push_core_spec r data index eof :
  settled r -> 0 <= index ->
  let w := bytesWritten (_output r) in
  let e := u64 (index + Zlen data) in
  let rr := Z.min (window_end r w) e in
  let r' := push_core r data index eof in
  exists d,
    settled r' /\ _capacity r' = _capacity r /\
    _received_EOF r' = _received_EOF r || (eof && (rr =? e)) /\
    _output r' = fst (ByteStream.write (_output r) d) /\
    Zlen d <= _capacity r - endOfBuffer (_output r) /\
    (forall p, received r' (w + Zlen d) p <->
       received r w p \/ Z.max w index <= p < rr) /\
    (forall p, w <= p < w + Zlen d -> d !!! Z.to_nat (p - w) = byte_for r w data index p) /\
    (forall p, received r' (w + Zlen d) p -> w + Zlen d <= p ->
       _buffer r' !!! Z.to_nat (p - (w + Zlen d)) = byte_for r w data index p).
Proof.
  intros [Hwf Hhole] Hix w e rr r'.
  assert (0 <= w < 2 ^ 32) as Hw by (unfold w; destruct Hwf; by apply wf_written_bound).
  set (r1 := if eof && (rr =? e) then set_received_EOF r else r).
  assert (wf r1 /\ _output r1 = _output r /\ _capacity r1 = _capacity r /\
          _written r1 = _written r /\ _buffer r1 = _buffer r /\
          _received_EOF r1 = _received_EOF r || (eof && (rr =? e))) as (Hwf1 & Ho1 & Hc1 & Hm1 & Hb1 & He1).
  { unfold r1. destruct (eof && (rr =? e)); simpl; rewrite ?orb_true_r, ?orb_false_r;
      split_and!; auto using set_received_EOF_wf. }
  pose proof (create_segment_spec r1 index rr data Hwf1) as Hcs. cbv zeta in Hcs.
  rewrite Ho1, Hc1, Hm1, Hb1 in Hcs. fold w in Hcs.
  destruct Hcs as (Hwf2 & Ho2 & Hc2 & He2 & Hmark & Hbuf); [done|unfold rr, window_end; lia|].
  set (r2 := create_segment r1 w index (Z.max w index) rr data) in *.
  assert (r' = write_segment r2) as -> by done.
  pose proof (assembled_fits r2 Hwf2) as Hfit.
  destruct (write_segment_spec r2 Hwf2) as (Hset & Hc3 & He3 & Ho3 & Hlen & Hmark3 & Hbuf3).
  set (n := count_assembled (_written r2)) in *.
  assert (forall i, marked (_written r2) i ->
            _buffer r2 !!! i = byte_for r w data index (w + Z.of_nat i)) as Hbyte.
  { intros i Hi. pose proof (create_segment_bytes r1 index rr data i Hwf1) as Hb. cbv zeta in Hb.
    unfold byte_for in *. rewrite Ho1, Hm1, Hb1 in Hb. apply Hb; [done| |done].
    unfold rr, window_end. rewrite Ho1, Hc1. fold w. lia. }
  destruct (count_assembled_spec (_written r2)) as (_ & Hall & _). fold n in Hall.
  exists (ztake n (_buffer r2)). rewrite Hlen. split_and!; try congruence.
  - rewrite Ho2, Hc2 in Hfit. lia.
  - intros p. unfold n. rewrite write_segment_received by (done || lia).
    pose proof (create_segment_received r1 index rr data p Hwf1) as Hr. cbv zeta in Hr.
    unfold received in *. rewrite Ho1, Hm1 in Hr. apply Hr; [done|].
    unfold rr, window_end. rewrite Ho1, Hc1. fold w. lia.
  - intros p Hp. rewrite ztake_lookup by lia. rewrite Hbyte by (apply Hall; lia). f_equal. lia.
  - intros p [Hp|[_ Hp]] Hge; [lia|]. pose proof (marked_lt _ _ Hp) as Hlt.
    rewrite Hmark3 in Hp. pose proof (marked_lt _ _ Hp) as Hlt2. destruct Hwf2.
    rewrite Hbuf3 by (unfold Zlen in *; lia). rewrite Hbyte by done. f_equal. lia.
Qed.

Lemma count_written_zero wr : (forall i, ~ marked wr i) -> count_written wr = 0.
Proof.
  unfold marked. induction wr as [|b wr IH]; intros H; simpl; [done|].
  pose proof (H 0%nat) as H0. simpl in H0. rewrite decide_True by (by apply dec_stable).
  rewrite IH; [done|]. intros i. apply (H (S i)).
Qed.

Lemma count_written_zero_inv wr i : count_written wr = 0 -> ~ marked wr i.
Proof.
  unfold marked. revert i. induction wr as [|b wr IH]; intros i H; simpl in *.
  - rewrite bytes_lookup_ge by (simpl; lia). tauto.
  - pose proof (count_written_bound wr). destruct (decide (b = x00)) as [->|]; [|lia].
    destruct i; simpl; [tauto|]. apply IH. lia.
Qed.

Lemma set_output_settled r s :
  settled r -> ByteStream.wf s -> ByteStream._capacity s = _capacity r ->
  endOfBuffer s <= endOfBuffer (_output r) -> settled (set_output r s).
Proof.
  intros [[? ? ? ? ? Hwin] Hh] Hs Hc He. split; [|done]. split; simpl; auto.
  intros i Hi. apply Hwin in Hi. lia.
Qed.

Lemma push_settled r data index eof :
  settled r -> 0 <= index -> settled (push_substring r data index eof).
Proof.
  intros Hs Hix. rewrite push_substring_core by apply Hs.
  destruct (push_core_spec r data index eof Hs Hix) as (d & Hs' & _).
  destruct (_ && _); [|done].
  apply set_output_settled; [done | apply end_input_wf, Hs' | apply Hs' | done].
Qed.

(** Every [push_substring], for any data, index and flag, keeps the
    reassembler well formed: the buffers keep the capacity's size, the counter
    of unassembled bytes is the number of marked positions, nothing is marked
    beyond the free window, and everything contiguous has been assembled. *)
Theorem push_substring_settled r data index eof :
  settled r -> 0 <= index -> settled (push_substring r data index eof).
Proof. apply push_settled. Qed.

(** Reading from the output keeps the invariant and frees window space. *)
Lemma read_output_settled r len :
  settled r -> 0 <= len -> settled (set_output r (fst (ByteStream.read (_output r) len))).
Proof.
  intros Hs Hl. assert (ByteStream.wf (_output r)) as Ho by (by destruct Hs as [[]]).
  destruct (read_spec (_output r) len Ho Hl) as (_ & _ & He & Hc & _).
  apply set_output_settled; auto with sponge.
  - rewrite Hc. by destruct Hs as [[]].
  - rewrite He. destruct Ho. lia.
Qed.

#[export] Hint Resolve new_settled read_output_settled : sponge.

(** ** Correctness against a logical stream

    [S] is the stream the sender writes; a substring is genuine when it is
    the excerpt of [S] at its index. *)
Implicit Types (S data h d : list byte) (a : Stream).

Definition slice S (index : Z) (data : list byte) : Prop :=
  0 <= index /\ forall k, Z.of_nat k < Zlen data ->
    S !! (Z.to_nat index + k)%nat = Some (data !!! k).

(** What the reassembler holds is genuine: the history of the output is a
    prefix of [S], the stored bytes are those of [S] at their positions, and
    an accepted end of file means that the last byte has been received. *)
Record stores S (r : StreamReassembler) a : Prop := {
  st_settled : settled r;
  st_ref : refines (_output r) a;
  st_prefix : hist a = ztake (Zlen (hist a)) S;
  st_stored : forall i, marked (_written r) i ->
    S !! (Z.to_nat (Zlen (hist a)) + i)%nat = Some (_buffer r !!! i);
  st_eof : _received_EOF r = true ->
    received r (Zlen (hist a)) (Zlen S - 1) \/ Zlen S <= Zlen (hist a)
}.

(** Between calls, the output has ended exactly when all of [S] is there. *)
Record tracks S (r : StreamReassembler) a : Prop := {
  tr_stores : stores S r a;
  tr_ended : ended a = true -> hist a = S;
  tr_closed : _received_EOF r = true -> _num_unassembled_bytes r = 0 -> ended a = true
}.

Lemma tracks_new S c : 0 <= c < 2 ^ 32 -> tracks S (new c) (mkStream c [] 0 false false).
Proof.
  intros Hc. split; [split|..]; try (intros [=]; fail).
  - by apply new_settled.
  - by apply refines_new.
  - done.
  - intros i []. apply bytes_lookup_blank.
Qed.

Lemma stores_hist_le S r a : stores S r a -> Zlen (hist a) <= Zlen S.
Proof.
  intros H. pose proof (st_prefix _ _ _ H) as E. apply (f_equal Zlen) in E.
  pose proof (Zlen_nonneg (hist a)). zlen.
Qed.

Lemma stores_written S r a :
  Zlen S < 2 ^ 32 -> stores S r a -> bytesWritten (_output r) = Zlen (hist a).
Proof.
  intros HS H. pose proof (stores_hist_le _ _ _ H). rewrite (ref_written _ _ (st_ref _ _ _ H)).
  apply u32_small. pose proof (Zlen_nonneg (hist a)). lia.
Qed.

(** Every byte held for an index is the byte of [S] at that index. *)
Lemma byte_for_genuine S r a data index p :
  stores S r a -> slice S index data -> Zlen (hist a) <= p ->
  received r (Zlen (hist a)) p \/ index <= p < index + Zlen data ->
  S !! Z.to_nat p = Some (byte_for r (Zlen (hist a)) data index p).
Proof.
  intros H [Hix Hs] Hp Hrec. unfold byte_for. pose proof (Zlen_nonneg (hist a)).
  destruct (decide (marked _ _)) as [Hm|Hm].
  - rewrite <- (st_stored _ _ _ H) by done. f_equal. lia.
  - destruct Hrec as [[?|[_ ?]]|Hrec]; [lia|done|].
    rewrite <- Hs by lia. f_equal. lia.
Qed.

(** Appending genuine bytes to a genuine prefix gives a genuine prefix. *)
Lemma prefix_extend S h d :
  h = ztake (Zlen h) S ->
  (forall k, Z.of_nat k < Zlen d -> S !! (Z.to_nat (Zlen h) + k)%nat = Some (d !!! k)) ->
  h ++ d = ztake (Zlen (h ++ d)) S.
Proof.
  intros Hh Hd. rewrite Zlen_app. unfold ztake, Zlen in *.
  replace (Z.to_nat (Z.of_nat (length h) + Z.of_nat (length d)))
    with (length h + length d)%nat by lia.
  rewrite Nat2Z.id in *. rewrite <- take_take_drop. f_equal; [done|].
  apply list_eq. intros k. destruct (decide (k < length d)%nat).
  - rewrite lookup_take_lt, lookup_drop, Hd by lia.
    apply list_lookup_lookup_total_lt. done.
  - rewrite lookup_take_ge by lia. rewrite lookup_ge_None_2 by lia. done.
Qed.

(** A genuine prefix as long as [S] is [S]. *)
Lemma prefix_full S h : h = ztake (Zlen h) S -> Zlen S <= Zlen h -> h = S.
Proof. intros -> Hle. pose proof (Zlen_nonneg h). apply ztake_ge. zlen. Qed.

(** With no byte waiting, an accepted end of file means that [S] is complete. *)
Lemma eof_complete S r w :
  wf r -> _num_unassembled_bytes r = 0 -> received r w (Zlen S - 1) -> Zlen S <= w.
Proof.
  intros Hwf Hn [?|[_ Hm]]; [lia|]. destruct Hwf. rewrite Hn in *. symmetry in wf_num0.
  exfalso. revert Hm. by apply count_written_zero_inv.
Qed.

(** The end-of-file flag is honest: it marks the end of [S], and the substring
    that carries it either carries the last byte too or arrives in order. *)
Definition eof_honest S (w : Z) data (index : Z) (eof : bool) : Prop :=
  eof = true -> index + Zlen data = Zlen S /\ (data <> [] \/ index <= w).

(** An accepted honest end of file comes with the last byte of the stream. *)
Lemma accepted_eof S r a data index eof rr w' r' :
  stores S r a -> eof_honest S (Zlen (hist a)) data index eof ->
  (forall p, received r' w' p <->
     received r (Zlen (hist a)) p \/ Z.max (Zlen (hist a)) index <= p < rr) ->
  Zlen (hist a) <= w' ->
  _received_EOF r || (eof && (rr =? index + Zlen data)) = true ->
  received r' w' (Zlen S - 1) \/ Zlen S <= w'.
Proof.
  intros H Heof Hrec Hww He. apply orb_true_iff in He as [He|He].
  - destruct (st_eof _ _ _ H He) as [Hr|Hr]; [left; apply Hrec; tauto|right; lia].
  - bsplit. destruct Heof as [Hend Hor]; [done|].
    destruct (decide (Zlen S <= Zlen (hist a))); [right; lia|].
    left. apply Hrec. right. destruct data as [|b data].
    + rewrite (@Zlen_nil byte) in *. destruct Hor; [done|lia].
    + rewrite Zlen_cons in *. pose proof (Zlen_nonneg data). lia.
Qed.

(** Writing bytes that fit extends the history by all of them. *)
Lemma refines_append s a d :
  refines s a -> Zlen d <= ByteStream._capacity s - endOfBuffer s ->
  refines (fst (ByteStream.write s d))
    (mkStream (cap a) (hist a ++ d) (popped a) (ended a) (failed a)).
Proof.
  intros H Hfit. destruct (refines_extend _ _ d H) as [_ Hr].
  rewrite (Zlen_pending _ _ H), <- (ref_cap _ _ H), ztake_ge in Hr by lia.
  by rewrite (ref_cap _ _ H) in Hr.
Qed.

Lemma push_core_stores S r a data index eof :
  Zlen S < 2 ^ 32 -> stores S r a -> slice S index data -> index + Zlen data < 2 ^ 64 ->
  eof_honest S (Zlen (hist a)) data index eof ->
  exists d, let a' := mkStream (cap a) (hist a ++ d) (popped a) (ended a) (failed a) in
    stores S (push_core r data index eof) a' /\
    forall p, received (push_core r data index eof) (Zlen (hist a')) p <->
       received r (Zlen (hist a)) p \/
       Z.max (Zlen (hist a)) index <= p <
         Z.min (window_end r (Zlen (hist a))) (index + Zlen data).
Proof.
  intros HS H Hsl Hmax Heof. pose proof (stores_written _ _ _ HS H) as Hw.
  assert (0 <= index) as Hix by apply Hsl.
  destruct (push_core_spec r data index eof (st_settled _ _ _ H) Hix)
    as (d & Hs' & Hc' & He' & Ho' & Hfit & Hrec & Hd & Hbuf).
  rewrite Hw in *. rewrite u64_small in * by (pose proof (Zlen_nonneg data); lia).
  set (w := Zlen (hist a)) in *. set (r2 := push_core r data index eof) in *.
  pose proof (Zlen_nonneg d) as Hd0.
  assert (forall p, w <= p -> received r2 (w + Zlen d) p ->
            S !! Z.to_nat p = Some (byte_for r w data index p)) as Hgen.
  { intros p Hp Hr. apply (byte_for_genuine S r a); auto.
    apply Hrec in Hr as [?|?]; [by left|right; lia]. }
  exists d. intros a'. assert (Zlen (hist a') = w + Zlen d) as -> by (simpl; zlen).
  split; [split|done].
  - done.
  - rewrite Ho'. apply refines_append; [apply H|]. rewrite (wf_cap r) by apply H. done.
  - apply prefix_extend; [apply H|]. intros k Hk. fold w.
    replace (Z.to_nat w + k)%nat with (Z.to_nat (w + Z.of_nat k)) by (unfold w, Zlen; lia).
    rewrite Hgen by (lia || left; unfold w, Zlen in *; lia).
    rewrite <- Hd by lia. do 2 f_equal. lia.
  - intros i Hi. assert (Zlen (hist a') = w + Zlen d) as -> by (simpl; zlen).
    assert (received r2 (w + Zlen d) (w + Zlen d + Z.of_nat i)) as Hri.
    { right. split; [lia|]. by replace (Z.to_nat _) with i by lia. }
    replace i with (Z.to_nat (w + Zlen d + Z.of_nat i - (w + Zlen d))) at 2 by lia.
    rewrite Hbuf by (done || lia). rewrite <- Hgen by (done || lia).
    f_equal. unfold w, Zlen. lia.
  - intros Hr. assert (Zlen (hist a') = w + Zlen d) as -> by (simpl; zlen).
    rewrite He' in Hr. eapply accepted_eof; eauto. lia.
Qed.

(** [end_input] on the output changes neither what is stored nor the history. *)
Lemma stores_end_input S r a :
  stores S r a ->
  stores S (set_output r (end_input (_output r)))
    (mkStream (cap a) (hist a) (popped a) true (failed a)).
Proof.
  intros H. destruct (refines_call _ _ EndInput (st_ref _ _ _ H)) as [_ Hr]; [done|].
  destruct H as [Hs Href Hpre Hst He].
  split; [|exact Hr|done|done|done].
  apply set_output_settled; simpl; try done; [apply end_input_wf, Hs | apply Hs].
Qed.

(** One push of a genuine substring. *)
Lemma push_tracks S r a data index eof :
  Zlen S < 2 ^ 32 -> tracks S r a -> slice S index data -> index + Zlen data < 2 ^ 64 ->
  eof_honest S (Zlen (hist a)) data index eof ->
  exists a', tracks S (push_substring r data index eof) a' /\
    hist a `prefix_of` hist a' /\ popped a' = popped a /\ failed a' = failed a /\
    (forall p, received (push_substring r data index eof) (Zlen (hist a')) p <->
       received r (Zlen (hist a)) p \/
       Z.max (Zlen (hist a)) index <= p <
         Z.min (window_end r (Zlen (hist a))) (index + Zlen data)).
Proof.
  intros HS [H Hend Hcl] Hsl Hmax Heof. rewrite push_substring_core by apply H.
  destruct (push_core_stores S r a data index eof) as (d & Hst & Hrec); auto.
  set (r2 := push_core r data index eof) in *.
  assert (hist a `prefix_of` hist a ++ d) as Hpre by (by exists d).
  destruct (_received_EOF r2 && (_num_unassembled_bytes r2 =? 0)) eqn:E.
  - exists (mkStream (cap a) (hist a ++ d) (popped a) true (failed a)). split_and!; try done.
    split; [by apply stores_end_input in Hst| |done]. intros _. simpl. bsplit.
    apply prefix_full; [apply Hst|].
    destruct (st_eof _ _ _ Hst) as [Hr|Hr]; [done| |done].
    eapply eof_complete; eauto. apply Hst.
  - exists (mkStream (cap a) (hist a ++ d) (popped a) (ended a) (failed a)).
    split_and!; try done. split; [done| |].
    + simpl. intros Ha. apply prefix_full; [apply Hst|]. rewrite <- (Hend Ha). zlen.
      pose proof (Zlen_nonneg d). lia.
    + intros He Hn. rewrite He, Hn in E. done.
Qed.

(** Once every byte of [S] has been received, all of it is in the output. *)
Lemma tracks_complete S r a :
  tracks S r a -> (forall p, 0 <= p < Zlen S -> received r (Zlen (hist a)) p) -> hist a = S.
Proof.
  intros [H _ _] Hall. apply prefix_full; [apply H|].
  destruct (decide (Zlen S <= Zlen (hist a))); [done|].
  pose proof (Zlen_nonneg (hist a)). destruct (Hall (Zlen (hist a))) as [?|[_ Hm]]; [lia|lia|].
  rewrite Z.sub_diag in Hm. by destruct (st_settled _ _ _ H) as [_ []].
Qed.

(** The reader pops bytes from the output. *)
Lemma read_tracks S r a n :
  tracks S r a -> 0 <= n ->
  exists a', tracks S (set_output r (fst (ByteStream.read (_output r) n))) a' /\ hist a' = hist a.
Proof.
  intros [H Hend Hcl] Hn.
  destruct (refines_call _ _ (Read n) (st_ref _ _ _ H)) as [_ Hr]; [by apply Z.leb_le|].
  exists (fst (spec_call a (Read n))). split; [|done]. cbn [impl_call] in Hr.
  destruct (ByteStream.read (_output r) n) as [s' l] eqn:E. destruct H as [Hs ? ? ? ?].
  split; [split|..]; try done.
  replace s' with (fst (ByteStream.read (_output r) n)) by (by rewrite E).
  by apply read_output_settled.
Qed.

Lemma error_tracks S r a :
  tracks S r a ->
  exists a', tracks S (set_output r (ByteStream.set_error (_output r))) a' /\ hist a' = hist a.
Proof.
  intros [H Hend Hcl]. destruct (refines_call _ _ SetError (st_ref _ _ _ H) eq_refl) as [_ Hr].
  exists (fst (spec_call a SetError)). split; [|done]. destruct H as [Hs ? ? ? ?].
  split; [split|..]; try done. apply set_output_settled; [done|apply set_error_wf, Hs|apply Hs|done].
Qed.

(** ** Forgetting the end of file

    The bytes of the output do not depend on the end-of-file flags.  [forget]
    erases what depends on them; two reassemblers with the same image hold
    the same bytes. *)
Definition forget_end (s : ByteStream) : ByteStream :=
  mkByteStream (ByteStream._capacity s) (buffer s) (endOfBuffer s) (bytesRead s) (bytesWritten s)
    false (ByteStream._error s).
Definition forget (r : StreamReassembler) : StreamReassembler :=
  mkStreamReassembler (forget_end (_output r)) (_capacity r) false (_buffer r) (_written r)
    (_num_unassembled_bytes r).

Definition same_bytes (r1 r2 : StreamReassembler) : Prop := forget r1 = forget r2.
#[global] Instance same_bytes_equiv : Equivalence same_bytes.
Proof. split; unfold same_bytes; congruence. Qed.

Lemma write_forget s d : fst (write (forget_end s) d) = forget_end (fst (write s d)).
Proof.
  rewrite !write_eq. unfold remaining_capacity. cbn [forget_end ByteStream._capacity endOfBuffer buffer].
  by destruct (write_loop _ _ _ _).
Qed.

Lemma create_segment_forget r fu i l rr d :
  create_segment (forget r) fu i l rr d = forget (create_segment r fu i l rr d).
Proof.
  unfold create_segment. destruct (rr <=? l); [done|].
  cbn [forget _buffer _written _num_unassembled_bytes]. by destruct (create_loop _ _ _ _ _ _ _ _) as [[? ?] ?].
Qed.

Lemma write_segment_forget r : write_segment (forget r) = forget (write_segment r).
Proof.
  unfold write_segment. cbn [forget _capacity _written _buffer _output _num_unassembled_bytes].
  rewrite write_forget. done.
Qed.

(** The end-of-file flag of a substring does not change the bytes. *)
Lemma push_forget r d i e : same_bytes (push_substring r d i e) (push_substring (forget r) d i false).
Proof.
  assert (forall r', same_bytes (if _received_EOF r' && (_num_unassembled_bytes r' =? 0)
    then set_output r' (end_input (_output r')) else r') r') as Hend by (intros r'; by destruct (_ && _)).
  unfold push_substring, bytes_written, buffer_size.
  cbn [forget forget_end _output bytesWritten _capacity endOfBuffer andb]. rewrite !Hend.
  unfold same_bytes.
  rewrite <- !write_segment_forget, <- !create_segment_forget. by destruct (e && _).
Qed.

#[global] Instance push_proper d i :
  Proper (same_bytes ==> same_bytes) (fun r => push_substring r d i false).
Proof. intros r1 r2 H. rewrite (push_forget r1), (push_forget r2). by rewrite H. Qed.

#[global] Instance read_proper n :
  Proper (same_bytes ==> same_bytes)
    (fun r => set_output r (fst (ByteStream.read (stream_out r) n))).
Proof.
  intros [[] ? ? ? ? ?] [[] ? ? ? ? ?] H. unfold same_bytes, forget, forget_end in *.
  cbn in H. injection H as -> -> -> -> -> -> -> -> -> ->. done.
Qed.

#[global] Instance error_proper :
  Proper (same_bytes ==> same_bytes)
    (fun r => set_output r (ByteStream.set_error (stream_out r))).
Proof.
  intros [[] ? ? ? ? ?] [[] ? ? ? ? ?] H. unfold same_bytes, forget, forget_end in *.
  cbn in H. injection H as -> -> -> -> -> -> -> -> -> ->. done.
Qed.

(** The states of a reassembler of capacity [c] that is fed with excerpts of
    [S], in any order and with any overlap, and read from (or marked as
    failed) at any time.  The end-of-file flags are arbitrary unless [honest]
    holds. *)
Inductive reach (honest : Prop) S (c : Z) : StreamReassembler -> Prop :=
  | reach_new : reach honest S c (new c)
  | reach_push r data index eof :
      reach honest S c r -> slice S index data -> index + Zlen data < 2 ^ 64 ->
      (honest -> eof_honest S (bytes_written (stream_out r)) data index eof) ->
      reach honest S c (push_substring r data index eof)
  | reach_read r n :
      reach honest S c r -> 0 <= n ->
      reach honest S c (set_output r (fst (ByteStream.read (stream_out r) n)))
  | reach_error r :
      reach honest S c r -> reach honest S c (set_output r (ByteStream.set_error (stream_out r))).

Lemma reach_tracks (honest : Prop) S c r :
  honest -> 0 <= c < 2 ^ 32 -> Zlen S < 2 ^ 32 -> reach honest S c r -> exists a, tracks S r a.
Proof.
  intros Hh Hc HS. induction 1 as [|r data index eof _ [a IH] Hsl Hmax Heof|r n _ [a IH] Hn|r _ [a IH]].
  - eexists. by apply tracks_new.
  - specialize (Heof Hh). unfold bytes_written, stream_out in Heof.
    rewrite (stores_written S r a HS) in Heof by apply IH.
    destruct (push_tracks S r a data index eof) as (a' & Ha' & _); eauto.
  - destruct (read_tracks S r a n IH Hn) as (a' & Ha' & _). eauto.
  - destruct (error_tracks S r a IH) as (a' & Ha' & _). eauto.
Qed.

(** Every run has the same bytes as the run in which no end of file arrives. *)
Lemma reach_forget honest S c r :
  reach honest S c r -> exists r', reach True S c r' /\ same_bytes r r'.
Proof.
  induction 1 as [|r data index eof _ (r' & Hr & E) Hsl Hmax Heof|r n _ (r' & Hr & E) Hn|r _ (r' & Hr & E)].
  - exists (new c). split; [constructor|done].
  - exists (push_substring r' data index false). split; [by apply reach_push|].
    rewrite (push_forget r), (push_forget r'). by rewrite E.
  - eexists. split; [by apply (reach_read _ _ _ r' n)|]. by apply (read_proper n).
  - eexists. split; [by apply (reach_error _ _ _ r')|]. by apply error_proper.
Qed.

(** What a tracked reassembler shows: the buffered bytes are the part of [S]
    between the two byte counters. *)
Lemma tracks_observe S r a :
  Zlen S < 2 ^ 32 -> tracks S r a ->
  let out := stream_out r in
  contents out = zdrop (bytes_read out) (ztake (bytes_written out) S) /\
  (input_ended out = true -> bytes_written out = Zlen S).
Proof.
  intros HS [H Hend _] out. unfold out, stream_out, bytes_written, bytes_read, input_ended.
  rewrite (stores_written S r a HS) by done. pose proof (stores_hist_le S r a H).
  destruct (st_ref _ _ _ H). rewrite ref_contents, ref_read, u32_small by lia.
  rewrite <- (st_prefix _ _ _ H). split; [done|]. rewrite ref_ended. intros E. by rewrite Hend.
Qed.

Lemma same_bytes_observe r r' :
  same_bytes r r' ->
  contents (stream_out r) = contents (stream_out r') /\
  bytes_read (stream_out r) = bytes_read (stream_out r') /\
  bytes_written (stream_out r) = bytes_written (stream_out r').
Proof.
  unfold same_bytes, forget, forget_end, contents, stream_out, bytes_read, bytes_written.
  intros H. injection H as ? ? ? ? ? ? ? ? ? ?. split_and!; congruence.
Qed.

Lemma reach_observe honest S c r :
  0 <= c < 2 ^ 32 -> Zlen S < 2 ^ 32 -> reach honest S c r ->
  contents (stream_out r) =
    zdrop (bytes_read (stream_out r)) (ztake (bytes_written (stream_out r)) S) /\
  (honest -> input_ended (stream_out r) = true -> bytes_written (stream_out r) = Zlen S).
Proof.
  intros Hc HS Hr. split.
  - destruct (reach_forget _ _ _ _ Hr) as (r' & Hr' & E).
    destruct (reach_tracks True S c r' I Hc HS Hr') as [a Ha].
    destruct (same_bytes_observe _ _ E) as (-> & -> & ->). by apply (tracks_observe S r' a).
  - intros Hh. destruct (reach_tracks honest S c r Hh Hc HS Hr) as [a Ha].
    by apply (tracks_observe S r a).
Qed.

Lemma push_received_EOF r data index eof :
  settled r -> 0 <= index ->
  let e := u64 (index + Zlen data) in
  _received_EOF (push_substring r data index eof) =
    _received_EOF r || (eof && (Z.min (window_end r (bytesWritten (_output r))) e =? e)).
Proof.
  intros Hs Hix e. rewrite push_substring_core by apply Hs.
  destruct (push_core_spec r data index eof Hs Hix) as (d & _ & _ & He & _).
  unfold e. rewrite <- He. cbv zeta. generalize (push_core r data index eof). intros r'.
  by destruct (_received_EOF r' && _).
Qed.

(** The flags of the output: errors stay as they are, an end stays. *)
Lemma push_flags r data index eof :
  settled r -> 0 <= index ->
  let r' := push_substring r data index eof in
  ByteStream.error (_output r') = ByteStream.error (_output r) /\
  (input_ended (_output r) = true -> input_ended (_output r') = true).
Proof.
  intros Hs Hix. rewrite push_substring_core by apply Hs. cbv zeta.
  destruct (push_core_spec r data index eof Hs Hix) as (d & _ & _ & _ & Ho & _).
  destruct (write_spec (_output r) d) as (_ & _ & _ & _ & _ & _ & _ & Hi & He); [apply Hs|].
  rewrite <- Ho in Hi, He. unfold input_ended, ByteStream.error in *.
  revert Hi He. generalize (push_core r data index eof) as r'. intros r' Hi He.
  destruct (_received_EOF r' && _); cbn; by rewrite ?He, ?Hi.
Qed.

(** A push does not move the reader. *)
Lemma push_bytes_read r data index eof :
  settled r -> 0 <= index ->
  bytes_read (_output (push_substring r data index eof)) = bytes_read (_output r).
Proof.
  intros Hs Hix. rewrite push_substring_core by apply Hs. cbv zeta.
  destruct (push_core_spec r data index eof Hs Hix) as (d & _ & _ & _ & Ho & _).
  destruct (write_spec (_output r) d) as (_ & _ & _ & _ & _ & Hr & _); [apply Hs|].
  rewrite <- Ho in Hr. revert Hr. generalize (push_core r data index eof) as r'. intros r' Hr.
  by destruct (_received_EOF r' && _).
Qed.

(** Without an end of file the output does not end. *)
Lemma push_open r data index :
  settled r -> 0 <= index -> _received_EOF r = false ->
  let r' := push_substring r data index false in
  input_ended (_output r') = input_ended (_output r) /\ _received_EOF r' = false.
Proof.
  intros Hs Hix He r'. unfold r'. rewrite push_received_EOF, He by done. split; [|done].
  rewrite push_substring_core by apply Hs. cbv zeta.
  destruct (push_core_spec r data index false Hs Hix) as (d & _ & _ & Hf & Ho & _).
  rewrite He in Hf. cbn [orb andb] in Hf. rewrite Hf. cbn [andb]. rewrite Ho.
  destruct (write_spec (_output r) d) as (_ & _ & _ & _ & _ & _ & _ & Hi & _); [apply Hs|exact Hi].
Qed.

(** The output is ended by an accepted end of file only. *)
Lemma reach_ended honest S c r :
  0 <= c < 2 ^ 32 -> reach honest S c r ->
  settled r /\ (input_ended (_output r) = true -> _received_EOF r = true).
Proof.
  intros Hc. induction 1 as [|r data index eof _ [Hs IH] Hsl _ _|r n _ [Hs IH] Hn|r _ [Hs IH]].
  - split; [by apply new_settled|done].
  - split; [apply push_settled; [done|apply Hsl]|].
    rewrite push_substring_core by apply Hs.
    destruct (push_core_spec r data index eof Hs ltac:(apply Hsl)) as (d & _ & _ & He & Ho & _).
    cbv zeta. revert He Ho. generalize (push_core r data index eof) as r'. intros r' He Ho.
    destruct (_received_EOF r') eqn:E; cbn [andb]; [by destruct (_ =? 0)|]. rewrite E, Ho. assert (ByteStream.wf (_output r)) as Hw by apply Hs.
    destruct (write_spec (_output r) d Hw) as (_ & _ & _ & _ & _ & _ & _ & Hi & _).
    unfold input_ended in *. rewrite Hi. intros Hend. rewrite (IH Hend) in He. by rewrite He.
  - split; [by apply read_output_settled|]. unfold stream_out, input_ended in *. cbn. done.
  - split; [|done]. apply set_output_settled; [done|apply set_error_wf, Hs|apply Hs|done].
Qed.

(** With honest ends of file, the output has ended exactly when an end of
    file was accepted and nothing waits for assembly. *)
Lemma reach_ended_iff S c r :
  0 <= c < 2 ^ 32 -> Zlen S < 2 ^ 32 -> reach True S c r ->
  input_ended (_output r) = _received_EOF r && empty r.
Proof.
  intros Hc HS Hr. destruct (reach_tracks True S c r I Hc HS Hr) as [a [Hst Hend Hcl]].
  destruct (reach_ended _ _ _ _ Hc Hr) as [Hs He].
  destruct (input_ended (_output r)) eqn:E; symmetry.
  - rewrite He by done. cbn [andb]. unfold empty. apply Z.eqb_eq. rewrite (wf_num r) by apply Hs.
    apply count_written_zero. intros j Hj. apply (st_stored _ _ _ Hst), lookup_lt_Some in Hj.
    unfold input_ended in E. rewrite (ref_ended _ _ (st_ref _ _ _ Hst)) in E.
    rewrite (Hend E) in Hj. unfold Zlen in Hj. lia.
  - apply not_true_iff_false. intros Hb. unfold empty in Hb. bsplit.
    unfold input_ended in E. rewrite (ref_ended _ _ (st_ref _ _ _ Hst)), Hcl in E; done.
Qed.

(** C6. Correctness of reassembly.  Whatever the order, overlap and repetition
    of the excerpts of [S] (shorter than [2^32]), whatever their end-of-file
    flags and however the reads are interleaved, the bytes in the output are
    exactly those of [S] between the read and the write counter.  If moreover
    every end-of-file flag marks the end of [S], and an empty substring with
    the flag never arrives ahead of the data, then the output ends only when
    it is complete. *)
Theorem reassembly_correct (honest : Prop) S c r :
  0 <= c < 2 ^ 32 -> Zlen S < 2 ^ 32 -> reach honest S c r ->
  contents (stream_out r) =
    zdrop (bytes_read (stream_out r)) (ztake (bytes_written (stream_out r)) S) /\
  (honest -> input_ended (stream_out r) = true -> bytes_written (stream_out r) = Zlen S).
Proof. apply reach_observe. Qed.

(** C15. Completeness: once every position of [S] has been received and the end
    of file accepted, all of [S] has been written to the output, nothing is
    left unassembled, and the stream has ended. *)
Theorem reassembly_complete S c r :
  0 <= c < 2 ^ 32 -> Zlen S < 2 ^ 32 -> reach True S c r -> _received_EOF r = true ->
  (forall p, 0 <= p < Zlen S -> received r (bytes_written (stream_out r)) p) ->
  bytes_written (stream_out r) = Zlen S /\ unassembled_bytes r = 0 /\
  input_ended (stream_out r) = true.
Proof.
  intros Hc HS Hr He Hall. destruct (reach_tracks True S c r I Hc HS Hr) as [a Ha].
  unfold bytes_written, stream_out in *. pose proof (tr_stores _ _ _ Ha) as Hst.
  rewrite (stores_written S r a HS Hst) in *.
  pose proof (tracks_complete _ _ _ Ha Hall) as Hh.
  assert (unassembled_bytes r = 0) as Hn.
  { unfold unassembled_bytes. rewrite (wf_num r) by apply Hst. apply count_written_zero.
    intros i Hi. apply (st_stored _ _ _ Hst) in Hi. rewrite Hh in Hi.
    apply lookup_lt_Some in Hi. unfold Zlen in Hi. lia. }
  split_and!; [by rewrite Hh|done|]. unfold input_ended.
  rewrite (ref_ended _ _ (st_ref _ _ _ Hst)). by apply Ha.
Qed.

(** ** Duplicates *)

Lemma create_loop_noop n it fu index data buf wr num :
  0 <= fu <= it -> it + Z.of_nat n < 2 ^ 64 ->
  (forall i, it - fu <= Z.of_nat i < it - fu + Z.of_nat n -> marked wr i) ->
  create_loop n it fu index data buf wr num = (buf, wr, num).
Proof.
  revert it. induction n as [|n IH]; intros it Hfu Hmax Hm; simpl; [done|].
  rewrite decide_False by (rewrite u64_small by lia; apply Hm; lia).
  apply IH; [lia..|]. intros i Hi. apply Hm. lia.
Qed.

Lemma write_nothing s : ByteStream.wf s -> ByteStream.write s [] = (s, 0).
Proof.
  intros H. pose proof (wf_written_bound s H). rewrite write_eq.
  rewrite remaining_capacity_eq by done. destruct H. change (Zlen []) with 0.
  rewrite Z.min_l by lia. cbn [ztake write_loop take]. unfold ztake. simpl.
  rewrite Z.add_0_r, u32_small by lia. by destruct s.
Qed.

Lemma write_segment_noop r : settled r -> write_segment r = r.
Proof.
  intros [Hwf Hh]. destruct Hwf as [Hout Hcap Hbl Hwl Hnum Hwin].
  destruct (count_assembled_spec (_written r)) as (Hb & Hm & _).
  assert (count_assembled (_written r) = 0) as E.
  { destruct (decide (count_assembled (_written r) = 0)); [done|].
    exfalso. apply Hh, Hm. lia. }
  unfold write_segment. rewrite (ztake_ge (_capacity r)) by lia. rewrite E.
  change (ztake 0 (_buffer r)) with (@nil byte). rewrite write_nothing by done. simpl.
  rewrite !app_nil_r, !zdrop_0, Z.sub_0_r.
  pose proof (count_written_bound (_written r)). destruct Hout.
  rewrite u64_small by lia. by destruct r.
Qed.

Lemma push_core_noop r data index eof :
  settled r -> 0 <= index ->
  let w := bytesWritten (_output r) in
  let e := u64 (index + Zlen data) in
  let rr := Z.min (window_end r w) e in
  (forall p, Z.max w index <= p < rr -> received r w p) ->
  (eof && (rr =? e) = true -> _received_EOF r = true) ->
  push_core r data index eof = r.
Proof.
  intros Hs Hix w e rr Hrec He. unfold push_core. fold w e rr.
  assert ((if eof && (rr =? e) then set_received_EOF r else r) = r) as ->.
  { destruct (eof && (rr =? e)); [|done]. specialize (He eq_refl).
    destruct r. simpl in *. by subst. }
  assert (0 <= w < 2 ^ 32) as Hw by (destruct Hs as [[]]; by apply wf_written_bound).
  replace (create_segment r w index (Z.max w index) rr data) with r.
  { by apply write_segment_noop. }
  unfold create_segment. destruct (Z.leb_spec rr (Z.max w index)); [done|].
  rewrite create_loop_noop; [by destruct r|lia|pose proof (u64_bound (index + Zlen data)); lia|].
  intros i Hi. destruct (Hrec (w + Z.of_nat i)) as [?|[_ Hm]]; [lia|lia|].
  by replace (Z.to_nat (w + Z.of_nat i - w)) with i in Hm by lia.
Qed.

Lemma window_end_push r data index eof :
  settled r -> 0 <= index -> bytesWritten (_output r) + _capacity r < 2 ^ 32 ->
  let r' := push_core r data index eof in
  exists n, 0 <= n /\ bytesWritten (_output r') = bytesWritten (_output r) + n /\
    window_end r' (bytesWritten (_output r')) = window_end r (bytesWritten (_output r)) /\
    forall p, received r' (bytesWritten (_output r')) p <->
      received r (bytesWritten (_output r)) p \/
      Z.max (bytesWritten (_output r)) index <= p <
        Z.min (window_end r (bytesWritten (_output r))) (u64 (index + Zlen data)).
Proof.
  intros Hs Hix Hlt r'.
  destruct (push_core_spec r data index eof Hs Hix)
    as (d & _ & Hc & _ & Ho & Hfit & Hrec & _).
  fold r' in Hc, Ho, Hrec. assert (ByteStream.wf (_output r)) as Hout by apply Hs.
  destruct (write_spec (_output r) d Hout) as (_ & _ & He & _ & _ & _ & Hw & _).
  pose proof (wf_written_bound _ Hout). pose proof (Zlen_nonneg d).
  rewrite (wf_cap r) in He, Hw by apply Hs. rewrite Z.min_l in He, Hw by lia.
  rewrite <- Ho in He, Hw. destruct Hout. rewrite u32_small in Hw by lia.
  exists (Zlen d). rewrite Hw. split_and!; [lia|done| |done].
  unfold window_end. rewrite Hc, He. lia.
Qed.

(** Duplicates are harmless: pushing the same substring a second time
    leaves the reassembler exactly as it was after the first. *)
Theorem push_substring_idempotent r data index eof :
  settled r -> 0 <= index -> bytesWritten (_output r) + _capacity r < 2 ^ 32 ->
  push_substring (push_substring r data index eof) data index eof =
  push_substring r data index eof.
Proof.
  intros Hs Hix Hlt.
  pose proof (push_settled r data index eof Hs Hix) as Hs1.
  destruct (window_end_push r data index eof Hs Hix Hlt) as (n & Hn & Hw & Hwin & Hrec).
  destruct (push_core_spec r data index eof Hs Hix) as (_ & _ & _ & He & _).
  rewrite (push_substring_core (push_substring _ _ _ _)) by apply Hs1. cbv zeta.
  rewrite push_core_noop; try done.
  - rewrite (push_substring_core r) by apply Hs.
    cbv zeta. generalize (push_core r data index eof) as r2. intros r2.
    destruct (_received_EOF r2 && (_num_unassembled_bytes r2 =? 0)) eqn:E.
    + cbn. rewrite E. done.
    + rewrite E. done.
  - revert Hw Hwin Hrec. rewrite (push_substring_core r) by apply Hs.
    cbv zeta. generalize (push_core r data index eof) as r2. intros r2 Hw Hwin Hrec p Hp.
    destruct (_received_EOF r2 && (_num_unassembled_bytes r2 =? 0)); cbn in Hp |- *;
      (apply Hrec; right; unfold window_end in *; cbn in *; lia).
  - revert Hwin He. rewrite (push_substring_core r) by apply Hs.
    cbv zeta. generalize (push_core r data index eof) as r2. intros r2 Hwin He.
    destruct (_received_EOF r2 && (_num_unassembled_bytes r2 =? 0)) eqn:E; cbn; intros Hb.
    + by bsplit.
    + rewrite He. rewrite <- Hwin, Hb. apply orb_true_r.
Qed.

(** ** Boundary behaviour *)

Lemma empty_eof_push r index :
  settled r -> empty r = true -> 0 <= index -> index < 2 ^ 64 ->
  index <= window_end r (bytesWritten (_output r)) ->
  push_substring r [] index true = set_output (set_received_EOF r) (end_input (_output r)).
Proof.
  intros Hs He Hix Hmax Hwin. unfold empty in He. bsplit.
  rewrite push_substring_core by apply Hs. cbv zeta.
  assert (push_core r [] index true = set_received_EOF r) as ->.
  { unfold push_core. change (Zlen []) with 0. rewrite Z.add_0_r, u64_small by lia.
    rewrite Z.min_r, Z.eqb_refl by lia. cbn [andb].
    unfold create_segment.
    replace (index <=? Z.max (bytesWritten (_output r)) index) with true
      by (symmetry; apply Z.leb_le; lia).
    apply write_segment_noop. split; [apply set_received_EOF_wf, Hs | apply Hs]. }
  cbn. rewrite He. done.
Qed.

(** An end of file without bytes ends the stream too early: with nothing
    waiting for assembly, an empty last substring anywhere in the window (for
    instance after a gap of bytes that never arrived) ends the output at
    once, and no byte has been added. *)
Theorem empty_eof_ends_early r index :
  settled r -> empty r = true -> 0 <= index -> index < 2 ^ 64 ->
  index <= window_end r (bytesWritten (_output r)) ->
  input_ended (stream_out (push_substring r [] index true)) = true /\
  bytes_written (stream_out (push_substring r [] index true)) = bytes_written (stream_out r) /\
  contents (stream_out (push_substring r [] index true)) = contents (stream_out r).
Proof. intros. by rewrite empty_eof_push. Qed.

Lemma empty_eof_ends_early_witness :
  input_ended (stream_out (push_substring (new 8) [] 5 true)) = true /\
  bytes_written (stream_out (push_substring (new 8) [] 5 true)) = bytes_written (stream_out (new 8)) /\
  contents (stream_out (push_substring (new 8) [] 5 true)) = contents (stream_out (new 8)).
Proof.
  apply empty_eof_ends_early; [apply new_settled; lia | reflexivity | lia | lia |].
  vm_compute. congruence.
Defined.

(** The 32-bit byte counter of the output limits a stream to 4 GiB: once
    [2^32] or more bytes have been assembled, the next bytes in order, at
    index [w], lie beyond the window the code computes, and are dropped. *)
Theorem four_gib_stall r w data :
  settled r -> 2 ^ 32 <= w < 2 ^ 63 -> bytes_written (stream_out r) = u32 w -> Zlen data < 2 ^ 63 ->
  contents (stream_out (push_substring r data w false)) = contents (stream_out r) /\
  unassembled_bytes (push_substring r data w false) = unassembled_bytes r.
Proof.
  unfold stream_out, unassembled_bytes, bytes_written.
  intros Hs Hw Hb Hd. rewrite push_substring_core by apply Hs. cbv zeta.
  rewrite push_core_noop; [by destruct (_ && _) | done | lia | | done].
  intros p Hp. exfalso. rewrite Hb in Hp. unfold window_end in Hp.
  assert (_capacity r < 2 ^ 32) by (rewrite <- (wf_cap r) by apply Hs; apply Hs).
  assert (0 <= endOfBuffer (_output r)) by apply Hs. unfold u32 in Hp.
  Z.to_euclidean_division_equations. lia.
Qed.

Lemma four_gib_stall_witness :
  contents (stream_out (push_substring (new 8) [x61] (2 ^ 32) false)) = contents (stream_out (new 8)) /\
  unassembled_bytes (push_substring (new 8) [x61] (2 ^ 32) false) = unassembled_bytes (new 8).
Proof. apply four_gib_stall; [apply new_settled; lia | lia | reflexivity | reflexivity]. Defined.

(** ** Witnesses *)

Definition ex_stream : list byte := [x61; x62; x63; x64; x65].

Lemma slice_dec_ok S index data :
  0 <= index -> ztake (Zlen data) (zdrop index S) = data -> slice S index data.
Proof.
  intros Hi E. split; [done|]. intros k Hk. rewrite <- lookup_drop.
  rewrite <- (lookup_take_lt _ (Z.to_nat (Zlen data))) by lia.
  unfold ztake, zdrop in E. rewrite E. apply list_lookup_lookup_total_lt.
  unfold Zlen in Hk. lia.
Qed.

Lemma push_substring_settled_witness : settled (push_substring (new 8) ex_stream 2 true).
Proof. apply push_substring_settled; [apply new_settled; lia | lia]. Defined.

(** "cd" and the last byte first, then the beginning, with a read in between. *)
Definition ex_run : StreamReassembler :=
  let r1 := push_substring (new 8) [x65] 4 true in
  let r2 := push_substring r1 [x61; x62; x63] 0 false in
  let r3 := set_output r2 (fst (ByteStream.read (stream_out r2) 2)) in
  push_substring r3 [x62; x63; x64] 1 false.

Lemma ex_run_reach : reach True ex_stream 8 ex_run.
Proof.
  unfold ex_run. cbv zeta.
  apply reach_push; [|by apply slice_dec_ok|reflexivity|intros _ [=]].
  apply reach_read; [|lia].
  apply reach_push; [|by apply slice_dec_ok|reflexivity|intros _ [=]].
  apply reach_push; [apply reach_new|by apply slice_dec_ok|reflexivity|].
  intros _ _. split; [reflexivity | by left].
Qed.

Lemma reassembly_correct_witness :
  contents (stream_out ex_run) =
    zdrop (bytes_read (stream_out ex_run)) (ztake (bytes_written (stream_out ex_run)) ex_stream) /\
  (True -> input_ended (stream_out ex_run) = true -> bytes_written (stream_out ex_run) = Zlen ex_stream).
Proof. apply (reassembly_correct True ex_stream 8); [lia | reflexivity | apply ex_run_reach]. Defined.

Lemma reassembly_complete_witness :
  bytes_written (stream_out ex_run) = Zlen ex_stream /\ unassembled_bytes ex_run = 0 /\
  input_ended (stream_out ex_run) = true.
Proof.
  apply (reassembly_complete ex_stream 8); [lia | reflexivity | apply ex_run_reach | reflexivity |].
  intros p Hp. left. exact Hp.
Defined.

Lemma push_substring_idempotent_witness :
  push_substring (push_substring (new 8) [x63; x64] 2 false) [x63; x64] 2 false =
  push_substring (new 8) [x63; x64] 2 false.
Proof. apply push_substring_idempotent; [apply new_settled; lia | lia | reflexivity]. Defined.

#[global] Arguments push_substring : simpl never.
