(* ===== verification/Buffer.v ===== *)
(** * Reference-counted buffers

    Models [src/libsponge/util/buffer.hh] and [buffer.cc]: [Buffer] (a shared
    read-only string with an offset), [BufferList] and [BufferViewList].  The
    storage is never written after construction, so sharing is not
    observable and a buffer is a value. *)
From stdpp Require Import base tactics list numbers option.
From Stdlib Require Import ZArith Lia.
From S2P Require Import Prelude.

Record Buffer := mkBuffer { _storage : option (list byte); _starting_offset : Z }.

(** [Buffer()] and [Buffer(std::string &&)]. *)
Definition buf_default : Buffer := mkBuffer None 0.
Definition buf_of_string (s : list byte) : Buffer := mkBuffer (Some s) 0.

Definition str (b : Buffer) : list byte :=
  match _storage b with
  | None => []
  | Some s => zdrop (_starting_offset b) s
  end.

(** [str().at(n)] throws beyond the end. *)
Definition at_ (b : Buffer) (n : Z) : outcome Z :=
  match str b !! Z.to_nat n with
  | Some c => Ok (b2z c)
  | None => Throw OutOfRange
  end.

Definition size (b : Buffer) : Z := Zlen (str b).
Definition copy (b : Buffer) : list byte := str b.

Definition remove_prefix (b : Buffer) (n : Z) : outcome Buffer :=
  if Zlen (str b) <? n then Throw OutOfRange
  else
    let off := u64 (_starting_offset b + n) in
    match _storage b with
    | Some s => if off =? Zlen s then Ok (mkBuffer None off) else Ok (mkBuffer (Some s) off)
    | None => Ok (mkBuffer None off)
    end.

(** ** [BufferList] *)

Definition BufferList : Type := list Buffer.

(** [BufferList(Buffer)] and [BufferList(std::string &&)]. *)
Definition bl_of_buffer (b : Buffer) : BufferList := [b].
Definition bl_of_string (s : list byte) : BufferList := [buf_of_string s].

Definition append (bl other : BufferList) : BufferList := bl ++ other.

(** [operator Buffer()] throws unless the list is contiguous. *)
Definition bl_to_buffer (bl : BufferList) : outcome Buffer :=
  match bl with
  | [] => Ok buf_default
  | [b] => Ok b
  | _ => Throw RuntimeError
  end.

Definition concatenate (bl : BufferList) : list byte := concat (map str bl).

(** The additions of [BufferList::size] are in [size_t]. *)
Definition bl_size (bl : BufferList) : Z :=
  fold_left (fun ret b => u64 (ret + size b)) bl 0.

(** The [while (n > 0)] loop; each iteration that does not return drops a buffer. *)
Fixpoint bl_remove_prefix (bl : BufferList) (n : Z) : outcome BufferList :=
  if n <=? 0 then Ok bl
  else
    match bl with
    | [] => Throw OutOfRange
    | b :: bl' =>
        if n <? Zlen (str b) then b' ← remove_prefix b n; Ok (b' :: bl')
        else bl_remove_prefix bl' (n - Zlen (str b))
    end.

(** ** [BufferViewList]: non-owning views *)

Definition BufferViewList : Type := list (list byte).

Definition bvl_of_string (s : list byte) : BufferViewList := [s].
Definition bvl_of_buffers (bl : BufferList) : BufferViewList := map str bl.

Fixpoint bvl_remove_prefix (vl : BufferViewList) (n : Z) : outcome BufferViewList :=
  if n <=? 0 then Ok vl
  else
    match vl with
    | [] => Throw OutOfRange
    | v :: vl' =>
        if n <? Zlen v then Ok (zdrop n v :: vl')
        else bvl_remove_prefix vl' (n - Zlen v)
    end.

Definition bvl_size (vl : BufferViewList) : Z :=
  fold_left (fun ret v => u64 (ret + Zlen v)) vl 0.

(** Each view as its [iovec] (base contents, length). *)
Definition as_iovecs (vl : BufferViewList) : list (list byte * Z) :=
  map (fun v => (v, Zlen v)) vl.

(** ** Properties *)

(** The offset stays inside the storage (a size in memory). *)
Definition buf_wf (b : Buffer) : Prop :=
  match _storage b with
  | None => True
  | Some s => 0 <= _starting_offset b <= Zlen s /\ Zlen s < 2 ^ 64
  end.

Lemma buf_of_string_wf s : Zlen s < 2 ^ 64 -> buf_wf (buf_of_string s).
Proof. intros. pose proof (Zlen_nonneg s). unfold buf_wf; simpl. lia. Qed.

Lemma buf_wf_size b : buf_wf b -> size b < 2 ^ 64.
Proof.
  unfold buf_wf, size, str. destruct (_storage b); [|done]. intros [? ?]. rewrite Zlen_zdrop; lia.
Qed.

Lemma str_of_string s : str (buf_of_string s) = s.
Proof. reflexivity. Qed.

Lemma remove_prefix_spec b n :
  buf_wf b -> 0 <= n <= size b ->
  exists b', remove_prefix b n = Ok b' /\ buf_wf b' /\ str b' = zdrop n (str b).
Proof.
  unfold remove_prefix, buf_wf, size, str. intros Hwf Hn.
  destruct (_storage b) as [s|] eqn:E.
  - destruct Hwf as [Ho Hs]. rewrite Zlen_zdrop in * by lia.
    destruct (Z.ltb_spec (Z.max 0 (Zlen s - _starting_offset b)) n); [lia|].
    rewrite u64_small by lia. rewrite zdrop_zdrop by lia.
    destruct (Z.eqb_spec (_starting_offset b + n) (Zlen s)) as [E'|].
    + eexists. split; [done|]. split; [done|]. simpl. symmetry. apply zdrop_ge. lia.
    + eexists. split; [done|]. split; [simpl; lia|done].
  - change (Zlen []) with 0 in *. replace n with 0 by lia. cbn.
    eexists. split; [done|]. split; done.
Qed.

Lemma remove_prefix_throws b n : size b < n -> remove_prefix b n = Throw OutOfRange.
Proof.
  unfold remove_prefix, size. intros. destruct (Z.ltb_spec (Zlen (str b)) n); [done|lia].
Qed.

Lemma concatenate_cons b bl : concatenate (b :: bl) = str b ++ concatenate bl.
Proof. reflexivity. Qed.

Lemma concatenate_app bl bl' : concatenate (append bl bl') = concatenate bl ++ concatenate bl'.
Proof. unfold concatenate, append. by rewrite map_app, concat_app. Qed.

(** [BufferList::remove_prefix] discards exactly the first [n] bytes of the
    concatenation, whatever the split into buffers, and throws
    [std::out_of_range] exactly when there are fewer than [n]. *)
Theorem buffer_list_remove_prefix bl n :
  Forall buf_wf bl -> 0 <= n ->
  match bl_remove_prefix bl n with
  | Ok bl' => n <= Zlen (concatenate bl) /\ Forall buf_wf bl' /\
              concatenate bl' = zdrop n (concatenate bl)
  | Throw e => Zlen (concatenate bl) < n /\ e = OutOfRange
  end.
Proof.
  revert n. induction bl as [|b bl IH]; intros n Hwf Hn; cbn [bl_remove_prefix].
  - destruct (Z.leb_spec n 0).
    + change (Zlen (concatenate [])) with 0. split_and!; [lia|done|].
      by replace n with 0 by lia.
    + change (Zlen (concatenate [])) with 0. split; [lia|done].
  - inversion_clear Hwf as [|? ? Hb Hbl]. rewrite concatenate_cons, Zlen_app.
    pose proof (Zlen_nonneg (str b)). pose proof (Zlen_nonneg (concatenate bl)).
    destruct (Z.leb_spec n 0).
    + replace n with 0 by lia. split_and!; [lia|by constructor|done].
    + destruct (Z.ltb_spec n (Zlen (str b))).
      * destruct (remove_prefix_spec b n Hb) as (b' & -> & Hb' & Hs); [unfold size; lia|].
        cbn [mbind outcome_bind]. split_and!; [lia|by constructor|].
        rewrite concatenate_cons, Hs.
        symmetry. apply zdrop_app_le. lia.
      * specialize (IH (n - Zlen (str b)) Hbl ltac:(lia)).
        destruct (bl_remove_prefix bl (n - Zlen (str b))) as [bl'|e].
        -- destruct IH as (? & ? & ->). split_and!; [lia|done|].
           unfold zdrop, Zlen in *. rewrite drop_app_ge by lia. f_equal. lia.
        -- destruct IH. split; [lia|done].
Qed.

Lemma buffer_list_remove_prefix_witness :
  let bl := append (bl_of_string [x61; x62]) (bl_of_string [x63; x64]) in
  match bl_remove_prefix bl 3 with
  | Ok bl' => 3 <= Zlen (concatenate bl) /\ Forall buf_wf bl' /\
              concatenate bl' = zdrop 3 (concatenate bl)
  | Throw e => Zlen (concatenate bl) < 3 /\ e = OutOfRange
  end.
Proof.
  apply (buffer_list_remove_prefix (append (bl_of_string [x61; x62]) (bl_of_string [x63; x64])) 3).
  - repeat constructor; vm_compute; congruence.
  - lia.
Defined.

(** The size of a list is the length of its concatenation, in [size_t]. *)
Lemma bl_size_spec bl : bl_size bl = u64 (Zlen (concatenate bl)).
Proof.
  unfold bl_size. assert (forall acc, fold_left (fun ret b => u64 (ret + size b)) bl (u64 acc) =
    u64 (acc + Zlen (concatenate bl))) as H; [|by apply (H 0)].
  induction bl as [|b bl IH]; intros acc; cbn [fold_left].
  - by rewrite Z.add_0_r.
  - rewrite u64_add_l, IH, concatenate_cons, Zlen_app. f_equal. unfold size. lia.
Qed.

Lemma bvl_size_spec vl : bvl_size vl = u64 (Zlen (concat vl)).
Proof.
  unfold bvl_size. assert (forall acc, fold_left (fun ret v => u64 (ret + Zlen v)) vl (u64 acc) =
    u64 (acc + Zlen (concat vl))) as G.
  { induction vl as [|v vl IH]; intros acc; cbn [fold_left concat]; [by rewrite Zlen_nil, Z.add_0_r|].
    rewrite u64_add_l, IH. f_equal. zlen. }
  exact (G 0).
Qed.

(** The views without their first [n] bytes. *)
Lemma bvl_remove_prefix_spec vl n :
  0 <= n <= Zlen (concat vl) ->
  exists vl', bvl_remove_prefix vl n = Ok vl' /\ concat vl' = zdrop n (concat vl).
Proof.
  revert n. induction vl as [|v vl IH]; intros n Hn; cbn [bvl_remove_prefix concat] in *.
  - assert (n = 0) as -> by (unfold Zlen in Hn; cbn in Hn; lia). by exists [].
  - rewrite Zlen_app in Hn. pose proof (Zlen_nonneg v).
    destruct (Z.leb_spec n 0); [by assert (n = 0) as -> by lia; exists (v :: vl)|].
    destruct (Z.ltb_spec n (Zlen v)).
    + exists (zdrop n v :: vl). split; [done|]. cbn. by rewrite zdrop_app_le by lia.
    + destruct (IH (n - Zlen v)) as (vl' & -> & E); [lia|]. exists vl'. split; [done|].
      rewrite E. unfold zdrop, Zlen in *. rewrite drop_app_ge by lia. f_equal. lia.
Qed.

(** A view list made from buffers has the same bytes. *)
Lemma bvl_of_buffers_size bl : bvl_size (bvl_of_buffers bl) = bl_size bl.
Proof.
  unfold bvl_size, bl_size, bvl_of_buffers. generalize 0.
  induction bl; intros acc; cbn; [done|]. apply IHbl.
Qed.
