(* ===== verification/NetParser.v ===== *)
(** * Parsing and unparsing integers in network byte order

    Models [src/libsponge/util/parser.hh] and [parser.cc]: [ParseResult],
    [NetParser] (a buffer with a sticky error) and [NetUnparser]. *)
From stdpp Require Import base tactics list numbers option.
From Stdlib Require Import ZArith Lia.
From Stdlib Require String.
Import String.StringSyntax.
From S2P Require Import Prelude Buffer.

#[local] Open Scope string_scope.
#[local] Open Scope Z_scope.

Inductive ParseResult : Type :=
  | NoError | BadChecksum | PacketTooShort | WrongIPVersion
  | HeaderTooShort | TruncatedPacket | Unsupported.

#[global] Instance ParseResult_eq_dec : EqDecision ParseResult.
Proof. solve_decision. Defined.

(** [static_cast<size_t>(r)]. *)
Definition ParseResult_index (r : ParseResult) : nat :=
  match r with
  | NoError => 0 | BadChecksum => 1 | PacketTooShort => 2 | WrongIPVersion => 3
  | HeaderTooShort => 4 | TruncatedPacket => 5 | Unsupported => 6
  end.

(** The table of [as_string]; an index outside it is undefined ([None]). *)
Definition as_string (r : ParseResult) : option String.string :=
  ["NoError"; "BadChecksum"; "PacketTooShort"; "WrongIPVersion"; "HeaderTooShort";
   "TruncatedPacket"] !! ParseResult_index r.

Record NetParser := mkNetParser { _buffer : Buffer; _error : ParseResult }.

Definition new (b : Buffer) : NetParser := mkNetParser b NoError.
Definition get_error (p : NetParser) : ParseResult := _error p.
Definition set_error (p : NetParser) (r : ParseResult) : NetParser := mkNetParser (_buffer p) r.
Definition error (p : NetParser) : bool := negb (bool_decide (_error p = NoError)).

Definition _check_size (p : NetParser) (n : Z) : NetParser :=
  if size (_buffer p) <? n then set_error p PacketTooShort else p.

(** The loop of [_parse_int<T>]: [ret <<= 8; ret += at(i)] in the type [T] of [w] bits. *)
Definition parse_loop (w : Z) (bytes : list byte) : Z :=
  fold_left (fun ret b => ((Z.shiftl ret 8) mod 2 ^ w + b2z b) mod 2 ^ w) bytes 0.

(** The buffer without its first [n] bytes; [_check_size] rules the exception out. *)
Definition drop_prefix (p : NetParser) (n : Z) : NetParser :=
  match remove_prefix (_buffer p) n with
  | Ok b => mkNetParser b (_error p)
  | Throw _ => p
  end.

(** [_parse_int<T>] for a type of [len] bytes. *)
Definition _parse_int (len : Z) : st NetParser Z := fun p =>
  let p := _check_size p len in
  if error p then (p, 0)
  else (drop_prefix p len, parse_loop (8 * len) (ztake len (str (_buffer p)))).

Definition u32 : st NetParser Z := _parse_int 4.
Definition u16 : st NetParser Z := _parse_int 2.
Definition u8 : st NetParser Z := _parse_int 1.

Definition parser_remove_prefix (n : Z) : st NetParser unit := fun p =>
  let p := _check_size p n in
  if error p then (p, tt) else (drop_prefix p n, tt).

(** [NetUnparser::_unparse_int]: the bytes appended for a value of [len] bytes. *)
Definition _unparse_int (len : nat) (val : Z) : list byte :=
  map (fun i => z2b (Z.land (Z.shiftr val ((Z.of_nat len - Z.of_nat i - 1) * 8)) 255)) (seq 0 len).

Definition unparse_u32 (val : Z) : list byte := _unparse_int 4 val.
Definition unparse_u16 (val : Z) : list byte := _unparse_int 2 val.
Definition unparse_u8 (val : Z) : list byte := _unparse_int 1 val.

(** A fixed-size array read or written byte by byte. *)
Fixpoint parse_bytes (n : nat) : st NetParser (list Z) :=
  match n with
  | O => mret []
  | S n' => b ← u8; l ← parse_bytes n'; mret (b :: l)
  end.
Definition unparse_bytes (l : list Z) : list byte := concat (map unparse_u8 l).

(** ** Properties *)

(** The parser has not failed and the bytes [l] are left. *)
Record ready (p : NetParser) (l : list byte) : Prop := {
  ready_wf : buf_wf (_buffer p);
  ready_str : str (_buffer p) = l;
  ready_ok : _error p = NoError
}.

Lemma ready_new l : Zlen l < 2 ^ 64 -> ready (new (buf_of_string l)) l.
Proof. intros. split; try done. by apply buf_of_string_wf. Qed.

Lemma error_ready p l : ready p l -> error p = false.
Proof. intros []. unfold error. rewrite ready_ok0. done. Qed.

Lemma _check_size_ok p l n : ready p l -> n <= Zlen l -> _check_size p n = p.
Proof.
  intros [] Hn. unfold _check_size, size. rewrite ready_str0.
  destruct (Z.ltb_spec (Zlen l) n); [lia|done].
Qed.

Lemma drop_prefix_ready p l n :
  ready p l -> 0 <= n <= Zlen l -> ready (drop_prefix p n) (zdrop n l).
Proof.
  intros [Hwf Hs He] Hn. unfold drop_prefix.
  destruct (remove_prefix_spec (_buffer p) n Hwf) as (b & -> & Hb & Hs');
    [unfold size; rewrite Hs; lia|].
  split; simpl; [done|congruence|done].
Qed.

Lemma _parse_int_ready p l n :
  ready p l -> 0 <= n <= Zlen l ->
  exists p', _parse_int n p = (p', parse_loop (8 * n) (ztake n l)) /\ ready p' (zdrop n l).
Proof.
  intros Hr Hn. unfold _parse_int. rewrite (_check_size_ok p l) by (done || lia).
  rewrite (error_ready p l Hr). rewrite (ready_str _ _ Hr).
  eexists. split; [done|]. by apply drop_prefix_ready.
Qed.

Lemma _parse_int_short p l n :
  ready p l -> Zlen l < n ->
  exists p', _parse_int n p = (p', 0) /\ get_error p' = PacketTooShort.
Proof.
  intros [] Hn. unfold _parse_int, _check_size, size. rewrite ready_str0.
  destruct (Z.ltb_spec (Zlen l) n); [|lia]. cbn. eauto.
Qed.

Lemma remove_prefix_ready p l n :
  ready p l -> 0 <= n <= Zlen l ->
  exists p', parser_remove_prefix n p = (p', tt) /\ ready p' (zdrop n l).
Proof.
  intros Hr Hn. unfold parser_remove_prefix. rewrite (_check_size_ok p l) by (done || lia).
  rewrite (error_ready p l Hr). eexists. split; [done|]. by apply drop_prefix_ready.
Qed.

(** The value of one unparsed byte. *)
Lemma unparse_byte_val val k :
  0 <= k -> b2z (z2b (Z.land (Z.shiftr val k) 255)) = (val / 2 ^ k) mod 256.
Proof.
  intros Hk. rewrite b2z_z2b. change 255 with (Z.ones 8). rewrite Z.land_ones by lia.
  rewrite Z.shiftr_div_pow2 by lia. unfold Prelude.u8. rewrite Z.mod_mod by lia. done.
Qed.

Lemma length_unparse n val : Zlen (_unparse_int n val) = Z.of_nat n.
Proof. unfold Zlen, _unparse_int. rewrite length_map, length_seq. done. Qed.

Ltac parse_value :=
  unfold parse_loop, _unparse_int; cbn [seq map fold_left];
  repeat rewrite unparse_byte_val by lia;
  repeat rewrite Z.shiftl_mul_pow2 by lia; cbn -[Z.add Z.mul Z.div Z.modulo];
  Z.to_euclidean_division_equations; lia.

Lemma parse_unparse_1 v : 0 <= v < 2 ^ 8 -> parse_loop 8 (_unparse_int 1 v) = v.
Proof. intros. parse_value. Qed.
Lemma parse_unparse_2 v : 0 <= v < 2 ^ 16 -> parse_loop 16 (_unparse_int 2 v) = v.
Proof. intros. parse_value. Qed.
Lemma parse_unparse_4 v : 0 <= v < 2 ^ 32 -> parse_loop 32 (_unparse_int 4 v) = v.
Proof. intros. parse_value. Qed.

Lemma _parse_int_step (n : nat) v p rest :
  ready p (_unparse_int n v ++ rest) ->
  exists p', _parse_int (Z.of_nat n) p = (p', parse_loop (8 * Z.of_nat n) (_unparse_int n v)) /\
    ready p' rest.
Proof.
  intros Hr. pose proof (length_unparse n v) as Hl. pose proof (Zlen_nonneg rest).
  destruct (_parse_int_ready p _ (Z.of_nat n) Hr) as (p' & E & Hr'); [rewrite Zlen_app; lia|].
  exists p'. unfold ztake, zdrop, Zlen in *. rewrite Nat2Z.id in *.
  assert (length (_unparse_int n v) = n) as Hn by lia.
  rewrite take_app_length' in E by done. rewrite drop_app_length' in Hr' by done. done.
Qed.

Lemma u8_step v p rest :
  0 <= v < 2 ^ 8 -> ready p (unparse_u8 v ++ rest) -> exists p', u8 p = (p', v) /\ ready p' rest.
Proof.
  intros Hv Hr. destruct (_parse_int_step 1 v p rest Hr) as (p' & E & Hr').
  exists p'. split; [|done]. unfold u8. change 1 with (Z.of_nat 1). rewrite E.
  f_equal. by apply parse_unparse_1.
Qed.

Lemma u16_step v p rest :
  0 <= v < 2 ^ 16 -> ready p (unparse_u16 v ++ rest) ->
  exists p', u16 p = (p', v) /\ ready p' rest.
Proof.
  intros Hv Hr. destruct (_parse_int_step 2 v p rest Hr) as (p' & E & Hr').
  exists p'. split; [|done]. unfold u16. change 2 with (Z.of_nat 2). rewrite E.
  f_equal. by apply parse_unparse_2.
Qed.

Lemma u32_step v p rest :
  0 <= v < 2 ^ 32 -> ready p (unparse_u32 v ++ rest) ->
  exists p', u32 p = (p', v) /\ ready p' rest.
Proof.
  intros Hv Hr. destruct (_parse_int_step 4 v p rest Hr) as (p' & E & Hr').
  exists p'. split; [|done]. unfold u32. change 4 with (Z.of_nat 4). rewrite E.
  f_equal. by apply parse_unparse_4.
Qed.

Lemma parse_bytes_step l p rest :
  Forall (fun v => 0 <= v < 2 ^ 8) l -> ready p (unparse_bytes l ++ rest) ->
  exists p', parse_bytes (length l) p = (p', l) /\ ready p' rest.
Proof.
  revert p. induction l as [|v l IH]; intros p Hl Hr.
  - exists p. done.
  - inversion_clear Hl as [|? ? Hv Hl']. unfold unparse_bytes in Hr.
    cbn [map concat] in Hr. rewrite <- app_assoc in Hr.
    destruct (u8_step v p _ Hv Hr) as (p1 & E1 & Hr1).
    destruct (IH p1 Hl' Hr1) as (p2 & E2 & Hr2).
    exists p2. split; [|done]. cbn [length parse_bytes]. unfold mbind, st_bind. rewrite E1, E2.
    done.
Qed.

(** [parse_step] runs one field read of a parser that is [ready]. *)
Ltac parse_step :=
  lazymatch goal with
  | H : ready ?p (unparse_u8 ?v ++ ?rest) |- context [u8 ?p] =>
      let p' := fresh "p" in let E := fresh "E" in let H' := fresh "Hr" in
      destruct (u8_step v p rest) as (p' & E & H'); [ | exact H | rewrite E; clear E H]
  | H : ready ?p (unparse_u16 ?v ++ ?rest) |- context [u16 ?p] =>
      let p' := fresh "p" in let E := fresh "E" in let H' := fresh "Hr" in
      destruct (u16_step v p rest) as (p' & E & H'); [ | exact H | rewrite E; clear E H]
  | H : ready ?p (unparse_u32 ?v ++ ?rest) |- context [u32 ?p] =>
      let p' := fresh "p" in let E := fresh "E" in let H' := fresh "Hr" in
      destruct (u32_step v p rest) as (p' & E & H'); [ | exact H | rewrite E; clear E H]
  end.

(** The range of a parsed integer, whatever the input. *)
Lemma parse_loop_range w bytes : 0 <= w -> 0 <= parse_loop w bytes < 2 ^ w.
Proof.
  intros Hw. unfold parse_loop.
  assert (0 < 2 ^ w) by (apply Z.pow_pos_nonneg; lia).
  set (step := fun ret b => (Z.shiftl ret 8 mod 2 ^ w + b2z b) mod 2 ^ w).
  assert (forall acc, 0 <= acc < 2 ^ w -> 0 <= fold_left step bytes acc < 2 ^ w) as H';
    [|apply H'; lia].
  induction bytes as [|b bytes IH]; intros acc Hacc; cbn [fold_left]; [done|].
  apply IH. apply Z.mod_pos_bound. lia.
Qed.

Lemma _parse_int_range n p : 0 <= n -> 0 <= snd (_parse_int n p) < 2 ^ (8 * n).
Proof.
  intros Hn. unfold _parse_int. destruct (error _); simpl.
  - assert (0 < 2 ^ (8 * n)) by (apply Z.pow_pos_nonneg; lia). lia.
  - apply parse_loop_range. lia.
Qed.

(** [consumed l k p]: the parser was started on [l] and has been asked for [k]
    bytes in all; either they were there, or it carries the sticky error. *)
Definition consumed (l : list byte) (k : Z) (p : NetParser) : Prop :=
  (k <= Zlen l /\ ready p (zdrop k l)) \/ (Zlen l < k /\ get_error p = PacketTooShort).

Lemma consumed_new b : buf_wf b -> consumed (str b) 0 (new b).
Proof. intros Hb. left. split; [apply Zlen_nonneg|]. by split. Qed.

Lemma _check_size_failed p n :
  get_error p = PacketTooShort -> get_error (_check_size p n) = PacketTooShort.
Proof. unfold _check_size. destruct (_ <? _); done. Qed.

Lemma error_failed p : get_error p = PacketTooShort -> error p = true.
Proof. unfold error, get_error. intros ->. done. Qed.

Lemma parse_int_consumed l k n p p' v :
  0 <= k -> 0 <= n -> consumed l k p -> _parse_int n p = (p', v) ->
  consumed l (k + n) p' /\ (k + n <= Zlen l -> v = parse_loop (8 * n) (ztake n (zdrop k l))).
Proof.
  intros Hk Hn [[Hl Hr]|[Hl He]] E.
  - pose proof (Zlen_zdrop k l Hk) as Hd. destruct (Z.le_gt_cases (k + n) (Zlen l)) as [Hle|Hgt].
    + destruct (_parse_int_ready p _ n Hr) as (q & Eq & Hq); [lia|].
      rewrite Eq in E. injection E as <- <-. split; [|done]. left.
      by rewrite zdrop_zdrop in Hq by lia.
    + destruct (_parse_int_short p _ n Hr) as (q & Eq & Hq); [lia|].
      rewrite Eq in E. injection E as <- <-. split; [by right | lia].
  - revert E. unfold _parse_int. pose proof (_check_size_failed p n He) as Hc.
    rewrite (error_failed _ Hc). intros [= <- <-]. split; [right; split; [lia|done] | lia].
Qed.

Lemma remove_prefix_consumed l k n p :
  0 <= k -> 0 <= n -> consumed l k p -> consumed l (k + n) (fst (parser_remove_prefix n p)).
Proof.
  intros Hk Hn [[Hl Hr]|[Hl He]].
  - pose proof (Zlen_zdrop k l Hk) as Hd. destruct (Z.le_gt_cases (k + n) (Zlen l)) as [Hle|Hgt].
    + destruct (remove_prefix_ready p _ n Hr) as (q & -> & Hq); [lia|]. left.
      by rewrite zdrop_zdrop in Hq by lia.
    + right. split; [done|]. unfold parser_remove_prefix, _check_size, size.
      rewrite (ready_str _ _ Hr). destruct (Z.ltb_spec (Zlen (zdrop k l)) n); [done|lia].
  - unfold parser_remove_prefix. pose proof (_check_size_failed p n He) as Hc.
    rewrite (error_failed _ Hc). right. split; [lia|done].
Qed.

Lemma consumed_error l k p :
  consumed l k p -> get_error p = if k <=? Zlen l then NoError else PacketTooShort.
Proof. intros [[? []]|[? ?]]; destruct (Z.leb_spec k (Zlen l)); done || lia. Qed.

Lemma consumed_str l k p : consumed l k p -> k <= Zlen l -> str (_buffer p) = zdrop k l.
Proof. intros [[? []]|[? ?]] ?; done || lia. Qed.

(** The value of a single byte read. *)
Lemma parse_loop_byte l k :
  0 <= k < Zlen l -> parse_loop 8 (ztake 1 (zdrop k l)) = b2z (l !!! Z.to_nat k).
Proof.
  intros Hk. pose proof (zdrop_lookup l k 0) as Hz. pose proof (Zlen_zdrop k l).
  destruct (zdrop k l) as [|b r] eqn:E; [rewrite (@Zlen_nil byte) in *; lia|].
  rewrite Nat.add_0_r in Hz. rewrite <- Hz. pose proof (b2z_bound b).
  change (parse_loop 8 (ztake 1 (b :: r))) with ((0 + b2z b) mod 2 ^ 8).
  change ((b :: r) !!! 0%nat) with b. rewrite Z.mod_small; lia.
Qed.

(** [parse_any] runs one field read of a parser in an arbitrary [consumed] state. *)
Ltac parse_any :=
  lazymatch goal with
  | H : consumed ?l ?k ?p |- context [_parse_int ?n ?p] =>
      let p' := fresh "p" in let v := fresh "v" in let E := fresh "E" in
      let Hv := fresh "Hv" in let H' := fresh "Hc" in
      destruct (_parse_int n p) as [p' v] eqn:E;
      let Hrange := fresh "Hrange" in
      pose proof (_parse_int_range n p ltac:(lia)) as Hrange; rewrite E in Hrange; cbn [snd] in Hrange;
      destruct (parse_int_consumed l k n p p' v) as [H' Hv]; [lia | lia | exact H | exact E |];
      clear E H
  end.

(** Integers survive the wire: a value of one, two or four bytes written
    with [NetUnparser] and read back with [NetParser] is unchanged, and the
    parser is left at the byte that follows, without error. *)
Theorem parse_unparse_int b h w rest :
  0 <= b < 2 ^ 8 -> 0 <= h < 2 ^ 16 -> 0 <= w < 2 ^ 32 -> Zlen rest < 2 ^ 63 ->
  let p := new (buf_of_string (unparse_u8 b ++ unparse_u16 h ++ unparse_u32 w ++ rest)) in
  exists p', (x ← u8; y ← u16; z ← u32; mret (x, y, z)) p = (p', (b, h, w)) /\
    str (_buffer p') = rest /\ get_error p' = NoError.
Proof.
  intros Hb Hh Hw Hrest p.
  assert (ready p (unparse_u8 b ++ unparse_u16 h ++ unparse_u32 w ++ rest)) as Hr.
  { apply ready_new. rewrite !Zlen_app. unfold unparse_u8, unparse_u16, unparse_u32.
    rewrite !length_unparse. lia. }
  unfold mbind, st_bind. do 3 (parse_step; [done|]).
  eexists. split; [done|]. split; [by eapply ready_str | eapply ready_ok; eassumption].
Qed.

Lemma parse_unparse_int_witness :
  let p := new (buf_of_string (unparse_u8 7 ++ unparse_u16 700 ++ unparse_u32 70000 ++ [x61])) in
  exists p', (x ← u8; y ← u16; z ← u32; mret (x, y, z)) p = (p', (7, 700, 70000)) /\
    str (_buffer p') = [x61] /\ get_error p' = NoError.
Proof. apply (parse_unparse_int 7 700 70000 [x61]); try lia. reflexivity. Defined.

(** [as_string] has no entry for [ParseResult::Unsupported]: the lookup is
    outside the table of names, while every other result has its name. *)
Theorem as_string_unsupported r : as_string r = None <-> r = Unsupported.
Proof. destruct r; split; intros [=]; done. Qed.
