(* ===== verification/Checksum.v ===== *)
(** * The Internet checksum

    Models [InternetChecksum] of [src/libsponge/util/util.hh] and [util.cc]:
    a 32-bit running sum of big-endian 16-bit words with a parity bit, folded
    to 16 bits and complemented by [value]. *)
From stdpp Require Import base tactics list numbers option.
From Stdlib Require Import ZArith Lia.
From S2P Require Import Prelude.

Record InternetChecksum := mkInternetChecksum { _sum : Z; _parity : bool }.

Definition new (initial_sum : Z) : InternetChecksum := mkInternetChecksum initial_sum false.

(** One iteration of the loop of [add]; [val <<= 8] is in [uint16_t]. *)
Definition add_byte (c : InternetChecksum) (b : byte) : InternetChecksum :=
  let val := b2z b in
  let val := if negb (_parity c) then u16 (Z.shiftl val 8) else val in
  mkInternetChecksum (u32 (_sum c + val)) (negb (_parity c)).

Definition add (c : InternetChecksum) (data : list byte) : InternetChecksum :=
  fold_left add_byte data c.

(** The loop of [value]: [while (ret > 0xffff) ret = (ret >> 16) + (ret & 0xffff)]. *)
Fixpoint fold_carries (fuel : nat) (ret : Z) : option Z :=
  if ret <=? 65535 then Some ret
  else match fuel with
       | O => None
       | S fuel' => fold_carries fuel' (u32 (Z.shiftr ret 16 + Z.land ret 65535))
       end.

(** [return ~ret] in [uint16_t].  Two iterations are enough for a 32-bit sum
    ([fold_carries_total]). *)
Definition value (c : InternetChecksum) : Z :=
  match fold_carries 2 (_sum c) with
  | Some ret => u16 (Z.lnot ret)
  | None => 0
  end.

(** ** The carry fold *)

Lemma fold_step ret :
  0 <= ret < 2 ^ 32 ->
  u32 (Z.shiftr ret 16 + Z.land ret 65535) = ret / 65536 + ret mod 65536.
Proof.
  intros H. change 65535 with (Z.ones 16). rewrite Z.land_ones, Z.shiftr_div_pow2 by lia.
  rewrite u32_small; [done|]. Z.to_euclidean_division_equations. lia.
Qed.

(** Termination of the loop of [value]: two iterations suffice for every
    32-bit sum, and the result is the sum modulo [65535], in range. *)
Lemma fold_carries_total s :
  0 <= s < 2 ^ 32 ->
  exists f, fold_carries 2 s = Some f /\ 0 <= f <= 65535 /\
    f mod 65535 = s mod 65535 /\ (f = 0 <-> s = 0).
Proof.
  intros Hs. cbn [fold_carries].
  destruct (Z.leb_spec s 65535); [exists s; split_and!; auto; lia|].
  rewrite fold_step by lia. set (s1 := s / 65536 + s mod 65536).
  assert (0 < s1 <= 131070 /\ s1 mod 65535 = s mod 65535) as [H1 H2]
    by (unfold s1; Z.to_euclidean_division_equations; lia).
  destruct (Z.leb_spec s1 65535); [exists s1; split_and!; auto; lia|].
  rewrite fold_step by lia. set (s2 := s1 / 65536 + s1 mod 65536).
  assert (0 < s2 <= 65535 /\ s2 mod 65535 = s mod 65535) as [H3 H4]
    by (rewrite <- H2; unfold s2; Z.to_euclidean_division_equations; lia).
  destruct (Z.leb_spec s2 65535); [exists s2; split_and!; auto; lia|lia].
Qed.

Lemma value_lnot f : 0 <= f <= 65535 -> u16 (Z.lnot f) = 65535 - f.
Proof. intros. unfold u16, Z.lnot. Z.to_euclidean_division_equations. lia. Qed.

(** A sum passes the check exactly when it is a positive multiple of [65535]. *)
Lemma value_zero c :
  0 <= _sum c < 2 ^ 32 ->
  value c = 0 <-> 0 < _sum c /\ _sum c mod 65535 = 0.
Proof.
  intros Hs. unfold value. destruct (fold_carries_total _ Hs) as (f & -> & Hf & Hm & Hz).
  rewrite value_lnot by done. rewrite <- Hm. split.
  - intros E. assert (f = 65535) as -> by lia. split; [|done].
    destruct (decide (_sum c = 0)) as [E0|]; [rewrite E0 in Hz; lia|lia].
  - intros [Hp Hm0]. assert (f <> 0) by lia. Z.to_euclidean_division_equations. lia.
Qed.

Lemma value_range c : 0 <= value c < 2 ^ 16.
Proof.
  unfold value. destruct (fold_carries 2 (_sum c)) as [f|]; [|lia].
  apply Z.mod_pos_bound. lia.
Qed.

(** ** The running sum without the 32-bit wrap *)

Fixpoint word_sum (parity : bool) (data : list byte) : Z :=
  match data with
  | [] => 0
  | b :: data' => (if parity then b2z b else 256 * b2z b) + word_sum (negb parity) data'
  end.

Fixpoint flip (parity : bool) (data : list byte) : bool :=
  match data with
  | [] => parity
  | _ :: data' => flip (negb parity) data'
  end.

Lemma word_sum_bound p data : 0 <= word_sum p data <= 65280 * Zlen data.
Proof.
  revert p. induction data as [|b data IH]; intros p; [done|]. cbn [word_sum].
  rewrite Zlen_cons. specialize (IH (negb p)). pose proof (b2z_bound b). destruct p; lia.
Qed.

Lemma word_sum_app p l k : word_sum p (l ++ k) = word_sum p l + word_sum (flip p l) k.
Proof.
  revert p. induction l as [|b l IH]; intros p; [done|]. cbn [app word_sum flip].
  rewrite IH. lia.
Qed.

Lemma flip_app p l k : flip p (l ++ k) = flip (flip p l) k.
Proof. revert p. induction l; intros p; cbn; auto. Qed.

Lemma flip_even p l : Z.even (Zlen l) = true -> flip p l = p.
Proof.
  revert p. remember (length l) as n eqn:Hn. revert l Hn.
  induction n as [n IH] using lt_wf_ind. intros l -> p He.
  destruct l as [|b [|c l]]; [done|done|]. cbn [flip]. rewrite negb_involutive.
  apply (IH (length l)); [simpl; lia|done|].
  rewrite !Zlen_cons in He. rewrite <- He. replace (1 + (1 + Zlen l)) with (Zlen l + 2 * 1) by lia.
  by rewrite Z.even_add_mul_2.
Qed.

Lemma add_spec c data :
  0 <= _sum c -> _sum c + 65280 * Zlen data < 2 ^ 32 ->
  add c data = mkInternetChecksum (_sum c + word_sum (_parity c) data) (flip (_parity c) data).
Proof.
  revert c. induction data as [|b data IH]; intros c Hc Hs.
  - cbn. rewrite Z.add_0_r. by destruct c.
  - rewrite Zlen_cons in Hs. pose proof (Zlen_nonneg data). pose proof (b2z_bound b) as Hb.
    unfold add. cbn [fold_left]. fold (add (add_byte c b) data).
    assert (add_byte c b = mkInternetChecksum
       (_sum c + (if _parity c then b2z b else 256 * b2z b)) (negb (_parity c))) as ->.
    { unfold add_byte. rewrite Z.shiftl_mul_pow2 by lia. destruct (_parity c); cbn [negb].
      - rewrite u32_small by lia. done.
      - rewrite (u16_small (_ * _)) by lia. rewrite u32_small by lia. f_equal. lia. }
    rewrite IH; cbn [_sum _parity word_sum flip].
    + f_equal. lia.
    + destruct (_parity c); lia.
    + destruct (_parity c); lia.
Qed.

(** Adding two strings one after the other is adding their concatenation. *)
Lemma add_app c l k : add c (l ++ k) = add (add c l) k.
Proof. apply fold_left_app. Qed.

(** Completing the checksum field makes the sum verify. *)
Lemma value_completed d pre post c :
  0 <= d -> Z.even (Zlen pre) = true ->
  d + 65280 * (Zlen pre + 2 + Zlen post) < 2 ^ 32 -> 0 < d + word_sum false (pre ++ [x00; x00] ++ post) ->
  c = value (add (new d) (pre ++ [x00; x00] ++ post)) ->
  value (add (new d) (pre ++ [z2b (c / 256); z2b c] ++ post)) = 0.
Proof.
  intros Hd He Hs Hpos Hc. pose proof (Zlen_nonneg pre). pose proof (Zlen_nonneg post).
  assert (0 <= c < 2 ^ 16) as Hcr by (rewrite Hc; apply value_range).
  rewrite add_spec in * by (cbn [_sum new]; zlen). cbn [_sum _parity new] in *.
  set (s0 := d + word_sum false (pre ++ [x00; x00] ++ post)) in *.
  assert (d + word_sum false (pre ++ [z2b (c / 256); z2b c] ++ post) = s0 + c) as Hsum.
  { unfold s0. rewrite !word_sum_app, (flip_even false pre) by done. cbn [word_sum flip negb].
    rewrite !b2z_z2b. change (b2z x00) with 0. unfold u8.
    Z.to_euclidean_division_equations. lia. }
  rewrite Hsum. pose proof (word_sum_bound false (pre ++ [z2b (c / 256); z2b c] ++ post)) as Hb.
  autorewrite with len in Hb.
  assert (0 <= s0 < 2 ^ 32) as Hs0.
  { pose proof (word_sum_bound false (pre ++ [x00; x00] ++ post)) as Hb0.
    autorewrite with len in Hb0. unfold s0. lia. }
  apply value_zero; cbn [_sum]; [lia|]. split; [lia|].
  revert Hc. unfold value. cbn [_sum].
  destruct (fold_carries_total s0 Hs0) as (f & -> & Hf & Hm & Hz).
  rewrite value_lnot by done. intros ->. Z.to_euclidean_division_equations. lia.
Qed.

(** The defining property of the checksum: take data with a two-byte field
    at an even offset, compute [value] with the field zero (over an initial
    pseudo-header sum [d]) and store the result big-endian in the field; then
    the check over the completed data gives zero. *)
Theorem checksum_verifies d pre post c :
  0 <= d -> Z.even (Zlen pre) = true ->
  d + 65280 * (Zlen pre + 2 + Zlen post) < 2 ^ 32 -> 0 < d + word_sum false (pre ++ [x00; x00] ++ post) ->
  c = value (add (new d) (pre ++ [x00; x00] ++ post)) ->
  value (add (new d) (pre ++ [z2b (c / 256); z2b c] ++ post)) = 0.
Proof. apply value_completed. Qed.

Lemma checksum_verifies_witness :
  value (add (new 0) ([x12; x34] ++ [z2b (48059 / 256); z2b 48059] ++ [x32; x10])) = 0.
Proof.
  apply checksum_verifies; [lia | reflexivity | reflexivity | reflexivity | reflexivity].
Defined.

#[global] Arguments add : simpl never.
#[global] Arguments value : simpl never.
