(* ===== verification/IPv4Header.v ===== *)
(** * The IPv4 header

    Models [src/libsponge/tcp_helpers/ipv4_header.hh] and [ipv4_header.cc]: the
    fields, [parse] with its early returns in the order of the code,
    [serialize], [payload_length] and [pseudo_cksum]. *)
From stdpp Require Import base tactics list numbers option.
From Stdlib Require Import ZArith Lia.
From S2P Require Import Prelude Buffer NetParser Checksum.

Definition LENGTH : Z := 20.
Definition DEFAULT_TTL : Z := 128.
Definition PROTO_TCP : Z := 6.

Record IPv4Header := mkIPv4Header {
  ver : Z;
  hlen : Z;
  tos : Z;
  len : Z;
  id : Z;
  df : bool;
  mf : bool;
  offset : Z;
  ttl : Z;
  proto : Z;
  cksum : Z;
  src : Z;
  dst : Z
}.

(** The default member initialisers. *)
Definition default_header : IPv4Header :=
  mkIPv4Header 4 (LENGTH / 4) 0 0 0 true false 0 DEFAULT_TTL PROTO_TCP 0 0 0.

(** Assignments to single fields. *)
Definition set_len (h : IPv4Header) (v : Z) : IPv4Header :=
  mkIPv4Header (ver h) (hlen h) (tos h) v (id h) (df h) (mf h) (offset h) (ttl h) (proto h)
    (cksum h) (src h) (dst h).
Definition set_ttl (h : IPv4Header) (v : Z) : IPv4Header :=
  mkIPv4Header (ver h) (hlen h) (tos h) (len h) (id h) (df h) (mf h) (offset h) v (proto h)
    (cksum h) (src h) (dst h).
Definition set_cksum (h : IPv4Header) (v : Z) : IPv4Header :=
  mkIPv4Header (ver h) (hlen h) (tos h) (len h) (id h) (df h) (mf h) (offset h) (ttl h) (proto h)
    v (src h) (dst h).
Definition set_addrs (h : IPv4Header) (s d : Z) : IPv4Header :=
  mkIPv4Header (ver h) (hlen h) (tos h) (len h) (id h) (df h) (mf h) (offset h) (ttl h) (proto h)
    (cksum h) s d.

(** The twenty bytes of fixed fields, read in order. *)
Definition parse_fields : st NetParser IPv4Header :=
  first_byte ← u8;
  ts ← u8;
  ln ← u16;
  i ← u16;
  fo_val ← u16;
  tt ← u8;
  pr ← u8;
  ck ← u16;
  sr ← u32;
  ds ← u32;
  mret (mkIPv4Header (Z.shiftr first_byte 4) (Z.land first_byte 15) ts ln i
          (has_bit fo_val 16384) (has_bit fo_val 8192) (Z.land fo_val 8191) tt pr ck sr ds).

(** The end of [IPv4Header::parse]: the parser's error, then the checksum over
    the header bytes of the original buffer. *)
Definition parse_checksum (original : list byte) (h : IPv4Header)
    : st NetParser (IPv4Header * ParseResult) := fun p =>
  if error p then (p, (h, get_error p))
  else if negb (value (add (new 0) (ztake (4 * hlen h) original)) =? 0)
       then (p, (h, BadChecksum))
       else (p, (h, NoError)).

(** The checks after the fields were read. *)
Definition parse_checks (original : list byte) (h : IPv4Header)
    : st NetParser (IPv4Header * ParseResult) :=
  let data_size := Zlen original in
  if data_size <? 4 * hlen h then mret (h, PacketTooShort)
  else if negb (ver h =? 4) then mret (h, WrongIPVersion)
  else if hlen h <? 5 then mret (h, HeaderTooShort)
  else if negb (data_size =? len h) then mret (h, TruncatedPacket)
  else
    _ ← parser_remove_prefix (hlen h * 4 - LENGTH);
    parse_checksum original h.

(** [IPv4Header::parse] on the object [h0]: a short buffer leaves it unchanged. *)
Definition parse (h0 : IPv4Header) : st NetParser (IPv4Header * ParseResult) := fun p =>
  if size (_buffer p) <? LENGTH then (p, (h0, PacketTooShort))
  else (h ← parse_fields; parse_checks (str (_buffer p)) h) p.

Definition first_byte (h : IPv4Header) : Z :=
  Prelude.u8 (Z.lor (Z.shiftl (ver h) 4) (Z.land (hlen h) 15)).
Definition fo_val (h : IPv4Header) : Z :=
  Prelude.u16 (Z.lor (Z.lor (if df h then 16384 else 0) (if mf h then 8192 else 0))
    (Z.land (offset h) 8191)).

(** [IPv4Header::serialize] throws on a wrong version and a short header. *)
Definition serialize (h : IPv4Header) : outcome (list byte) :=
  if negb (ver h =? 4) then Throw RuntimeError
  else if 4 * hlen h <? LENGTH then Throw RuntimeError
  else
    Ok (str_resize (4 * hlen h)
      (unparse_u8 (first_byte h) ++ unparse_u8 (tos h) ++ unparse_u16 (len h) ++
       unparse_u16 (id h) ++ unparse_u16 (fo_val h) ++ unparse_u8 (ttl h) ++
       unparse_u8 (proto h) ++ unparse_u16 (cksum h) ++ unparse_u32 (src h) ++
       unparse_u32 (dst h))).

Definition payload_length (h : IPv4Header) : Z := Prelude.u16 (len h - 4 * hlen h).

Definition pseudo_cksum (h : IPv4Header) : Z :=
  let pcksum := Prelude.u32 (Z.shiftr (src h) 16 + Z.land (src h) 65535) in
  let pcksum := Prelude.u32 (pcksum + (Z.shiftr (dst h) 16 + Z.land (dst h) 65535)) in
  let pcksum := Prelude.u32 (pcksum + proto h) in
  Prelude.u32 (pcksum + payload_length h).

(** ** Properties *)

(** Every field fits its width on the wire, and the lengths agree with a
    packet that holds its own header. *)
Record header_ok (h : IPv4Header) : Prop := {
  ok_ver : ver h = 4;
  ok_hlen : 5 <= hlen h <= 15;
  ok_tos : 0 <= tos h < 2 ^ 8;
  ok_len : 4 * hlen h <= len h < 2 ^ 16;
  ok_id : 0 <= id h < 2 ^ 16;
  ok_offset : 0 <= offset h < 2 ^ 13;
  ok_ttl : 0 <= ttl h < 2 ^ 8;
  ok_proto : 0 <= proto h < 2 ^ 8;
  ok_cksum : 0 <= cksum h < 2 ^ 16;
  ok_src : 0 <= src h < 2 ^ 32;
  ok_dst : 0 <= dst h < 2 ^ 32
}.

(** A property of the values below a small bound, checked by enumeration. *)
Lemma below_checked (P : Z -> bool) n z :
  forallb P (map Z.of_nat (seq 0 n)) = true -> 0 <= z < Z.of_nat n -> P z = true.
Proof.
  intros H Hz. rewrite forallb_forall in H. apply H. rewrite in_map_iff.
  exists (Z.to_nat z). rewrite in_seq. lia.
Qed.

Lemma first_byte_wire h :
  header_ok h ->
  0 <= first_byte h < 2 ^ 8 /\ Z.shiftr (first_byte h) 4 = ver h /\
  Z.land (first_byte h) 15 = hlen h /\ 0 < first_byte h.
Proof.
  intros [Hv Hl _ _ _ _ _ _ _ _ _]. unfold first_byte. rewrite Hv.
  pose proof (below_checked (fun l =>
    let f := Prelude.u8 (Z.lor (Z.shiftl 4 4) (Z.land l 15)) in
    (0 <? f) && (f <? 256) && (Z.shiftr f 4 =? 4) && (Z.land f 15 =? l)) 16 (hlen h)
    eq_refl ltac:(lia)) as H.
  cbv zeta beta in H. set (f := Prelude.u8 _) in *. clearbody f. bsplit. split_and!; lia || done.
Qed.

Lemma fo_val_wire h :
  0 <= offset h < 2 ^ 13 ->
  0 <= fo_val h < 2 ^ 16 /\ has_bit (fo_val h) 16384 = df h /\
  has_bit (fo_val h) 8192 = mf h /\ Z.land (fo_val h) 8191 = offset h.
Proof.
  intros Ho. pose proof (below_checked (fun o => forallb (fun d => forallb (fun m =>
    let f := Prelude.u16 (Z.lor (Z.lor (if d : bool then 16384 else 0) (if m : bool then 8192 else 0))
      (Z.land o 8191)) in
    (0 <=? f) && (f <? 65536) && Bool.eqb (has_bit f 16384) d && Bool.eqb (has_bit f 8192) m &&
    (Z.land f 8191 =? o)) [true; false]) [true; false]) (Z.to_nat 8192) (offset h)
    ltac:(vm_compute; reflexivity) ltac:(lia)) as H.
  cbv beta in H. rewrite forallb_forall in H. specialize (H (df h) ltac:(destruct (df h); simpl; auto)).
  rewrite forallb_forall in H. specialize (H (mf h) ltac:(destruct (mf h); simpl; auto)).
  cbv zeta beta in H. fold (fo_val h) in H. bsplit.
  repeat match goal with H : Bool.eqb _ _ = true |- _ => apply Bool.eqb_prop in H end.
  split_and!; lia || done.
Qed.

(** The serialized header around its checksum field. *)
Definition wire_pre (h : IPv4Header) : list byte :=
  unparse_u8 (first_byte h) ++ unparse_u8 (tos h) ++ unparse_u16 (len h) ++
  unparse_u16 (id h) ++ unparse_u16 (fo_val h) ++ unparse_u8 (ttl h) ++ unparse_u8 (proto h).
Definition wire_post (h : IPv4Header) : list byte :=
  unparse_u32 (src h) ++ unparse_u32 (dst h) ++ replicate (Z.to_nat (4 * hlen h - 20)) x00.

Lemma Zlen_ip_pre h : Zlen (wire_pre h) = 10.
Proof.
  unfold wire_pre, unparse_u8, unparse_u16. rewrite !Zlen_app, !length_unparse. done.
Qed.

Lemma Zlen_ip_post h : 5 <= hlen h -> Zlen (wire_post h) = 4 * hlen h - 12.
Proof.
  intros. unfold wire_post, unparse_u32.
  rewrite !Zlen_app, !length_unparse, Zlen_replicate. lia.
Qed.

Lemma ip_serialize_wire h :
  ver h = 4 -> 5 <= hlen h ->
  serialize h = Ok (wire_pre h ++ unparse_u16 (cksum h) ++ wire_post h).
Proof.
  intros Hv Hl. unfold serialize, LENGTH. rewrite Hv. cbn [Z.eqb Pos.eqb negb].
  destruct (Z.ltb_spec (4 * hlen h) 20); [lia|]. f_equal.
  rewrite str_resize_pad;
    unfold unparse_u8, unparse_u16, unparse_u32; rewrite !Zlen_app, !length_unparse; [|lia].
  unfold wire_pre, wire_post, unparse_u8, unparse_u16, unparse_u32.
  rewrite <- !app_assoc. repeat f_equal.
Qed.

Lemma Zlen_wire h :
  5 <= hlen h -> Zlen (wire_pre h ++ unparse_u16 (cksum h) ++ wire_post h) = 4 * hlen h.
Proof.
  intros. rewrite !Zlen_app, Zlen_ip_pre, Zlen_ip_post by done.
  unfold unparse_u16. rewrite length_unparse. lia.
Qed.

(** The fixed fields come back from the wire. *)
Lemma parse_fields_wire h p rest :
  header_ok h -> ready p (wire_pre h ++ unparse_u16 (cksum h) ++ wire_post h ++ rest) ->
  exists p', parse_fields p = (p', h) /\
    ready p' (replicate (Z.to_nat (4 * hlen h - 20)) x00 ++ rest).
Proof.
  intros Hok Hr. pose proof (first_byte_wire h Hok) as (Hf & Hv & Hl & _).
  pose proof (fo_val_wire h (ok_offset _ Hok)) as (Hg & Hdf & Hmf & Hof).
  destruct Hok. unfold wire_pre, wire_post in Hr. rewrite <- !app_assoc in Hr.
  unfold parse_fields, mbind, st_bind. do 10 (parse_step; [assumption || lia|]).
  rewrite Hv, Hl, Hdf, Hmf, Hof. eexists. split; [by destruct h | done].
Qed.

(** What parsing leaves of a serialized header followed by [rest]: all checks
    but the last pass, and the checksum decides. *)
Lemma parse_wire h h0 p rest :
  header_ok h -> len h = 4 * hlen h + Zlen rest ->
  let wire := wire_pre h ++ unparse_u16 (cksum h) ++ wire_post h in
  ready p (wire ++ rest) ->
  exists p', parse h0 p =
      (p', (h, if negb (value (add (new 0) wire) =? 0) then BadChecksum else NoError)) /\
    ready p' rest.
Proof.
  intros Hok Hlen wire Hr. pose proof (Zlen_wire h ltac:(apply Hok)) as Hw.
  pose proof (Zlen_nonneg rest). unfold parse, size. rewrite (ready_str _ _ Hr), Zlen_app.
  fold wire in Hw. rewrite Hw. unfold LENGTH at 1. pose proof (ok_hlen _ Hok) as Hh.
  destruct (Z.ltb_spec (4 * hlen h + Zlen rest) 20); [lia|].
  assert (Hr' := Hr). unfold wire in Hr'. rewrite <- !app_assoc in Hr'.
  destruct (parse_fields_wire h p rest Hok Hr') as (p1 & E & Hr1).
  unfold mbind, st_bind. rewrite E. unfold parse_checks. rewrite Zlen_app, Hw, (ok_ver _ Hok).
  destruct (Z.ltb_spec (4 * hlen h + Zlen rest) (4 * hlen h)); [lia|].
  destruct (Z.ltb_spec (hlen h) 5); [lia|].
  rewrite <- Hlen, (Z.eqb_refl (len h)). cbn [Z.eqb Pos.eqb negb]. unfold mbind, st_bind.
  destruct (remove_prefix_ready p1 _ (hlen h * 4 - LENGTH) Hr1) as (p2 & -> & Hr2);
    [unfold LENGTH; rewrite Zlen_app, Zlen_replicate; lia|].
  unfold parse_checksum. rewrite (error_ready _ _ Hr2). exists p2. split.
  - assert (ztake (4 * hlen h) (wire ++ rest) = wire) as ->.
    { unfold ztake. rewrite take_app_length'; [done|]. unfold Zlen in Hw. lia. }
    by destruct (negb _).
  - unfold zdrop, LENGTH in Hr2. rewrite drop_app_length' in Hr2; [done|].
    rewrite length_replicate. lia.
Qed.

(** What is left of an arbitrary input of at least twenty bytes. *)
Lemma parse_fields_consumed l p :
  consumed l 0 p -> LENGTH <= Zlen l ->
  exists p' h, parse_fields p = (p', h) /\ ready p' (zdrop LENGTH l) /\
    0 <= hlen h <= 15 /\ 0 <= len h < 2 ^ 16 /\
    ver h = Z.shiftr (b2z (l !!! 0%nat)) 4 /\ hlen h = Z.land (b2z (l !!! 0%nat)) 15 /\
    len h = parse_loop 16 (ztake 2 (zdrop 2 l)).
Proof.
  unfold LENGTH. intros Hc Hl. unfold parse_fields, mbind, st_bind, u8, u16, u32.
  do 10 parse_any. do 2 eexists. split; [done|]. cbn [ver hlen len].
  rewrite Hv by lia. rewrite Hv1 by lia. change (8 * 1) with 8. rewrite parse_loop_byte by lia.
  pose proof (b2z_bound (l !!! Z.to_nat 0)) as Hb. change (Z.to_nat 0) with 0%nat in *.
  split; [by destruct Hc as [[_ ?]|[? _]]; [|lia]|].
  assert (0 <= Z.land (b2z (l !!! 0%nat)) 15 <= 15).
  { change 15 with (Z.ones 4) at 1 2. rewrite Z.land_ones by lia.
    pose proof (Z.mod_pos_bound (b2z (l !!! 0%nat)) (2 ^ 4)). lia. }
  split_and!; try done; try lia; apply (parse_loop_range 16); lia.
Qed.

#[global] Arguments serialize : simpl never.
