(* ===== verification/TCPHeader.v ===== *)
(** * The TCP segment header

    Models [src/libsponge/tcp_helpers/tcp_header.hh] and [tcp_header.cc]: the
    fields, [parse], [serialize] and [operator==]. *)
From stdpp Require Import base tactics list numbers option.
From Stdlib Require Import ZArith Lia.
From S2P Require Import Prelude WrappingIntegers Buffer NetParser.

Definition LENGTH : Z := 20.

Record TCPHeader := mkTCPHeader {
  sport : Z;
  dport : Z;
  seqno : WrappingInt32;
  ackno : WrappingInt32;
  doff : Z;
  urg : bool;
  ack : bool;
  psh : bool;
  rst : bool;
  syn : bool;
  fin : bool;
  win : Z;
  cksum : Z;
  uptr : Z
}.

(** The default member initialisers. *)
Definition default_header : TCPHeader :=
  mkTCPHeader 0 0 (mkWrappingInt32 0) (mkWrappingInt32 0) (LENGTH / 4)
    false false false false false false 0 0 0.

(** Assignments to single fields. *)
Definition set_seqno (h : TCPHeader) (v : WrappingInt32) : TCPHeader :=
  mkTCPHeader (sport h) (dport h) v (ackno h) (doff h) (urg h) (ack h) (psh h) (rst h) (syn h)
    (fin h) (win h) (cksum h) (uptr h).
Definition set_ack (h : TCPHeader) (b : bool) (v : WrappingInt32) : TCPHeader :=
  mkTCPHeader (sport h) (dport h) (seqno h) v (doff h) (urg h) b (psh h) (rst h) (syn h)
    (fin h) (win h) (cksum h) (uptr h).
Definition set_rst (h : TCPHeader) (b : bool) : TCPHeader :=
  mkTCPHeader (sport h) (dport h) (seqno h) (ackno h) (doff h) (urg h) (ack h) (psh h) b (syn h)
    (fin h) (win h) (cksum h) (uptr h).
Definition set_syn (h : TCPHeader) (b : bool) : TCPHeader :=
  mkTCPHeader (sport h) (dport h) (seqno h) (ackno h) (doff h) (urg h) (ack h) (psh h) (rst h) b
    (fin h) (win h) (cksum h) (uptr h).
Definition set_fin (h : TCPHeader) (b : bool) : TCPHeader :=
  mkTCPHeader (sport h) (dport h) (seqno h) (ackno h) (doff h) (urg h) (ack h) (psh h) (rst h)
    (syn h) b (win h) (cksum h) (uptr h).
Definition set_win (h : TCPHeader) (v : Z) : TCPHeader :=
  mkTCPHeader (sport h) (dport h) (seqno h) (ackno h) (doff h) (urg h) (ack h) (psh h) (rst h)
    (syn h) (fin h) v (cksum h) (uptr h).
Definition set_cksum (h : TCPHeader) (v : Z) : TCPHeader :=
  mkTCPHeader (sport h) (dport h) (seqno h) (ackno h) (doff h) (urg h) (ack h) (psh h) (rst h)
    (syn h) (fin h) (win h) v (uptr h).
Definition set_ports (h : TCPHeader) (s d : Z) : TCPHeader :=
  mkTCPHeader s d (seqno h) (ackno h) (doff h) (urg h) (ack h) (psh h) (rst h) (syn h)
    (fin h) (win h) (cksum h) (uptr h).

(** The end of [TCPHeader::parse]: the parser's error, if it has one. *)
Definition check_error (h : TCPHeader) : st NetParser (TCPHeader * ParseResult) := fun p =>
  if error p then (p, (h, get_error p)) else (p, (h, NoError)).

(** [TCPHeader::parse] assigns every field, then checks the data offset and
    skips the options. *)
Definition parse : st NetParser (TCPHeader * ParseResult) :=
  sp ← u16;
  dp ← u16;
  sq ← u32;
  ak ← u32;
  off ← u8;
  fl_b ← u8;
  w ← u16;
  ck ← u16;
  up ← u16;
  let h := mkTCPHeader sp dp (mkWrappingInt32 sq) (mkWrappingInt32 ak) (Z.shiftr off 4)
             (has_bit fl_b 32) (has_bit fl_b 16) (has_bit fl_b 8) (has_bit fl_b 4)
             (has_bit fl_b 2) (has_bit fl_b 1) w ck up in
  if doff h <? 5 then mret (h, HeaderTooShort)
  else
    _ ← parser_remove_prefix (doff h * 4 - LENGTH);
    check_error h.

Definition flags_byte (h : TCPHeader) : Z :=
  Z.lor (Z.lor (Z.lor (Z.lor (Z.lor (if urg h then 32 else 0) (if ack h then 16 else 0))
    (if psh h then 8 else 0)) (if rst h then 4 else 0)) (if syn h then 2 else 0))
    (if fin h then 1 else 0).

(** [TCPHeader::serialize] throws when the data offset is below 5. *)
Definition serialize (h : TCPHeader) : outcome (list byte) :=
  if doff h <? 5 then Throw RuntimeError
  else
    Ok (str_resize (4 * doff h)
      (unparse_u16 (sport h) ++ unparse_u16 (dport h) ++ unparse_u32 (raw_value (seqno h)) ++
       unparse_u32 (raw_value (ackno h)) ++ unparse_u8 (Prelude.u8 (Z.shiftl (doff h) 4)) ++
       unparse_u8 (flags_byte h) ++ unparse_u16 (win h) ++ unparse_u16 (cksum h) ++
       unparse_u16 (uptr h))).

(** [operator==] leaves out the ports and the checksum. *)
Definition header_eqb (a b : TCPHeader) : bool :=
  wi_eqb (seqno a) (seqno b) && wi_eqb (ackno a) (ackno b) && (doff a =? doff b) &&
  Bool.eqb (urg a) (urg b) && Bool.eqb (ack a) (ack b) && Bool.eqb (psh a) (psh b) && Bool.eqb (rst a) (rst b) &&
  Bool.eqb (syn a) (syn b) && Bool.eqb (fin a) (fin b) && (win a =? win b) && (uptr a =? uptr b).

(** ** Properties *)

(** Every field fits its C++ type and the offset its four bits on the wire. *)
Record header_ok (h : TCPHeader) : Prop := {
  ok_sport : 0 <= sport h < 2 ^ 16;
  ok_dport : 0 <= dport h < 2 ^ 16;
  ok_seqno : valid (seqno h);
  ok_ackno : valid (ackno h);
  ok_doff : 5 <= doff h <= 15;
  ok_win : 0 <= win h < 2 ^ 16;
  ok_cksum : 0 <= cksum h < 2 ^ 16;
  ok_uptr : 0 <= uptr h < 2 ^ 16
}.

Lemma default_header_ok : header_ok default_header.
Proof. split; vm_compute; split; (reflexivity || discriminate). Qed.

Lemma flags_byte_range h : 0 <= flags_byte h < 2 ^ 8.
Proof.
  unfold flags_byte. destruct (urg h), (ack h), (psh h), (rst h), (syn h), (fin h);
    vm_compute; split; (reflexivity || discriminate).
Qed.

Lemma flags_byte_bits h :
  has_bit (flags_byte h) 32 = urg h /\ has_bit (flags_byte h) 16 = ack h /\
  has_bit (flags_byte h) 8 = psh h /\ has_bit (flags_byte h) 4 = rst h /\
  has_bit (flags_byte h) 2 = syn h /\ has_bit (flags_byte h) 1 = fin h.
Proof.
  unfold flags_byte. destruct (urg h), (ack h), (psh h), (rst h), (syn h), (fin h);
    vm_compute; tauto.
Qed.

(** The serialized header around its checksum field. *)
Definition wire_pre (h : TCPHeader) : list byte :=
  unparse_u16 (sport h) ++ unparse_u16 (dport h) ++ unparse_u32 (raw_value (seqno h)) ++
  unparse_u32 (raw_value (ackno h)) ++ unparse_u8 (Prelude.u8 (Z.shiftl (doff h) 4)) ++
  unparse_u8 (flags_byte h) ++ unparse_u16 (win h).
Definition wire_post (h : TCPHeader) : list byte :=
  unparse_u16 (uptr h) ++ replicate (Z.to_nat (4 * doff h - 20)) x00.

Lemma Zlen_wire_pre h : Zlen (wire_pre h) = 16.
Proof.
  unfold wire_pre, unparse_u8, unparse_u16, unparse_u32.
  rewrite !Zlen_app, !length_unparse. done.
Qed.

Lemma Zlen_wire_post h : 5 <= doff h -> Zlen (wire_post h) = 4 * doff h - 18.
Proof.
  intros. unfold wire_post, unparse_u16.
  rewrite Zlen_app, length_unparse, Zlen_replicate. lia.
Qed.

Lemma serialize_wire h :
  5 <= doff h -> serialize h = Ok (wire_pre h ++ unparse_u16 (cksum h) ++ wire_post h).
Proof.
  intros Hd. unfold serialize. destruct (Z.ltb_spec (doff h) 5); [lia|]. f_equal.
  rewrite str_resize_pad;
    unfold unparse_u8, unparse_u16, unparse_u32; rewrite !Zlen_app, !length_unparse; [|lia].
  unfold wire_pre, wire_post, unparse_u8, unparse_u16, unparse_u32.
  rewrite <- !app_assoc. repeat f_equal.
Qed.

Lemma doff_wire h : 5 <= doff h <= 15 -> Z.shiftr (Prelude.u8 (Z.shiftl (doff h) 4)) 4 = doff h.
Proof.
  intros Hd. rewrite Z.shiftl_mul_pow2, Z.shiftr_div_pow2 by lia.
  rewrite u8_small by lia. apply Z.div_mul. lia.
Qed.

(** Parsing a serialized header gives the header back and stops after it. *)
Lemma parse_serialize h l p rest :
  header_ok h -> serialize h = Ok l -> ready p (l ++ rest) ->
  exists p', parse p = (p', (h, NoError)) /\ ready p' rest.
Proof.
  intros Hok Hl Hr. destruct Hok as [H1 H2 H3 H4 H5 H6 H7 H8].
  rewrite serialize_wire in Hl by lia. apply Ok_inj in Hl as <-.
  unfold wire_pre, wire_post in Hr. rewrite <- !app_assoc in Hr.
  unfold parse, mbind, st_bind. pose proof (flags_byte_range h).
  assert (0 <= Prelude.u8 (Z.shiftl (doff h) 4) < 2 ^ 8) by (apply Z.mod_pos_bound; lia).
  do 9 (parse_step; [assumption|]).
  destruct (flags_byte_bits h) as (-> & -> & -> & -> & -> & ->).
  rewrite doff_wire by done. cbn [doff].
  destruct (Z.ltb_spec (doff h) 5); [lia|].
  lazymatch goal with Hr : ready ?q _ |- _ =>
    destruct (remove_prefix_ready q _ (doff h * 4 - LENGTH) Hr) as (p' & -> & Hr');
      [unfold LENGTH; rewrite Zlen_app, Zlen_replicate; pose proof (Zlen_nonneg rest); lia|] end.
  unfold check_error. rewrite (error_ready _ _ Hr'). exists p'. split.
  - destruct h as [? ? [] [] ? ? ? ? ? ? ? ? ? ?]. done.
  - unfold zdrop, LENGTH in Hr'. rewrite drop_app_length' in Hr'; [done|].
    rewrite length_replicate. lia.
Qed.

(** What [TCPHeader::parse] leaves of an arbitrary input. *)
Lemma parse_consumed l p :
  consumed l 0 p ->
  exists p' h r, parse p = (p', (h, r)) /\ 0 <= doff h /\
    consumed l (if doff h <? 5 then LENGTH else doff h * 4) p' /\
    (LENGTH <= Zlen l -> doff h = Z.shiftr (b2z (l !!! 12%nat)) 4).
Proof.
  intros Hc. unfold parse, mbind, st_bind, u8, u16, u32. do 9 parse_any.
  cbn [doff]. assert (0 <= Z.shiftr v3 4) as Hd by (apply Z.shiftr_nonneg; lia).
  assert (LENGTH <= Zlen l -> Z.shiftr v3 4 = Z.shiftr (b2z (l !!! 12%nat)) 4) as Hoff.
  { unfold LENGTH. intros. rewrite Hv3 by lia. f_equal. apply parse_loop_byte. lia. }
  destruct (Z.ltb_spec (Z.shiftr v3 4) 5) as [Hs|Hs].
  - do 3 eexists. split; [done|]. cbn [doff]. split; [done|]. split; [|done].
    destruct (Z.ltb_spec (Z.shiftr v3 4) 5); [done|lia].
  - assert (consumed l (Z.shiftr v3 4 * 4)
      (fst (parser_remove_prefix (Z.shiftr v3 4 * 4 - LENGTH) p8))) as Hr.
    { replace (Z.shiftr v3 4 * 4) with (20 + (Z.shiftr v3 4 * 4 - LENGTH)) at 1
        by (unfold LENGTH; lia).
      apply remove_prefix_consumed; [lia | unfold LENGTH; lia | assumption]. }
    destruct (parser_remove_prefix _ p8) as [q []]. cbn [fst] in Hr. unfold check_error.
    eexists q, _, (if error q then get_error q else NoError).
    split; [by destruct (error q)|]. cbn [doff].
    destruct (Z.ltb_spec (Z.shiftr v3 4) 5); [lia|]. done.
Qed.

#[global] Arguments serialize : simpl never.
