(* ===== verification/TCPSegment.v ===== *)
(** * TCP segments

    Models [src/libsponge/tcp_helpers/tcp_segment.hh] and [tcp_segment.cc]: a
    header and a payload, with the checksum over both. *)
From stdpp Require Import base tactics list numbers option.
From Stdlib Require Import ZArith Lia.
From S2P Require Import Prelude WrappingIntegers Buffer NetParser Checksum TCPHeader.

Record TCPSegment := mkTCPSegment { _header : TCPHeader; _payload : Buffer }.

Definition default_segment : TCPSegment := mkTCPSegment default_header buf_default.

(** Assignments through the accessors [header()] and [payload()]. *)
Definition set_header (s : TCPSegment) (h : TCPHeader) : TCPSegment := mkTCPSegment h (_payload s).
Definition set_payload (s : TCPSegment) (b : Buffer) : TCPSegment := mkTCPSegment (_header s) b.

(** [TCPSegment::parse]: the result of the header's own [parse] is dropped; a
    bad checksum leaves the segment as it was. *)
Definition parse (s : TCPSegment) (buffer : Buffer) (datagram_layer_checksum : Z)
    : TCPSegment * ParseResult :=
  let check := Checksum.add (Checksum.new datagram_layer_checksum) (str buffer) in
  if negb (Checksum.value check =? 0) then (s, BadChecksum)
  else
    let '(p, (h, _)) := TCPHeader.parse (NetParser.new buffer) in
    (mkTCPSegment h (NetParser._buffer p), get_error p).

Definition length_in_sequence_space (s : TCPSegment) : Z :=
  u64 (Zlen (str (_payload s)) + b2i (syn (_header s)) + b2i (fin (_header s))).

(** [TCPSegment::serialize]: two passes over the header, the first with a zero
    checksum field. *)
Definition serialize (s : TCPSegment) (datagram_layer_checksum : Z) : outcome BufferList :=
  let header_out := set_cksum (_header s) 0 in
  hdr ← TCPHeader.serialize header_out;
  let check := Checksum.add (Checksum.new datagram_layer_checksum) hdr in
  let check := Checksum.add check (str (_payload s)) in
  let header_out := set_cksum header_out (Checksum.value check) in
  hdr' ← TCPHeader.serialize header_out;
  Ok (append (append [] (bl_of_string hdr')) (bl_of_buffer (_payload s))).

(** ** Properties *)

Lemma word_sum_pos p l b : b ∈ l -> 0 < b2z b -> 0 < word_sum p l.
Proof.
  intros Hb Hpos. apply list_elem_of_split in Hb as (l1 & l2 & ->).
  rewrite word_sum_app. cbn [word_sum].
  pose proof (word_sum_bound p l1). 
  pose proof (word_sum_bound (negb (flip p l1)) l2). destruct (flip p l1); lia.
Qed.

(** The data offset byte keeps the sum of a header from being zero. *)
Lemma wire_nonzero h rest : 5 <= doff h <= 15 -> 0 < word_sum false (wire_pre h ++ rest).
Proof.
  intros Hd. apply (word_sum_pos _ _ (z2b (Z.shiftl (doff h) 4))).
  - unfold wire_pre. rewrite !elem_of_app. left. do 4 right. left.
    unfold unparse_u8, _unparse_int. cbn [seq map]. apply list_elem_of_singleton. 
    apply b2z_inj. rewrite unparse_byte_val, b2z_z2b by done. unfold Prelude.u8.
    rewrite Z.shiftl_mul_pow2 by lia. change (2 ^ ((Z.of_nat 1 - Z.of_nat 0 - 1) * 8)) with 1.
    rewrite Z.div_1_r. rewrite Z.mod_mod; done.
  - rewrite b2z_z2b, Z.shiftl_mul_pow2 by lia. rewrite u8_small; lia.
Qed.

Lemma wire_set_cksum h c :
  wire_pre (set_cksum h c) = wire_pre h /\ wire_post (set_cksum h c) = wire_post h.
Proof. done. Qed.

Lemma unparse_u16_bytes c : unparse_u16 c = [z2b (c / 256); z2b c].
Proof.
  unfold unparse_u16, _unparse_int. cbn [seq map]. f_equal.
  - apply b2z_inj. rewrite unparse_byte_val, b2z_z2b by done. done.
  - f_equal. apply b2z_inj. rewrite unparse_byte_val, b2z_z2b by done.
    change (2 ^ ((Z.of_nat 2 - Z.of_nat 1 - 1) * 8)) with 1. rewrite Z.div_1_r. done.
Qed.

(** The bytes of a serialized segment and their checksum. *)
Lemma serialize_spec s d :
  header_ok (_header s) -> 0 <= d <= 2 ^ 19 -> 4 * doff (_header s) + size (_payload s) <= 65535 ->
  exists bl c hdr, serialize s d = Ok bl /\ 0 <= c < 2 ^ 16 /\
    TCPHeader.serialize (set_cksum (_header s) c) = Ok hdr /\
    concatenate bl = hdr ++ str (_payload s) /\
    Checksum.value (Checksum.add (Checksum.new d) (concatenate bl)) = 0.
Proof.
  intros Hok Hd Hsz. set (h := _header s) in *. pose proof (ok_doff _ Hok) as Hdoff.
  set (post := wire_post h ++ str (_payload s)).
  pose (c := Checksum.value (Checksum.add (Checksum.new d) (wire_pre h ++ [x00; x00] ++ post))).
  unfold serialize. fold h.
  rewrite serialize_wire by (cbn [doff set_cksum]; lia).
  destruct (wire_set_cksum h 0) as [-> ->]. cbn [cksum set_cksum mbind outcome_bind].
  rewrite unparse_u16_bytes. change ([z2b (0 / 256); z2b 0]) with [x00; x00].
  rewrite <- add_app. rewrite <- !app_assoc. fold post c.
  change (set_cksum (set_cksum h 0) c) with (set_cksum h c).
  pose proof (serialize_wire (set_cksum h c) ltac:(cbn [doff set_cksum]; lia)) as E. rewrite E.
  eexists _, c, _. split; [done|]. split; [apply value_range|]. split; [exact E|].
  destruct (wire_set_cksum h c) as [-> ->].
  unfold append, bl_of_string, bl_of_buffer, concatenate. cbn [app map concat].
  rewrite app_nil_r, str_of_string. split; [done|].
  cbn [cksum set_cksum]. rewrite unparse_u16_bytes, <- !app_assoc. fold post.
  pose proof (Zlen_wire_pre h) as H1. pose proof (Zlen_wire_post h ltac:(lia)) as H2.
  apply value_completed; unfold post; [lia | by rewrite H1 | | | done].
  - rewrite Zlen_app, H1, H2. unfold size in Hsz. lia.
  - pose proof (wire_nonzero h ([x00; x00] ++ wire_post h ++ str (_payload s)) Hdoff). lia.
Qed.

(** Reading a serialized segment back from any buffer with its bytes. *)
Lemma parse_serialize_segment s s0 d :
  header_ok (_header s) -> 0 <= d <= 2 ^ 19 -> 4 * doff (_header s) + size (_payload s) <= 65535 ->
  exists bl c, serialize s d = Ok bl /\
    Zlen (concatenate bl) = 4 * doff (_header s) + size (_payload s) /\
    forall b, buf_wf b -> str b = concatenate bl ->
    exists s', parse s0 b d = (s', NoError) /\
      _header s' = set_cksum (_header s) c /\ str (_payload s') = str (_payload s).
Proof.
  intros Hok Hd Hsz. destruct (serialize_spec s d Hok Hd Hsz) as (bl & c & hdr & E & Hc & Eh & Ec & Ev).
  exists bl, c. split; [done|].
  assert (header_ok (set_cksum (_header s) c)) as Hok' by (destruct Hok; split; done).
  split.
  { pose proof (serialize_wire (set_cksum (_header s) c)) as Ew.
    rewrite Ew in Eh by apply Hok'. apply Ok_inj in Eh as <-. rewrite Ec, !Zlen_app.
    rewrite Zlen_wire_pre, Zlen_wire_post by apply Hok'.
    unfold unparse_u16. rewrite length_unparse. cbn [doff set_cksum]. unfold size. lia. }
  intros b Hb Eb. unfold parse. rewrite Eb, Ev. cbn [Z.eqb negb].
  destruct (parse_serialize _ hdr (NetParser.new b) (str (_payload s)) Hok' Eh) as (p & -> & Hp);
    [by rewrite <- Ec, <- Eb|].
  eexists. split; [f_equal; by destruct Hp|]. split; [done|]. by eapply ready_str.
Qed.

(** C40. A segment survives serialization: for every well-formed header and a
    payload that fits a datagram, [serialize] succeeds, and [parse] of the
    bytes (over the same pseudo-header sum) accepts them and gives back the
    header, with the computed checksum filled in, and the payload. *)
Theorem segment_roundtrip s s0 d :
  header_ok (_header s) -> 0 <= d <= 2 ^ 19 -> 4 * doff (_header s) + size (_payload s) <= 65535 ->
  exists bl c s', serialize s d = Ok bl /\
    parse s0 (buf_of_string (concatenate bl)) d = (s', NoError) /\
    _header s' = set_cksum (_header s) c /\ str (_payload s') = str (_payload s).
Proof.
  intros Hok Hd Hsz. destruct (parse_serialize_segment s s0 d Hok Hd Hsz) as (bl & c & E & Hl & Hp).
  destruct (Hp (buf_of_string (concatenate bl))) as (s' & H');
    [apply buf_of_string_wf; lia | done |]. by exists bl, c, s'.
Qed.

Lemma segment_roundtrip_witness :
  let s := mkTCPSegment (set_syn (set_ports default_header 80 443) true) (buf_of_string [x61; x62; x63]) in
  exists bl c s', serialize s 77 = Ok bl /\
    parse default_segment (buf_of_string (concatenate bl)) 77 = (s', NoError) /\
    _header s' = set_cksum (_header s) c /\ str (_payload s') = str (_payload s).
Proof.
  apply segment_roundtrip; [split; vm_compute; split; (reflexivity || discriminate) | lia |].
  vm_compute. discriminate.
Defined.

(** The verdict of [TCPSegment::parse] on an arbitrary buffer, in every
    case: a bad checksum, fewer than 20 bytes, or a data offset that reaches
    beyond the buffer are refused.  A data offset below the minimum of five
    words is accepted, because the result of [TCPHeader::parse] is dropped. *)
Theorem segment_parse_verdict s b d :
  buf_wf b ->
  snd (parse s b d) =
    (if negb (Checksum.value (Checksum.add (Checksum.new d) (str b)) =? 0) then BadChecksum
     else
       let off := Z.shiftr (b2z (str b !!! 12%nat)) 4 in
       if size b <? LENGTH then PacketTooShort
       else if off <? 5 then NoError
       else if size b <? 4 * off then PacketTooShort
       else NoError).
Proof.
  intros Hb. unfold parse. destruct (negb _); [done|].
  destruct (parse_consumed (str b) (NetParser.new b)) as (p & h & r & -> & Hd & Hc & Hoff);
    [by apply consumed_new|]. cbn [snd]. rewrite (consumed_error _ _ _ Hc).
  unfold size, LENGTH in *. cbv zeta.
  destruct (Z.ltb_spec (Zlen (str b)) 20).
  - destruct (Z.ltb_spec (doff h) 5);
      match goal with |- context [?a <=? ?z] => destruct (Z.leb_spec a z) end; done || lia.
  - rewrite <- Hoff by lia. destruct (Z.ltb_spec (doff h) 5).
    + destruct (Z.leb_spec 20 (Zlen (str b))); [done|lia].
    + destruct (Z.leb_spec (doff h * 4) (Zlen (str b))), (Z.ltb_spec (Zlen (str b)) (4 * doff h));
        done || lia.
Qed.

(** A segment of 20 bytes whose data offset is zero, accepted. *)
Lemma segment_parse_verdict_witness :
  snd (parse default_segment (buf_of_string (replicate 16 x00 ++ [xff; xff; x00; x00])) 0) = NoError.
Proof. rewrite segment_parse_verdict; [vm_compute; reflexivity | vm_compute; repeat split; discriminate]. Defined.
