(* ===== verification/IPv4Datagram.v ===== *)
(** * IPv4 datagrams

    Models [src/libsponge/tcp_helpers/ipv4_datagram.hh] and [ipv4_datagram.cc]:
    a header and a list of payload buffers; [parse] and [serialize]. *)
From stdpp Require Import base tactics list numbers option.
From Stdlib Require Import ZArith Lia.
From S2P Require Import Prelude Buffer NetParser Checksum TCPSegment IPv4Header.

Record IPv4Datagram := mkIPv4Datagram { _header : IPv4Header; _payload : BufferList }.

Definition default_datagram : IPv4Datagram := mkIPv4Datagram default_header [].

(** [IPv4Datagram::parse] on the object [d0]: the result of the header's own
    [parse] is dropped. *)
Definition parse (d0 : IPv4Datagram) (buffer : Buffer) : IPv4Datagram * ParseResult :=
  let '(p, (h, _)) := IPv4Header.parse (_header d0) (NetParser.new buffer) in
  let d := mkIPv4Datagram h (bl_of_buffer (NetParser._buffer p)) in
  if negb (bl_size (_payload d) =? payload_length h) then (d, PacketTooShort)
  else (d, get_error p).

(** [IPv4Datagram::serialize]: two passes over the header, the first with a
    zero checksum field. *)
Definition serialize (d : IPv4Datagram) : outcome BufferList :=
  if negb (bl_size (_payload d) =? payload_length (_header d)) then Throw RuntimeError
  else
    let header_out := set_cksum (_header d) 0 in
    header_zero_checksum ← IPv4Header.serialize header_out;
    let check := Checksum.add (Checksum.new 0) header_zero_checksum in
    let header_out := set_cksum header_out (Checksum.value check) in
    hdr ← IPv4Header.serialize header_out;
    Ok (append (append [] (bl_of_string hdr)) (_payload d)).

(** ** Properties *)

(** A datagram that can be sent: well-formed header, and a payload of the
    length the header announces. *)
Record datagram_ok (d : IPv4Datagram) : Prop := {
  ok_header : header_ok (_header d);
  ok_payload : len (_header d) = 4 * hlen (_header d) + Zlen (concatenate (_payload d))
}.

Lemma ip_wire_set_cksum h c :
  wire_pre (set_cksum h c) = wire_pre h /\ wire_post (set_cksum h c) = wire_post h.
Proof. done. Qed.

Lemma set_cksum_ok h c : header_ok h -> 0 <= c < 2 ^ 16 -> header_ok (set_cksum h c).
Proof. intros [] ?. by split. Qed.

Lemma payload_length_ok d :
  datagram_ok d -> payload_length (_header d) = Zlen (concatenate (_payload d)).
Proof.
  intros [Hok Hp]. destruct Hok. unfold payload_length. rewrite u16_small; lia.
Qed.

Lemma datagram_size_ok d :
  datagram_ok d -> bl_size (_payload d) = payload_length (_header d).
Proof.
  intros Hd. rewrite bl_size_spec, payload_length_ok by done.
  destruct Hd as [[] Hp]. apply u64_small. pose proof (Zlen_nonneg (concatenate (_payload d))). lia.
Qed.

(** The first byte keeps the sum of a header from being zero. *)
Lemma ip_wire_nonzero h rest : header_ok h -> 0 < word_sum false (wire_pre h ++ rest).
Proof.
  intros Hok. pose proof (first_byte_wire h Hok) as (Hr & _ & _ & Hpos).
  apply (word_sum_pos _ _ (z2b (first_byte h))).
  - unfold wire_pre. rewrite !elem_of_app. left. left.
    unfold unparse_u8, _unparse_int. cbn [seq map]. apply list_elem_of_singleton.
    apply b2z_inj. rewrite unparse_byte_val, b2z_z2b by done.
    change (2 ^ ((Z.of_nat 1 - Z.of_nat 0 - 1) * 8)) with 1. by rewrite Z.div_1_r.
  - rewrite b2z_z2b, u8_small; lia.
Qed.

(** The bytes of a serialized datagram, whose header checksum verifies. *)
Lemma datagram_serialize_spec d :
  datagram_ok d ->
  exists bl c, serialize d = Ok bl /\ 0 <= c < 2 ^ 16 /\
    let h := set_cksum (_header d) c in
    let wire := wire_pre h ++ unparse_u16 c ++ wire_post h in
    concatenate bl = wire ++ concatenate (_payload d) /\
    Checksum.value (Checksum.add (Checksum.new 0) wire) = 0.
Proof.
  intros Hd. pose proof (ok_header _ Hd) as Hok. set (h := _header d) in *.
  pose (c := Checksum.value (Checksum.add (Checksum.new 0) (wire_pre h ++ [x00; x00] ++ wire_post h))).
  unfold serialize. rewrite (datagram_size_ok d Hd), Z.eqb_refl. cbn [negb]. fold h.
  pose proof (ok_hlen _ Hok) as Hh. pose proof (ok_ver _ Hok) as Hv.
  rewrite ip_serialize_wire by (cbn [ver hlen set_cksum]; lia). destruct (ip_wire_set_cksum h 0) as [-> ->].
  cbn [IPv4Header.cksum set_cksum mbind outcome_bind]. rewrite unparse_u16_bytes.
  change ([z2b (0 / 256); z2b 0]) with [x00; x00]. fold c.
  change (set_cksum (set_cksum h 0) c) with (set_cksum h c).
  rewrite ip_serialize_wire by (cbn [ver hlen set_cksum]; lia). cbn [IPv4Header.cksum set_cksum].
  eexists _, c. split; [done|]. split; [apply value_range|]. cbv zeta.
  destruct (ip_wire_set_cksum h c) as [-> ->].
  rewrite !concatenate_app. unfold bl_of_string at 1, concatenate at 1 2. cbn [app map concat].
  rewrite app_nil_r, str_of_string. split; [done|]. rewrite unparse_u16_bytes.
  pose proof (Zlen_ip_pre h) as H1. pose proof (Zlen_ip_post h ltac:(lia)) as H2.
  apply value_completed; [lia | by rewrite H1 | lia | | done].
  pose proof (ip_wire_nonzero h ([x00; x00] ++ wire_post h) Hok). lia.
Qed.

(** Reading a serialized datagram back from any buffer with its bytes. *)
Lemma datagram_over_wire d d0 :
  datagram_ok d ->
  exists bl c, serialize d = Ok bl /\ 0 <= c < 2 ^ 16 /\ Zlen (concatenate bl) = len (_header d) /\
    forall b, buf_wf b -> str b = concatenate bl ->
    snd (snd (IPv4Header.parse (_header d0) (NetParser.new b))) = NoError /\
    exists d', parse d0 b = (d', NoError) /\ _header d' = set_cksum (_header d) c /\
      concatenate (_payload d') = concatenate (_payload d) /\
      exists b', _payload d' = bl_of_buffer b' /\ buf_wf b'.
Proof.
  intros Hd. destruct (datagram_serialize_spec d Hd) as (bl & c & E & Hc & Hbl & Hv). exists bl, c.
  pose proof (set_cksum_ok _ c (ok_header _ Hd) Hc) as Hok.
  split; [done|]. split; [done|]. split.
  { rewrite Hbl, Zlen_app. pose proof (Zlen_wire _ (proj1 (ok_hlen _ Hok))) as Hw.
    cbn [IPv4Header.cksum set_cksum] in Hw. rewrite Hw. destruct Hd as [_ Hp].
    cbn [hlen set_cksum]. lia. }
  intros b Hb Eb.
  destruct (parse_wire _ (_header d0) (NetParser.new b)
    (concatenate (_payload d)) Hok (ok_payload _ Hd)) as (p & Ep & Hp).
  { cbn [IPv4Header.cksum set_cksum]. rewrite <- Hbl, <- Eb. done. }
  cbn [IPv4Header.cksum set_cksum] in Ep. rewrite Hv in Ep. cbn [Z.eqb negb] in Ep.
  unfold parse. rewrite Ep. split; [done|]. cbn [_payload].
  assert (concatenate (bl_of_buffer (_buffer p)) = concatenate (_payload d)) as Hpay.
  { unfold bl_of_buffer, concatenate at 1. cbn. rewrite app_nil_r. by apply ready_str. }
  rewrite bl_size_spec, Hpay, <- bl_size_spec, (datagram_size_ok d Hd).
  change (payload_length (set_cksum (_header d) c)) with (payload_length (_header d)).
  rewrite Z.eqb_refl. cbn [negb]. eexists. split; [f_equal; by destruct Hp|].
  split; [done|]. split; [done|]. eexists. split; [done|]. by destruct Hp.
Qed.

Lemma datagram_parse_serialize d d0 :
  datagram_ok d ->
  exists bl c, serialize d = Ok bl /\ Zlen (concatenate bl) = len (_header d) /\
    forall b, buf_wf b -> str b = concatenate bl ->
    snd (snd (IPv4Header.parse (_header d0) (NetParser.new b))) = NoError /\
    exists d', parse d0 b = (d', NoError) /\ _header d' = set_cksum (_header d) c /\
      concatenate (_payload d') = concatenate (_payload d) /\
      exists b', _payload d' = bl_of_buffer b' /\ buf_wf b'.
Proof.
  intros Hd. destruct (datagram_over_wire d d0 Hd) as (bl & c & E & _ & H). by exists bl, c.
Qed.

(** C39. A datagram survives the wire: when the payload has the length the
    header announces and every field fits, [serialize] succeeds; the header of
    the bytes passes all checks of [IPv4Header::parse], its checksum included;
    and [IPv4Datagram::parse] gives back the header, with the computed
    checksum filled in, and the payload bytes. *)
Theorem datagram_roundtrip d d0 :
  datagram_ok d ->
  exists bl c d', serialize d = Ok bl /\
    snd (snd (IPv4Header.parse (_header d0) (NetParser.new (buf_of_string (concatenate bl))))) = NoError /\
    parse d0 (buf_of_string (concatenate bl)) = (d', NoError) /\
    _header d' = set_cksum (_header d) c /\
    concatenate (_payload d') = concatenate (_payload d).
Proof.
  intros Hd. destruct (datagram_parse_serialize d d0 Hd) as (bl & c & E & Hl & Hp).
  destruct (Hp (buf_of_string (concatenate bl))) as (H1 & d' & H2 & H3 & H4 & _);
    [apply buf_of_string_wf; destruct Hd as [[] _]; lia | done |].
  by exists bl, c, d'.
Qed.

Lemma datagram_roundtrip_witness :
  let d := mkIPv4Datagram (set_addrs (set_len default_header 23) 167772161 167772162)
             (bl_of_string [x61; x62; x63]) in
  exists bl c d', serialize d = Ok bl /\
    snd (snd (IPv4Header.parse default_header (NetParser.new (buf_of_string (concatenate bl))))) = NoError /\
    parse default_datagram (buf_of_string (concatenate bl)) = (d', NoError) /\
    _header d' = set_cksum (_header d) c /\ concatenate (_payload d') = concatenate (_payload d).
Proof.
  apply (datagram_roundtrip _ default_datagram).
  split; [split; vm_compute; repeat split; (reflexivity || discriminate) | vm_compute; reflexivity].
Defined.

(** The header fields that decide a parse, at their place in the bytes. *)
Definition wire_ver (l : list byte) : Z := Z.shiftr (b2z (l !!! 0%nat)) 4.
Definition wire_hlen (l : list byte) : Z := Z.land (b2z (l !!! 0%nat)) 15.
Definition wire_len (l : list byte) : Z := parse_loop 16 (ztake 2 (zdrop 2 l)).

(** An early return of the header's parse: nothing after the fixed fields is consumed. *)
Ltac early_return Hr :=
  do 3 eexists; split; [done|]; split; [done|]; split; [by destruct Hr|];
  by split; [by destruct Hr|].

(** What [IPv4Header::parse] leaves, with its result. *)
Lemma header_parse_left b h0 :
  buf_wf b -> LENGTH <= size b ->
  exists p h r, IPv4Header.parse h0 (NetParser.new b) = (p, (h, r)) /\
    payload_length h = Prelude.u16 (wire_len (str b) - 4 * wire_hlen (str b)) /\
    get_error p = NoError /\
    (if (4 * wire_hlen (str b) <=? size b) && (wire_ver (str b) =? 4) &&
        (5 <=? wire_hlen (str b)) && (size b =? wire_len (str b))
     then str (_buffer p) = zdrop (4 * wire_hlen (str b)) (str b) /\
          (r = NoError \/ r = BadChecksum)
     else str (_buffer p) = zdrop LENGTH (str b) /\ r <> NoError).
Proof.
  intros Hb Hl. unfold IPv4Header.parse. cbn [_buffer NetParser.new].
  destruct (Z.ltb_spec (size b) LENGTH); [lia|]. unfold size in *.
  destruct (parse_fields_consumed (str b) (NetParser.new b)) as (p & h & E & Hr & Hh & _ & Ev & Eh & El);
    [by apply consumed_new | done |].
  fold (wire_ver (str b)) in Ev. fold (wire_hlen (str b)) in Eh. fold (wire_len (str b)) in El.
  unfold mbind, st_bind at 1. rewrite E. unfold parse_checks, size, payload_length.
  rewrite <- Ev, <- Eh, <- El.
  destruct (Z.ltb_spec (Zlen (str b)) (4 * hlen h)), (Z.leb_spec (4 * hlen h) (Zlen (str b))); try lia;
    cbn [andb]; [early_return Hr|].
  destruct (Z.eqb_spec (ver h) 4); cbn [negb andb];
    [|early_return Hr].
  destruct (Z.ltb_spec (hlen h) 5), (Z.leb_spec 5 (hlen h)); try lia; cbn [andb];
    [early_return Hr|].
  destruct (Z.eqb_spec (Zlen (str b)) (len h)); cbn [negb];
    [|early_return Hr].
  unfold mbind, st_bind. unfold LENGTH in *.
  destruct (remove_prefix_ready p _ (hlen h * 4 - 20) Hr) as (p2 & -> & Hr2); [zlen|].
  rewrite zdrop_zdrop in Hr2 by lia. replace (20 + (hlen h * 4 - 20)) with (4 * hlen h) in Hr2 by lia.
  unfold parse_checksum. rewrite (error_ready _ _ Hr2).
  destruct (negb _); do 3 eexists; (split; [done|]); destruct Hr2; auto 6.
Qed.

(** The verdict of [IPv4Datagram::parse] on an arbitrary buffer.  A packet
    shorter than a header is refused by a fresh object.  Otherwise the result
    of the header's checks is lost: the packet is accepted when the header is
    sound {e up to its checksum}, and also whenever the bytes after the first
    twenty happen to have the announced payload length, whatever the version.
    So a corrupted header checksum is never refused. *)
Theorem datagram_parse_verdict b :
  buf_wf b ->
  snd (parse default_datagram b) =
    (let l := str b in
     if size b <? LENGTH then PacketTooShort
     else if (4 * wire_hlen l <=? size b) && (wire_ver l =? 4) && (5 <=? wire_hlen l) &&
             (size b =? wire_len l) then NoError
     else if size b - LENGTH =? Prelude.u16 (wire_len l - 4 * wire_hlen l) then NoError
     else PacketTooShort).
Proof.
  intros Hb. cbv zeta. unfold parse. destruct (Z.ltb_spec (size b) LENGTH) as [Hs|Hs].
  - unfold IPv4Header.parse. cbn [_buffer NetParser.new].
    destruct (Z.ltb_spec (size b) LENGTH); [|lia]. cbn [_payload _buffer NetParser.new].
    rewrite bl_size_spec. unfold bl_of_buffer, concatenate. cbn [map concat].
    rewrite app_nil_r. fold (size b). pose proof (Zlen_nonneg (str b)). unfold LENGTH in *.
    change (payload_length (_header default_datagram)) with 65516.
    rewrite u64_small by (unfold size in *; lia).
    destruct (Z.eqb_spec (size b) 65516); [lia|done].
  - destruct (header_parse_left b (_header default_datagram) Hb Hs) as (p & h & r & -> & -> & He & Hcase).
    rewrite He. cbn [_payload]. rewrite bl_size_spec. unfold bl_of_buffer, concatenate. cbn [map concat].
    rewrite app_nil_r.
    assert (0 <= wire_hlen (str b)) as Hh by (apply Z.land_nonneg; lia).
    assert (Zlen (str b) < 2 ^ 64) as Hsz by (by apply buf_wf_size).
    destruct (_ && _) eqn:Eok in Hcase; rewrite Eok; destruct Hcase as [-> _].
    + bsplit. unfold size, LENGTH in *. rewrite Zlen_zdrop by lia. rewrite u64_small by lia.
      assert (0 <= wire_len (str b) < 2 ^ 16) by (apply (parse_loop_range 16); lia).
      rewrite u16_small by lia.
      match goal with |- context [?a =? ?c] => destruct (Z.eqb_spec a c) end; [done|lia].
    + unfold size, LENGTH in *. rewrite Zlen_zdrop by lia. rewrite u64_small by lia.
      rewrite Z.max_r by lia.
      match goal with |- context [?a =? ?c] => destruct (Z.eqb_spec a c) end; done.
Qed.

(** Twenty bytes of an IPv4 header with a corrupted checksum (its [IPv4Header::parse]
    reports [BadChecksum]) and the same bytes claiming version 6: both accepted. *)
Lemma datagram_parse_verdict_witness :
  let bytes v := buf_of_string ([v; x00; x00; x14] ++ replicate 16 x00) in
  snd (snd (IPv4Header.parse default_header (NetParser.new (bytes x45)))) = BadChecksum /\
  snd (parse default_datagram (bytes x45)) = NoError /\
  snd (snd (IPv4Header.parse default_header (NetParser.new (bytes x65)))) = WrongIPVersion /\
  snd (parse default_datagram (bytes x65)) = NoError.
Proof.
  cbv zeta. split; [vm_compute; reflexivity|].
  split; [rewrite datagram_parse_verdict; [vm_compute; reflexivity | vm_compute; repeat split; discriminate]|].
  split; [vm_compute; reflexivity|].
  rewrite datagram_parse_verdict; [vm_compute; reflexivity | vm_compute; repeat split; discriminate].
Defined.

#[global] Arguments serialize : simpl never.
