(* ===== verification/Ethernet.v ===== *)
(** * Ethernet headers and frames

    Models [src/libsponge/tcp_helpers/ethernet_header.hh], [ethernet_header.cc],
    [ethernet_frame.hh] and [ethernet_frame.cc]. *)
From stdpp Require Import base tactics list numbers option.
From Stdlib Require Import ZArith Lia.
From S2P Require Import Prelude Buffer NetParser.

(** [std::array<uint8_t, 6>]. *)
Definition EthernetAddress : Type := list Z.
Definition ETHERNET_BROADCAST : EthernetAddress := [255; 255; 255; 255; 255; 255].

Definition LENGTH : Z := 14.
Definition TYPE_IPv4 : Z := 2048.
Definition TYPE_ARP : Z := 2054.

Record EthernetHeader := mkEthernetHeader { dst : EthernetAddress; src : EthernetAddress; type : Z }.

Definition default_header : EthernetHeader :=
  mkEthernetHeader (replicate 6 0) (replicate 6 0) 0.

(** [return p.get_error()] after the fields of [a] were assigned. *)
Definition return_error {A} (a : A) : st NetParser (A * ParseResult) := fun p =>
  (p, (a, get_error p)).

(** The three fields in order, with the parser's error at the end. *)
Definition parse_fields : st NetParser (EthernetHeader * ParseResult) :=
  d ← parse_bytes 6;
  s ← parse_bytes 6;
  t ← u16;
  return_error (mkEthernetHeader d s t).

(** [EthernetHeader::parse] on the object [h0]: a short buffer leaves the
    object and the parser as they are. *)
Definition parse_header (h0 : EthernetHeader) : st NetParser (EthernetHeader * ParseResult) :=
  fun p =>
    if size (_buffer p) <? LENGTH then (p, (h0, PacketTooShort)) else parse_fields p.

Definition serialize_header (h : EthernetHeader) : list byte :=
  unparse_bytes (dst h) ++ unparse_bytes (src h) ++ unparse_u16 (type h).

Record EthernetFrame := mkEthernetFrame { _header : EthernetHeader; _payload : BufferList }.

Definition default_frame : EthernetFrame := mkEthernetFrame default_header [].

(** [EthernetFrame::parse]: the result of the header's own [parse] is dropped. *)
Definition parse (f0 : EthernetFrame) (buffer : Buffer) : EthernetFrame * ParseResult :=
  let '(p, (h, _)) := parse_header (_header f0) (NetParser.new buffer) in
  (mkEthernetFrame h (bl_of_buffer (NetParser._buffer p)), get_error p).

Definition serialize (f : EthernetFrame) : BufferList :=
  append (append [] (bl_of_string (serialize_header f.(_header)))) f.(_payload).

(** ** Properties *)

Definition address_ok (a : EthernetAddress) : Prop :=
  length a = 6%nat /\ Forall (fun v => 0 <= v < 2 ^ 8) a.

Record header_ok (h : EthernetHeader) : Prop := {
  ok_dst : address_ok (dst h);
  ok_src : address_ok (src h);
  ok_type : 0 <= type h < 2 ^ 16
}.

Lemma broadcast_ok : address_ok ETHERNET_BROADCAST.
Proof. split; [done|]. repeat constructor; lia. Qed.

Lemma Zlen_unparse_bytes l : Zlen (unparse_bytes l) = Zlen l.
Proof.
  unfold unparse_bytes. induction l as [|v l IH]; [done|]. cbn [map concat].
  rewrite Zlen_app, IH, Zlen_cons. unfold unparse_u8. rewrite length_unparse. done.
Qed.

(** The address read back, with its length explicit. *)
Lemma parse_address_step a p rest :
  address_ok a -> ready p (unparse_bytes a ++ rest) ->
  exists p', parse_bytes 6 p = (p', a) /\ ready p' rest.
Proof. intros [Hl Ha] Hr. rewrite <- Hl. by apply parse_bytes_step. Qed.

Lemma Zlen_serialize_header h : header_ok h -> Zlen (serialize_header h) = LENGTH.
Proof.
  intros [[Hd _] [Hs _] _]. unfold serialize_header. rewrite !Zlen_app, !Zlen_unparse_bytes.
  unfold unparse_u16. rewrite length_unparse. unfold Zlen. rewrite Hd, Hs. done.
Qed.

Lemma parse_serialize_header h h0 p rest :
  header_ok h -> ready p (serialize_header h ++ rest) ->
  exists p', parse_header h0 p = (p', (h, NoError)) /\ ready p' rest.
Proof.
  intros Hok Hr. unfold parse_header, size. rewrite (ready_str _ _ Hr), Zlen_app.
  rewrite Zlen_serialize_header by done. pose proof (Zlen_nonneg rest).
  destruct (Z.ltb_spec (LENGTH + Zlen rest) LENGTH); [lia|].
  destruct Hok as [Hd Hs Ht]. unfold serialize_header in Hr. rewrite <- !app_assoc in Hr.
  unfold parse_fields, mbind, st_bind.
  destruct (parse_address_step _ _ _ Hd Hr) as (p1 & -> & Hr1).
  destruct (parse_address_step _ _ _ Hs Hr1) as (p2 & -> & Hr2).
  destruct (u16_step _ _ _ Ht Hr2) as (p3 & -> & Hr3).
  exists p3. split; [|done]. unfold return_error, get_error. rewrite (ready_ok _ _ Hr3). by destruct h.
Qed.

(** A frame written and read back has its header and its payload bytes. *)
Lemma frame_parse_serialize f f0 :
  header_ok (_header f) -> Zlen (concatenate (_payload f)) < 2 ^ 63 ->
  exists b, parse f0 (buf_of_string (concatenate (serialize f))) =
      (mkEthernetFrame (_header f) (bl_of_buffer b), NoError) /\
    buf_wf b /\ str b = concatenate (_payload f).
Proof.
  intros Hok Hsz. unfold serialize.
  rewrite !concatenate_app. unfold bl_of_string at 1, concatenate at 1 2. cbn [app map concat].
  rewrite app_nil_r, str_of_string. pose proof (Zlen_serialize_header _ Hok) as Hl.
  destruct (parse_serialize_header (_header f) (_header f0)
    (NetParser.new (buf_of_string (serialize_header (_header f) ++ concatenate (_payload f))))
    (concatenate (_payload f)) Hok) as (p & E & Hr).
  { apply ready_new. rewrite Zlen_app, Hl. unfold LENGTH. lia. }
  unfold parse. rewrite E. exists (NetParser._buffer p). destruct Hr as [Hw Hs He].
  split; [unfold get_error; by rewrite He | done].
Qed.

Lemma parse_bytes_consumed n l k p :
  0 <= k -> consumed l k p ->
  exists p' v, parse_bytes n p = (p', v) /\ consumed l (k + Z.of_nat n) p'.
Proof.
  revert k p. induction n as [|n IH]; intros k p Hk Hc.
  - exists p, []. rewrite Z.add_0_r. done.
  - cbn [parse_bytes]. unfold mbind, st_bind, u8. parse_any.
    destruct (IH (k + 1) p0) as (p' & w & -> & Hp'); [lia|done|].
    do 2 eexists. split; [done|]. by replace (k + Z.of_nat (S n)) with (k + 1 + Z.of_nat n) by lia.
Qed.

(** [EthernetFrame::parse] accepts every buffer: a frame too short for its
    header is not refused but read as a frame with the object's previous
    (all-zero) header and the whole buffer as payload, because the result of
    [EthernetHeader::parse] is dropped and the early return leaves no error in
    the parser. *)
Theorem frame_parse_accepts b :
  buf_wf b ->
  snd (parse default_frame b) = NoError /\
  (size b < LENGTH ->
     snd (snd (parse_header default_header (NetParser.new b))) = PacketTooShort /\
     fst (parse default_frame b) = mkEthernetFrame default_header (bl_of_buffer b)).
Proof.
  intros Hb. unfold parse, parse_header. cbn [_buffer NetParser.new].
  destruct (Z.ltb_spec (size b) LENGTH) as [Hs|Hs]; [done|]. split; [|intros; lia].
  unfold parse_fields, mbind, st_bind.
  pose proof (consumed_new b Hb) as Hc.
  destruct (parse_bytes_consumed 6 (str b) 0 _ ltac:(lia) Hc) as (p1 & d & -> & Hc1).
  destruct (parse_bytes_consumed 6 (str b) (0 + Z.of_nat 6) _ ltac:(lia) Hc1) as (p2 & s & -> & Hc2).
  clear Hc Hc1. unfold u16. parse_any. unfold return_error. cbn [snd]. rewrite (consumed_error _ _ _ Hc).
  unfold size, LENGTH in Hs. destruct (Z.leb_spec (0 + Z.of_nat 6 + Z.of_nat 6 + 2) (Zlen (str b)));
    [done|lia].
Qed.

Lemma frame_parse_accepts_witness :
  let b := buf_of_string [x02; x00] in
  snd (parse default_frame b) = NoError /\
  snd (snd (parse_header default_header (NetParser.new b))) = PacketTooShort.
Proof.
  cbv zeta. destruct (frame_parse_accepts (buf_of_string [x02; x00])) as [H1 H2].
  - vm_compute. repeat split; discriminate.
  - split; [exact H1|]. apply H2. vm_compute. reflexivity.
Defined.
