(* ===== verification/ARP.v ===== *)
(** * ARP messages

    Models [src/libsponge/tcp_helpers/arp_message.hh] and [arp_message.cc]. *)
From stdpp Require Import base tactics list numbers option.
From Stdlib Require Import ZArith Lia.
From S2P Require Import Prelude Buffer NetParser Ethernet.

Definition LENGTH : Z := 28.
Definition TYPE_ETHERNET : Z := 1.
Definition OPCODE_REQUEST : Z := 1.
Definition OPCODE_REPLY : Z := 2.

Record ARPMessage := mkARPMessage {
  hardware_type : Z;
  protocol_type : Z;
  hardware_address_size : Z;
  protocol_address_size : Z;
  opcode : Z;
  sender_ethernet_address : EthernetAddress;
  sender_ip_address : Z;
  target_ethernet_address : EthernetAddress;
  target_ip_address : Z
}.

(** The default member initialisers. *)
Definition default_message : ARPMessage :=
  mkARPMessage TYPE_ETHERNET TYPE_IPv4 6 4 0 (replicate 6 0) 0 (replicate 6 0) 0.

Definition supported (m : ARPMessage) : bool :=
  (hardware_type m =? TYPE_ETHERNET) && (protocol_type m =? TYPE_IPv4) &&
  (hardware_address_size m =? 6) && (protocol_address_size m =? 4) &&
  ((opcode m =? OPCODE_REQUEST) || (opcode m =? OPCODE_REPLY)).

(** The address fields, read when the message is supported. *)
Definition parse_addresses (m : ARPMessage) : st NetParser (ARPMessage * ParseResult) :=
  se ← parse_bytes 6;
  si ← u32;
  te ← parse_bytes 6;
  ti ← u32;
  return_error (mkARPMessage (hardware_type m) (protocol_type m) (hardware_address_size m)
                  (protocol_address_size m) (opcode m) se si te ti).

Definition parse_fields (m0 : ARPMessage) : st NetParser (ARPMessage * ParseResult) :=
  ht ← u16;
  pt ← u16;
  hs ← u8;
  ps ← u8;
  op ← u16;
  let m := mkARPMessage ht pt hs ps op (sender_ethernet_address m0) (sender_ip_address m0)
             (target_ethernet_address m0) (target_ip_address m0) in
  if negb (supported m) then mret (m, Unsupported) else parse_addresses m.

(** [ARPMessage::parse] on the object [m0]. *)
Definition parse (m0 : ARPMessage) (buffer : Buffer) : ARPMessage * ParseResult :=
  let p := NetParser.new buffer in
  if size (_buffer p) <? LENGTH then (m0, PacketTooShort)
  else snd (parse_fields m0 p).

Definition serialize (m : ARPMessage) : outcome (list byte) :=
  if negb (supported m) then Throw RuntimeError
  else
    Ok (unparse_u16 (hardware_type m) ++ unparse_u16 (protocol_type m) ++
        unparse_u8 (hardware_address_size m) ++ unparse_u8 (protocol_address_size m) ++
        unparse_u16 (opcode m) ++
        unparse_bytes (sender_ethernet_address m) ++ unparse_u32 (sender_ip_address m) ++
        unparse_bytes (target_ethernet_address m) ++ unparse_u32 (target_ip_address m)).

(** ** Properties *)

Record message_ok (m : ARPMessage) : Prop := {
  ok_supported : supported m = true;
  ok_sender_eth : address_ok (sender_ethernet_address m);
  ok_sender_ip : 0 <= sender_ip_address m < 2 ^ 32;
  ok_target_eth : address_ok (target_ethernet_address m);
  ok_target_ip : 0 <= target_ip_address m < 2 ^ 32
}.

Lemma supported_fields m :
  supported m = true ->
  hardware_type m = 1 /\ protocol_type m = 2048 /\ hardware_address_size m = 6 /\
  protocol_address_size m = 4 /\ (opcode m = 1 \/ opcode m = 2).
Proof.
  unfold supported, TYPE_ETHERNET, TYPE_IPv4, OPCODE_REQUEST, OPCODE_REPLY.
  rewrite !andb_true_iff, orb_true_iff, !Z.eqb_eq. tauto.
Qed.

(** A supported message is serialized to 28 bytes, which read back as itself. *)
Lemma arp_parse_serialize m m0 :
  message_ok m ->
  exists l, serialize m = Ok l /\ Zlen l = LENGTH /\
    forall b, buf_wf b -> str b = l -> parse m0 b = (m, NoError).
Proof.
  intros [Hs Hse Hsi Hte Hti]. pose proof (supported_fields m Hs) as (H1 & H2 & H3 & H4 & H5).
  unfold serialize. rewrite Hs. eexists. split; [done|].
  assert (Zlen (unparse_u16 (hardware_type m) ++ unparse_u16 (protocol_type m) ++
        unparse_u8 (hardware_address_size m) ++ unparse_u8 (protocol_address_size m) ++
        unparse_u16 (opcode m) ++
        unparse_bytes (sender_ethernet_address m) ++ unparse_u32 (sender_ip_address m) ++
        unparse_bytes (target_ethernet_address m) ++ unparse_u32 (target_ip_address m)) = LENGTH) as Hl.
  { rewrite !Zlen_app, !Zlen_unparse_bytes. unfold unparse_u8, unparse_u16, unparse_u32.
    rewrite !length_unparse. destruct Hse as [E1 _], Hte as [E2 _]. unfold Zlen. by rewrite E1, E2. }
  split; [done|]. intros b Hb Eb. unfold parse. cbn [_buffer NetParser.new]. unfold size.
  rewrite Eb, Hl. destruct (Z.ltb_spec LENGTH LENGTH); [lia|].
  assert (ready (NetParser.new b) (str b)) as Hr by done. rewrite Eb in Hr. clear Hl Eb.
  rewrite <- (app_nil_r (unparse_u32 (target_ip_address m))) in Hr.
  unfold parse_fields, mbind, st_bind. do 5 (parse_step; [lia|]).
  change (supported (mkARPMessage (hardware_type m) (protocol_type m) (hardware_address_size m)
    (protocol_address_size m) (opcode m) (sender_ethernet_address m0) (sender_ip_address m0)
    (target_ethernet_address m0) (target_ip_address m0))) with (supported m).
  rewrite Hs. cbn [negb]. unfold parse_addresses, mbind, st_bind.
  lazymatch goal with H : ready _ (unparse_bytes _ ++ _) |- _ =>
    destruct (parse_address_step _ _ _ Hse H) as (q1 & -> & Hq1) end.
  destruct (u32_step _ _ _ Hsi Hq1) as (q2 & -> & Hq2).
  destruct (parse_address_step _ _ _ Hte Hq2) as (q3 & -> & Hq3).
  destruct (u32_step _ _ _ Hti Hq3) as (q4 & -> & Hq4).
  cbn [snd]. unfold return_error, get_error. rewrite (ready_ok _ _ Hq4). by destruct m.
Qed.

(** ARP messages and Ethernet frames survive the wire together: a supported
    message serialized, put in a frame, sent as bytes and parsed at both
    layers comes back unchanged, under the same frame header; an unsupported
    message is refused by [serialize] with an exception. *)
Theorem arp_roundtrip m h m0 f0 :
  Ethernet.header_ok h ->
  (message_ok m -> exists l f,
     serialize m = Ok l /\
     Ethernet.parse f0 (buf_of_string (concatenate (Ethernet.serialize (mkEthernetFrame h (bl_of_string l)))))
       = (f, NoError) /\
     _header f = h /\
     exists b, bl_to_buffer (_payload f) = Ok b /\ parse m0 b = (m, NoError)) /\
  (supported m = false -> serialize m = Throw RuntimeError).
Proof.
  intros Hh. split.
  - intros Hm. destruct (arp_parse_serialize m m0 Hm) as (l & E & Hl & Hp). exists l.
    assert (concatenate (bl_of_string l) = l) as Ec.
    { unfold concatenate, bl_of_string. cbn. apply app_nil_r. }
    pose proof (frame_parse_serialize (mkEthernetFrame h (bl_of_string l)) f0 Hh) as Hf.
    cbn [_payload] in Hf. rewrite Ec, Hl in Hf. destruct (Hf eq_refl) as (b & Ef & Hb & Hs).
    eexists. split; [done|]. split; [exact Ef|]. split; [done|]. exists b. split; [done|].
    by apply Hp.
  - intros Hs. unfold serialize. by rewrite Hs.
Qed.

Lemma arp_roundtrip_witness :
  let m := mkARPMessage 1 2048 6 4 OPCODE_REQUEST [2; 0; 0; 0; 0; 1] 167772161 (replicate 6 0) 167772162 in
  let h := mkEthernetHeader ETHERNET_BROADCAST [2; 0; 0; 0; 0; 1] TYPE_ARP in
  exists l f, serialize m = Ok l /\
    Ethernet.parse default_frame
      (buf_of_string (concatenate (Ethernet.serialize (mkEthernetFrame h (bl_of_string l))))) = (f, NoError) /\
    _header f = h /\
    exists b, bl_to_buffer (_payload f) = Ok b /\ parse default_message b = (m, NoError).
Proof.
  cbv zeta. apply arp_roundtrip.
  - split; [exact broadcast_ok | split; [reflexivity | repeat constructor; lia] | vm_compute; split; (reflexivity || discriminate)].
  - split; cbn; [reflexivity | split; [reflexivity | repeat constructor; lia] | lia
    | split; [reflexivity | repeat constructor; lia] | lia].
Defined.
