(* ===== verification/Address.v ===== *)
(** * IPv4 socket addresses

    Models the part of [src/libsponge/util/address.hh] and [address.cc] the
    protocol code uses.  Every [Address] the modelled code holds is an IPv4
    address built from a dotted quad and a port or by [from_ipv4_numeric], so
    an address is its numeric value and its port; the stored [sockaddr] and
    name resolution are in [Resolution]. *)
From stdpp Require Import base tactics numbers.
From Stdlib Require Import ZArith Lia.
From S2P Require Import Prelude.

Record Address := mkAddress { ipv4_numeric : Z; port : Z }.

Definition from_ipv4_numeric (ip_address : Z) : Address := mkAddress (u32 ip_address) 0.

(** [operator==] compares the stored addresses. *)
#[global] Instance Address_eq_dec : EqDecision Address.
Proof. solve_decision. Defined.

Definition address_valid (a : Address) : Prop :=
  0 <= ipv4_numeric a < 2 ^ 32 /\ 0 <= port a < 2 ^ 16.

Lemma from_ipv4_numeric_small ip :
  0 <= ip < 2 ^ 32 -> ipv4_numeric (from_ipv4_numeric ip) = ip.
Proof. apply u32_small. Qed.
