(* ===== verification/Kernel.v ===== *)
(** * The operating system, as a parameter

    The system calls that [src/libsponge/util] makes are not code of the
    repository: [Kernel] lists the calls as operations on an abstract state,
    and [KernelLaws] states what their manual pages promise, in terms of four
    observations of that state.  [SimKernel], at the end, is a small kernel
    that runs and keeps the promises. *)
From stdpp Require Import base tactics list numbers option gmap.
From Stdlib Require Import ZArith Lia.
From S2P Require Import Prelude.

(** What a call returns: its value, and [errno] when that is negative. *)
Record sysret := mkSysret { return_value : Z; errno : Z }.

(** [struct pollfd] and the event bits of [poll.h]. *)
Record pollfd := mkPollfd { fd : Z; events : Z; revents : Z }.
Definition POLLIN : Z := 1.
Definition POLLOUT : Z := 4.
Definition POLLERR : Z := 8.
Definition POLLHUP : Z := 16.
Definition POLLNVAL : Z := 32.

(** [fcntl.h], [errno.h] and [sys/socket.h]. *)
Definition O_NONBLOCK : Z := 2048.
Definition EINTR : Z := 4.
Definition EAGAIN : Z := 11.
Definition SHUT_RD : Z := 0.
Definition SHUT_WR : Z := 1.
Definition SHUT_RDWR : Z := 2.

(** An [iovec] is the bytes it points to and its length. *)
Definition iovec : Type := list byte * Z.

Class Kernel (K : Type) := {
  sys_close : Z -> st K sysret;
  (** [read(fd, buf, count)]: also the bytes stored in the buffer *)
  sys_read : Z -> Z -> st K (sysret * list byte);
  sys_writev : Z -> list iovec -> st K sysret;
  sys_shutdown : Z -> Z -> st K sysret;
  sys_getfl : Z -> st K sysret;
  sys_setfl : Z -> Z -> st K sysret;
  (** [poll(fds, nfds, timeout)]: also the array after the call *)
  sys_poll : list pollfd -> Z -> st K (sysret * list pollfd);
  (** the steady clock, in milliseconds since the program started *)
  sys_clock : st K Z
}.

(** A call that failed. *)
Definition failed (r : sysret) : Prop := return_value r = -1 /\ 0 < errno r.

(** The limit on one transfer, from write(2). *)
Definition MAX_RW_COUNT : Z := 2147479552.

(** What can be observed of a kernel state: the chunks each descriptor has
    been read and written in, whether it preserves the boundaries of messages,
    and what its other end sends: the bytes of a stream, or the datagrams
    that are in the network. *)
Class Observe (K : Type) := {
  reads : K -> Z -> list (list byte);
  writes : K -> Z -> list (list byte);
  packets : Z -> bool;
  stream_of : K -> Z -> list byte;
  network : K -> Z -> list byte -> Prop
}.

Section Laws.
Context {K : Type} `{Kernel K} `{Observe K}.

Definition bytes_in (k : K) (f : Z) : list byte := concat (reads k f).
Definition bytes_out (k : K) (f : Z) : list byte := concat (writes k f).

(** The other ends are what they were. *)
Definition same_peers (k k' : K) : Prop :=
  (forall f, stream_of k' f = stream_of k f) /\ (forall f d, network k' f d -> network k f d).

(** Nothing was read or written. *)
Definition unchanged (k k' : K) : Prop :=
  (forall f, reads k' f = reads k f) /\ (forall f, writes k' f = writes k f) /\ same_peers k k'.

Definition has_read (f : Z) (d : list byte) (k k' : K) : Prop :=
  (forall g, reads k' g = if decide (g = f) then reads k g ++ [d] else reads k g) /\
  (forall g, writes k' g = writes k g) /\ same_peers k k'.

Definition has_written (f : Z) (ds : list (list byte)) (k k' : K) : Prop :=
  (forall g, writes k' g = if decide (g = f) then writes k g ++ ds else writes k g) /\
  (forall g, reads k' g = reads k g) /\ same_peers k k'.

#[global] Instance unchanged_preorder : PreOrder unchanged.
Proof.
  split.
  - intros k. repeat split; done.
  - intros k1 k2 k3 (A1 & B1 & C1 & D1) (A2 & B2 & C2 & D2). repeat split; try congruence.
    intros f d Hd. by apply D1, D2.
Qed.

Lemma unchanged_written f k k' : unchanged k k' -> has_written f [] k k'.
Proof.
  intros (Hr & Hw & Hp). split; [|done]. intros g. rewrite Hw. case_decide; [by rewrite app_nil_r|done].
Qed.

Lemma has_written_app f ds ds' k1 k2 k3 :
  has_written f ds k1 k2 -> has_written f ds' k2 k3 -> has_written f (ds ++ ds') k1 k3.
Proof.
  intros (A1 & B1 & C1 & D1) (A2 & B2 & C2 & D2). repeat split; try congruence.
  - intros g. rewrite A2, A1. case_decide; [by rewrite app_assoc|done].
  - intros g d Hd. by apply D1, D2.
Qed.

Lemma has_written_out f ds k k' g :
  has_written f ds k k' -> bytes_out k' g = if decide (g = f) then bytes_out k g ++ concat ds else bytes_out k g.
Proof. intros (E & _). unfold bytes_out. rewrite E. case_decide; [apply concat_app|done]. Qed.

Lemma has_read_in f d k k' g :
  has_read f d k k' -> bytes_in k' g = if decide (g = f) then bytes_in k g ++ d else bytes_in k g.
Proof.
  intros (E & _). unfold bytes_in. rewrite E. case_decide; [|done]. rewrite concat_app. cbn. by rewrite app_nil_r.
Qed.
End Laws.

(** What the manual pages promise.  A stream is read in order, and the end of
    file, or a hangup with nothing to read, comes after its last byte; a
    packet device moves whole packets, cut only at the size of the buffer;
    the other calls move no data. *)
Class KernelLaws (K : Type) `{Kernel K} `{Observe K} : Prop := {
  read_law : forall f n k k' r d,
    0 <= n -> sys_read f n k = (k', (r, d)) ->
    (failed r /\ d = [] /\ unchanged k k') \/
    (return_value r = Zlen d /\ Zlen d <= n /\ has_read f d k k' /\
     if packets f then exists p, network k f p /\ d = ztake n p
     else bytes_in k f ++ d `prefix_of` stream_of k f /\
          (0 < n -> d = [] -> bytes_in k f = stream_of k f));
  writev_law : forall f v k k' r,
    sys_writev f v k = (k', r) ->
    let data := concat (map fst v) in
    (failed r /\ unchanged k k') \/
    (0 <= return_value r <= Z.min (Zlen data) MAX_RW_COUNT /\
     has_written f [ztake (return_value r) data] k k' /\
     (packets f = true -> return_value r = Zlen data));
  poll_law : forall p t k k' r p',
    sys_poll p t k = (k', (r, p')) ->
    unchanged k k' /\
    Forall2 (fun a b => fd b = fd a /\ events b = events a /\
      (packets (fd a) = false -> events a = POLLIN -> has_bit (revents b) POLLHUP = true ->
       has_bit (revents b) POLLIN = false -> bytes_in k (fd a) = stream_of k (fd a))) p p';
  close_law : forall f k k' r, sys_close f k = (k', r) -> unchanged k k';
  shutdown_law : forall f how k k' r, sys_shutdown f how k = (k', r) -> unchanged k k';
  getfl_law : forall f k k' r, sys_getfl f k = (k', r) -> unchanged k k';
  setfl_law : forall f x k k' r, sys_setfl f x k = (k', r) -> unchanged k k';
  clock_law : forall k k' t, sys_clock k = (k', t) -> unchanged k k'
}.

(** ** A kernel that runs

    Descriptors from 100 on are packet devices.  A stream delivers the chunks
    of [incoming], at most the requested size at a time, then the end of
    file; a packet device delivers the packets of [incoming] and then
    [EAGAIN].  A write to a stream is cut at [quota] bytes. *)
Record simfile := mkSimfile {
  incoming : list (list byte);
  past_reads : list (list byte);
  past_writes : list (list byte);
  quota : Z;
  flags : Z
}.
#[global] Instance simfile_inhabited : Inhabited simfile := populate (mkSimfile [] [] [] 0 0).

Record SimKernel := mkSimKernel { files : gmap Z simfile; now : Z }.

Definition file (k : SimKernel) (f : Z) : simfile := files k !!! f.
Definition set_file (k : SimKernel) (f : Z) (x : simfile) : SimKernel :=
  mkSimKernel (<[f := x]> (files k)) (now k).

Definition sim_packets (f : Z) : bool := 100 <=? f.

Definition sim_read (f n : Z) (k : SimKernel) : SimKernel * (sysret * list byte) :=
  let x := file k f in
  match incoming x with
  | [] => if sim_packets f then (k, (mkSysret (-1) EAGAIN, []))
          else (set_file k f (mkSimfile [] (past_reads x ++ [[]]) (past_writes x) (quota x) (flags x)),
                (mkSysret 0 0, []))
  | d :: ds =>
      let d1 := ztake n d in
      let rest := if negb (sim_packets f) && (n <? Zlen d) then zdrop n d :: ds else ds in
      if negb (sim_packets f) && (0 <? n) && (Zlen d1 =? 0) then (k, (mkSysret (-1) EAGAIN, []))
      else (set_file k f (mkSimfile rest (past_reads x ++ [d1]) (past_writes x) (quota x) (flags x)),
            (mkSysret (Zlen d1) 0, d1))
  end.

Definition sim_writev (f : Z) (v : list iovec) (k : SimKernel) : SimKernel * sysret :=
  let x := file k f in
  let data := concat (map fst v) in
  let n := if sim_packets f then Zlen data else Z.max 0 (Z.min (quota x) (Z.min (Zlen data) MAX_RW_COUNT)) in
  if MAX_RW_COUNT <? n then (k, mkSysret (-1) 22)
  else (set_file k f (mkSimfile (incoming x) (past_reads x) (past_writes x ++ [ztake n data]) (quota x) (flags x)),
        mkSysret n 0).

Definition sim_ready (k : SimKernel) (p : pollfd) : pollfd :=
  let readable := negb (sim_packets (fd p)) || negb (bool_decide (incoming (file k (fd p)) = [])) in
  mkPollfd (fd p) (events p) (Z.land (events p) (POLLOUT + (if readable then POLLIN else 0))).

Definition sim_poll (p : list pollfd) (timeout : Z) (k : SimKernel) : SimKernel * (sysret * list pollfd) :=
  let p' := map (sim_ready k) p in
  (k, (mkSysret (Zlen (filter (fun x => revents x <> 0) p')) 0, p')).

Definition sim_setfl (f x : Z) (k : SimKernel) : SimKernel * sysret :=
  let y := file k f in
  (set_file k f (mkSimfile (incoming y) (past_reads y) (past_writes y) (quota y) x), mkSysret 0 0).

#[global] Instance sim_kernel : Kernel SimKernel := {
  sys_close _ k := (k, mkSysret 0 0);
  sys_read := sim_read;
  sys_writev := sim_writev;
  sys_shutdown _ _ k := (k, mkSysret 0 0);
  sys_getfl f k := (k, mkSysret (flags (file k f)) 0);
  sys_setfl := sim_setfl;
  sys_poll := sim_poll;
  sys_clock k := (mkSimKernel (files k) (now k + 10), now k)
}.

#[global] Instance sim_observe : Observe SimKernel := {
  reads k f := past_reads (file k f);
  writes k f := past_writes (file k f);
  packets := sim_packets;
  stream_of k f := if sim_packets f then [] else concat (past_reads (file k f)) ++ concat (incoming (file k f));
  network k f d := sim_packets f = true /\ d ∈ incoming (file k f)
}.

Lemma file_set k f g x : file (set_file k f x) g = if decide (g = f) then x else file k g.
Proof.
  unfold file, set_file. cbn. case_decide; subst.
  - apply lookup_total_insert_eq.
  - by apply lookup_total_insert_ne.
Qed.

(** Files that change only as a read of [d] does, and only as a write of [d] does. *)
Lemma sim_has_read k f d x :
  past_reads x = past_reads (file k f) ++ [d] -> past_writes x = past_writes (file k f) ->
  (if sim_packets f then forall p, p ∈ incoming x -> p ∈ incoming (file k f)
   else d ++ concat (incoming x) = concat (incoming (file k f))) ->
  has_read f d k (set_file k f x).
Proof.
  intros Hr Hw Hi. split; [|split; [|split]]; cbn; intros g; try (intros p); rewrite ?file_set;
    case_decide; subst; try done.
  - destruct (sim_packets f); [done|]. rewrite Hr, concat_app, <- Hi. cbn. by rewrite app_nil_r, <- app_assoc.
  - intros [Ep ?]. rewrite Ep in Hi. auto.
Qed.

Lemma sim_has_written k f d x :
  past_writes x = past_writes (file k f) ++ [d] -> past_reads x = past_reads (file k f) ->
  incoming x = incoming (file k f) -> has_written f [d] k (set_file k f x).
Proof.
  intros Hw Hr Hi. split; [|split; [|split]]; cbn; intros g; try (intros p); rewrite ?file_set;
    case_decide; subst; try done; by rewrite ?Hr, Hi.
Qed.

Lemma sim_read_law f n k k' r d :
  0 <= n -> sim_read f n k = (k', (r, d)) ->
  (failed r /\ d = [] /\ unchanged k k') \/
  (return_value r = Zlen d /\ Zlen d <= n /\ has_read f d k k' /\
   if packets f then exists p, network k f p /\ d = ztake n p
   else bytes_in k f ++ d `prefix_of` stream_of k f /\ (0 < n -> d = [] -> bytes_in k f = stream_of k f)).
Proof.
  intros Hn. unfold sim_read. destruct (incoming (file k f)) as [|c cs] eqn:Ei.
  - destruct (sim_packets f) eqn:Ep; intros [= <- <- <-]; [left; by split|right].
    split; [done|]. split; [done|]. unfold bytes_in. cbn. rewrite Ep, Ei, !app_nil_r. split; [|done].
    apply sim_has_read; [done..|]. by rewrite Ep, Ei.
  - destruct (negb (sim_packets f) && (0 <? n) && (Zlen (ztake n c) =? 0)) eqn:E;
      intros [= <- <- <-]; [left; by split|right].
    split; [done|]. split; [zlen|]. unfold bytes_in. cbn. rewrite Ei. split.
    + apply sim_has_read; [done..|]. rewrite Ei. cbn. destruct (sim_packets f); cbn.
      * intros p. by right.
      * destruct (Z.ltb_spec n (Zlen c)); cbn; [by rewrite app_assoc, ztake_zdrop|by rewrite ztake_ge].
    + destruct (sim_packets f) eqn:Ep; cbn in E.
      * exists c. repeat split; by left.
      * split.
        -- exists (zdrop n c ++ concat cs). cbn. by rewrite <- !app_assoc, (app_assoc (ztake n c)), ztake_zdrop.
        -- intros Hn' E'. rewrite E' in E. destruct (Z.ltb_spec 0 n); [done|lia].
Qed.

Lemma sim_writev_law f v k k' r :
  sim_writev f v k = (k', r) ->
  let data := concat (map fst v) in
  (failed r /\ unchanged k k') \/
  (0 <= return_value r <= Z.min (Zlen data) MAX_RW_COUNT /\
   has_written f [ztake (return_value r) data] k k' /\ (packets f = true -> return_value r = Zlen data)).
Proof.
  unfold sim_writev. cbv zeta. pose proof (Zlen_nonneg (concat (map fst v))).
  destruct (Z.ltb_spec MAX_RW_COUNT
    (if sim_packets f then Zlen (concat (map fst v))
     else Z.max 0 (Z.min (quota (file k f)) (Z.min (Zlen (concat (map fst v))) MAX_RW_COUNT)))) as [Hl|Hl];
    intros [= <- <-]; [left; by split|right]. cbn.
  split; [destruct (sim_packets f); unfold MAX_RW_COUNT in *; lia|]. split; [by apply sim_has_written|].
  by intros ->.
Qed.

#[global] Instance sim_laws : KernelLaws SimKernel.
Proof.
  split; cbn.
  - exact sim_read_law.
  - exact sim_writev_law.
  - intros p t k k' r p'. unfold sim_poll. intros [= <- <- <-]. split; [done|].
    apply Forall2_fmap_r, Forall_Forall2_diag, Forall_true. intros x. cbn. split; [done|]. split; [done|].
    intros _ -> Hh. revert Hh. by destruct (_ || _).
  - by intros f k k' r [= <- <-].
  - by intros f how k k' r [= <- <-].
  - by intros f k k' r [= <- <-].
  - intros f x k k' r. unfold sim_setfl. intros [= <- <-].
    split; [|split; [|split]]; cbn; intros g; try (intros p); rewrite ?file_set; case_decide; by subst.
  - by intros k k' t [= <- <-].
Qed.
