(* ===== verification/FileDescriptor.v ===== *)
(** * File descriptors

    Models [SystemCall] of [src/libsponge/util/util.cc] and
    [src/libsponge/util/file_descriptor.hh] and [file_descriptor.cc].  A
    [FileDescriptor] is a shared pointer to an [FDWrapper]: a location in the
    store of a [World], so that the duplicates an event loop keeps see the
    same flags and counters.  The rest of a world is the state of the kernel
    and that of the program ([app]). *)
From stdpp Require Import base tactics list numbers option gmap.
From Stdlib Require Import ZArith Lia.
From S2P Require Import Prelude Buffer Kernel.

(** [SystemCall]: the value is an [int], whatever the call returned. *)
Definition SystemCall (r : sysret) (errno_mask : Z) : outcome Z :=
  let return_value := s32 (return_value r) in
  if (0 <=? return_value) || (errno r =? errno_mask) then Ok return_value
  else Throw (UnixError (errno r)).

Record FDWrapper := mkFDWrapper {
  _fd : Z;
  _eof : bool;
  _closed : bool;
  _read_count : Z;
  _write_count : Z
}.
#[global] Instance FDWrapper_inhabited : Inhabited FDWrapper := populate (mkFDWrapper 0 false false 0 0).

(** The shared pointer. *)
Definition FileDescriptor : Type := nat.

Record World (K U : Type) := mkWorld { kernel : K; wrappers : gmap nat FDWrapper; app : U }.
Arguments mkWorld {K U}.
Arguments kernel {K U}.
Arguments wrappers {K U}.
Arguments app {K U}.

Section Operations.
Context {K U : Type} `{Kernel K}.
Implicit Types (w : World K U) (l : FileDescriptor).

Definition wrapper (w : World K U) (l : FileDescriptor) : FDWrapper := wrappers w !!! l.
Definition set_wrapper (l : FileDescriptor) (f : FDWrapper -> FDWrapper) (w : World K U) : World K U :=
  mkWorld (kernel w) (<[l := f (wrapper w l)]> (wrappers w)) (app w).
Definition set_app (f : U -> U) (w : World K U) : World K U :=
  mkWorld (kernel w) (wrappers w) (f (app w)).

(** A system call: it changes the kernel's state and returns. *)
Definition syscall {A} (f : st K A) : ste (World K U) A := fun w =>
  let '(k, a) := f (kernel w) in (mkWorld k (wrappers w) (app w), Ok a).

(** Accessors. *)
Definition fd_num (w : World K U) l : Z := _fd (wrapper w l).
Definition eof (w : World K U) l : bool := _eof (wrapper w l).
Definition closed (w : World K U) l : bool := _closed (wrapper w l).
Definition read_count (w : World K U) l : Z := _read_count (wrapper w l).
Definition write_count (w : World K U) l : Z := _write_count (wrapper w l).

(** The counters are [unsigned]. *)
Definition register_read l : ste (World K U) unit :=
  modify (set_wrapper l (fun x => mkFDWrapper (_fd x) (_eof x) (_closed x) (u32 (_read_count x + 1)) (_write_count x))).
Definition register_write l : ste (World K U) unit :=
  modify (set_wrapper l (fun x => mkFDWrapper (_fd x) (_eof x) (_closed x) (_read_count x) (u32 (_write_count x + 1)))).
Definition set_eof l : ste (World K U) unit :=
  modify (set_wrapper l (fun x => mkFDWrapper (_fd x) true (_closed x) (_read_count x) (_write_count x))).
Definition set_eof_closed l : ste (World K U) unit :=
  modify (set_wrapper l (fun x => mkFDWrapper (_fd x) true true (_read_count x) (_write_count x))).

(** [FileDescriptor(fd)]: a new wrapper; a negative number throws. *)
Definition new_fd (n : Z) : ste (World K U) FileDescriptor := fun w =>
  if n <? 0 then (w, Throw RuntimeError)
  else
    let l := fresh (dom (wrappers w)) in
    (mkWorld (kernel w) (<[l := mkFDWrapper n false false 0 0]> (wrappers w)) (app w), Ok l).

(** [duplicate] copies the pointer. *)
Definition duplicate l : FileDescriptor := l.

Definition close l : ste (World K U) unit :=
  n ← gets (fun w => fd_num w l);
  r ← syscall (sys_close n);
  _ ← lift (SystemCall r 0);
  set_eof_closed l.

(** [~FDWrapper], when the last pointer goes: an exception of [close] is caught. *)
Definition destroy l : ste (World K U) unit := fun w =>
  if closed w l then (w, Ok tt) else (fst (close l w), Ok tt).

Definition BUFFER_SIZE : Z := 1048576.

(** [read(str, limit)]: the kernel stores over the resized string. *)
Definition read_into l (str : list byte) (limit : Z) : ste (World K U) (list byte) :=
  let size_to_read := Z.min BUFFER_SIZE limit in
  let str := str_resize size_to_read str in
  n ← gets (fun w => fd_num w l);
  res ← syscall (sys_read n size_to_read);
  bytes_read ← lift (SystemCall (fst res) 0);
  _ ← when ((0 <? limit) && (bytes_read =? 0)) (set_eof l);
  if s64 size_to_read <? bytes_read then throw RuntimeError
  else if bytes_read <? 0 then throw LengthError
  else
    _ ← register_read l;
    mret (str_resize bytes_read (snd res ++ zdrop (Zlen (snd res)) str)).

Definition read l (limit : Z) : ste (World K U) (list byte) := read_into l [] limit.

(** [read()] with the default limit, the largest [size_t]. *)
Definition read_all l : ste (World K U) (list byte) := read l (2 ^ 64 - 1).

(** One iteration of the loop of [write]: the views left and the bytes written. *)
Definition write_once l (buffer : BufferViewList) : ste (World K U) (BufferViewList * Z) :=
  n ← gets (fun w => fd_num w l);
  r ← syscall (sys_writev n (as_iovecs buffer));
  bytes_written ← lift (SystemCall r 0);
  if (bytes_written =? 0) && negb (bvl_size buffer =? 0) then throw RuntimeError
  else if s64 (bvl_size buffer) <? bytes_written then throw RuntimeError
  else
    _ ← register_write l;
    buffer ← lift (bvl_remove_prefix buffer (u64 bytes_written));
    mret (buffer, bytes_written).

(** The [do ... while] loop.  Every iteration that is followed by another
    writes at least a byte, so the number of bytes bounds the iterations. *)
Fixpoint write_iter (fuel : nat) l (write_all : bool) (total : Z) (buffer : BufferViewList)
    : ste (World K U) Z :=
  match fuel with
  | O => throw Undefined
  | S fuel' =>
      res ← write_once l buffer;
      let total := u64 (total + snd res) in
      if write_all && negb (bvl_size (fst res) =? 0) then write_iter fuel' l write_all total (fst res)
      else mret total
  end.

Definition write l (buffer : BufferViewList) (write_all : bool) : ste (World K U) Z :=
  write_iter (S (length (concat buffer))) l write_all 0 buffer.

(** [write] of a string. *)
Definition write_string l (s : list byte) (write_all : bool) : ste (World K U) Z :=
  write l (bvl_of_string s) write_all.

Definition set_blocking l (blocking_state : bool) : ste (World K U) unit :=
  n ← gets (fun w => fd_num w l);
  r ← syscall (sys_getfl n);
  flags ← lift (SystemCall r 0);
  let flags := if blocking_state then Z.lxor flags (Z.land flags O_NONBLOCK) else Z.lor flags O_NONBLOCK in
  r ← syscall (sys_setfl n flags);
  _ ← lift (SystemCall r 0);
  mret tt.
End Operations.

(** ** What the operations do *)

Section Specifications.
Context {K U : Type} `{KernelLaws K}.
Implicit Types (w : World K U) (l : FileDescriptor).

(** [w'] differs from [w] in the wrapper at [l], which is now [x], and in the kernel. *)
Definition rewraps l (x : FDWrapper) (w w' : World K U) : Prop :=
  app w' = app w /\ forall g, wrapper w' g = if decide (g = l) then x else wrapper w g.

Lemma wrapper_set l f w g :
  wrapper (set_wrapper l f w) g = if decide (g = l) then f (wrapper w l) else wrapper w g.
Proof.
  unfold wrapper, set_wrapper. cbn. case_decide; subst.
  - apply lookup_total_insert_eq.
  - by apply lookup_total_insert_ne.
Qed.

(** A new descriptor is at a location of its own. *)
Lemma new_fd_spec n w :
  0 <= n -> exists l w', new_fd n w = (w', Ok l) /\ (l ∉ dom (wrappers w)) /\
    kernel w' = kernel w /\ app w' = app w /\ dom (wrappers w') = ({[l]} ∪ dom (wrappers w)) /\
    fd_num w' l = n /\ forall g, g <> l -> fd_num w' g = fd_num w g.
Proof.
  intros Hn. unfold new_fd. destruct (Z.ltb_spec n 0); [lia|]. eexists _, _. split; [done|].
  split; [apply is_fresh|]. split; [done|]. split; [done|]. split; [apply dom_insert_L|].
  unfold fd_num, wrapper. cbn [wrappers]. split; [by rewrite lookup_total_insert_eq|].
  intros g Hg. by rewrite lookup_total_insert_ne.
Qed.

(** The wrapper after a read, and after a write. *)
Definition after_read (end_of_file : bool) (x : FDWrapper) : FDWrapper :=
  mkFDWrapper (_fd x) (_eof x || end_of_file) (_closed x) (u32 (_read_count x + 1)) (_write_count x).
Definition after_write (x : FDWrapper) : FDWrapper :=
  mkFDWrapper (_fd x) (_eof x) (_closed x) (_read_count x) (u32 (_write_count x + 1)).

Lemma SystemCall_failed r : failed r -> SystemCall r 0 = Throw (UnixError (errno r)).
Proof.
  intros [Hv He]. unfold SystemCall. rewrite Hv. cbn. destruct (Z.eqb_spec (errno r) 0); [lia|done].
Qed.

Lemma SystemCall_ok r : 0 <= return_value r < 2 ^ 31 -> SystemCall r 0 = Ok (return_value r).
Proof.
  intros Hv. unfold SystemCall. assert (s32 (return_value r) = return_value r) as -> by (wrap_lia).
  destruct (Z.leb_spec 0 (return_value r)); [done|lia].
Qed.

(** [read]: an error leaves everything as it was; otherwise the bytes the
    kernel gave are returned, at most [limit] and at most [BUFFER_SIZE], and
    the end of file is recorded when bytes were asked for and none came. *)
Lemma fd_read_spec l limit w w' o :
  0 <= limit -> read l limit w = (w', o) ->
  let f := fd_num w l in
  (exists e, o = Throw (UnixError e) /\ unchanged (kernel w) (kernel w') /\
     app w' = app w /\ forall g, wrapper w' g = wrapper w g) \/
  (exists d, o = Ok d /\ Zlen d <= Z.min BUFFER_SIZE limit /\ has_read f d (kernel w) (kernel w') /\
     rewraps l (after_read ((0 <? limit) && bool_decide (d = [])) (wrapper w l)) w w' /\
     if packets f then exists p, network (kernel w) f p /\ d = ztake (Z.min BUFFER_SIZE limit) p
     else bytes_in (kernel w) f ++ d `prefix_of` stream_of (kernel w) f /\
          (0 < limit -> d = [] -> bytes_in (kernel w) f = stream_of (kernel w) f)).
Proof.
  intros Hl. unfold read, read_into, mbind, ste_bind, gets, syscall, lift.
  destruct (sys_read _ _ (kernel w)) as [k' [r d]] eqn:E. cbn [kernel fst snd].
  apply read_law in E as [(Hf & -> & Hu)|(Hr & Hd & Hh & Hp)]; [| |unfold BUFFER_SIZE; lia].
  - rewrite (SystemCall_failed _ Hf). intros [= <- <-]. left. by eexists.
  - pose proof (Zlen_nonneg d). assert (Z.min BUFFER_SIZE limit <= 1048576) as Hb by (unfold BUFFER_SIZE; lia).
    rewrite SystemCall_ok, Hr by lia.
    assert (s64 (Z.min BUFFER_SIZE limit) = Z.min BUFFER_SIZE limit) as Hs
      by (unfold BUFFER_SIZE in *; wrap_lia).
    rewrite Hs. intros Eq. right. exists d.
    destruct (Z.ltb_spec (Z.min BUFFER_SIZE limit) (Zlen d)); [lia|].
    destruct (Z.ltb_spec (Zlen d) 0); [lia|].
    assert (str_resize (Zlen d) (d ++ zdrop (Zlen d) (str_resize (Z.min BUFFER_SIZE limit) [])) = d) as Hres.
    { apply str_resize_app. }
    assert ((Zlen d =? 0) = bool_decide (d = [])) as He.
    { destruct d; [done|]. rewrite bool_decide_eq_false_2 by done. apply Z.eqb_neq. zlen. pose proof (Zlen_nonneg d). lia. }
    rewrite He, Hres in Eq. unfold when in Eq. revert Eq.
    destruct ((0 <? limit) && bool_decide (d = [])) eqn:Eb; intros [= <- <-];
      (split; [done|]; split; [lia|]; split; [done|]; split; [|]).
    + split; [done|]. intros g. rewrite !wrapper_set. destruct (decide (g = l)); [|done].
      rewrite decide_True by done. unfold after_read. cbn. by rewrite orb_true_r.
    + destruct (packets _); [done|]. split; [apply Hp|]. intros ? ?. apply Hp; [unfold BUFFER_SIZE; lia|done].
    + split; [done|]. intros g. rewrite !wrapper_set. destruct (decide (g = l)); [|done].
      unfold after_read. cbn. by rewrite orb_false_r.
    + destruct (packets _); [done|]. split; [apply Hp|]. intros ? ?. apply Hp; [unfold BUFFER_SIZE; lia|done].
Qed.

(** One iteration of [write]: an error, nothing written of a non-empty
    buffer, or a non-empty prefix of it. *)
Lemma write_once_spec l buffer w w' o :
  Zlen (concat buffer) < 2 ^ 63 -> write_once l buffer w = (w', o) ->
  let f := fd_num w l in
  let data := concat buffer in
  app w' = app w /\
  ((exists e, o = Throw (UnixError e) /\ unchanged (kernel w) (kernel w') /\
      forall g, wrapper w' g = wrapper w g) \/
   (o = Throw RuntimeError /\ data <> [] /\ packets f = false /\ has_written f [[]] (kernel w) (kernel w') /\
      forall g, wrapper w' g = wrapper w g) \/
   (exists n rest, o = Ok (rest, n) /\ 0 <= n <= Zlen data /\ (n = 0 -> data = []) /\
      concat rest = zdrop n data /\ has_written f [ztake n data] (kernel w) (kernel w') /\
      (packets f = true -> n = Zlen data) /\ rewraps l (after_write (wrapper w l)) w w')).
Proof.
  intros Hsz. unfold write_once, mbind, ste_bind, gets, syscall, lift.
  destruct (sys_writev _ _ (kernel w)) as [k' r] eqn:E. cbn [kernel].
  assert (concat (map fst (as_iovecs buffer)) = concat buffer) as Ev
    by (unfold as_iovecs; rewrite map_map, map_id; done).
  apply writev_law in E. cbv zeta in E. rewrite Ev in E.
  destruct E as [(Hf & Hu)|(Hr & Hw & Hp)].
  - rewrite (SystemCall_failed _ Hf). intros [= <- <-]. split; [done|]. left. by eexists.
  - pose proof (Zlen_nonneg (concat buffer)). unfold MAX_RW_COUNT in Hr. rewrite SystemCall_ok by lia.
    rewrite bvl_size_spec, u64_small by lia. assert (s64 (Zlen (concat buffer)) = Zlen (concat buffer)) as ->
      by wrap_lia.
    destruct ((return_value r =? 0) && negb (Zlen (concat buffer) =? 0)) eqn:Ez.
    + intros [= <- <-]. apply andb_true_iff in Ez as [Ez Ez']. bsplit. split; [done|]. right; left.
      rewrite Ez in *. split; [done|]. split; [by intros E; rewrite E in *|]. split; [|done].
      destruct (packets _); [|done]. lia.
    + destruct (Z.ltb_spec (Zlen (concat buffer)) (return_value r)); [lia|]. cbn [register_write modify].
      rewrite u64_small by lia.
      destruct (bvl_remove_prefix_spec buffer (return_value r)) as (rest & -> & Er); [lia|].
      intros [= <- <-]. split; [done|]. right; right. exists (return_value r), rest.
      split; [done|]. split; [lia|]. split.
      { intros E0. rewrite E0 in Ez. cbn in Ez. bsplit. by apply Zlen_0_inv. }
      split; [done|]. split; [done|]. split; [done|]. split; [done|]. intros g. by rewrite wrapper_set.
Qed.

(** [write] with [write_all] unset. *)
Lemma write_some_spec l buffer w w' o :
  Zlen (concat buffer) < 2 ^ 63 -> write l buffer false w = (w', o) ->
  let f := fd_num w l in
  let data := concat buffer in
  app w' = app w /\
  ((exists e, o = Throw e /\ bytes_out (kernel w') f = bytes_out (kernel w) f /\
      (exists ds, has_written f ds (kernel w) (kernel w') /\ concat ds = []) /\
      forall g, wrapper w' g = wrapper w g) \/
   (exists n, o = Ok n /\ 0 <= n <= Zlen data /\ (n = 0 -> data = []) /\
      has_written f [ztake n data] (kernel w) (kernel w') /\ rewraps l (after_write (wrapper w l)) w w')).
Proof.
  intros Hsz. unfold write. cbn [write_iter]. unfold mbind at 1, ste_bind at 1.
  destruct (write_once l buffer w) as [w1 o1] eqn:E. apply write_once_spec in E as [Ha E]; [|done].
  destruct E as [(e & -> & Hu & Hw)|[(-> & Hne & _ & Hh & Hw)|(n & rest & -> & Hn & Hn0 & Hr & Hh & _ & Hw)]];
    intros [= <- <-]; (split; [done|]); [left|left|right].
  - pose proof (unchanged_written (fd_num w l) _ _ Hu) as Hh. eexists. split; [done|].
    split; [|split; [by exists []|done]]. rewrite (has_written_out _ _ _ _ _ Hh), decide_True by done. apply app_nil_r.
  - eexists. split; [done|]. split; [|split; [by exists [[]]|done]].
    rewrite (has_written_out _ _ _ _ _ Hh), decide_True by done. apply app_nil_r.
  - exists n. cbn [snd]. rewrite u64_small by (cbn; lia). done.
Qed.

(** Only the write counter of the wrapper at [l] has changed. *)
Definition only_counts l (w w' : World K U) : Prop :=
  app w' = app w /\
  forall g, let x := wrapper w g in let y := wrapper w' g in
    (g <> l -> y = x) /\ _fd y = _fd x /\ _eof y = _eof x /\ _closed y = _closed x /\
    _read_count y = _read_count x.

#[local] Instance only_counts_preorder l : PreOrder (only_counts l).
Proof.
  split.
  - intros w. split; [done|]. by intros g.
  - intros w1 w2 w3 [A1 B1] [A2 B2]. split; [congruence|]. intros g.
    destruct (B1 g) as (? & ? & ? & ? & ?), (B2 g) as (? & ? & ? & ? & ?).
    split; [intros Hg; rewrite H7; auto|]. split_and!; congruence.
Qed.

Lemma same_wrappers_counts l w w' :
  app w' = app w -> (forall g, wrapper w' g = wrapper w g) -> only_counts l w w'.
Proof. intros Ha Hw. split; [done|]. intros g. by rewrite Hw. Qed.

Lemma rewraps_counts l w w' :
  rewraps l (after_write (wrapper w l)) w w' -> only_counts l w w'.
Proof. intros [Ha Hw]. split; [done|]. intros g. rewrite Hw. by case_decide; subst. Qed.

Lemma write_iter_spec fuel l total buffer w w' o :
  let f := fd_num w l in
  let data := concat buffer in
  0 <= total -> total + Zlen data < 2 ^ 63 -> (length data < fuel)%nat ->
  write_iter fuel l true total buffer w = (w', o) ->
  only_counts l w w' /\
  exists ds, has_written f ds (kernel w) (kernel w') /\
    match o with
    | Ok n => n = total + Zlen data /\ concat ds = data /\ (packets f = true -> ds = [data])
    | Throw e => concat ds `prefix_of` data /\ (data <> [] -> concat ds <> data) /\
                 (e = RuntimeError \/ exists c, e = UnixError c) /\ (packets f = true -> ds = [])
    end.
Proof.
  revert total buffer w. induction fuel as [|fuel IH]; intros total buffer w f data Ht Hsz Hfuel; [lia|].
  cbn [write_iter]. unfold mbind at 1, ste_bind at 1. pose proof (Zlen_nonneg data).
  destruct (write_once l buffer w) as [w1 o1] eqn:E. apply write_once_spec in E as [Ha E]; [|unfold data in *; lia].
  fold f data in E.
  destruct E as [(e & -> & Hu & Hw)|[(-> & Hne & Hp & Hh & Hw)|(n & rest & -> & Hn & Hn0 & Hr & Hh & Hp & Hw)]].
  - intros [= <- <-]. split; [by apply same_wrappers_counts|]. exists []. split; [by apply unchanged_written|].
    split; [apply prefix_nil|]. split; [by intros ? E|]. split; [right; by eexists|done].
  - intros [= <- <-]. split; [by apply same_wrappers_counts|]. exists [[]]. split; [done|].
    split; [apply prefix_nil|]. split; [by intros ? E|]. split; [by left|]. by rewrite Hp.
  - cbn [fst snd]. pose proof (Zlen_zdrop n data ltac:(lia)) as Hlen. rewrite <- Hr in Hlen.
    rewrite bvl_size_spec, !u64_small by lia. apply rewraps_counts in Hw.
    assert (fd_num w1 l = f) as Ef by apply (proj2 Hw l).
    destruct (Z.eqb_spec (Zlen (concat rest)) 0) as [E0|E0]; cbn [andb negb].
    + intros [= <- <-]. split; [done|]. assert (n = Zlen data) as -> by lia.
      exists [data]. rewrite ztake_ge in Hh by lia. cbn. rewrite app_nil_r. done.
    + intros E. assert (0 < n) by (destruct (Z.eq_dec n 0) as [E1|]; [|lia];
        rewrite (Hn0 E1) in Hlen; change (Zlen []) with 0 in Hlen; lia).
      apply IH in E as (Hw' & ds & Hh' & Ho); [|lia|lia|unfold Zlen in *; lia].
      split; [by etrans|]. exists ([ztake n data] ++ ds). rewrite Ef in *. split; [by eapply has_written_app|].
      assert (packets f = true -> False) as Hpf by (intros Epk; specialize (Hp Epk); lia).
      rewrite concat_app. cbn [concat]. rewrite app_nil_r, Hr in *.
      pose proof (ztake_zdrop n data) as Hcut.
      destruct o as [m|e].
      * destruct Ho as (-> & -> & _). split; [lia|]. split; [done|tauto].
      * destruct Ho as (Hpre & Hne & He & _). split; [rewrite <- Hcut at 2; by apply prefix_app|].
        split; [|tauto]. intros _ Eq. rewrite <- Hcut in Eq at 2. apply app_inv_head in Eq.
        apply Hne; [|done]. intros Ez. apply E0. by rewrite Ez.
Qed.

(** C26. [FileDescriptor::write] with [write_all], over any kernel that keeps
    its promises: the loop ends (the fuel never runs out); if it returns, it
    has written exactly the bytes of the buffers, in order, over however many
    partial writes the kernel chose, in one piece on a packet device, and the
    count is their number; if it throws (an error of the call, or no
    progress), what was written is a proper prefix. *)
Theorem write_all_correct l buffer w w' o :
  let f := fd_num w l in
  let data := concat buffer in
  Zlen data < 2 ^ 63 -> write l buffer true w = (w', o) ->
  only_counts l w w' /\
  exists ds, has_written f ds (kernel w) (kernel w') /\
    match o with
    | Ok n => n = Zlen data /\ concat ds = data /\ (packets f = true -> ds = [data])
    | Throw e => concat ds `prefix_of` data /\ (data <> [] -> concat ds <> data) /\
                 (e = RuntimeError \/ exists c, e = UnixError c) /\ (packets f = true -> ds = [])
    end.
Proof. intros f data Hsz E. apply write_iter_spec in E; [exact E|lia|exact Hsz|apply Nat.lt_succ_diag_r]. Qed.

End Specifications.

(** ** How a world moves

    [evolves] holds between the worlds before and after any sequence of the
    operations above, whatever their outcome: descriptors keep their numbers,
    a stream is read further in order, and writes are added to writes. *)
Section Evolution.
Context {K U : Type} `{KernelLaws K}.
Implicit Types (w : World K U) (l : FileDescriptor).

Record evolves (w w' : World K U) : Prop := {
  ev_fd : forall l, fd_num w' l = fd_num w l;
  ev_peers : same_peers (kernel w) (kernel w');
  ev_reads : forall f, packets f = false ->
    bytes_in (kernel w') f = bytes_in (kernel w) f \/
    (bytes_in (kernel w) f `prefix_of` bytes_in (kernel w') f /\
     bytes_in (kernel w') f `prefix_of` stream_of (kernel w) f);
  ev_writes : forall f, writes (kernel w) f `prefix_of` writes (kernel w') f
}.

#[global] Instance evolves_preorder : PreOrder evolves.
Proof.
  split.
  - intros w. split; try done. by left.
  - intros w1 w2 w3 [A1 [B1 C1] D1 E1] [A2 [B2 C2] D2 E2]. split.
    + intros l. by rewrite A2.
    + split; [intros f; by rewrite B2|]. auto.
    + intros f Hf. destruct (D1 f Hf) as [X1|[X1 Y1]], (D2 f Hf) as [X2|[X2 Y2]]; try rewrite B1 in Y2.
      * left. by rewrite X2.
      * right. by rewrite <- X1.
      * right. by rewrite X2.
      * right. split; [by etrans|done].
    + intros f. by transitivity (writes (kernel w2) f).
Qed.

Lemma unchanged_evolves w w' :
  unchanged (kernel w) (kernel w') -> (forall l, fd_num w' l = fd_num w l) -> evolves w w'.
Proof.
  intros (Hr & Hw & Hp) Hf. split; try done.
  - intros f _. left. unfold bytes_in. by rewrite Hr.
  - intros f. by rewrite Hw.
Qed.

Lemma written_evolves f ds w w' :
  has_written f ds (kernel w) (kernel w') -> (forall l, fd_num w' l = fd_num w l) -> evolves w w'.
Proof.
  intros (Hw & Hr & Hp) Hf. split; try done.
  - intros g _. left. unfold bytes_in. by rewrite Hr.
  - intros g. rewrite Hw. case_decide; [by apply prefix_app_r|done].
Qed.

Lemma read_evolves f d w w' :
  has_read f d (kernel w) (kernel w') ->
  (packets f = false -> bytes_in (kernel w) f ++ d `prefix_of` stream_of (kernel w) f) ->
  (forall l, fd_num w' l = fd_num w l) -> evolves w w'.
Proof.
  intros Hr Hpre Hf. split; try done; [apply Hr| |].
  - intros g Hg. rewrite (has_read_in _ _ _ _ g Hr). case_decide as E; [subst|by left].
    right. split; [by apply prefix_app_r|auto].
  - intros g. destruct Hr as (_ & -> & _). done.
Qed.

Lemma rewraps_fd l x w w' :
  rewraps l x w w' -> _fd x = fd_num w l -> forall g, fd_num w' g = fd_num w g.
Proof. intros [_ Hw] Hx g. unfold fd_num in *. rewrite Hw. by case_decide; subst. Qed.

Lemma fd_read_evolves l limit w w' o :
  read l limit w = (w', o) -> 0 <= limit -> evolves w w'.
Proof.
  intros E Hl. apply fd_read_spec in E as [(e & _ & Hu & _ & Hw)|(d & _ & _ & Hh & Hw & Hp)]; [| |done].
  - apply unchanged_evolves; [done|]. intros g. unfold fd_num. by rewrite Hw.
  - eapply read_evolves; [exact Hh| |by eapply rewraps_fd]. intros Ef. rewrite Ef in Hp. apply Hp.
Qed.

Lemma set_app_evolves f w : evolves w (set_app f w).
Proof. by apply unchanged_evolves. Qed.

(** [quiet m]: [m] moves no data and does not touch the program's state. *)
Definition quietly w w' : Prop :=
  unchanged (kernel w) (kernel w') /\ app w' = app w /\ forall l, fd_num w' l = fd_num w l.
Definition quiet {A} (m : ste (World K U) A) : Prop := forall w w' o, m w = (w', o) -> quietly w w'.

#[global] Instance quietly_preorder : PreOrder quietly.
Proof.
  split.
  - intros w. by repeat split.
  - intros w1 w2 w3 (A1 & B1 & C1) (A2 & B2 & C2). split; [by etrans|]. split; [by rewrite B2|].
    intros l. by rewrite C2.
Qed.

Lemma quiet_bind {A B} (m : ste (World K U) A) (f : A -> ste (World K U) B) :
  quiet m -> (forall a, quiet (f a)) -> quiet (m ≫= f).
Proof.
  intros Hm Hf w w' o. unfold mbind, ste_bind. destruct (m w) as [w1 [a|e]] eqn:E.
  - intros E'. etrans; [by eapply Hm|by eapply Hf].
  - intros [= <- <-]. by eapply Hm.
Qed.

Lemma quiet_gets {A} (f : World K U -> A) : quiet (gets f).
Proof. by intros w w' o [= <- <-]. Qed.
Lemma quiet_lift {A} (x : outcome A) : quiet (lift x).
Proof. by intros w w' o [= <- <-]. Qed.
Lemma quiet_ret {A} (a : A) : quiet (mret a).
Proof. by intros w w' o [= <- <-]. Qed.
Lemma quiet_throw {A} e : quiet (throw (A := A) e).
Proof. by intros w w' o [= <- <-]. Qed.
Lemma quiet_wrapper l f : (forall x, _fd (f x) = _fd x) -> quiet (modify (set_wrapper l f)).
Proof.
  intros Hf w w' o [= <- <-]. split; [done|]. split; [done|]. intros g. unfold fd_num. rewrite wrapper_set.
  case_decide; [subst; apply Hf|done].
Qed.
Lemma quiet_syscall {A} (f : st K A) :
  (forall k k' a, f k = (k', a) -> unchanged k k') -> quiet (syscall f).
Proof.
  intros Hf w w' o. unfold syscall. destruct (f (kernel w)) as [k a] eqn:E. intros [= <- <-].
  split; [by eapply Hf|]. by split.
Qed.

Lemma quiet_close l : quiet (close l).
Proof.
  unfold close. apply quiet_bind; [apply quiet_gets|]. intros n.
  apply quiet_bind; [apply quiet_syscall; intros k k' a; apply close_law|]. intros r.
  apply quiet_bind; [apply quiet_lift|]. intros _. by apply quiet_wrapper.
Qed.

Lemma quiet_destroy l : quiet (destroy l).
Proof.
  intros w w' o. unfold destroy. destruct (closed w l); [by intros [= <- <-]|].
  destruct (close l w) as [w1 o1] eqn:E. intros [= <- <-]. by eapply quiet_close.
Qed.

Lemma quiet_set_blocking l b : quiet (set_blocking l b).
Proof.
  unfold set_blocking. apply quiet_bind; [apply quiet_gets|]. intros n.
  apply quiet_bind; [apply quiet_syscall; intros k k' a; apply getfl_law|]. intros r.
  apply quiet_bind; [apply quiet_lift|]. intros fl.
  apply quiet_bind; [apply quiet_syscall; intros k k' a; apply setfl_law|]. intros r'.
  apply quiet_bind; [apply quiet_lift|]. intros _. apply quiet_ret.
Qed.

Lemma quietly_evolves w w' : quietly w w' -> evolves w w'.
Proof. intros (Hu & _ & Hf). by apply unchanged_evolves. Qed.

(** [drained f]: everything that is sent to the stream [f] has been read. *)
Definition drained (f : Z) (w : World K U) : Prop := bytes_in (kernel w) f = stream_of (kernel w) f.

Lemma drained_stable f w w' : packets f = false -> evolves w w' -> drained f w -> drained f w'.
Proof.
  unfold drained. intros Hf [_ [Hs _] Hr _] Hd. rewrite Hs. destruct (Hr f Hf) as [->|[Hlo Hhi]]; [done|].
  rewrite Hd in Hlo. by apply (anti_symm prefix).
Qed.

(** [steps P m]: [m] keeps [P], however it ends. *)
Definition steps {A} (P : World K U -> Prop) (m : ste (World K U) A) : Prop :=
  forall w w' o, P w -> m w = (w', o) -> P w' /\ evolves w w'.

Lemma steps_bind {A B} P (m : ste (World K U) A) (f : A -> ste (World K U) B) :
  steps P m -> (forall a, steps P (f a)) -> steps P (m ≫= f).
Proof.
  intros Hm Hf w w' o Hw. unfold mbind, ste_bind. destruct (m w) as [w1 [a|e]] eqn:E.
  - intros E'. destruct (Hm _ _ _ Hw E) as [Hw1 Hev]. destruct (Hf a _ _ _ Hw1 E') as [Hw2 Hev'].
    split; [done|]. by etrans.
  - intros [= <- <-]. by eapply Hm.
Qed.

Lemma steps_pure {A} P (m : ste (World K U) A) : (forall w, fst (m w) = w) -> steps P m.
Proof. intros Hm w w' o Hw E. specialize (Hm w). rewrite E in Hm. cbn in Hm. by subst. Qed.

Lemma steps_gets {A} P (f : World K U -> A) : steps P (gets f).
Proof. by apply steps_pure. Qed.
Lemma steps_ret {A} P (a : A) : steps P (mret a).
Proof. by apply steps_pure. Qed.
Lemma steps_throw {A} P e : steps P (throw (A := A) e).
Proof. by apply steps_pure. Qed.
End Evolution.

#[export] Hint Resolve steps_gets steps_ret steps_throw steps_bind : sponge.

(** Five bytes in two buffers, written two at a time: three calls. *)
Definition ex_kernel : SimKernel :=
  mkSimKernel {[ 3 := mkSimfile [] [] [] 2 0 ]} 0.
Definition ex_world : World SimKernel unit :=
  mkWorld ex_kernel {[ 0%nat := mkFDWrapper 3 false false 0 0 ]} tt.

Lemma write_all_correct_witness :
  let '(w', o) := write 0%nat [[x61; x62; x63]; [x64; x65]] true ex_world in
  o = Ok 5 /\ writes (kernel w') 3 = [[x61; x62]; [x63; x64]; [x65]] /\
  exists ds, writes (kernel w') 3 = [] ++ ds /\ concat ds = [x61; x62; x63; x64; x65].
Proof.
  destruct (write 0%nat [[x61; x62; x63]; [x64; x65]] true ex_world) as [w' o] eqn:E.
  assert (o = Ok 5 /\ writes (kernel w') 3 = [[x61; x62]; [x63; x64]; [x65]]) as [Ho Hw]
    by (revert E; vm_compute; intros [= <- <-]; done).
  split; [exact Ho|]. split; [exact Hw|].
  destruct (write_all_correct 0%nat [[x61; x62; x63]; [x64; x65]] ex_world w' o) as (_ & ds & (Hds & _) & H);
    [reflexivity | exact E |].
  rewrite Ho in H. destruct H as (_ & Hc & _). exists ds. split; [exact (Hds 3) | exact Hc].
Defined.
