(* ===== verification/Socket.v ===== *)
(** * Sockets and devices

    Models [src/libsponge/util/socket.hh] and [socket.cc], the constructor of
    [src/libsponge/util/tun.cc], and [socket_pair_helper] of
    [tcp_helpers/tcp_sponge_socket.cc], over the calls of [SocketKernel].  A
    socket is the [FileDescriptor] it inherits from. *)
From stdpp Require Import base tactics list numbers option gmap.
From Stdlib Require Import ZArith Lia.
From S2P Require Import Prelude Buffer Address Kernel FileDescriptor.

(** [sys/socket.h], [linux/if_tun.h]. *)
Definition AF_UNIX : Z := 1.
Definition AF_INET : Z := 2.
Definition SOCK_STREAM : Z := 1.
Definition SOCK_DGRAM : Z := 2.
Definition SOL_SOCKET : Z := 1.
Definition SO_REUSEADDR : Z := 2.
Definition SO_TYPE : Z := 3.
Definition SO_DOMAIN : Z := 39.
Definition IFF_TUN : Z := 1.
Definition IFF_TAP : Z := 2.
Definition IFF_NO_PI : Z := 4096.
Definition IFNAMSIZ : Z := 16.
Definition O_RDWR : Z := 2.
Definition sizeof_int : Z := 4.

Class SocketKernel (K : Type) := {
  sys_socket : Z -> Z -> st K sysret;
  (** the value and the length that [getsockopt] stores *)
  sys_getsockopt : Z -> Z -> Z -> st K (sysret * (Z * Z));
  sys_setsockopt : Z -> Z -> Z -> Z -> st K sysret;
  sys_getsockname : Z -> st K (sysret * Address);
  sys_getpeername : Z -> st K (sysret * Address);
  sys_bind : Z -> Address -> st K sysret;
  sys_connect : Z -> Address -> st K sysret;
  sys_listen : Z -> Z -> st K sysret;
  sys_accept : Z -> st K sysret;
  (** [recvfrom] with [MSG_TRUNC]: the bytes stored and the source *)
  sys_recvfrom : Z -> Z -> st K (sysret * (list byte * Address));
  sys_sendmsg : Z -> option Address -> list iovec -> st K sysret;
  sys_socketpair : Z -> Z -> st K (sysret * (Z * Z));
  sys_open : list byte -> Z -> st K sysret;
  (** [TUNSETIFF] with the flags and the name of the request *)
  sys_tunsetiff : Z -> Z -> list byte -> st K sysret
}.

(** Nothing was read or written; the other ends may be new ones. *)
Definition silent {K} `{Observe K} (k k' : K) : Prop :=
  (forall f, reads k' f = reads k f) /\ (forall f, writes k' f = writes k f).

(** What the manual pages promise of these calls: only [recvfrom] and
    [sendmsg] move data, a datagram at a time; of a datagram that is longer
    than the buffer the beginning is stored, and [MSG_TRUNC] tells its length. *)
Class SocketLaws (K : Type) `{Kernel K} `{Observe K} `{SocketKernel K} : Prop := {
  socket_law : forall d t k k' r, sys_socket d t k = (k', r) ->
    silent k k' /\ (failed r \/ 0 <= return_value r < 2 ^ 31 /\ packets (return_value r) = bool_decide (t = SOCK_DGRAM));
  connect_law : forall f a k k' r, sys_connect f a k = (k', r) -> silent k k';
  accept_law : forall f k k' r, sys_accept f k = (k', r) -> silent k k';
  bind_law : forall f a k k' r, sys_bind f a k = (k', r) -> unchanged k k';
  listen_law : forall f n k k' r, sys_listen f n k = (k', r) -> unchanged k k';
  setsockopt_law : forall f l o v k k' r, sys_setsockopt f l o v k = (k', r) -> unchanged k k';
  getsockopt_law : forall f l o k k' r, sys_getsockopt f l o k = (k', r) -> unchanged k k';
  getsockname_law : forall f k k' r, sys_getsockname f k = (k', r) -> unchanged k k';
  recvfrom_law : forall f n k k' r stored src,
    packets f = true -> 0 <= n -> sys_recvfrom f n k = (k', (r, (stored, src))) ->
    (failed r /\ unchanged k k') \/
    exists d, network k f d /\ return_value r = Zlen d /\ Zlen d < 2 ^ 31 /\ stored = ztake n d /\
      has_read f stored k k';
  sendmsg_law : forall f a v k k' r,
    packets f = true -> sys_sendmsg f a v k = (k', r) ->
    let data := concat (map fst v) in
    (failed r /\ unchanged k k') \/ (return_value r = Zlen data /\ has_written f [data] k k')
}.

Section Sockets.
Context {K U : Type} `{Kernel K} `{SocketKernel K}.
Abbreviation M := (ste (World K U)).

(** A wrapped call on the descriptor of [l] whose value is not used. *)
Definition call_on (l : FileDescriptor) (f : Z -> st K sysret) : M unit :=
  n ← gets (fun w => fd_num w l);
  r ← syscall (f n);
  _ ← lift (SystemCall r 0);
  mret tt.

(** A constructor that throws after its base is built destroys the base. *)
Definition guarded (l : FileDescriptor) (body : M unit) : M FileDescriptor := fun w =>
  match body w with
  | (w', Ok _) => (w', Ok l)
  | (w', Throw e) => (fst (destroy l w'), Throw e)
  end.

(** [Socket(domain, type)]. *)
Definition Socket (domain type : Z) : M FileDescriptor :=
  r ← syscall (sys_socket domain type);
  n ← lift (SystemCall r 0);
  new_fd n.

(** A socket option that must have an expected value. *)
Definition verify_option (l : FileDescriptor) (option expected : Z) : M unit :=
  n ← gets (fun w => fd_num w l);
  res ← syscall (sys_getsockopt n SOL_SOCKET option);
  _ ← lift (SystemCall (fst res) 0);
  let '(actual_value, len) := snd res in
  if negb (len =? sizeof_int) || negb (actual_value =? expected) then throw RuntimeError else mret tt.

(** [Socket(fd, domain, type)]. *)
Definition Socket_of_fd (l : FileDescriptor) (domain type : Z) : M FileDescriptor :=
  guarded l (_ ← verify_option l SO_DOMAIN domain; verify_option l SO_TYPE type).

Definition get_address (l : FileDescriptor) (function : Z -> st K (sysret * Address)) : M Address :=
  n ← gets (fun w => fd_num w l);
  res ← syscall (function n);
  _ ← lift (SystemCall (fst res) 0);
  mret (snd res).
Definition local_address (l : FileDescriptor) : M Address := get_address l sys_getsockname.
Definition peer_address (l : FileDescriptor) : M Address := get_address l sys_getpeername.

Definition bind (l : FileDescriptor) (address : Address) : M unit := call_on l (fun n => sys_bind n address).
Definition connect (l : FileDescriptor) (address : Address) : M unit := call_on l (fun n => sys_connect n address).

Definition shutdown (l : FileDescriptor) (how : Z) : M unit :=
  _ ← call_on l (fun n => sys_shutdown n how);
  if how =? SHUT_RD then register_read l
  else if how =? SHUT_WR then register_write l
  else if how =? SHUT_RDWR then _ ← register_read l; register_write l
  else throw RuntimeError.

Definition setsockopt (l : FileDescriptor) (level option option_value : Z) : M unit :=
  call_on l (fun n => sys_setsockopt n level option option_value).
Definition set_reuseaddr (l : FileDescriptor) : M unit := setsockopt l SOL_SOCKET SO_REUSEADDR 1.

(** *** UDP *)

Definition UDPSocket : M FileDescriptor := Socket AF_INET SOCK_DGRAM.

(** [recv(datagram, mtu)]: source address and payload. *)
Definition recv_into (l : FileDescriptor) (payload : list byte) (mtu : Z) : M (Address * list byte) :=
  let payload := str_resize mtu payload in
  n ← gets (fun w => fd_num w l);
  res ← syscall (sys_recvfrom n (Zlen payload));
  recv_len ← lift (SystemCall (fst res) 0);
  let '(stored, source) := snd res in
  if s64 mtu <? recv_len then throw RuntimeError
  else
    _ ← register_read l;
    if recv_len <? 0 then throw LengthError
    else mret (source, str_resize recv_len (stored ++ zdrop (Zlen stored) payload)).
Definition recv (l : FileDescriptor) (mtu : Z) : M (Address * list byte) := recv_into l [] mtu.

Definition sendmsg_helper (n : Z) (destination : option Address) (payload : BufferViewList) : M unit :=
  r ← syscall (sys_sendmsg n destination (as_iovecs payload));
  bytes_sent ← lift (SystemCall r 0);
  if negb (u64 bytes_sent =? bvl_size payload) then throw RuntimeError else mret tt.

Definition sendto (l : FileDescriptor) (destination : Address) (payload : BufferViewList) : M unit :=
  n ← gets (fun w => fd_num w l);
  _ ← sendmsg_helper n (Some destination) payload;
  register_write l.
Definition send (l : FileDescriptor) (payload : BufferViewList) : M unit :=
  n ← gets (fun w => fd_num w l);
  _ ← sendmsg_helper n None payload;
  register_write l.

(** *** TCP and Unix-domain sockets *)

Definition TCPSocket : M FileDescriptor := Socket AF_INET SOCK_STREAM.
Definition listen (l : FileDescriptor) (backlog : Z) : M unit := call_on l (fun n => sys_listen n backlog).
Definition accept (l : FileDescriptor) : M FileDescriptor :=
  _ ← register_read l;
  n ← gets (fun w => fd_num w l);
  r ← syscall (sys_accept n);
  m ← lift (SystemCall r 0);
  l' ← new_fd m;
  Socket_of_fd l' AF_INET SOCK_STREAM.
Definition LocalStreamSocket (l : FileDescriptor) : M FileDescriptor := Socket_of_fd l AF_UNIX SOCK_STREAM.

(** [socket_pair_helper]. *)
Definition socket_pair_helper (type : Z) : M (FileDescriptor * FileDescriptor) :=
  res ← syscall (sys_socketpair AF_UNIX type);
  _ ← lift (SystemCall (fst res) 0);
  a ← new_fd (fst (snd res));
  b ← new_fd (snd (snd res));
  mret (a, b).

(** *** TUN and TAP devices *)

(** ["/dev/net/tun"] *)
Definition CLONEDEV : list byte := [x2f; x64; x65; x76; x2f; x6e; x65; x74; x2f; x74; x75; x6e].

(** [strncpy(ifr_name, devname.data(), IFNAMSIZ - 1)] and the terminator. *)
Fixpoint c_string (s : list byte) : list byte :=
  match s with
  | [] => []
  | b :: s' => if bool_decide (b = x00) then [] else b :: c_string s'
  end.
Definition ifr_name (devname : list byte) : list byte := str_resize (IFNAMSIZ - 1) (c_string devname) ++ [x00].

Definition TunTapFD (devname : list byte) (is_tun : bool) : M FileDescriptor :=
  r ← syscall (sys_open CLONEDEV O_RDWR);
  n ← lift (SystemCall r 0);
  l ← new_fd n;
  let flags := Z.lor (if is_tun then IFF_TUN else IFF_TAP) IFF_NO_PI in
  guarded l (call_on l (fun n => sys_tunsetiff n flags (ifr_name devname))).
End Sockets.

(** ** Properties *)

Section Properties.
Context {K U : Type} `{KernelLaws K} `{SocketKernel K}.
Implicit Types (w : World K U) (l : FileDescriptor).

(** [shutdown] moves no data, changes only the counters of its descriptor,
    and returns only for the three values of [how]. *)
Lemma shutdown_spec l how w w' o :
  shutdown l how w = (w', o) ->
  unchanged (kernel w) (kernel w') /\ app w' = app w /\
  (forall g, wrapper w' g = wrapper w g \/
     g = l /\ _fd (wrapper w' g) = _fd (wrapper w g) /\ _eof (wrapper w' g) = _eof (wrapper w g) /\
     _closed (wrapper w' g) = _closed (wrapper w g)) /\
  (o = Ok tt -> 0 <= how <= 2 /\
     (how <> SHUT_WR -> read_count w' l = u32 (read_count w l + 1)) /\
     (how <> SHUT_RD -> write_count w' l = u32 (write_count w l + 1))).
Proof.
  unfold shutdown, call_on, mbind, ste_bind, gets, syscall, lift, read_count, write_count.
  destruct (sys_shutdown _ _ _) as [k' r] eqn:E. apply shutdown_law in E.
  destruct (SystemCall r 0) as [v|e]; [|intros [= <- <-]; split_and!; eauto; done].
  unfold SHUT_RD, SHUT_WR, SHUT_RDWR.
  destruct (Z.eqb_spec how 0) as [->|?]; [|destruct (Z.eqb_spec how 1) as [->|?];
    [|destruct (Z.eqb_spec how 2) as [->|?]]]; intros [= <- <-]; (split; [done|]; split; [done|]; split);
    try (intros g; rewrite !wrapper_set; destruct (decide (g = l)) as [->|]; [right|left; done];
         rewrite ?decide_True by done; done); try done; try (intros g; by left); intros _;
    rewrite !wrapper_set, !decide_True by done; split; (lia || done).
Qed.

Lemma quiet_shutdown l how : quiet (U := U) (shutdown l how).
Proof.
  intros w w' o E. apply shutdown_spec in E as (Hu & Ha & Hw & _). split; [done|]. split; [done|].
  intros g. unfold fd_num. by destruct (Hw g) as [->|(_ & -> & _)].
Qed.

(** Datagrams are received whole or not at all.  [recvfrom] with
    [MSG_TRUNC] stores at most [mtu] bytes and returns the length of the
    datagram; [UDPSocket::recv] then returns the source and exactly the
    datagram when it fits, and throws when it does not, never a truncated
    payload; a call that fails throws its error.  In the other direction
    [sendto] returns only when the kernel took every byte of the payload. *)
Theorem udp_whole_datagrams l mtu (dest : Address) payload w :
  0 <= mtu < 2 ^ 31 -> Zlen (concat payload) < 2 ^ 31 ->
  (forall k' r stored src, sys_recvfrom (fd_num w l) mtu (kernel w) = (k', (r, (stored, src))) ->
     failed r \/ exists d, return_value r = Zlen d /\ Zlen d < 2 ^ 31 /\ stored = ztake mtu d) ->
  (let '(_, (r, (stored, src))) := sys_recvfrom (fd_num w l) mtu (kernel w) in
   snd (recv l mtu w) =
     if return_value r =? -1 then Throw (UnixError (errno r))
     else if mtu <? return_value r then Throw RuntimeError else Ok (src, stored)) /\
  (snd (sendto l dest payload w) = Ok tt ->
   s32 (return_value (snd (sys_sendmsg (fd_num w l) (Some dest) (as_iovecs payload) (kernel w)))) =
     Zlen (concat payload)).
Proof.
  intros Hm Hsz Hlaw. pose proof (Zlen_nonneg (concat payload)). split.
  - destruct (sys_recvfrom (fd_num w l) mtu (kernel w)) as [k' [r [stored src]]] eqn:E.
    specialize (Hlaw _ _ _ _ eq_refl). unfold recv, recv_into, mbind, ste_bind, gets, syscall, lift.
    rewrite Zlen_str_resize, E by lia. cbn [fst snd].
    destruct Hlaw as [Hf|(d & Hr & Hd & ->)].
    + rewrite (SystemCall_failed _ Hf). destruct Hf as [-> _]. done.
    + pose proof (Zlen_nonneg d). rewrite SystemCall_ok, Hr by lia.
      assert (s64 mtu = mtu) as -> by wrap_lia.
      destruct (Z.eqb_spec (Zlen d) (-1)); [lia|].
      destruct (Z.ltb_spec mtu (Zlen d)); [done|]. cbn. destruct (Z.ltb_spec (Zlen d) 0); [lia|].
      rewrite (ztake_ge mtu d) by lia. cbn. do 2 f_equal.
      apply str_resize_app.
  - unfold sendto, sendmsg_helper, mbind, ste_bind, gets, syscall, lift.
    destruct (sys_sendmsg _ _ _ _) as [k' r]. unfold SystemCall. cbn [snd].
    destruct (_ || _) eqn:Eo; [|done]. rewrite bvl_size_spec, (u64_small (Zlen _)) by lia.
    destruct (Z.eqb_spec (u64 (s32 (return_value r))) (Zlen (concat payload))) as [Eq|]; [|done].
    intros _. rewrite <- Eq in *. assert (- 2 ^ 31 <= s32 (return_value r) < 2 ^ 31) as Hb by wrap_lia.
    revert Hsz Hb. generalize (s32 (return_value r)) as x. intros x Hsz Hb. clear - Hsz Hb. wrap_lia.
Qed.
End Properties.

(** The socket calls of the simulated kernel, on the packet devices. *)
#[global] Instance sim_sockets : SocketKernel SimKernel := {
  sys_socket _ t k := (k, mkSysret (if bool_decide (t = SOCK_DGRAM) then 100 else 5) 0);
  sys_getsockopt f _ option k :=
    let pair := (f =? 10) || (f =? 11) in
    (k, (mkSysret 0 0, (if option =? SO_DOMAIN then if pair then AF_UNIX else AF_INET
                        else if pair then SOCK_STREAM else SOCK_DGRAM, 4)));
  sys_setsockopt _ _ _ _ k := (k, mkSysret 0 0);
  sys_getsockname _ k := (k, (mkSysret 0 0, mkAddress 0 0));
  sys_getpeername _ k := (k, (mkSysret 0 0, mkAddress 0 0));
  sys_bind _ _ k := (k, mkSysret 0 0);
  sys_connect _ _ k := (k, mkSysret 0 0);
  sys_listen _ _ k := (k, mkSysret 0 0);
  sys_accept _ k := (k, mkSysret 100 0);
  sys_recvfrom f n k :=
    match incoming (file k f) with
    | [] => (k, (mkSysret (-1) EAGAIN, ([], mkAddress 0 0)))
    | d :: _ =>
        if 2 ^ 31 <=? Zlen d then (k, (mkSysret (-1) 75, ([], mkAddress 0 0)))
        else (fst (sim_read f n k), (mkSysret (Zlen d) 0, (ztake n d, mkAddress 2130706433 53)))
    end;
  sys_sendmsg f _ v k := sim_writev f v k;
  sys_socketpair _ t k := (k, (mkSysret 0 0, if bool_decide (t = SOCK_DGRAM) then (102, 103) else (10, 11)));
  sys_open _ _ k := (k, mkSysret 101 0);
  sys_tunsetiff _ _ _ k := (k, mkSysret 0 0)
}.

#[global] Instance sim_socket_laws : SocketLaws SimKernel.
Proof.
  split; cbn; try (intros; by simplify_eq).
  - intros d t k k' r [= <- <-]. split; [done|]. right. cbn. by case_bool_decide.
  - intros f n k k' r stored src Hp Hn. destruct (incoming (file k f)) as [|d ds] eqn:E; [by intros [= <- <- _ _]; left|].
    destruct (Z.leb_spec (2 ^ 31) (Zlen d)); [by intros [= <- <- _ _]; left|].
    destruct (sim_read f n k) as [k1 [r1 d1]] eqn:Er. intros [= <- <- <- _]. right. exists d. split; [split; [done|by left]|].
    split; [done|]. split; [done|]. split; [done|]. revert Er. unfold sim_read. rewrite E, Hp. cbn [negb andb].
    intros [= <- _ _]. apply sim_has_read; [done..|]. rewrite Hp, E. intros p. by right.
  - intros f a v k k' r Hp E. pose proof (sim_writev_law _ _ _ _ _ E) as [?|(_ & Hw & Hr)]; [by left|right].
    specialize (Hr Hp). split; [done|]. rewrite Hr, ztake_ge in Hw by lia. done.
Qed.

Definition ex_udp : World SimKernel unit :=
  mkWorld (mkSimKernel {[ 100 := mkSimfile [[x61; x62; x63]] [] [] 0 0 ]} 0)
    {[ 0%nat := mkFDWrapper 100 false false 0 0 ]} tt.

(** A datagram of three bytes, with room for four and for two. *)
Lemma udp_whole_datagrams_witness :
  snd (recv 0%nat 4 ex_udp) = Ok (mkAddress 2130706433 53, [x61; x62; x63]) /\
  snd (recv 0%nat 2 ex_udp) = Throw RuntimeError /\
  return_value (snd (sys_sendmsg 100 (Some (mkAddress 1 2)) [([x78], 1)] (kernel ex_udp))) = 1.
Proof.
  assert (forall mtu, 0 <= mtu < 2 ^ 31 ->
    forall k' r stored src, sys_recvfrom 100 mtu (kernel ex_udp) = (k', (r, (stored, src))) ->
     failed r \/ exists d, return_value r = Zlen d /\ Zlen d < 2 ^ 31 /\ stored = ztake mtu d) as Hl.
  { intros mtu Hm k' r stored src. cbn. intros [= _ <- <- _]. right. by exists [x61; x62; x63]. }
  split; [|split].
  - exact (proj1 (udp_whole_datagrams 0%nat 4 (mkAddress 1 2) [[x78]] ex_udp
      ltac:(lia) ltac:(reflexivity) (Hl 4 ltac:(lia)))).
  - exact (proj1 (udp_whole_datagrams 0%nat 2 (mkAddress 1 2) [[x78]] ex_udp
      ltac:(lia) ltac:(reflexivity) (Hl 2 ltac:(lia)))).
  - exact (proj2 (udp_whole_datagrams 0%nat 2 (mkAddress 1 2) [[x78]] ex_udp
      ltac:(lia) ltac:(reflexivity) (Hl 2 ltac:(lia))) ltac:(vm_compute; reflexivity)).
Defined.
