(* ===== verification/EventLoop.v ===== *)
(** * The event loop

    Models [src/libsponge/util/eventloop.hh] and [eventloop.cc].  The
    callbacks of a rule are computations on the [World] of the program; none
    of the loops in the repository adds a rule from a callback, so the list of
    rules is the loop's own state, and is returned with what
    [wait_next_event] does, exceptions included. *)
From stdpp Require Import base tactics list numbers option gmap.
From Stdlib Require Import ZArith Lia.
From S2P Require Import Prelude Kernel FileDescriptor.

Inductive Direction : Type := In | Out.
#[global] Instance Direction_eq_dec : EqDecision Direction.
Proof. solve_decision. Defined.

(** [static_cast<short>(direction)]. *)
Definition direction_bits (d : Direction) : Z := match d with In => POLLIN | Out => POLLOUT end.

Inductive Result : Type := Success | Timeout | Exit.
#[global] Instance Result_eq_dec : EqDecision Result.
Proof. solve_decision. Defined.

Record Rule (K U : Type) := mkRule {
  rfd : FileDescriptor;
  direction : Direction;
  callback : ste (World K U) unit;
  interest : ste (World K U) bool;
  cancel : ste (World K U) unit
}.
Arguments mkRule {K U}.
Arguments rfd {K U}.
Arguments direction {K U}.
Arguments callback {K U}.
Arguments interest {K U}.
Arguments cancel {K U}.

Section Loop.
Context {K U : Type} `{Kernel K}.
Implicit Types (w : World K U) (r : Rule K U) (rules : list (Rule K U)).

Definition service_count r (w : World K U) : Z :=
  match direction r with In => read_count w (rfd r) | Out => write_count w (rfd r) end.

Definition add_rule (fd : FileDescriptor) (d : Direction) (callback : ste (World K U) unit)
    (interest : ste (World K U) bool) (cancel : ste (World K U) unit) rules : list (Rule K U) :=
  rules ++ [mkRule (duplicate fd) d callback interest cancel].

(** The first loop of [wait_next_event]: the world, the rules left in the
    list, and the array of [pollfd] with [something_to_poll]. *)
Fixpoint setup rules (something : bool) (w : World K U)
    : World K U * list (Rule K U) * outcome (list pollfd * bool) :=
  match rules with
  | [] => (w, [], Ok ([], something))
  | r :: rules' =>
      let erase (w : World K U) :=
        match cancel r w with
        | (w, Throw e) => (w, r :: rules', Throw e)
        | (w, Ok _) => setup rules' something w
        end in
      if bool_decide (direction r = In) && eof w (rfd r) then erase w
      else if closed w (rfd r) then erase w
      else
        match interest r w with
        | (w, Throw e) => (w, r :: rules', Throw e)
        | (w, Ok interested) =>
            let p := mkPollfd (fd_num w (rfd r)) (if interested then direction_bits (direction r) else 0) 0 in
            match setup rules' (something || interested) w with
            | (w, kept, Ok (ps, s)) => (w, r :: kept, Ok (p :: ps, s))
            | (w, kept, Throw e) => (w, r :: kept, Throw e)
            end
        end
  end.

(** One ready rule: the callback, then the check for a busy wait. *)
Definition serve r : ste (World K U) unit :=
  count_before ← gets (service_count r);
  _ ← callback r;
  count_after ← gets (service_count r);
  if count_before =? count_after then
    interested ← interest r;
    if (interested : bool) then throw RuntimeError else mret tt
  else mret tt.

(** The last loop; the array has an entry for every rule. *)
Fixpoint dispatch rules (pollfds : list pollfd) (w : World K U)
    : World K U * list (Rule K U) * outcome unit :=
  match rules, pollfds with
  | [], _ => (w, [], Ok tt)
  | r :: rules', [] => (w, r :: rules', Throw Undefined)
  | r :: rules', p :: pollfds' =>
      if has_bit (revents p) (Z.lor POLLERR POLLNVAL) then (w, r :: rules', Throw RuntimeError)
      else
        let poll_ready := has_bit (revents p) (events p) in
        let poll_hup := has_bit (revents p) POLLHUP in
        if poll_hup && negb (events p =? 0) && negb poll_ready then
          match cancel r w with
          | (w, Throw e) => (w, r :: rules', Throw e)
          | (w, Ok _) => dispatch rules' pollfds' w
          end
        else
          match (if poll_ready then serve r w else (w, Ok tt)) with
          | (w, Throw e) => (w, r :: rules', Throw e)
          | (w, Ok _) => let '(w, kept, o) := dispatch rules' pollfds' w in (w, r :: kept, o)
          end
  end.

Definition wait_next_event (timeout_ms : Z) rules (w : World K U)
    : World K U * list (Rule K U) * outcome Result :=
  match setup rules false w with
  | (w, rules, Throw e) => (w, rules, Throw e)
  | (w, rules, Ok (pollfds, something_to_poll)) =>
      if negb something_to_poll then (w, rules, Ok Exit)
      else
        let '(k, (r, pollfds)) := sys_poll pollfds timeout_ms (kernel w) in
        let w := mkWorld k (wrappers w) (app w) in
        let go_through :=
          match dispatch rules pollfds w with
          | (w, rules, Throw e) => (w, rules, Throw e)
          | (w, rules, Ok _) => (w, rules, Ok Success)
          end in
        match SystemCall r 0 with
        | Ok n => if n =? 0 then (w, rules, Ok Timeout) else go_through
        | Throw (UnixError code) => if code =? EINTR then (w, rules, Ok Exit) else go_through
        | Throw e => (w, rules, Throw e)
        end
  end.
End Loop.

(** ** Invariants of a program that runs in a loop *)

Section Invariants.
Context {K U : Type} `{KernelLaws K} (P : World K U -> Prop).
Implicit Types (w : World K U) (r : Rule K U) (rules : list (Rule K U)).

(** What a program shows of each of its rules: the callbacks keep [P], where
    the cancellation may rely on its cause: the descriptor is at its end or
    closed, or it was reported hung up with nothing left to read. *)
Record rule_ok r : Prop := {
  ok_interest : steps P (interest r);
  ok_callback : steps P (callback r);
  ok_flag : forall w w' o, P w ->
    (direction r = In /\ eof w (rfd r) = true) \/ closed w (rfd r) = true ->
    cancel r w = (w', o) -> P w' /\ evolves w w';
  ok_hangup : forall w w' o, P w ->
    (direction r = In -> packets (fd_num w (rfd r)) = false -> drained (fd_num w (rfd r)) w) ->
    cancel r w = (w', o) -> P w' /\ evolves w w'
}.

(** [p] was made for [r]. *)
Definition aligned w r (p : pollfd) : Prop :=
  fd p = fd_num w (rfd r) /\ (events p = direction_bits (direction r) \/ events p = 0).

(** What a report of a hangup tells. *)
Definition hangup_told w r (p : pollfd) : Prop :=
  direction r = In -> packets (fd p) = false -> events p = POLLIN ->
  has_bit (revents p) POLLHUP = true -> has_bit (revents p) POLLIN = false -> drained (fd p) w.

Lemma aligned_evolves w w' r p : evolves w w' -> aligned w r p -> aligned w' r p.
Proof. intros Hev [E He]. split; [by rewrite (ev_fd _ _ Hev)|done]. Qed.

Lemma hangup_evolves w w' r p : evolves w w' -> hangup_told w r p -> hangup_told w' r p.
Proof. intros Hev Ht ? ? ? ? ?. eapply drained_stable; [done|exact Hev|by apply Ht]. Qed.

(** The outcome of the first loop: it keeps [P] and the order of the rules,
    and makes one entry for each rule that is left. *)
Definition setup_post rules (s : bool) w (res : World K U * list (Rule K U) * outcome (list pollfd * bool)) : Prop :=
  let '(w', kept, o) := res in
  P w' /\ evolves w w' /\ kept `sublist_of` rules /\
  match o with
  | Ok (ps, s') => Forall2 (aligned w') kept ps /\ Forall (fun p => revents p = 0) ps /\
                   (s' = true -> s = true \/ Exists (fun p => events p <> 0) ps)
  | Throw _ => True
  end.

Lemma setup_ok rules s w : P w -> Forall rule_ok rules -> setup_post rules s w (setup rules s w).
Proof.
  revert s w. induction rules as [|r rules IH]; intros s w Hw Hok.
  { cbn. split_and!; try done; by left. }
  inversion Hok as [|? ? Hr Hrs]; subst. cbn [setup].
  assert ((direction r = In /\ eof w (rfd r) = true) \/ closed w (rfd r) = true ->
    setup_post (r :: rules) s w (match cancel r w with
      | (w1, Ok _) => setup rules s w1 | (w1, Throw e) => (w1, r :: rules, Throw e) end)) as Herase.
  { intros Hc. destruct (cancel r w) as [w1 [u|e]] eqn:Ec;
      destruct (ok_flag r Hr _ _ _ Hw Hc Ec) as [Hw1 Hev1]; [|done].
    specialize (IH s w1 Hw1 Hrs). destruct (setup rules s w1) as [[w2 kept] o].
    destruct IH as (? & ? & ? & ?). split; [done|]. split; [by etrans|]. split; [by apply sublist_cons|done]. }
  destruct (bool_decide (direction r = In) && eof w (rfd r)) eqn:E1.
  { apply andb_true_iff in E1 as [?%bool_decide_eq_true ?]. destruct (cancel r w) as [w1 [u|e]]; apply Herase; auto. }
  destruct (closed w (rfd r)) eqn:E2; [destruct (cancel r w) as [w1 [u|e]]; apply Herase; auto|]. clear Herase.
  destruct (interest r w) as [w1 [b|e]] eqn:Ei; destruct (ok_interest r Hr _ _ _ Hw Ei) as [Hw1 Hev1]; [|done].
  specialize (IH (s || b) w1 Hw1 Hrs). destruct (setup rules (s || b) w1) as [[w2 kept] [[ps s']|e]];
    destruct IH as (H2 & H3 & H4 & H5); (split; [done|]; split; [by etrans|]; split; [by apply sublist_skip|]); [|done].
  destruct H5 as (H5 & H6 & H7). split.
  { constructor; [|done]. split; [symmetry; apply (ev_fd _ _ H3)|]. cbn. destruct b; auto. }
  split; [by constructor|]. intros Hs'. destruct (H7 Hs') as [Hb|Hex]; [|right; by right].
  destruct s; [by left|]. right. left. cbn. cbn in Hb. rewrite Hb. by destruct (direction r).
Qed.

Lemma serve_steps r : rule_ok r -> steps P (serve r).
Proof.
  intros Hr. unfold serve. apply steps_bind; [auto with sponge|]. intros n.
  apply steps_bind; [apply Hr|]. intros _. apply steps_bind; [auto with sponge|]. intros m.
  destruct (_ =? _); [|auto with sponge]. apply steps_bind; [apply Hr|]. intros []; auto with sponge.
Qed.

Lemma dispatch_ok rules ps w w' kept o :
  P w -> Forall rule_ok rules -> Forall2 (fun r p => aligned w r p /\ hangup_told w r p) rules ps ->
  dispatch rules ps w = (w', kept, o) -> P w' /\ evolves w w' /\ kept `sublist_of` rules.
Proof.
  revert ps w kept w' o. induction rules as [|r rules IH]; intros ps w kept w' o Hw Hok Hal; [by intros [= <- <- <-]|].
  inversion Hok as [|? ? Hr Hrs]; subst. inversion Hal as [|? p ? ps' [Hp Hh] Hal']; subst. cbn [dispatch].
  assert (forall w1, evolves w w1 -> Forall2 (fun r p => aligned w1 r p /\ hangup_told w1 r p) rules ps') as Hmove.
  { intros w1 Hev. eapply Forall2_impl; [exact Hal'|]. intros r' p' [? ?].
    split; [by eapply aligned_evolves|by eapply hangup_evolves]. }
  destruct (has_bit (revents p) (Z.lor POLLERR POLLNVAL)); [by intros [= <- <- <-]|].
  destruct (has_bit (revents p) POLLHUP && negb (events p =? 0) && negb (has_bit (revents p) (events p))) eqn:Eh.
  - bsplit. destruct Hp as [Hfd [He|He]]; [|done].
    assert (direction r = In -> packets (fd_num w (rfd r)) = false -> drained (fd_num w (rfd r)) w) as Hdr.
    { rewrite <- Hfd. intros Hd Hpk. rewrite Hd in He. cbn in He. rewrite He in *. by apply Hh. }
    destruct (cancel r w) as [w1 [u|e]] eqn:Ec; destruct (ok_hangup r Hr _ _ _ Hw Hdr Ec) as [Hw1 Hev1];
      [|by intros [= <- <- <-]].
    intros E. destruct (IH _ _ _ _ _ Hw1 Hrs (Hmove _ Hev1) E) as (Hq1 & Hq2 & Hq3).
    split; [done|]. split; [by etrans|by apply sublist_cons].
  - destruct (if has_bit (revents p) (events p) then serve r w else (w, Ok tt)) as [w1 o1] eqn:Es.
    assert (P w1 /\ evolves w w1) as [Hw1 Hev1].
    { destruct (has_bit (revents p) (events p)); [by eapply serve_steps|]. by injection Es as <- <-. }
    destruct o1 as [u|e]; [|by intros [= <- <- <-]].
    destruct (dispatch rules ps' w1) as [[w2 kept'] o'] eqn:E. intros [= <- <- <-].
    destruct (IH _ _ _ _ _ Hw1 Hrs (Hmove _ Hev1) E) as (Hq1 & Hq2 & Hq3).
    split; [done|]. split; [by etrans|by apply sublist_skip].
Qed.

Lemma sublist_Forall {A} (Q : A -> Prop) l k : l `sublist_of` k -> Forall Q k -> Forall Q l.
Proof.
  induction 1; intros HQ; inversion HQ; subst; try constructor; auto.
Qed.

(** One call of [wait_next_event]. *)
Lemma wait_next_event_keeps timeout rules w w' rules' o :
  (forall w k, P w -> unchanged (kernel w) k -> P (mkWorld k (wrappers w) (app w))) ->
  P w -> Forall rule_ok rules -> wait_next_event timeout rules w = (w', rules', o) ->
  P w' /\ evolves w w' /\ rules' `sublist_of` rules.
Proof.
  intros Hk Hw Hok. unfold wait_next_event. pose proof (setup_ok rules false w Hw Hok) as Hset.
  destruct (setup rules false w) as [[w1 kept] [[ps s]|e]]; destruct Hset as (Hw1 & Hev1 & Hsub & Hps);
    [|by intros [= <- <- <-]].
  destruct s; cbn [negb]; [|by intros [= <- <- <-]].
  destruct (sys_poll ps timeout (kernel w1)) as [k [r ps']] eqn:Ep. apply poll_law in Ep as [Hu Hpoll].
  set (w2 := mkWorld k (wrappers w1) (app w1)).
  assert (P w2) as Hw2 by by apply Hk.
  assert (evolves w1 w2) as Hev2 by by apply unchanged_evolves.
  assert (Forall rule_ok kept) as Hkept by by eapply sublist_Forall.
  assert (evolves w w2) as Hev by by etrans.
  assert (Forall2 (fun r p => aligned w2 r p /\ hangup_told w2 r p) kept ps') as Hal.
  { destruct Hps as [Hal _]. revert Hpoll. clear - Hal Hu Hev2. revert ps'.
    induction Hal as [|r0 p kept ps [Hfd He] _ IH]; intros ps' Hp; inversion Hp as [|? p' ? ? (E1 & E2 & E3) Hp']; subst;
      constructor; [|by apply IH].
    split; [split; [by rewrite E1, (ev_fd _ _ Hev2)|by rewrite E2]|]. intros Hd Hpk Hev ? ?.
    rewrite E1, E2 in *. eapply drained_stable; [done|exact Hev2|by apply E3]. }
  assert (forall res, (match dispatch kept ps' w2 with
     | (w, rules, Throw e) => (w, rules, Throw e) | (w, rules, Ok _) => (w, rules, Ok Success) end) = res ->
     P (fst (fst res)) /\ evolves w (fst (fst res)) /\ snd (fst res) `sublist_of` rules) as Hgo.
  { intros res <-. destruct (dispatch kept ps' w2) as [[w3 kept'] o'] eqn:Ed.
    destruct (dispatch_ok _ _ _ _ _ _ Hw2 Hkept Hal Ed) as (Hw3 & Hev3 & Hsub3).
    destruct o'; cbn; (split; [done|]; split; by etrans). }
  destruct (SystemCall r 0) as [n|[| | | |g|c|]]; [destruct (n =? 0)| | | | | |destruct (c =? EINTR)|];
    try (intros [= <- <- <-]; done); intros E; apply (Hgo _ E).
Qed.

(** A program's invariant holds after every [wait_next_event], however it
    ends, over any kernel that keeps its promises: if the rules' callbacks
    keep [P], and the cancellations keep it where they happen (at the end of
    the file, when the descriptor is closed, or when a hangup says that
    everything was read), then [P] holds afterwards, streams have only been
    read on in order and written further, and the rules left are some of the
    rules before, in their order, so a cancelled rule never runs again. *)
Theorem wait_next_event_invariant timeout rules w w' rules' o :
  (forall w k, P w -> unchanged (kernel w) k -> P (mkWorld k (wrappers w) (app w))) ->
  P w -> Forall rule_ok rules -> wait_next_event timeout rules w = (w', rules', o) ->
  P w' /\ evolves w w' /\ rules' `sublist_of` rules.
Proof. apply wait_next_event_keeps. Qed.
End Invariants.

(** ** Errors of [poll] *)

Section PollErrors.
Context {K U : Type} `{Kernel K}.
Implicit Types (w : World K U) (rules : list (Rule K U)).

(** The array has one fresh entry for each rule left. *)
Lemma setup_shape rules s w w' kept ps s' :
  setup rules s w = (w', kept, Ok (ps, s')) ->
  length ps = length kept /\ Forall (fun p => revents p = 0) ps.
Proof.
  revert s w kept ps. induction rules as [|r rules IH]; intros s w kept ps; cbn [setup].
  { intros [= <- <- <- <-]. by split. }
  destruct (_ && _); [destruct (cancel r w) as [w1 [u|e]]; [apply IH|done]|].
  destruct (closed _ _); [destruct (cancel r w) as [w1 [u|e]]; [apply IH|done]|].
  destruct (interest r w) as [w1 [b|e]]; [|done].
  destruct (setup rules (s || b) w1) as [[w2 kept'] [[ps' s'']|e]] eqn:E; [|done].
  intros [= <- <- <- <-]. destruct (IH _ _ _ _ E) as [Hl Hr]. split; [cbn; by rewrite Hl|by constructor].
Qed.

Lemma dispatch_idle rules ps w :
  length ps = length rules -> Forall (fun p => revents p = 0) ps -> dispatch rules ps w = (w, rules, Ok tt).
Proof.
  revert ps. induction rules as [|r rules IH]; intros ps Hl Hr; [done|].
  destruct ps as [|p ps]; [done|]. inversion Hr as [|? ? Hp Hps]; subst. cbn [dispatch].
  unfold has_bit. rewrite Hp, !Z.land_0_l. cbn. rewrite IH; [done| |done]. by injection Hl.
Qed.

(** An error of [poll] is not reported: when the call fails for any reason
    but a signal, it leaves the array as it was, the handler of the exception
    does nothing, no rule is served, and the result is [Success], although
    the documentation promises a [runtime_error] and says of [Success] that
    at least one rule was triggered.  A program that loops until [Exit] polls
    again at once. *)
Theorem poll_error_ignored timeout rules w w1 kept ps k r :
  setup rules false w = (w1, kept, Ok (ps, true)) ->
  sys_poll ps timeout (kernel w1) = (k, (r, ps)) -> failed r -> errno r <> EINTR ->
  wait_next_event timeout rules w = (mkWorld k (wrappers w1) (app w1), kept, Ok Success).
Proof.
  intros Es Ep Hf Hc. unfold wait_next_event. rewrite Es. cbn [negb]. rewrite Ep.
  destruct (setup_shape _ _ _ _ _ _ _ Es) as [Hl Hr]. rewrite (dispatch_idle kept ps) by done.
  rewrite (SystemCall_failed _ Hf). destruct (Z.eqb_spec (errno r) EINTR); [done|done].
Qed.
End PollErrors.

(** ** Examples *)

Module Examples.
(** A program that counts the bytes it reads from descriptor 3. *)
Definition count_rule : Rule SimKernel Z :=
  mkRule 0%nat In
    (d ← read 0%nat 4; modify (set_app (fun n => n + Zlen d)))
    (mret true) (mret tt).
Definition start : World SimKernel Z :=
  mkWorld (mkSimKernel {[ 3 := mkSimfile [[x61; x62; x63; x64; x65]] [] [] 0 0 ]} 0)
    {[ 0%nat := mkFDWrapper 3 false false 0 0 ]} 0.
Definition counted (w : World SimKernel Z) : Prop :=
  fd_num w 0%nat = 3 /\ app w = Zlen (bytes_in (kernel w) 3).

(** A kernel without memory: [poll] fails with [ENOMEM]. *)
#[global] Instance failing_kernel : Kernel unit := {
  sys_close _ k := (k, mkSysret (-1) 12);
  sys_read _ _ k := (k, (mkSysret (-1) 12, []));
  sys_writev _ _ k := (k, mkSysret (-1) 12);
  sys_shutdown _ _ k := (k, mkSysret (-1) 12);
  sys_getfl _ k := (k, mkSysret (-1) 12);
  sys_setfl _ _ k := (k, mkSysret (-1) 12);
  sys_poll p _ k := (k, (mkSysret (-1) 12, p));
  sys_clock k := (k, 0)
}.
Definition idle_rule : Rule unit unit := mkRule 0%nat In (throw RuntimeError) (mret true) (mret tt).
Definition idle : World unit unit := mkWorld tt {[ 0%nat := mkFDWrapper 3 false false 0 0 ]} tt.
End Examples.

Lemma count_rule_ok : rule_ok Examples.counted Examples.count_rule.
Proof.
  split; cbn; try (intros w w' o Hw _ [= <- <-]; done); [apply steps_ret|].
  intros w w' o [Hf Ha]. unfold mbind, ste_bind. destruct (read 0%nat 4 w) as [w1 o1] eqn:E.
  pose proof (fd_read_evolves _ _ _ _ _ E ltac:(lia)) as Hev. pose proof (ev_fd _ _ Hev 0%nat) as Hf1.
  rewrite Hf in Hf1. apply fd_read_spec in E as [(e & -> & (Hr & _) & Ha1 & Hw)|(d & -> & _ & Hr & [Ha1 _] & _)]; [| |lia].
  - intros [= <- <-]. split; [|done]. split; [done|]. rewrite Ha1, Ha. unfold bytes_in. by rewrite Hr.
  - intros [= <- <-]. rewrite Hf in Hr. split; [|etrans; [exact Hev|apply set_app_evolves]].
    split; [done|]. cbn [app set_app kernel]. rewrite (has_read_in _ _ _ _ 3 Hr), decide_True by done. rewrite Ha1, Ha.
    symmetry. apply Zlen_app.
Qed.

Lemma wait_next_event_invariant_witness :
  let '(w, _, o) := wait_next_event 0 [Examples.count_rule] Examples.start in
  o = Ok Success /\ app w = 4 /\ app w = Zlen (bytes_in (kernel w) 3).
Proof.
  assert (snd (wait_next_event 0 [Examples.count_rule] Examples.start) = Ok Success) as Ho
    by (vm_compute; reflexivity).
  assert (app (fst (fst (wait_next_event 0 [Examples.count_rule] Examples.start))) = 4) as Ha
    by (vm_compute; reflexivity).
  destruct (wait_next_event 0 [Examples.count_rule] Examples.start) as [[w rs] o] eqn:E.
  split; [exact Ho|]. split; [exact Ha|].
  destruct (wait_next_event_invariant Examples.counted 0 [Examples.count_rule] Examples.start w rs o)
    as ([_ H] & _).
  - intros w0 k [Hf Hc] (Hr & _). split; [exact Hf|]. cbn [app kernel]. rewrite Hc. unfold bytes_in. rewrite Hr. reflexivity.
  - split; vm_compute; reflexivity.
  - constructor; [exact count_rule_ok | constructor].
  - exact E.
  - exact H.
Defined.

Lemma poll_error_ignored_witness :
  wait_next_event 0 [Examples.idle_rule] Examples.idle = (Examples.idle, [Examples.idle_rule], Ok Success).
Proof.
  refine (poll_error_ignored 0 [Examples.idle_rule] Examples.idle Examples.idle [Examples.idle_rule]
    [mkPollfd 3 POLLIN 0] tt (mkSysret (-1) 12) _ _ _ _);
    [vm_compute; reflexivity | reflexivity | split; reflexivity | discriminate].
Defined.
