(* ===== verification/Confined.v ===== *)
(** * Code that keeps to its own descriptors

    [confined L m] says that [m] reads, writes and closes only the descriptors
    in [L]: the wrappers of the others, and the histories of the others'
    numbers, stay as they are.  It is what lets two threads of a process share
    the kernel and the table of descriptors. *)
From stdpp Require Import base tactics list numbers option gmap.
From Stdlib Require Import ZArith Lia.
From S2P Require Import Prelude Buffer Kernel FileDescriptor Socket EventLoop.

Create HintDb confined.

Section Confinement.
Context {K U : Type} `{KernelLaws K} (L : list FileDescriptor).
Implicit Types (w : World K U) (l : FileDescriptor).

Record touches (w w' : World K U) : Prop := {
  to_evolves : evolves w w';
  to_wrappers : forall l, l ∉ L -> wrapper w' l = wrapper w l;
  to_kernel : forall f, (forall l, l ∈ L -> fd_num w l <> f) ->
    reads (kernel w') f = reads (kernel w) f /\ writes (kernel w') f = writes (kernel w) f
}.

#[global] Instance touches_preorder : PreOrder touches.
Proof.
  split.
  - intros w. split; [reflexivity|done|done].
  - intros w1 w2 w3 [A1 B1 C1] [A2 B2 C2]. split; [by etrans| |].
    + intros l Hl. by rewrite B2, B1.
    + intros f Hf. destruct (C1 f Hf) as [<- <-]. apply C2. intros l Hl. rewrite (ev_fd _ _ A1). auto.
Qed.

Definition confined {A} (m : ste (World K U) A) : Prop := forall w w' o, m w = (w', o) -> touches w w'.

(** As an invariant of an event loop. *)
Lemma confined_steps {A} (m : ste (World K U) A) w0 : confined m -> steps (touches w0) m.
Proof. intros Hm w w' o Hw E. apply Hm in E. split; [by etrans|apply E]. Qed.

Lemma confined_bind {A B} (m : ste (World K U) A) (f : A -> ste (World K U) B) :
  confined m -> (forall a, confined (f a)) -> confined (m ≫= f).
Proof.
  intros Hm Hf w w' o. unfold mbind, ste_bind. destruct (m w) as [w1 [a|e]] eqn:E.
  - intros E'. etrans; [by eapply Hm|by eapply Hf].
  - intros [= <- <-]. by eapply Hm.
Qed.

Lemma confined_pure {A} (m : ste (World K U) A) : (forall w, fst (m w) = w) -> confined m.
Proof. intros Hm w w' o E. specialize (Hm w). rewrite E in Hm. cbn in Hm. by subst. Qed.
Lemma confined_gets {A} (f : World K U -> A) : confined (gets f).
Proof. by apply confined_pure. Qed.
Lemma confined_gets_bind {A B} (f : World K U -> A) (g : A -> ste (World K U) B) :
  (forall w, confined (g (f w))) -> confined (x ← gets f; g x).
Proof. intros Hg w w' o E. exact (Hg w w w' o E). Qed.
Lemma confined_ret {A} (a : A) : confined (mret a).
Proof. by apply confined_pure. Qed.
Lemma confined_throw {A} e : confined (throw (A := A) e).
Proof. by apply confined_pure. Qed.
Lemma confined_lift {A} (x : outcome A) : confined (lift x).
Proof. by apply confined_pure. Qed.
Lemma confined_when b (m : ste (World K U) unit) : confined m -> confined (when b m).
Proof. intros Hm. destruct b; [done|apply confined_ret]. Qed.
Lemma confined_app f : confined (modify (set_app f)).
Proof. intros w w' o [= <- <-]. split; [apply set_app_evolves|done|done]. Qed.

Lemma confined_wrapper l f : l ∈ L -> (forall x, _fd (f x) = _fd x) -> confined (modify (set_wrapper l f)).
Proof.
  intros Hl Hf w w' o [= <- <-]. split; [|intros g Hg; rewrite wrapper_set; case_decide; [by subst|done]|done].
  apply unchanged_evolves; [done|]. intros g. unfold fd_num. rewrite wrapper_set. case_decide; [subst; apply Hf|done].
Qed.

Lemma confined_unchanged {A} (f : st K A) :
  (forall k k' a, f k = (k', a) -> unchanged k k') -> confined (syscall f).
Proof.
  intros Hf w w' o. unfold syscall. destruct (f (kernel w)) as [k a] eqn:E. apply Hf in E.
  intros [= <- <-]. split; [apply unchanged_evolves; [exact E|done]|done|]. intros g _. split; apply E.
Qed.

Lemma confined_on l (f : Z -> st K sysret) :
  (forall n k k' a, f n k = (k', a) -> unchanged k k') -> confined (call_on l f).
Proof.
  intros Hf. unfold call_on. apply confined_bind; [apply confined_gets|]. intros n.
  apply confined_bind; [apply confined_unchanged; intros k k' a; apply Hf|]. intros r.
  apply confined_bind; [apply confined_lift|]. intros _. apply confined_ret.
Qed.

(** *** The operations of descriptors *)

Lemma confined_read l limit : l ∈ L -> 0 <= limit -> confined (read l limit).
Proof.
  intros Hl Hlim w w' o E. pose proof (fd_read_evolves _ _ _ _ _ E Hlim) as Hev. split; [done| |].
  - intros g Hg. apply fd_read_spec in E as [(_ & _ & _ & _ & Hw)|(d0 & _ & _ & _ & [_ Hw] & _)]; [done| |done].
    rewrite Hw, decide_False; [done|]. by intros ->.
  - intros f Hf. apply fd_read_spec in E as [(_ & _ & Hu & _)|(d & _ & _ & (Hr & Hw & _) & _)]; [split; apply Hu| |done].
    rewrite Hr, Hw, decide_False; [done|]. intros ->. by apply (Hf l).
Qed.

Lemma confined_write_once l buffer : l ∈ L -> confined (write_once l buffer).
Proof.
  intros Hl w w' o. unfold write_once, mbind at 1 2, ste_bind at 1 2, gets, syscall.
  destruct (sys_writev (fd_num w l) (as_iovecs buffer) (kernel w)) as [k r] eqn:E. intros E'.
  assert (touches w (mkWorld k (wrappers w) (app w))) as Hto.
  { apply writev_law in E as [(_ & Hu)|(_ & Hh & _)].
    - split; [by apply unchanged_evolves|done|]. intros f _. split; apply Hu.
    - split; [by eapply written_evolves|done|]. intros f Hf. destruct Hh as (Hw & Hr & _). cbn [kernel].
      rewrite Hw, Hr, decide_False; [done|]. intros ->. by apply (Hf l). }
  etrans; [exact Hto|]. revert E'. match goal with |- ?m _ = _ -> _ => assert (confined m) as Hm; [|apply Hm] end.
  apply confined_bind; [apply confined_lift|]. intros n. destruct (_ && _); [apply confined_throw|].
  destruct (_ <? _); [apply confined_throw|]. apply confined_bind; [by apply confined_wrapper|]. intros _.
  apply confined_bind; [apply confined_lift|]. intros b. apply confined_ret.
Qed.

Lemma confined_write l buffer b : l ∈ L -> confined (write l buffer b).
Proof.
  intros Hl. unfold write. generalize 0 as total. generalize (S (length (concat buffer))) as fuel. revert buffer.
  intros buffer fuel. revert buffer. induction fuel as [|fuel IH]; intros buffer total; cbn [write_iter]; [apply confined_throw|].
  apply confined_bind; [by apply confined_write_once|]. intros res. destruct (_ && _); [apply IH|apply confined_ret].
Qed.

Lemma confined_shutdown l how : l ∈ L -> confined (shutdown l how).
Proof.
  intros Hl. unfold shutdown. apply confined_bind; [apply confined_on; intros n k k' a; apply shutdown_law|]. intros _.
  repeat case_match; try apply confined_throw; try (by apply confined_wrapper).
  apply confined_bind; [by apply confined_wrapper|]. intros _. by apply confined_wrapper.
Qed.

Lemma confined_close l : l ∈ L -> confined (close l).
Proof.
  intros Hl. unfold close. apply confined_bind; [apply confined_gets|]. intros n.
  apply confined_bind; [apply confined_unchanged; intros k k' a; apply close_law|]. intros r.
  apply confined_bind; [apply confined_lift|]. intros _. by apply confined_wrapper.
Qed.

Lemma confined_destroy l : l ∈ L -> confined (destroy l).
Proof.
  intros Hl w w' o. unfold destroy. destruct (closed w l); [by intros [= <- <-]|].
  destruct (close l w) as [w1 o1] eqn:E. intros [= <- <-]. by eapply confined_close.
Qed.

Lemma confined_set_blocking l b : confined (set_blocking l b).
Proof.
  unfold set_blocking. apply confined_bind; [apply confined_gets|]. intros n.
  apply confined_bind; [apply confined_unchanged; intros k k' a; apply getfl_law|]. intros r.
  apply confined_bind; [apply confined_lift|]. intros fl.
  apply confined_bind; [apply confined_unchanged; intros k k' a; apply setfl_law|]. intros r'.
  apply confined_bind; [apply confined_lift|]. intros _. apply confined_ret.
Qed.

(** *** Event loops *)

Definition rule_confined (r : Rule K U) : Prop :=
  confined (callback r) /\ confined (interest r) /\ confined (cancel r).

Lemma confined_wait timeout rules w w' rules' o :
  Forall rule_confined rules -> wait_next_event timeout rules w = (w', rules', o) ->
  touches w w' /\ Forall rule_confined rules'.
Proof.
  intros Hr E. destruct (wait_next_event_keeps (touches w) timeout rules w w' rules' o) as (Ht & _ & Hsub); try done.
  - intros w0 k Hw Hu. etrans; [exact Hw|]. split; [by apply unchanged_evolves|done|]. intros f _. split; apply Hu.
  - eapply Forall_impl; [exact Hr|]. intros r (J1 & J2 & J3). pose proof (confined_steps _ w J3) as Hc.
    split; [by apply confined_steps..| |]; intros w1 w2 o2 Hw _; by apply Hc.
  - split; [done|]. by eapply sublist_Forall.
Qed.
End Confinement.

#[export] Hint Resolve confined_gets confined_ret confined_throw confined_lift confined_when confined_app
  confined_read confined_write confined_shutdown confined_close confined_bind confined_set_blocking : confined.
