(* ===== verification/StreamCopy.v ===== *)
(** * Copying between the terminal and a socket

    Models [src/apps/bidirectional_stream_copy.cc]: two byte streams and four
    rules of an event loop that move bytes from the standard input to a
    socket and from the socket to the standard output. *)
From stdpp Require Import base tactics list numbers option gmap.
From Stdlib Require Import ZArith Lia.
From S2P Require Import Prelude ByteStream Kernel FileDescriptor Socket EventLoop Confined.

Definition max_copy_length : Z := 65536.
Definition buffer_size_limit : Z := 1048576.
Definition STDIN_FILENO : Z := 0.
Definition STDOUT_FILENO : Z := 1.

(** The local variables that the rules share. *)
Record Copy := mkCopy {
  _outbound : ByteStream;
  _inbound : ByteStream;
  _outbound_shutdown : bool;
  _inbound_shutdown : bool
}.

Definition set_outbound (s : ByteStream) (u : Copy) : Copy :=
  mkCopy s (_inbound u) (_outbound_shutdown u) (_inbound_shutdown u).
Definition set_inbound (s : ByteStream) (u : Copy) : Copy :=
  mkCopy (_outbound u) s (_outbound_shutdown u) (_inbound_shutdown u).
Definition set_outbound_shutdown (u : Copy) : Copy :=
  mkCopy (_outbound u) (_inbound u) true (_inbound_shutdown u).
Definition set_inbound_shutdown (u : Copy) : Copy :=
  mkCopy (_outbound u) (_inbound u) (_outbound_shutdown u) true.
Definition initial_copy : Copy :=
  mkCopy (ByteStream.new buffer_size_limit) (ByteStream.new buffer_size_limit) false false.

Section Rules.
Context {K : Type} `{Kernel K}.
Abbreviation W := (World K Copy).
Context (socket _input _output : FileDescriptor).

(** One of the two streams, as a place in the shared variables. *)
Record place := mkPlace { get : Copy -> ByteStream; put : ByteStream -> Copy -> Copy }.
Definition outbound : place := mkPlace _outbound set_outbound.
Definition inbound : place := mkPlace _inbound set_inbound.

Definition on_stream (p : place) (f : ByteStream -> ByteStream) : ste W unit :=
  modify (set_app (fun u => put p (f (get p u)) u)).

(** The callbacks of rules 1 and 3: [stream.write(fd.read(stream.remaining_capacity()))]. *)
Definition read_into_stream (fd : FileDescriptor) (p : place) : ste W unit :=
  capacity ← gets (fun w => remaining_capacity (get p (app w)));
  data ← FileDescriptor.read fd capacity;
  _ ← on_stream p (fun s => fst (ByteStream.write s data));
  at_end ← gets (fun w => FileDescriptor.eof w fd);
  when at_end (on_stream p end_input).

(** The callbacks of rules 2 and 4 up to the test of [eof]: pop what was written. *)
Definition write_from_stream (fd : FileDescriptor) (p : place) : ste W unit :=
  bytes_to_write ← gets (fun w => Z.min max_copy_length (buffer_size (get p (app w))));
  data ← gets (fun w => peek_output (get p (app w)) bytes_to_write);
  bytes_written ← FileDescriptor.write_string fd data false;
  on_stream p (fun s => pop_output s bytes_written).

Definition rule1_callback : ste W unit := read_into_stream _input outbound.
Definition rule1_interest : ste W bool :=
  gets (fun w => negb (error (_outbound (app w))) && (remaining_capacity (_outbound (app w)) >? 0)
                 && negb (error (_inbound (app w)))).

Definition rule2_callback : ste W unit :=
  _ ← write_from_stream socket outbound;
  at_end ← gets (fun w => ByteStream.eof (_outbound (app w)));
  when at_end
    (_ ← shutdown socket SHUT_WR;
     modify (set_app set_outbound_shutdown)).
Definition rule2_interest : ste W bool :=
  gets (fun w => negb (buffer_empty (_outbound (app w))) ||
                 (ByteStream.eof (_outbound (app w)) && negb (_outbound_shutdown (app w)))).

Definition rule3_callback : ste W unit := read_into_stream socket inbound.
Definition rule3_interest : ste W bool :=
  gets (fun w => negb (error (_inbound (app w))) && (remaining_capacity (_inbound (app w)) >? 0)
                 && negb (error (_outbound (app w)))).

Definition rule4_callback : ste W unit :=
  _ ← write_from_stream _output inbound;
  at_end ← gets (fun w => ByteStream.eof (_inbound (app w)));
  when at_end
    (_ ← close _output;
     modify (set_app set_inbound_shutdown)).
Definition rule4_interest : ste W bool :=
  gets (fun w => negb (buffer_empty (_inbound (app w))) ||
                 (ByteStream.eof (_inbound (app w)) && negb (_inbound_shutdown (app w)))).

Definition copy_rules : list (Rule K Copy) :=
  add_rule _output Out rule4_callback rule4_interest (on_stream inbound end_input)
    (add_rule socket In rule3_callback rule3_interest (on_stream inbound end_input)
      (add_rule socket Out rule2_callback rule2_interest (on_stream outbound end_input)
        (add_rule _input In rule1_callback rule1_interest (on_stream outbound end_input) []))).

(** The [while (true)] loop, for [fuel] iterations: [Ok true] once it has returned. *)
Fixpoint copy_loop (fuel : nat) (rules : list (Rule K Copy)) (w : W) : W * list (Rule K Copy) * outcome bool :=
  match fuel with
  | O => (w, rules, Ok false)
  | S fuel' =>
      match wait_next_event (-1) rules w with
      | (w, rules, Throw e) => (w, rules, Throw e)
      | (w, rules, Ok r) => if bool_decide (r = Exit) then (w, rules, Ok true) else copy_loop fuel' rules w
      end
  end.

(** The destructors: a descriptor goes with its last owner, the local
    variable or the rule. *)
Definition release (rules : list (Rule K Copy)) (w : W) : W :=
  let held (fd : FileDescriptor) := existsb (fun r => bool_decide (rfd r = fd)) rules in
  let drop (w : W) (fd : FileDescriptor) := fst (destroy fd w) in
  let w := if held _output then w else drop w _output in
  let w := if held _input then w else drop w _input in
  fold_left (fun w r => if bool_decide (rfd r = _input) || bool_decide (rfd r = _output) then drop w (rfd r) else w)
    rules w.
End Rules.

(** The three calls of [set_blocking]. *)
Definition set_nonblocking {K} `{Kernel K} (socket _input _output : FileDescriptor) : ste (World K Copy) unit :=
  _ ← set_blocking socket false;
  _ ← set_blocking _input false;
  set_blocking _output false.

(** The function once its descriptors are constructed. *)
Definition copy_with {K} `{Kernel K} (fuel : nat) (socket _input _output : FileDescriptor)
    : ste (World K Copy) bool := fun w =>
  match set_nonblocking socket _input _output w with
  | (w, Throw e) => (release _input _output [] w, Throw e)
  | (w, Ok _) =>
      let '(w, rules, o) := copy_loop fuel (copy_rules socket _input _output) w in
      match o with
      | Ok false => (w, Ok false)
      | _ => (release _input _output rules w, o)
      end
  end.

(** The whole function; [fuel] bounds the iterations of its loop. *)
Definition bidirectional_stream_copy {K} `{Kernel K} (fuel : nat) (socket : FileDescriptor)
    : ste (World K Copy) bool :=
  _ ← modify (set_app (fun _ => initial_copy));
  _input ← new_fd STDIN_FILENO;
  _output ← new_fd STDOUT_FILENO;
  copy_with fuel socket _input _output.

(** ** Conservation of the bytes *)

Section Conservation.
Context {K : Type} `{KernelLaws K}.
Abbreviation W := (World K Copy).
Context (socket _input _output : FileDescriptor) (s : Z) (Hs0 : s <> STDIN_FILENO) (Hs1 : s <> STDOUT_FILENO).
(** The histories when the copy starts. *)
Context (in0 out0 : Z -> list byte).

(** Everything read from [src] was written to [dst], in order, except what
    is buffered in [st]. *)
Definition flow (src dst : Z) (st : ByteStream) (k : K) : Prop :=
  ByteStream.wf st /\ _capacity st = buffer_size_limit /\
  exists moved, bytes_in k src = in0 src ++ moved ++ contents st /\ bytes_out k dst = out0 dst ++ moved.

Record conserved (w : W) : Prop := {
  cv_input : fd_num w _input = STDIN_FILENO;
  cv_output : fd_num w _output = STDOUT_FILENO;
  cv_socket : fd_num w socket = s;
  cv_outbound : flow STDIN_FILENO s (_outbound (app w)) (kernel w);
  cv_inbound : flow s STDOUT_FILENO (_inbound (app w)) (kernel w)
}.

Lemma flow_same src dst st k k' :
  bytes_in k' src = bytes_in k src -> bytes_out k' dst = bytes_out k dst -> flow src dst st k -> flow src dst st k'.
Proof. intros Hi Ho (Hw & Hc & m & E1 & E2). split; [done|]. split; [done|]. exists m. by rewrite Hi, Ho. Qed.

Lemma flow_end_input src dst st k : flow src dst st k -> flow src dst (end_input st) k.
Proof. intros (Hw & Hc & m & E). split; [by apply end_input_wf|]. split; [done|]. by exists m. Qed.

(** Other code may run that leaves the three descriptors and the streams alone. *)
Lemma conserved_framed w w' :
  (forall f, f ∈ [STDIN_FILENO; STDOUT_FILENO; s] ->
     bytes_in (kernel w') f = bytes_in (kernel w) f /\ bytes_out (kernel w') f = bytes_out (kernel w) f) ->
  (forall l, l ∈ [socket; _input; _output] -> fd_num w' l = fd_num w l) ->
  _outbound (app w') = _outbound (app w) -> _inbound (app w') = _inbound (app w) ->
  conserved w -> conserved w'.
Proof.
  intros Hk Hl Ha Hb [C1 C2 C3 C4 C5].
  assert (forall f, f = STDIN_FILENO \/ f = STDOUT_FILENO \/ f = s ->
    bytes_in (kernel w') f = bytes_in (kernel w) f /\ bytes_out (kernel w') f = bytes_out (kernel w) f) as Hk'
    by (intros f Hf; apply Hk; rewrite !elem_of_cons; tauto).
  split; rewrite ?Hl, ?Ha, ?Hb by (rewrite !elem_of_cons; tauto); try done;
    (eapply flow_same; [apply Hk'; tauto|apply Hk'; tauto|done]).
Qed.

Lemma conserved_same w w' :
  (forall g, bytes_in (kernel w') g = bytes_in (kernel w) g) ->
  (forall g, bytes_out (kernel w') g = bytes_out (kernel w) g) ->
  _outbound (app w') = _outbound (app w) -> _inbound (app w') = _inbound (app w) ->
  (forall l, fd_num w' l = fd_num w l) -> conserved w -> conserved w'.
Proof.
  intros Hi Ho Ha Hb Hf []. split; rewrite ?Hf, ?Ha, ?Hb; try done; (eapply flow_same; [apply Hi|apply Ho|done]).
Qed.

Lemma conserved_unchanged w w' : quietly w w' -> conserved w -> conserved w'.
Proof.
  intros ((Hr & Hw & _) & Ha & Hf). apply conserved_same; try done; try (rewrite Ha; reflexivity).
  - intros g. unfold bytes_in. by rewrite Hr.
  - intros g. unfold bytes_out. by rewrite Hw.
Qed.

Lemma quiet_steps {A} (m : ste W A) : quiet m -> steps conserved m.
Proof.
  intros Hm w w' o Hw E. apply Hm in E. split; [by eapply conserved_unchanged|by apply quietly_evolves].
Qed.

(** A stream, the descriptor it is filled from and the one it is emptied to. *)
Definition wired (p : place) (from to : FileDescriptor) (src dst : Z) : Prop :=
  (forall u x, get p (put p x u) = x) /\
  forall w x k', conserved w ->
    (fd_num w from = src /\ fd_num w to = dst /\ flow src dst (get p (app w)) (kernel w)) /\
    (forall ws, (forall l, fd_num (mkWorld k' ws (app w)) l = fd_num w l) ->
       flow src dst x k' ->
       (forall g, g <> src -> bytes_in k' g = bytes_in (kernel w) g) ->
       (forall g, g <> dst -> bytes_out k' g = bytes_out (kernel w) g) ->
       conserved (mkWorld k' ws (put p x (app w)))).

Lemma wired_outbound : wired outbound _input socket STDIN_FILENO s.
Proof.
  split; [done|]. intros w x k' [Hi Ho Hs Hout Hin]. split; [done|]. intros ws Hf Hflow Hr Hw.
  split; try (unfold fd_num, wrapper in *; cbn in *; by rewrite Hf); [done|].
  eapply flow_same; [apply Hr|apply Hw|exact Hin]; done.
Qed.

Lemma wired_inbound : wired inbound socket _output s STDOUT_FILENO.
Proof.
  split; [done|]. intros w x k' [Hi Ho Hs Hout Hin]. split; [done|]. intros ws Hf Hflow Hr Hw.
  split; try (unfold fd_num, wrapper in *; cbn in *; by rewrite Hf); [|done].
  eapply flow_same; [apply Hr|apply Hw|exact Hout]; done.
Qed.

Lemma end_input_steps p from to src dst :
  wired p from to src dst -> steps conserved (on_stream p end_input).
Proof.
  intros [_ Hp] w w' o Hw [= <- <-]. split; [|by apply set_app_evolves].
  destruct (Hp w (end_input (get p (app w))) (kernel w) Hw) as [(_ & _ & Hfl) Hc]. destruct w as [k ws u].
  apply Hc; [done|by apply flow_end_input|done|done].
Qed.

Lemma read_into_steps p from to src dst :
  wired p from to src dst -> steps conserved (read_into_stream from p).
Proof.
  intros Hp w w' o Hw. unfold read_into_stream. unfold mbind at 1 2, ste_bind at 1 2. cbn [gets].
  destruct (proj2 Hp w (get p (app w)) (kernel w) Hw) as [(Hsrc & Hdst & Hwf & Hcap & m & Em & Eo) _].
  rewrite remaining_capacity_eq by done.
  destruct (FileDescriptor.read from (_capacity (get p (app w)) - endOfBuffer (get p (app w))) w)
    as [w1 o1] eqn:E.
  pose proof (wf_end _ Hwf) as Hend.
  pose proof (fd_read_evolves _ _ _ _ _ E ltac:(lia)) as Hev.
  apply fd_read_spec in E as [(e & -> & Hu & Ha & Hwr)|(d & -> & Hd & Hh & [Ha Hwr] & _)]; [| |lia].
  - intros [= <- <-]. split; [|done]. eapply conserved_unchanged; [|exact Hw].
    split; [done|]. split; [done|]. intros l. unfold fd_num. by rewrite Hwr.
  - rewrite Hsrc in Hh. set (st := get p (app w)) in *.
    destruct (write_spec st d Hwf) as (_ & Hcont & Hend' & Hcap' & _).
    assert (Zlen d <= _capacity st - endOfBuffer st) as Hfit by lia.
    rewrite Z.min_l, ztake_ge in Hcont by lia.
    set (w2 := set_app (fun u => put p (fst (ByteStream.write (get p u) d)) u) w1).
    assert (conserved w2) as Hw2.
    { destruct (proj2 Hp w (fst (ByteStream.write st d)) (kernel w1) Hw) as [_ Hc].
      unfold w2, set_app. rewrite Ha. apply Hc; clear Hc.
      - intros l. apply (ev_fd _ _ Hev).
      - split; [by apply write_wf|]. split; [by rewrite Hcap'|]. exists m.
        rewrite (has_read_in _ _ _ _ _ Hh), decide_True, Em, Hcont by done.
        destruct Hh as (_ & Hw' & _). unfold bytes_out in *. rewrite Hw', Eo. by rewrite <- !app_assoc.
      - intros g Hg. by rewrite (has_read_in _ _ _ _ _ Hh), decide_False.
      - intros g _. destruct Hh as (_ & Hw' & _). unfold bytes_out. by rewrite Hw'. }
    assert (evolves w w2) as Hev2 by (etrans; [exact Hev|apply set_app_evolves]).
    intros E. assert (steps conserved (at_end ← gets (fun w => FileDescriptor.eof w from);
      when at_end (on_stream p end_input))) as Hrest.
    { apply steps_bind; [apply steps_gets|]. intros []; [by eapply end_input_steps|apply steps_ret]. }
    destruct (Hrest w2 w' o Hw2 E) as [? ?]. split; [done|by etrans].
Qed.

Lemma write_from_steps p from to src dst :
  wired p from to src dst -> steps conserved (write_from_stream to p).
Proof.
  intros Hp w w' o Hw. unfold write_from_stream. unfold mbind at 1 2 3, ste_bind at 1 2 3. cbn [gets].
  destruct (proj2 Hp w (get p (app w)) (kernel w) Hw) as [(Hsrc & Hdst & Hwf & Hcap & m & Em & Eo) _].
  set (st := get p (app w)) in *. pose proof (wf_end _ Hwf) as Hend. pose proof (wf_cap _ Hwf) as Hc32.
  unfold buffer_size. rewrite peek_output_spec by lia.
  set (data := ztake (Z.min max_copy_length (endOfBuffer st)) (contents st)).
  assert (Zlen data = Z.min max_copy_length (endOfBuffer st)) as Hlen.
  { unfold data. rewrite Zlen_ztake, Zlen_contents by (done || (unfold max_copy_length; lia)). lia. }
  destruct (FileDescriptor.write_string to data false w) as [w1 o1] eqn:E.
  assert (concat (Buffer.bvl_of_string data) = data) as Ed by (cbn; apply app_nil_r).
  apply write_some_spec in E as [Ha Hres]; [|rewrite Ed; lia]. rewrite Ed, Hdst in Hres.
  destruct Hres as [(e & -> & Hout & (ds & Hh & Hds) & Hwr)|(n & -> & Hn & _ & Hh & Hwr)].
  - intros [= <- <-]. assert (forall l, fd_num w1 l = fd_num w l) as Hf by (intros l; unfold fd_num; by rewrite Hwr).
    split; [|by eapply written_evolves]. apply (conserved_same w); try done; try (rewrite Ha; reflexivity).
    + intros g. destruct Hh as (_ & Hr & _). unfold bytes_in. by rewrite Hr.
    + intros g. rewrite (has_written_out _ _ _ _ g Hh), Hds. case_decide; [by rewrite app_nil_r|done].
  - destruct Hwr as [_ Hwr].
    assert (forall l, fd_num w1 l = fd_num w l) as Hf by (eapply rewraps_fd; [by split|done]).
    intros [= <- <-]. split; [|etrans; [by eapply written_evolves|apply set_app_evolves]].
    destruct (pop_output_spec st n Hwf ltac:(lia)) as (Hcont & _ & Hcap' & _).
    assert (forall g, bytes_in (kernel w1) g = bytes_in (kernel w) g) as Hin
      by (intros g; destruct Hh as (_ & Hr & _); unfold bytes_in; by rewrite Hr).
    destruct (proj2 Hp w (pop_output st n) (kernel w1) Hw) as [_ Hc].
    unfold set_app. rewrite Ha. apply Hc; clear Hc; try done.
    + split; [apply pop_output_wf; [done|lia]|]. split; [by rewrite Hcap'|]. exists (m ++ ztake n (contents st)).
      rewrite Hin, Em, Hcont, (has_written_out _ _ _ _ _ Hh), decide_True, Eo by done. cbn [concat].
      rewrite app_nil_r, <- !app_assoc, ztake_zdrop. split; [done|]. do 2 f_equal.
      unfold data, ztake. rewrite take_take. f_equal. lia.
    + intros g Hg. by rewrite (has_written_out _ _ _ _ g Hh), decide_False.
Qed.

(** The rules of the copy keep the invariant. *)
Lemma copy_flag_steps f :
  (forall u, _outbound (f u) = _outbound u /\ _inbound (f u) = _inbound u) ->
  steps conserved (modify (set_app f)).
Proof.
  intros Hf w w' o Hw [= <- <-]. split; [|apply set_app_evolves].
  destruct (Hf (app w)) as [E1 E2]. by apply (conserved_same w).
Qed.

Lemma copy_rules_ok : Forall (rule_ok conserved) (copy_rules socket _input _output).
Proof.
  assert (forall fd d cb it p from to src dst, wired p from to src dst -> steps conserved cb ->
    rule_ok conserved (mkRule fd d cb (gets it) (on_stream p end_input))) as Hrule.
  { intros fd d cb it p from to src dst Hp Hcb. split; cbn [interest callback cancel]; [apply steps_gets|done|..];
      intros w w' o Hw _; by eapply end_input_steps. }
  pose proof wired_outbound as Ho. pose proof wired_inbound as Hi.
  unfold copy_rules, add_rule. cbn [List.app].
  apply Forall_cons_2; [eapply Hrule; [exact Ho|]|apply Forall_cons_2; [eapply Hrule; [exact Ho|]|
    apply Forall_cons_2; [eapply Hrule; [exact Hi|]|apply Forall_cons_2; [eapply Hrule; [exact Hi|]|constructor]]]].
  - by eapply read_into_steps.
  - apply steps_bind; [by eapply write_from_steps|]. intros _. apply steps_bind; [apply steps_gets|].
    intros []; [|apply steps_ret]. apply steps_bind; [apply quiet_steps, quiet_shutdown|]. intros _. by apply copy_flag_steps.
  - by eapply read_into_steps.
  - apply steps_bind; [by eapply write_from_steps|]. intros _. apply steps_bind; [apply steps_gets|].
    intros []; [|apply steps_ret]. apply steps_bind; [apply quiet_steps, quiet_close|]. intros _. by apply copy_flag_steps.
Qed.

Lemma copy_loop_ok fuel rules w w' rules' o :
  conserved w -> Forall (rule_ok conserved) rules -> copy_loop fuel rules w = (w', rules', o) ->
  conserved w' /\ evolves w w'.
Proof.
  revert rules w. induction fuel as [|fuel IH]; intros rules w Hw Hr; cbn [copy_loop]; [by intros [= <- <- <-]|].
  destruct (wait_next_event (-1) rules w) as [[w1 rules1] o1] eqn:E.
  destruct (wait_next_event_keeps conserved (-1) rules w w1 rules1 o1) as (Hw1 & Hev1 & Hsub); try done.
  { intros w0 k Hw0 Hu. eapply conserved_unchanged; [|exact Hw0]. by split. }
  destruct o1 as [r|e]; [|by intros [= <- <- <-]].
  destruct (bool_decide _); [by intros [= <- <- <-]|]. intros E'.
  destruct (IH rules1 w1 Hw1) as [? ?]; [by eapply sublist_Forall|done|]. split; [done|by etrans].
Qed.

End Conservation.

(** *** The copy keeps to its descriptors *)
Lemma confined_copy_rules {K} `{KernelLaws K} socket _input _output :
  Forall (rule_confined [socket; _input; _output] (K := K)) (copy_rules socket _input _output).
Proof.
  set (L := [socket; _input; _output]).
  assert (forall p f, confined L (K := K) (on_stream p f)) as Hon by (intros; apply confined_app).
  assert (forall fd p, fd ∈ L -> confined L (K := K) (read_into_stream fd p)) as Hread.
  { intros fd p Hfd. apply confined_gets_bind. intros w. apply confined_bind; [apply confined_read; [done|apply u64_bound]|].
    intros d. apply confined_bind; [apply Hon|]. intros _. apply confined_bind; [apply confined_gets|]. intros b.
    apply confined_when, Hon. }
  assert (forall fd p, fd ∈ L -> confined L (K := K) (write_from_stream fd p)) as Hwrite.
  { intros fd p Hfd. apply confined_bind; [apply confined_gets|]. intros n. apply confined_bind; [apply confined_gets|].
    intros d. apply confined_bind; [by apply confined_write|]. intros m. apply Hon. }
  unfold copy_rules, add_rule, duplicate. cbn [List.app].
  apply Forall_cons_2; [|apply Forall_cons_2; [|apply Forall_cons_2; [|apply Forall_cons_2; [|constructor]]]];
    (split; [|split; [apply confined_gets|apply Hon]]); cbn [callback].
  - apply Hread. set_solver.
  - apply confined_bind; [apply Hwrite; set_solver|]. intros _. apply confined_bind; [apply confined_gets|]. intros b.
    apply confined_when, confined_bind; [apply confined_shutdown; set_solver|]. intros _. apply confined_app.
  - apply Hread. set_solver.
  - apply confined_bind; [apply Hwrite; set_solver|]. intros _. apply confined_bind; [apply confined_gets|]. intros b.
    apply confined_when, confined_bind; [apply confined_close; set_solver|]. intros _. apply confined_app.
Qed.

Lemma conserved_start {K} `{KernelLaws K} socket _input _output s w :
  fd_num w _input = STDIN_FILENO -> fd_num w _output = STDOUT_FILENO -> fd_num w socket = s ->
  app w = initial_copy ->
  conserved socket _input _output s (bytes_in (kernel w)) (bytes_out (kernel w)) w.
Proof.
  intros Hi Ho Hs Ha. assert (ByteStream.wf (ByteStream.new buffer_size_limit)) as Hwf
    by (apply new_wf; unfold buffer_size_limit; lia).
  split; try done; rewrite Ha; (split; [done|]; split; [done|]; exists []; by rewrite !app_nil_r).
Qed.

Lemma quiet_nonblocking {K} `{KernelLaws K} socket _input _output :
  quiet (set_nonblocking (K := K) socket _input _output).
Proof.
  apply quiet_bind; [apply quiet_set_blocking|]. intros _.
  apply quiet_bind; [apply quiet_set_blocking|]. intros _. apply quiet_set_blocking.
Qed.

Lemma release_quietly {K} `{KernelLaws K} _input _output rules (w : World K Copy) :
  quietly w (release _input _output rules w).
Proof.
  unfold release. assert (forall fd (w : World K Copy), quietly w (fst (destroy fd w))) as Hd.
  { intros fd w0. destruct (destroy fd w0) as [w1 o] eqn:E. by eapply quiet_destroy. }
  assert (forall (w1 : World K Copy), quietly w w1 -> quietly w (fold_left (fun w0 r =>
    if bool_decide (rfd r = _input) || bool_decide (rfd r = _output) then fst (destroy (rfd r) w0) else w0) rules w1)) as Hf.
  { induction rules as [|r rules IH]; intros w1 Hw1; [done|]. cbn [fold_left]. apply IH.
    destruct (_ || _); [|done]. by etrans. }
  apply Hf. destruct (existsb _ _), (existsb _ _); try done; etrans; apply Hd.
Qed.

(** C24. Copying neither loses, invents nor reorders a byte.  However many
    iterations the loop runs, whatever the kernel decides (which descriptors
    are ready, how much each call moves, which calls fail) and however the
    function ends, what was read from the standard input is what was written
    to the socket followed by what waits in the outbound buffer, and what was
    read from the socket is what was written to the standard output followed
    by what waits in the inbound buffer; neither buffer exceeds its size. *)
Theorem stream_copy_conserves {K} `{KernelLaws K} fuel socket s (w w' : World K Copy) o :
  socket ∈ dom (wrappers w) -> fd_num w socket = s -> s <> STDIN_FILENO -> s <> STDOUT_FILENO ->
  bidirectional_stream_copy fuel socket w = (w', o) ->
  exists up down,
    let upward := contents (_outbound (app w')) in
    let downward := contents (_inbound (app w')) in
    bytes_in (kernel w') STDIN_FILENO = bytes_in (kernel w) STDIN_FILENO ++ up ++ upward /\
    bytes_out (kernel w') s = bytes_out (kernel w) s ++ up /\
    bytes_in (kernel w') s = bytes_in (kernel w) s ++ down ++ downward /\
    bytes_out (kernel w') STDOUT_FILENO = bytes_out (kernel w) STDOUT_FILENO ++ down /\
    Zlen upward <= buffer_size_limit /\ Zlen downward <= buffer_size_limit.
Proof.
  intros Hsock Hs Hs0 Hs1. unfold bidirectional_stream_copy, mbind, ste_bind. cbn [modify].
  set (w0 := set_app (fun _ => initial_copy) w).
  destruct (new_fd_spec STDIN_FILENO w0) as (i & w1 & -> & Hi & Hk1 & Ha1 & Hd1 & Hf1 & Hg1); [done|].
  destruct (new_fd_spec STDOUT_FILENO w1) as (j & w2 & -> & Hj & Hk2 & Ha2 & Hd2 & Hf2 & Hg2); [done|]. intros E.
  change (wrappers w0) with (wrappers w) in *.
  assert (conserved socket i j s (bytes_in (kernel w)) (bytes_out (kernel w)) w2) as Hw2.
  { replace (kernel w) with (kernel w2) by (rewrite Hk2, Hk1; done).
    apply conserved_start; [| | |by rewrite Ha2, Ha1].
    - rewrite Hg2; [done|]. intros ->. apply Hj. rewrite Hd1. by apply elem_of_union_l, elem_of_singleton.
    - done.
    - rewrite Hg2, Hg1; [done|by intros ->|]. intros ->. apply Hj. rewrite Hd1. by apply elem_of_union_r. }
  assert (conserved socket i j s (bytes_in (kernel w)) (bytes_out (kernel w)) w') as [_ _ _ Hout Hin].
  { revert E. unfold copy_with. destruct (set_nonblocking socket i j w2) as [w3 o3] eqn:E3.
    apply quiet_nonblocking in E3 as Hq.
    apply (conserved_unchanged _ _ _ _ _ _ _ _ Hq) in Hw2 as Hw3.
    destruct o3 as [u|e]; [|intros [= <- _]; eapply conserved_unchanged; [apply release_quietly|done]].
    destruct (copy_loop fuel (copy_rules socket i j) w3) as [[w4 rules] o4] eqn:E4.
    eapply copy_loop_ok in E4 as [Hw4 _]; [|exact Hw3|by apply copy_rules_ok].
    destruct o4 as [[]|e]; intros [= <- _]; try done; (eapply conserved_unchanged; [apply release_quietly|done]). }
  destruct Hout as (Wo & Co & up & Eu1 & Eu2), Hin as (Wi & Ci & down & Ed1 & Ed2). exists up, down.
  cbv zeta. rewrite !Zlen_contents by done. pose proof (wf_end _ Wo). pose proof (wf_end _ Wi). split_and!; (done || lia).
Qed.

(** Five bytes typed, two at a time into the socket; three bytes received. *)
Definition ex_files : SimKernel :=
  mkSimKernel (<[0 := mkSimfile [[x61; x62; x63]; [x64; x65]] [] [] 0 0]>
    (<[1 := mkSimfile [] [] [] 10 0]> {[ 3 := mkSimfile [[x78; x79; x7a]] [] [] 2 0 ]})) 0.
Definition ex_copy : World SimKernel Copy :=
  mkWorld ex_files {[ 7%nat := mkFDWrapper 3 false false 0 0 ]} initial_copy.

Definition ex_run : World SimKernel Copy * outcome bool := bidirectional_stream_copy 6 7%nat ex_copy.

Lemma stream_copy_conserves_witness :
  snd ex_run = Ok true /\
  bytes_out (kernel (fst ex_run)) 3 = [x61; x62; x63; x64; x65] /\
  exists up, bytes_in (kernel (fst ex_run)) 0 = [] ++ up ++ contents (_outbound (app (fst ex_run))) /\
             bytes_out (kernel (fst ex_run)) 3 = [] ++ up.
Proof.
  split; [vm_compute; reflexivity|]. split; [vm_compute; reflexivity|].
  destruct (stream_copy_conserves 6 7%nat 3 ex_copy (fst ex_run) (snd ex_run)) as (up & _ & H1 & H2 & _);
    [vm_compute; done | reflexivity | discriminate | discriminate
    | exact (surjective_pairing ex_run) |].
  exists up. split; [exact H1 | exact H2].
Defined.
