(* ===== verification/NetworkInterface.v ===== *)
(** * The network interface

    Models [src/libsponge/network_interface.hh] and [network_interface.cc]:
    IPv4 datagrams in, Ethernet frames out, with the next hop's Ethernet
    address found by ARP.  The three [std::map]s are [gmap]s.

    The theorems: the bookkeeping invariant (which rules out the undefined
    [erase(end())] of [_send_not_sent_datagrams] and bounds the age of a
    mapping), the ledger of datagrams (per next hop, handed over = sent ++
    waiting, in order), a complete address resolution between two interfaces,
    and the repetition of ARP requests after five seconds. *)
From stdpp Require Import base tactics list numbers option gmap.
From Stdlib Require Import ZArith Lia.
From S2P Require Import Prelude Buffer NetParser Ethernet ARP Address IPv4Header IPv4Datagram.

Record NetworkInterface := mkNetworkInterface {
  _ethernet_address : EthernetAddress;
  _ip_address : Address;
  _frames_out : list EthernetFrame;
  _time_passed : Z;
  _ip2eth : gmap Z (EthernetAddress * Z);
  _not_mapped_ip_address : gmap Z Z;
  _not_sent_dgrams : gmap Z (list BufferList)
}.

(** The constructor [NetworkInterface(ethernet_address, ip_address)]. *)
Definition new (ethernet_address : EthernetAddress) (ip_address : Address) : NetworkInterface :=
  mkNetworkInterface ethernet_address ip_address [] 0 ∅ ∅ ∅.

(** Assignments to single members. *)
Definition push_frame (ni : NetworkInterface) (f : EthernetFrame) : NetworkInterface :=
  mkNetworkInterface (_ethernet_address ni) (_ip_address ni) (_frames_out ni ++ [f])
    (_time_passed ni) (_ip2eth ni) (_not_mapped_ip_address ni) (_not_sent_dgrams ni).
Definition set_ip2eth (ni : NetworkInterface) (m : gmap Z (EthernetAddress * Z)) : NetworkInterface :=
  mkNetworkInterface (_ethernet_address ni) (_ip_address ni) (_frames_out ni)
    (_time_passed ni) m (_not_mapped_ip_address ni) (_not_sent_dgrams ni).
Definition set_not_mapped (ni : NetworkInterface) (m : gmap Z Z) : NetworkInterface :=
  mkNetworkInterface (_ethernet_address ni) (_ip_address ni) (_frames_out ni)
    (_time_passed ni) (_ip2eth ni) m (_not_sent_dgrams ni).
Definition set_not_sent (ni : NetworkInterface) (m : gmap Z (list BufferList)) : NetworkInterface :=
  mkNetworkInterface (_ethernet_address ni) (_ip_address ni) (_frames_out ni)
    (_time_passed ni) (_ip2eth ni) (_not_mapped_ip_address ni) m.

(** [frames_out().pop()], as the owner of the interface calls it. *)
Definition pop_frame (ni : NetworkInterface) : NetworkInterface :=
  mkNetworkInterface (_ethernet_address ni) (_ip_address ni) (tail (_frames_out ni))
    (_time_passed ni) (_ip2eth ni) (_not_mapped_ip_address ni) (_not_sent_dgrams ni).

Definition ipv4_frame (ni : NetworkInterface) (dst_addr : EthernetAddress) (payload : BufferList)
    : EthernetFrame :=
  mkEthernetFrame (mkEthernetHeader dst_addr (_ethernet_address ni) TYPE_IPv4) payload.

Definition _send_IP_v4_frame (dst_addr : EthernetAddress) (payload : BufferList)
    (ni : NetworkInterface) : NetworkInterface :=
  push_frame ni (ipv4_frame ni dst_addr payload).

(** The ARP message of [_send_ARP_request]: the target's Ethernet address keeps its zeros. *)
Definition arp_request (ni : NetworkInterface) (target_addr : Z) : ARPMessage :=
  mkARPMessage TYPE_ETHERNET TYPE_IPv4 6 4 OPCODE_REQUEST (_ethernet_address ni)
    (ipv4_numeric (_ip_address ni)) (replicate 6 0) target_addr.

Definition _send_ARP_request (target_addr : Z) : ste NetworkInterface unit := fun ni =>
  match ARP.serialize (arp_request ni target_addr) with
  | Throw e => (ni, Throw e)
  | Ok s =>
      (push_frame ni (mkEthernetFrame
         (mkEthernetHeader ETHERNET_BROADCAST (_ethernet_address ni) TYPE_ARP) (bl_of_string s)), Ok tt)
  end.

Definition arp_reply (ni : NetworkInterface) (target_ip_addr : Z) (target_eth_addr : EthernetAddress)
    : ARPMessage :=
  mkARPMessage TYPE_ETHERNET TYPE_IPv4 6 4 OPCODE_REPLY (_ethernet_address ni)
    (ipv4_numeric (_ip_address ni)) target_eth_addr target_ip_addr.

Definition _send_ARP_reply (target_ip_addr : Z) (target_eth_addr : EthernetAddress)
    : ste NetworkInterface unit := fun ni =>
  match ARP.serialize (arp_reply ni target_ip_addr target_eth_addr) with
  | Throw e => (ni, Throw e)
  | Ok s =>
      (push_frame ni (mkEthernetFrame
         (mkEthernetHeader target_eth_addr (_ethernet_address ni) TYPE_ARP) (bl_of_string s)), Ok tt)
  end.

(** [_send_not_sent_datagrams]: the final [erase(find(ip_addr))] is undefined
    when the address is not in [_not_mapped_ip_address]. *)
Definition _send_not_sent_datagrams (ip_addr : Z) (eth_addr : EthernetAddress)
    : ste NetworkInterface unit := fun ni =>
  match _not_sent_dgrams ni !! ip_addr with
  | None => (ni, Ok tt)
  | Some bls =>
      let ni := fold_left (fun ni bl => _send_IP_v4_frame eth_addr bl ni) bls ni in
      let ni := set_not_sent ni (delete ip_addr (_not_sent_dgrams ni)) in
      match _not_mapped_ip_address ni !! ip_addr with
      | None => (ni, Throw Undefined)
      | Some _ => (set_not_mapped ni (delete ip_addr (_not_mapped_ip_address ni)), Ok tt)
      end
  end.

(** [_not_sent_dgrams[ip].push_back(dgram.serialize())]: the entry is created
    before the argument is evaluated, so it stays when [serialize] throws. *)
Definition queue_dgram (dgram : IPv4Datagram) (next_hop_ip : Z) : ste NetworkInterface unit :=
  fun ni =>
    let q := default [] (_not_sent_dgrams ni !! next_hop_ip) in
    match IPv4Datagram.serialize dgram with
    | Throw e => (set_not_sent ni (<[next_hop_ip := q]> (_not_sent_dgrams ni)), Throw e)
    | Ok bl => (set_not_sent ni (<[next_hop_ip := q ++ [bl]]> (_not_sent_dgrams ni)), Ok tt)
    end.

(** [it == end() || it->second + 5000 < _time_passed]. *)
Definition request_due (ni : NetworkInterface) (next_hop_ip : Z) : bool :=
  match _not_mapped_ip_address ni !! next_hop_ip with
  | None => true
  | Some t => u64 (t + 5000) <? _time_passed ni
  end.

(** [if (it == end()) _not_mapped_ip_address[ip] = _time_passed]. *)
Definition note_request (next_hop_ip : Z) : ste NetworkInterface unit := fun ni =>
  match _not_mapped_ip_address ni !! next_hop_ip with
  | None =>
      (set_not_mapped ni (<[next_hop_ip := _time_passed ni]> (_not_mapped_ip_address ni)), Ok tt)
  | Some _ => (ni, Ok tt)
  end.

Definition send_datagram (dgram : IPv4Datagram) (next_hop : Address) : ste NetworkInterface unit :=
  fun ni =>
    let next_hop_ip := ipv4_numeric next_hop in
    match _ip2eth ni !! next_hop_ip with
    | Some (eth, _) =>
        match IPv4Datagram.serialize dgram with
        | Throw e => (ni, Throw e)
        | Ok bl => (_send_IP_v4_frame eth bl ni, Ok tt)
        end
    | None =>
        (_ ← (if request_due ni next_hop_ip then _send_ARP_request next_hop_ip else mret tt);
         _ ← note_request next_hop_ip;
         queue_dgram dgram next_hop_ip) ni
    end.

(** The handling of a well-formed ARP message: learn, reply, flush the queue. *)
Definition recv_arp (arp_msg : ARPMessage) : ste NetworkInterface (option IPv4Datagram) := fun ni =>
  let sender_ip := sender_ip_address arp_msg in
  let sender_eth := sender_ethernet_address arp_msg in
  let ni := set_ip2eth ni (<[sender_ip := (sender_eth, _time_passed ni)]> (_ip2eth ni)) in
  (_ ← (if (opcode arp_msg =? OPCODE_REQUEST) &&
           (target_ip_address arp_msg =? ipv4_numeric (_ip_address ni))
        then _send_ARP_reply sender_ip sender_eth else mret tt);
   _ ← _send_not_sent_datagrams sender_ip sender_eth;
   mret None) ni.

(** [NetworkInterface::recv_frame]; the conversion of the payload to a
    [Buffer] throws when it is not contiguous. *)
Definition recv_frame (frame : EthernetFrame) : ste NetworkInterface (option IPv4Datagram) := fun ni =>
  let h := Ethernet._header frame in
  if bool_decide (Ethernet.dst h = ETHERNET_BROADCAST) || bool_decide (Ethernet.dst h = _ethernet_address ni)
  then
    if Ethernet.type h =? TYPE_ARP then
      match bl_to_buffer (Ethernet._payload frame) with
      | Throw e => (ni, Throw e)
      | Ok b =>
          let '(arp_msg, r) := ARP.parse default_message b in
          if bool_decide (r = NoError) then recv_arp arp_msg ni else (ni, Ok None)
      end
    else if Ethernet.type h =? TYPE_IPv4 then
      match bl_to_buffer (Ethernet._payload frame) with
      | Throw e => (ni, Throw e)
      | Ok b =>
          let '(dgram, r) := IPv4Datagram.parse default_datagram b in
          if bool_decide (r = NoError) then (ni, Ok (Some dgram)) else (ni, Ok None)
      end
    else (ni, Ok None)
  else (ni, Ok None).

(** The loop of [tick] erases the mappings older than thirty seconds. *)
Definition tick (ms_since_last_tick : Z) (ni : NetworkInterface) : NetworkInterface :=
  let now := u64 (_time_passed ni + ms_since_last_tick) in
  mkNetworkInterface (_ethernet_address ni) (_ip_address ni) (_frames_out ni) now
    (filter (fun kv => (u64 (snd (snd kv) + 30000) <? now) = false) (_ip2eth ni))
    (_not_mapped_ip_address ni) (_not_sent_dgrams ni).

(** ** What each operation does

    The operations in closed form, exceptions included. *)

Definition arp_wire (m : ARPMessage) : list byte :=
  match ARP.serialize m with Ok l => l | Throw _ => [] end.

Definition request_frame (ni : NetworkInterface) (ip : Z) : EthernetFrame :=
  mkEthernetFrame (mkEthernetHeader ETHERNET_BROADCAST (_ethernet_address ni) TYPE_ARP)
    (bl_of_string (arp_wire (arp_request ni ip))).
Definition reply_frame (ni : NetworkInterface) (ip : Z) (eth : EthernetAddress) : EthernetFrame :=
  mkEthernetFrame (mkEthernetHeader eth (_ethernet_address ni) TYPE_ARP)
    (bl_of_string (arp_wire (arp_reply ni ip eth))).

Definition queue_of (ni : NetworkInterface) (ip : Z) : list BufferList :=
  default [] (_not_sent_dgrams ni !! ip).

(** The bytes a datagram contributes (none when [serialize] throws). *)
Definition dgram_bytes (d : IPv4Datagram) : list BufferList :=
  match IPv4Datagram.serialize d with Ok bl => [bl] | Throw _ => [] end.
Definition dgram_outcome (d : IPv4Datagram) : outcome unit :=
  match IPv4Datagram.serialize d with Ok _ => Ok tt | Throw e => Throw e end.

Lemma send_mapped d hop ni eth t :
  _ip2eth ni !! ipv4_numeric hop = Some (eth, t) ->
  send_datagram d hop ni =
    (mkNetworkInterface (_ethernet_address ni) (_ip_address ni)
       (_frames_out ni ++ map (ipv4_frame ni eth) (dgram_bytes d)) (_time_passed ni) (_ip2eth ni)
       (_not_mapped_ip_address ni) (_not_sent_dgrams ni), dgram_outcome d).
Proof.
  intros H. unfold send_datagram. rewrite H. unfold dgram_bytes, dgram_outcome.
  destruct (serialize d); cbn [map]; [done|]. rewrite app_nil_r. by destruct ni.
Qed.

Lemma send_ARP_request_spec ip ni :
  _send_ARP_request ip ni = (push_frame ni (request_frame ni ip), Ok tt).
Proof. reflexivity. Qed.

Lemma send_ARP_reply_spec ip eth ni :
  _send_ARP_reply ip eth ni = (push_frame ni (reply_frame ni ip eth), Ok tt).
Proof. reflexivity. Qed.

Lemma note_request_ok ip ni : note_request ip ni = (fst (note_request ip ni), Ok tt).
Proof. unfold note_request. by destruct (_not_mapped_ip_address ni !! ip). Qed.

Lemma send_unmapped d hop ni :
  let ip := ipv4_numeric hop in
  _ip2eth ni !! ip = None ->
  send_datagram d hop ni =
    (mkNetworkInterface (_ethernet_address ni) (_ip_address ni)
       (_frames_out ni ++ (if request_due ni ip then [request_frame ni ip] else []))
       (_time_passed ni) (_ip2eth ni)
       (<[ip := default (_time_passed ni) (_not_mapped_ip_address ni !! ip)]> (_not_mapped_ip_address ni))
       (<[ip := queue_of ni ip ++ dgram_bytes d]> (_not_sent_dgrams ni)), dgram_outcome d).
Proof.
  intros ip H. unfold send_datagram. fold ip. rewrite H. unfold mbind, ste_bind at 1.
  assert (forall fr, queue_dgram d ip (fst (note_request ip
      (mkNetworkInterface (_ethernet_address ni) (_ip_address ni) fr (_time_passed ni) (_ip2eth ni)
         (_not_mapped_ip_address ni) (_not_sent_dgrams ni)))) =
      (mkNetworkInterface (_ethernet_address ni) (_ip_address ni) fr (_time_passed ni) (_ip2eth ni)
       (<[ip := default (_time_passed ni) (_not_mapped_ip_address ni !! ip)]> (_not_mapped_ip_address ni))
       (<[ip := queue_of ni ip ++ dgram_bytes d]> (_not_sent_dgrams ni)), dgram_outcome d)) as Hq.
  { intros fr. unfold queue_dgram, note_request, dgram_bytes, dgram_outcome, queue_of. cbn.
    destruct (_not_mapped_ip_address ni !! ip) as [t|] eqn:Et; cbn;
      [rewrite (insert_id _ _ _ Et)|]; destruct (serialize d); rewrite ?app_nil_r; done. }
  destruct (request_due ni ip).
  - rewrite send_ARP_request_spec. unfold ste_bind.
    rewrite note_request_ok. apply Hq.
  - unfold mret, ste_ret, ste_bind.
    rewrite note_request_ok, app_nil_r. rewrite <- Hq. by destruct ni.
Qed.

Lemma send_all_frames eth bls ni :
  fold_left (fun ni bl => _send_IP_v4_frame eth bl ni) bls ni =
    mkNetworkInterface (_ethernet_address ni) (_ip_address ni)
      (_frames_out ni ++ map (ipv4_frame ni eth) bls) (_time_passed ni) (_ip2eth ni)
      (_not_mapped_ip_address ni) (_not_sent_dgrams ni).
Proof.
  revert ni. induction bls as [|bl bls IH]; intros ni; cbn [fold_left map].
  - rewrite app_nil_r. by destruct ni.
  - rewrite IH. cbn. by rewrite <- app_assoc.
Qed.

(** The queue of unsent datagrams and the table of requested addresses have
    the same keys. *)
Definition queues_match (ni : NetworkInterface) : Prop :=
  forall ip, is_Some (_not_sent_dgrams ni !! ip) <-> is_Some (_not_mapped_ip_address ni !! ip).

Lemma send_not_sent_spec ip eth ni :
  queues_match ni ->
  _send_not_sent_datagrams ip eth ni =
    (mkNetworkInterface (_ethernet_address ni) (_ip_address ni)
       (_frames_out ni ++ map (ipv4_frame ni eth) (queue_of ni ip)) (_time_passed ni) (_ip2eth ni)
       (delete ip (_not_mapped_ip_address ni)) (delete ip (_not_sent_dgrams ni)), Ok tt).
Proof.
  intros Hq. specialize (Hq ip). unfold _send_not_sent_datagrams, queue_of.
  destruct (_not_sent_dgrams ni !! ip) as [bls|] eqn:Es; cbn [default].
  - rewrite send_all_frames. cbn.
    destruct (_not_mapped_ip_address ni !! ip) as [t|] eqn:Em; [done|].
    destruct (proj1 Hq) as [? ?]; [by eexists | done].
  - assert (_not_mapped_ip_address ni !! ip = None) as Em.
    { destruct (_not_mapped_ip_address ni !! ip) eqn:Em; [|done]. destruct (proj2 Hq) as [? ?]; [by eexists | done]. }
    rewrite !delete_id by done. cbn [map]. rewrite app_nil_r. by destruct ni.
Qed.

(** Is this a request for the interface's own address? *)
Definition asks_for (ni : NetworkInterface) (m : ARPMessage) : bool :=
  (opcode m =? OPCODE_REQUEST) && (target_ip_address m =? ipv4_numeric (_ip_address ni)).

Lemma recv_arp_spec m ni :
  queues_match ni ->
  let ip := sender_ip_address m in
  let eth := sender_ethernet_address m in
  recv_arp m ni =
    (mkNetworkInterface (_ethernet_address ni) (_ip_address ni)
       (_frames_out ni ++ (if asks_for ni m then [reply_frame ni ip eth] else []) ++
          map (ipv4_frame ni eth) (queue_of ni ip))
       (_time_passed ni) (<[ip := (eth, _time_passed ni)]> (_ip2eth ni))
       (delete ip (_not_mapped_ip_address ni)) (delete ip (_not_sent_dgrams ni)), Ok None).
Proof.
  intros Hq ip eth. unfold recv_arp. cbv zeta. fold ip eth.
  unfold asks_for. unfold mbind, ste_bind at 1.
  set (ni1 := set_ip2eth ni _). change (_ip_address ni1) with (_ip_address ni).
  destruct (_ && _).
  - rewrite send_ARP_reply_spec. unfold ste_bind. rewrite send_not_sent_spec by exact Hq.
    cbn. by rewrite <- app_assoc.
  - unfold mret at 1, ste_ret at 1, ste_bind. rewrite send_not_sent_spec by exact Hq. done.
Qed.

(** The ARP message a frame carries for this interface, if it does. *)
Definition arp_of (ni : NetworkInterface) (frame : EthernetFrame) : option ARPMessage :=
  let h := Ethernet._header frame in
  if (bool_decide (Ethernet.dst h = ETHERNET_BROADCAST) || bool_decide (Ethernet.dst h = _ethernet_address ni))
     && (Ethernet.type h =? TYPE_ARP)
  then match bl_to_buffer (Ethernet._payload frame) with
       | Throw _ => None
       | Ok b => let '(m, r) := ARP.parse default_message b in
                 if bool_decide (r = NoError) then Some m else None
       end
  else None.

(** A frame either carries an ARP message, or leaves the interface unchanged. *)
Lemma recv_frame_cases ni frame :
  match arp_of ni frame with
  | Some m => recv_frame frame ni = recv_arp m ni
  | None => fst (recv_frame frame ni) = ni /\ snd (recv_frame frame ni) <> Throw Undefined
  end.
Proof.
  unfold recv_frame, arp_of. cbv zeta.
  destruct (_ || _); cbn [andb]; [|by split].
  destruct (Ethernet.type (Ethernet._header frame) =? TYPE_ARP).
  - destruct (bl_to_buffer (Ethernet._payload frame)) as [b|e] eqn:E.
    + destruct (ARP.parse default_message b) as [m r]. case_bool_decide; [done|by split].
    + split; [done|]. cbn. revert E. unfold bl_to_buffer. repeat case_match; congruence.
  - destruct (Ethernet.type (Ethernet._header frame) =? TYPE_IPv4); [|by split].
    destruct (bl_to_buffer (Ethernet._payload frame)) as [b|e] eqn:E.
    + destruct (IPv4Datagram.parse default_datagram b) as [d r]. by case_bool_decide.
    + split; [done|]. cbn. revert E. unfold bl_to_buffer. repeat case_match; congruence.
Qed.

(** ** Runs of an interface *)

Inductive op : Type :=
  | Send (d : IPv4Datagram) (hop : Address)
  | Recv (f : EthernetFrame)
  | Tick (ms : Z)
  | Pop.

(** One call, with the outcome it has (a [tick] and a [pop] have none). *)
Definition exec (o : op) (ni : NetworkInterface) : NetworkInterface * outcome (option IPv4Datagram) :=
  match o with
  | Send d hop => let '(ni', r) := send_datagram d hop ni in
                  (ni', match r with Ok _ => Ok None | Throw e => Throw e end)
  | Recv f => recv_frame f ni
  | Tick ms => (tick ms ni, Ok None)
  | Pop => (pop_frame ni, Ok None)
  end.

Definition run (ops : list op) (ni : NetworkInterface) : NetworkInterface :=
  fold_left (fun ni o => fst (exec o ni)) ops ni.

Definition op_ms (o : op) : Z := match o with Tick ms => ms | _ => 0 end.
Definition total_ms (ops : list op) : Z := fold_right Z.add 0 (map op_ms ops).

(** The bookkeeping invariant. *)
Record ni_inv (ni : NetworkInterface) : Prop := {
  inv_queues : queues_match ni;
  inv_disjoint : forall ip, is_Some (_ip2eth ni !! ip) -> _not_sent_dgrams ni !! ip = None;
  inv_time : 0 <= _time_passed ni;
  inv_fresh : forall ip e t, _ip2eth ni !! ip = Some (e, t) -> 0 <= t <= _time_passed ni /\ _time_passed ni <= t + 30000
}.

Lemma interface_new_inv eth ip : ni_inv (new eth ip).
Proof.
  split; [intros i; cbn; rewrite !lookup_empty; split; by intros [] | done | done |].
  intros i e t. cbn. by rewrite lookup_empty.
Qed.

Lemma exec_send_inv d hop ni : ni_inv ni -> ni_inv (fst (exec (Send d hop) ni)).
Proof.
  intros [Hq Hd Ht Hf]. cbn [exec].
  destruct (_ip2eth ni !! ipv4_numeric hop) as [[eth t]|] eqn:E.
  - rewrite (send_mapped _ _ _ _ _ E). by split.
  - rewrite (send_unmapped _ _ _ E). split; cbn; [|intros ip Hip | done | done].
    + intros ip. cbn. destruct (decide (ip = ipv4_numeric hop)) as [->|Hne].
      * rewrite !lookup_insert_eq. split; intros _; by eexists.
      * rewrite !lookup_insert_ne by done. apply Hq.
    + rewrite lookup_insert_ne by (intros Hc; rewrite <- Hc, E in Hip; by destruct Hip). by apply Hd.
Qed.

Lemma exec_recv_inv f ni : ni_inv ni -> ni_inv (fst (exec (Recv f) ni)).
Proof.
  intros Hi. cbn [exec]. pose proof (recv_frame_cases ni f) as Hc.
  destruct (arp_of ni f) as [m|]; [|by destruct Hc as [-> _]].
  rewrite Hc, recv_arp_spec by apply Hi. destruct Hi as [Hq Hd Ht Hf].
  split; cbn; [intros ip; cbn | intros ip Hip | done | intros ip e t].
  - destruct (decide (ip = sender_ip_address m)) as [->|Hne].
    + rewrite !lookup_delete_eq. split; by intros [].
    + rewrite !lookup_delete_ne by done. apply Hq.
  - destruct (decide (ip = sender_ip_address m)) as [->|Hne].
    + by rewrite lookup_delete_eq.
    + rewrite lookup_delete_ne by done. apply Hd. by rewrite lookup_insert_ne in Hip.
  - destruct (decide (ip = sender_ip_address m)) as [->|Hne].
    + rewrite lookup_insert_eq. intros [= <- <-]. lia.
    + rewrite lookup_insert_ne by done. apply Hf.
Qed.

Lemma exec_tick_inv ms ni :
  0 <= ms -> _time_passed ni + ms + 30000 < 2 ^ 64 -> ni_inv ni ->
  ni_inv (fst (exec (Tick ms) ni)).
Proof.
  intros Hms Hb [Hq Hd Ht Hf]. cbn [exec fst tick].
  assert (u64 (_time_passed ni + ms) = _time_passed ni + ms) as Ht' by (apply u64_small; lia).
  split; cbn; [done | intros ip [v Hv] | lia | intros ip e t].
  - apply Hd. apply map_lookup_filter_Some in Hv as [Hv _]. by eexists.
  - rewrite map_lookup_filter_Some. cbn. intros [Hl Hlt]. specialize (Hf _ _ _ Hl).
    rewrite Ht' in *. rewrite u64_small in Hlt by lia. bsplit. lia.
Qed.

Lemma exec_inv o ni :
  0 <= op_ms o -> _time_passed ni + op_ms o + 30000 < 2 ^ 64 -> ni_inv ni ->
  ni_inv (fst (exec o ni)) /\ _time_passed (fst (exec o ni)) = _time_passed ni + op_ms o.
Proof.
  intros Hms Hb Hi. destruct o as [d hop|f|ms|]; cbn [op_ms] in *.
  - split; [by apply exec_send_inv|]. cbn [exec].
    destruct (_ip2eth ni !! ipv4_numeric hop) as [[eth t]|] eqn:E;
      [rewrite (send_mapped _ _ _ _ _ E) | rewrite (send_unmapped _ _ _ E)]; cbn; lia.
  - split; [by apply exec_recv_inv|]. cbn [exec]. pose proof (recv_frame_cases ni f) as Hc.
    destruct (arp_of ni f) as [m|]; [rewrite Hc, recv_arp_spec by apply Hi; cbn; lia|].
    destruct Hc as [-> _]. lia.
  - split; [by apply exec_tick_inv|]. cbn. apply u64_small. destruct Hi. lia.
  - split; [|cbn; lia]. by destruct Hi.
Qed.

Lemma exec_defined o ni : ni_inv ni -> snd (exec o ni) <> Throw Undefined.
Proof.
  intros Hi. destruct o as [d hop|f|ms|]; try done; cbn [exec].
  - destruct (_ip2eth ni !! ipv4_numeric hop) as [[eth t]|] eqn:E;
      [rewrite (send_mapped _ _ _ _ _ E) | rewrite (send_unmapped _ _ _ E)]; cbn;
      unfold dgram_outcome, IPv4Datagram.serialize, IPv4Header.serialize;
      repeat (case_match; cbn in *; simplify_eq); try done.
  - pose proof (recv_frame_cases ni f) as Hc. destruct (arp_of ni f) as [m|]; [|apply Hc].
    rewrite Hc, recv_arp_spec by apply Hi. done.
Qed.

Lemma total_ms_nonneg ops : Forall (fun o => 0 <= op_ms o) ops -> 0 <= total_ms ops.
Proof.
  induction 1 as [|o ops Ho _ IH]; [done|].
  change (total_ms (o :: ops)) with (op_ms o + total_ms ops). lia.
Qed.

Lemma run_inv ops ni :
  Forall (fun o => 0 <= op_ms o) ops -> _time_passed ni + total_ms ops + 30000 < 2 ^ 64 -> ni_inv ni ->
  ni_inv (run ops ni) /\ _time_passed (run ops ni) = _time_passed ni + total_ms ops.
Proof.
  revert ni. induction ops as [|o ops IH]; intros ni Hops Hb Hi.
  - split; [done|]. change (total_ms []) with 0. cbn. lia.
  - inversion_clear Hops as [|? ? Ho Hops']. change (total_ms (o :: ops)) with (op_ms o + total_ms ops) in *.
    pose proof (total_ms_nonneg ops Hops').
    destruct (exec_inv o ni) as [Hi' Ht']; [done | lia | done |].
    cbn [run fold_left]. fold (run ops (fst (exec o ni))).
    destruct (IH (fst (exec o ni)) Hops') as [? E]; [lia | done |]. rewrite E, Ht'. split; [done | lia].
Qed.

(** C34. The invariant of the interface, over every sequence of calls, with
    exceptions and arbitrary received frames: the addresses with waiting
    datagrams are exactly those with a recorded ARP request; nothing waits for
    an address whose mapping is known; no mapping is older than thirty seconds
    or from the future; and so no call has undefined behaviour (the
    [erase(find(ip))] of [_send_not_sent_datagrams] always finds its key). *)
Theorem interface_invariant eth ip ops :
  Forall (fun o => 0 <= op_ms o) ops -> total_ms ops + 30000 < 2 ^ 64 ->
  let ni := run ops (new eth ip) in
  (forall a, is_Some (_not_sent_dgrams ni !! a) <-> is_Some (_not_mapped_ip_address ni !! a)) /\
  (forall a, is_Some (_ip2eth ni !! a) -> _not_sent_dgrams ni !! a = None) /\
  (forall a e t, _ip2eth ni !! a = Some (e, t) -> t <= _time_passed ni <= t + 30000) /\
  (forall o, snd (exec o ni) <> Throw Undefined).
Proof.
  intros Hops Hb ni. destruct (run_inv ops (new eth ip) Hops) as [Hi _]; [cbn; lia | apply interface_new_inv |].
  fold ni in Hi. split; [apply Hi|]. split; [apply Hi|]. split; [|intros o; by apply exec_defined].
  intros a e t Ha. pose proof (inv_fresh _ Hi a e t Ha). lia.
Qed.

(** ** The ledger of datagrams *)

(** The address a call concerns: the next hop of a datagram, the sender of an ARP message. *)
Definition op_ip (ni : NetworkInterface) (o : op) : option Z :=
  match o with
  | Send _ hop => Some (ipv4_numeric hop)
  | Recv f => sender_ip_address <$> arp_of ni f
  | _ => None
  end.

(** What the caller hands over, and the IPv4 payloads a call pushes on the frame queue. *)
Definition handed_by (o : op) : list BufferList :=
  match o with Send d _ => dgram_bytes d | _ => [] end.
Definition ipv4_payloads (fs : list EthernetFrame) : list BufferList :=
  Ethernet._payload <$> filter (fun f => Ethernet.type (Ethernet._header f) = TYPE_IPv4) fs.
Definition sent_by (o : op) (ni : NetworkInterface) : list BufferList :=
  ipv4_payloads (drop (length (_frames_out ni)) (_frames_out (fst (exec o ni)))).

(** The datagrams handed over for [ip], and those sent to [ip], in order. *)
Fixpoint handed (ip : Z) (ops : list op) (ni : NetworkInterface) : list BufferList :=
  match ops with
  | [] => []
  | o :: ops' => (if bool_decide (op_ip ni o = Some ip) then handed_by o else []) ++
                 handed ip ops' (fst (exec o ni))
  end.
Fixpoint sent (ip : Z) (ops : list op) (ni : NetworkInterface) : list BufferList :=
  match ops with
  | [] => []
  | o :: ops' => (if bool_decide (op_ip ni o = Some ip) then sent_by o ni else []) ++
                 sent ip ops' (fst (exec o ni))
  end.

Lemma ipv4_payloads_frames ni eth bls : ipv4_payloads (map (ipv4_frame ni eth) bls) = bls.
Proof.
  induction bls as [|bl bls IH]; [done|]. unfold ipv4_payloads in *. cbn [map].
  rewrite filter_cons_True by done. cbn. by rewrite IH.
Qed.

(** One call moves datagrams of the address it concerns, and of no other. *)
Lemma exec_ledger o ni ip :
  ni_inv ni ->
  queue_of ni ip ++ (if bool_decide (op_ip ni o = Some ip) then handed_by o else []) =
  (if bool_decide (op_ip ni o = Some ip) then sent_by o ni else []) ++ queue_of (fst (exec o ni)) ip.
Proof.
  intros Hi. destruct o as [d hop|f|ms|]; cbn [op_ip handed_by exec].
  - unfold sent_by. cbn [exec]. destruct (_ip2eth ni !! ipv4_numeric hop) as [[eth t]|] eqn:E.
    + rewrite (send_mapped _ _ _ _ _ E). cbn [fst _frames_out]. rewrite drop_app_length.
      rewrite ipv4_payloads_frames. unfold queue_of. cbn. case_bool_decide as Hip; [|by rewrite app_nil_r].
      injection Hip as <-. rewrite (inv_disjoint _ Hi) by (rewrite E; by eexists). cbn. by rewrite app_nil_r.
    + rewrite (send_unmapped _ _ _ E). cbn [fst _frames_out]. rewrite drop_app_length.
      assert (ipv4_payloads (if request_due ni (ipv4_numeric hop)
        then [request_frame ni (ipv4_numeric hop)] else []) = []) as -> by by destruct (request_due _ _).
      unfold queue_of at 2. cbn. case_bool_decide as Hip.
      * injection Hip as <-. by rewrite lookup_insert_eq.
      * rewrite lookup_insert_ne by congruence. by rewrite app_nil_r.
  - unfold sent_by. cbn [exec]. pose proof (recv_frame_cases ni f) as Hc.
    destruct (arp_of ni f) as [m|]; cbn [fmap option_fmap option_map].
    + rewrite Hc, recv_arp_spec by apply Hi. cbn [fst _frames_out]. rewrite drop_app_length.
      unfold ipv4_payloads. rewrite filter_app, fmap_app.
      assert (Ethernet._payload <$> filter (fun f0 => Ethernet.type (Ethernet._header f0) = TYPE_IPv4)
        (if asks_for ni m then [reply_frame ni (sender_ip_address m) (sender_ethernet_address m)] else []) = [])
        as -> by by destruct (asks_for ni m).
      fold (ipv4_payloads (map (ipv4_frame ni (sender_ethernet_address m)) (queue_of ni (sender_ip_address m)))).
      rewrite ipv4_payloads_frames. unfold queue_of at 3. cbn. case_bool_decide as Hip.
      * injection Hip as <-. rewrite lookup_delete_eq. done.
      * rewrite lookup_delete_ne by congruence. by rewrite app_nil_r.
    + destruct Hc as [-> _]. case_bool_decide; [done|]. by rewrite app_nil_r.
  - by rewrite app_nil_r.
  - by rewrite app_nil_r.
Qed.

Lemma ledger_run ip ops ni :
  Forall (fun o => 0 <= op_ms o) ops -> _time_passed ni + total_ms ops + 30000 < 2 ^ 64 -> ni_inv ni ->
  queue_of ni ip ++ handed ip ops ni = sent ip ops ni ++ queue_of (run ops ni) ip.
Proof.
  revert ni. induction ops as [|o ops IH]; intros ni Hops Hb Hi; cbn [handed sent].
  - by rewrite app_nil_r.
  - inversion_clear Hops as [|? ? Ho Hops']. change (total_ms (o :: ops)) with (op_ms o + total_ms ops) in *.
    pose proof (total_ms_nonneg ops Hops').
    destruct (exec_inv o ni) as [Hi' Ht']; [done | lia | done |].
    rewrite app_assoc, (exec_ledger o ni ip Hi), <- !app_assoc. f_equal.
    apply IH; [done | lia | done].
Qed.

(** C33. No datagram is lost, duplicated or overtaken on its way to a next hop:
    over every sequence of calls on a fresh interface, the datagrams handed to
    [send_datagram] for an address are exactly those already pushed as IPv4
    frames for that address followed by those still waiting for its ARP
    reply, in the order they were handed over. *)
Theorem datagrams_in_order eth addr ops ip :
  Forall (fun o => 0 <= op_ms o) ops -> total_ms ops + 30000 < 2 ^ 64 ->
  handed ip ops (new eth addr) =
    sent ip ops (new eth addr) ++ queue_of (run ops (new eth addr)) ip.
Proof.
  intros Hops Hb. rewrite <- ledger_run; [done | done | cbn; lia | apply interface_new_inv].
Qed.

(** ** Address resolution between two interfaces *)

(** A frame written to the wire as bytes and parsed by the receiver. *)
Definition over_wire (f : EthernetFrame) : EthernetFrame :=
  fst (Ethernet.parse default_frame (buf_of_string (concatenate (Ethernet.serialize f)))).

(** The interface's own addresses fit their fields. *)
Definition ni_valid (ni : NetworkInterface) : Prop :=
  address_ok (_ethernet_address ni) /\ 0 <= ipv4_numeric (_ip_address ni) < 2 ^ 32.

(** Is a frame with this destination for the interface? *)
Definition for_us (ni : NetworkInterface) (a : EthernetAddress) : Prop :=
  a = ETHERNET_BROADCAST \/ a = _ethernet_address ni.

Lemma for_us_test ni a :
  for_us ni a -> bool_decide (a = ETHERNET_BROADCAST) || bool_decide (a = _ethernet_address ni) = true.
Proof. intros [->| ->]; apply orb_true_iff; [left|right]; by apply bool_decide_eq_true. Qed.

Lemma arp_over_wire ni h m :
  Ethernet.header_ok h -> for_us ni (Ethernet.dst h) -> Ethernet.type h = TYPE_ARP -> message_ok m ->
  arp_of ni (over_wire (mkEthernetFrame h (bl_of_string (arp_wire m)))) = Some m.
Proof.
  intros Hh Hu Ht Hm. destruct (arp_parse_serialize m default_message Hm) as (l & El & Hl & Hp).
  unfold arp_wire. rewrite El.
  pose proof (frame_parse_serialize (mkEthernetFrame h (bl_of_string l)) default_frame Hh) as Hf.
  cbn [Ethernet._payload Ethernet._header] in Hf.
  assert (concatenate (bl_of_string l) = l) as Ec by apply app_nil_r.
  rewrite Ec, Hl in Hf. destruct (Hf eq_refl) as (b & Ef & Hb & Hs).
  unfold over_wire. rewrite Ef. unfold arp_of. cbn [fst Ethernet._header Ethernet._payload].
  rewrite (for_us_test _ _ Hu), Ht. cbn [andb bl_to_buffer bl_of_buffer].
  rewrite (Hp b Hb Hs). done.
Qed.

Lemma ipv4_over_wire ni h d bl :
  Ethernet.header_ok h -> for_us ni (Ethernet.dst h) -> Ethernet.type h = TYPE_IPv4 ->
  datagram_ok d -> IPv4Datagram.serialize d = Ok bl ->
  exists d' c, recv_frame (over_wire (mkEthernetFrame h bl)) ni = (ni, Ok (Some d')) /\
    IPv4Datagram._header d' = set_cksum (IPv4Datagram._header d) c /\
    concatenate (IPv4Datagram._payload d') = concatenate (IPv4Datagram._payload d).
Proof.
  intros Hh Hu Ht Hd E. destruct (datagram_parse_serialize d default_datagram Hd) as (bl' & c & E' & Hl & Hp).
  rewrite E in E'. apply Ok_inj in E' as <-.
  pose proof (frame_parse_serialize (mkEthernetFrame h bl) default_frame Hh) as Hf.
  cbn [Ethernet._payload Ethernet._header] in Hf.
  destruct Hf as (b & Ef & Hb & Hs); [destruct Hd as [[] _]; lia|].
  destruct (Hp b Hb Hs) as (_ & d' & Ed & H1 & H2 & _). exists d', c. split; [|done].
  unfold over_wire. rewrite Ef. unfold recv_frame. cbn [fst Ethernet._header Ethernet._payload].
  rewrite (for_us_test _ _ Hu), Ht. cbn [bl_to_buffer bl_of_buffer].
  change (TYPE_IPv4 =? TYPE_ARP) with false. change (TYPE_IPv4 =? TYPE_IPv4) with true. cbv iota.
  rewrite Ed. done.
Qed.

Lemma zero_address_ok : address_ok (replicate 6 0).
Proof. split; [done|]. repeat constructor; lia. Qed.

Lemma arp_request_ok ni ip : ni_valid ni -> 0 <= ip < 2 ^ 32 -> message_ok (arp_request ni ip).
Proof. intros [? ?] ?. split; try done. apply zero_address_ok. Qed.
Lemma arp_reply_ok ni ip eth :
  ni_valid ni -> 0 <= ip < 2 ^ 32 -> address_ok eth -> message_ok (arp_reply ni ip eth).
Proof. intros [? ?] ? ?. by split. Qed.

(** A broadcast request for [B]'s address: [B] replies first, then flushes. *)
Lemma recv_request A B :
  queues_match B -> ni_valid A -> ni_valid B ->
  exists B1 flush,
    recv_frame (over_wire (request_frame A (ipv4_numeric (_ip_address B)))) B = (B1, Ok None) /\
    _frames_out B1 =
      _frames_out B ++ reply_frame B (ipv4_numeric (_ip_address A)) (_ethernet_address A) :: flush /\
    _ethernet_address B1 = _ethernet_address B.
Proof.
  intros HB VA VB. set (ipB := ipv4_numeric (_ip_address B)).
  pose proof (arp_over_wire B (mkEthernetHeader ETHERNET_BROADCAST (_ethernet_address A) TYPE_ARP)
    (arp_request A ipB) ltac:(split; [apply broadcast_ok | apply VA | done]) ltac:(by left) eq_refl
    ltac:(apply arp_request_ok; [done | apply VB])) as Hreq.
  pose proof (recv_frame_cases B (over_wire (request_frame A ipB))) as Hc.
  unfold request_frame in Hc at 1. rewrite Hreq, recv_arp_spec in Hc by done.
  unfold asks_for in Hc. cbn [opcode target_ip_address arp_request] in Hc. fold ipB in Hc.
  rewrite !Z.eqb_refl in Hc. cbn [andb app sender_ip_address sender_ethernet_address arp_request] in Hc.
  do 2 eexists. split; [exact Hc|]. split; reflexivity.
Qed.

(** [B]'s reply: [A] learns the address and releases what waited for it. *)
Lemma recv_reply A B :
  queues_match A -> ni_valid A -> ni_valid B ->
  exists A2,
    recv_frame (over_wire (reply_frame B (ipv4_numeric (_ip_address A)) (_ethernet_address A))) A
      = (A2, Ok None) /\
    _frames_out A2 = _frames_out A ++
      map (ipv4_frame A (_ethernet_address B)) (queue_of A (ipv4_numeric (_ip_address B))) /\
    _ip2eth A2 !! ipv4_numeric (_ip_address B) = Some (_ethernet_address B, _time_passed A).
Proof.
  intros HA VA VB. set (rep := arp_reply B (ipv4_numeric (_ip_address A)) (_ethernet_address A)).
  pose proof (arp_over_wire A (mkEthernetHeader (_ethernet_address A) (_ethernet_address B) TYPE_ARP)
    rep ltac:(split; [apply VA | apply VB | done]) ltac:(by right) eq_refl
    ltac:(apply arp_reply_ok; [done | apply VA | apply VA])) as Hrep.
  pose proof (recv_frame_cases A (over_wire
    (reply_frame B (ipv4_numeric (_ip_address A)) (_ethernet_address A)))) as Hc.
  unfold reply_frame in Hc at 1. fold rep in Hc. rewrite Hrep, recv_arp_spec in Hc by done.
  unfold asks_for in Hc. change (opcode rep =? OPCODE_REQUEST) with false in Hc.
  cbn [andb app sender_ip_address sender_ethernet_address rep arp_reply] in Hc.
  eexists. split; [exact Hc|]. split; [reflexivity|]. cbn. by rewrite lookup_insert_eq.
Qed.

(** The first datagram for an address: a request goes out and the datagram waits. *)
Lemma send_first d hop A bl :
  ni_inv A -> IPv4Datagram.serialize d = Ok bl ->
  _ip2eth A !! ipv4_numeric hop = None -> _not_mapped_ip_address A !! ipv4_numeric hop = None ->
  exists A1, send_datagram d hop A = (A1, Ok tt) /\
    _frames_out A1 = _frames_out A ++ [request_frame A (ipv4_numeric hop)] /\
    queue_of A1 (ipv4_numeric hop) = [bl] /\ ni_inv A1 /\
    _ethernet_address A1 = _ethernet_address A /\ _ip_address A1 = _ip_address A /\
    _time_passed A1 = _time_passed A.
Proof.
  intros HA Ebl Hunk Hnew. pose proof (exec_send_inv d hop A HA) as HA1. cbn [exec] in HA1.
  assert (queue_of A (ipv4_numeric hop) = []) as HqA.
  { unfold queue_of. destruct (_not_sent_dgrams A !! ipv4_numeric hop) eqn:E; [|done].
    destruct (proj1 (inv_queues _ HA (ipv4_numeric hop))) as [? ?]; [by eexists | congruence]. }
  pose proof (send_unmapped d hop A Hunk) as Es. cbv zeta in Es.
  unfold request_due, dgram_bytes, dgram_outcome in Es. rewrite Hnew, HqA, Ebl in Es.
  rewrite Es in HA1. eexists. split; [exact Es|]. split; [done|].
  split; [unfold queue_of; cbn; by rewrite lookup_insert_eq|]. done.
Qed.

(** C32. Address resolution delivers: interface [A] is given a datagram for the
    address of interface [B], whose Ethernet address it does not know.  The
    request [A] broadcasts, sent over the wire to [B], makes [B] answer; the
    answer, sent over the wire to [A], makes [A] release the datagram in a
    frame addressed to [B]; and from that frame [B] hands up the datagram, with
    its checksum filled in, header and payload intact.  [A] then knows [B]. *)
Theorem address_resolution A B d :
  ni_inv A -> ni_inv B -> ni_valid A -> ni_valid B -> datagram_ok d ->
  _ip2eth A !! ipv4_numeric (_ip_address B) = None ->
  _not_mapped_ip_address A !! ipv4_numeric (_ip_address B) = None ->
  exists A1 A2 B1 req rep fr flush d' c,
    send_datagram d (_ip_address B) A = (A1, Ok tt) /\ _frames_out A1 = _frames_out A ++ [req] /\
    recv_frame (over_wire req) B = (B1, Ok None) /\ _frames_out B1 = _frames_out B ++ rep :: flush /\
    recv_frame (over_wire rep) A1 = (A2, Ok None) /\ _frames_out A2 = _frames_out A1 ++ [fr] /\
    Ethernet.dst (Ethernet._header fr) = _ethernet_address B /\
    recv_frame (over_wire fr) B1 = (B1, Ok (Some d')) /\
    IPv4Datagram._header d' = set_cksum (IPv4Datagram._header d) c /\
    concatenate (IPv4Datagram._payload d') = concatenate (IPv4Datagram._payload d) /\
    _ip2eth A2 !! ipv4_numeric (_ip_address B) = Some (_ethernet_address B, _time_passed A).
Proof.
  intros HA HB VA VB Hd Hunk Hnew.
  destruct (datagram_parse_serialize d default_datagram Hd) as (bl & _ & Ebl & _).
  destruct (send_first d (_ip_address B) A bl HA Ebl Hunk Hnew)
    as (A1 & Es & Hf1 & Hq & HA1 & He & Hip & Ht).
  destruct (recv_request A B (inv_queues _ HB) VA VB) as (B1 & flush & Er & HfB & HeB).
  assert (ni_valid A1) as VA1 by (unfold ni_valid; by rewrite He, Hip).
  destruct (recv_reply A1 B (inv_queues _ HA1) VA1 VB) as (A2 & Er2 & Hf2 & Hmap).
  rewrite Hq in Hf2. rewrite He, Hip in Er2. rewrite Ht in Hmap.
  destruct (ipv4_over_wire B1 (mkEthernetHeader (_ethernet_address B) (_ethernet_address A1) TYPE_IPv4) d bl)
    as (d' & c & Er3 & H1 & H2);
    [split; [apply VB | apply VA1 | done] | by right | done | done | done |].
  by exists A1, A2, B1, (request_frame A (ipv4_numeric (_ip_address B))),
    (reply_frame B (ipv4_numeric (_ip_address A)) (_ethernet_address A)),
    (ipv4_frame A1 (_ethernet_address B) bl), flush, d', c.
Qed.

(** Requests for an unanswered address, over any number of further
    datagrams: within five seconds of the first request none is repeated; but
    afterwards one is sent with {e every} datagram, because the time recorded in
    [_not_mapped_ip_address] ("last time ARP request sent") is not renewed
    when the request is repeated. *)
Theorem request_repeated ni hop ds t :
  let ip := ipv4_numeric hop in
  _ip2eth ni !! ip = None -> _not_mapped_ip_address ni !! ip = Some t ->
  _frames_out (run (map (fun d => Send d hop) ds) ni) =
    _frames_out ni ++ (if u64 (t + 5000) <? _time_passed ni
                       then replicate (length ds) (request_frame ni ip) else []).
Proof.
  intros ip. revert ni. induction ds as [|d ds IH]; intros ni Hu Hn; cbn [map run fold_left length replicate].
  - destruct (_ <? _); by rewrite app_nil_r.
  - fold (run (map (fun d => Send d hop) ds) (fst (exec (Send d hop) ni))). cbn [exec].
    rewrite (send_unmapped d hop ni Hu). fold ip. cbn [fst].
    rewrite IH; [|done|]; cbn [_ip2eth _not_mapped_ip_address _frames_out _time_passed].
    + unfold request_due. rewrite Hn. rewrite <- app_assoc. f_equal.
      destruct (_ <? _); [|done]. done.
    + rewrite Hn. by rewrite lookup_insert_eq.
Qed.

(** ** A small network for the examples *)

Module Examples.
Definition ethA : EthernetAddress := [2; 0; 0; 0; 0; 1].
Definition ethB : EthernetAddress := [2; 0; 0; 0; 0; 2].
Definition addrA : Address := mkAddress 167772161 0.
Definition addrB : Address := mkAddress 167772162 0.
Definition A : NetworkInterface := new ethA addrA.
Definition B : NetworkInterface := new ethB addrB.
Definition dgram (x : byte) : IPv4Datagram :=
  mkIPv4Datagram (set_addrs (set_len IPv4Header.default_header 21) 167772161 167772162) (bl_of_string [x]).
(** Two datagrams, the reply to the request, a third datagram, and a long wait. *)
Definition ops : list op :=
  [Send (dgram x61) addrB; Tick 100; Send (dgram x62) addrB;
   Recv (over_wire (reply_frame B (ipv4_numeric addrA) ethA)); Send (dgram x63) addrB; Pop; Tick 30001;
   Send (dgram x64) addrB].
End Examples.

Lemma interface_invariant_witness :
  let ni := run Examples.ops Examples.A in
  (forall a, is_Some (_not_sent_dgrams ni !! a) <-> is_Some (_not_mapped_ip_address ni !! a)) /\
  (forall a, is_Some (_ip2eth ni !! a) -> _not_sent_dgrams ni !! a = None) /\
  (forall a e t, _ip2eth ni !! a = Some (e, t) -> t <= _time_passed ni <= t + 30000) /\
  (forall o, snd (exec o ni) <> Throw Undefined).
Proof.
  apply (interface_invariant Examples.ethA Examples.addrA Examples.ops).
  - repeat constructor; cbn; lia.
  - reflexivity.
Defined.

Lemma datagrams_in_order_witness :
  length (handed 167772162 Examples.ops Examples.A) = 4%nat /\
  length (sent 167772162 Examples.ops Examples.A) = 3%nat /\
  handed 167772162 Examples.ops Examples.A =
    sent 167772162 Examples.ops Examples.A ++ queue_of (run Examples.ops Examples.A) 167772162.
Proof.
  split; [vm_compute; reflexivity|]. split; [vm_compute; reflexivity|].
  apply (datagrams_in_order Examples.ethA Examples.addrA Examples.ops).
  - repeat constructor; cbn; lia.
  - reflexivity.
Defined.

Lemma address_resolution_witness :
  exists A1 A2 B1 req rep fr flush d' c,
    send_datagram (Examples.dgram x61) (_ip_address Examples.B) Examples.A = (A1, Ok tt) /\
    _frames_out A1 = _frames_out Examples.A ++ [req] /\
    recv_frame (over_wire req) Examples.B = (B1, Ok None) /\
    _frames_out B1 = _frames_out Examples.B ++ rep :: flush /\
    recv_frame (over_wire rep) A1 = (A2, Ok None) /\ _frames_out A2 = _frames_out A1 ++ [fr] /\
    Ethernet.dst (Ethernet._header fr) = _ethernet_address Examples.B /\
    recv_frame (over_wire fr) B1 = (B1, Ok (Some d')) /\
    IPv4Datagram._header d' = set_cksum (IPv4Datagram._header (Examples.dgram x61)) c /\
    concatenate (IPv4Datagram._payload d') = concatenate (IPv4Datagram._payload (Examples.dgram x61)) /\
    _ip2eth A2 !! ipv4_numeric (_ip_address Examples.B) =
      Some (_ethernet_address Examples.B, _time_passed Examples.A).
Proof.
  apply address_resolution; [apply interface_new_inv | apply interface_new_inv | | | | reflexivity | reflexivity].
  - split; [split; [reflexivity | repeat constructor; lia] | vm_compute; split; (reflexivity || discriminate)].
  - split; [split; [reflexivity | repeat constructor; lia] | vm_compute; split; (reflexivity || discriminate)].
  - split; [split; vm_compute; repeat split; (reflexivity || discriminate) | vm_compute; reflexivity].
Defined.

(** Three datagrams 5001 ms after the first one: three more requests at once. *)
Lemma request_repeated_witness :
  let ni := run [Send (Examples.dgram x61) Examples.addrB; Tick 5001] Examples.A in
  _frames_out (run (map (fun d => Send d Examples.addrB)
    [Examples.dgram x62; Examples.dgram x63; Examples.dgram x64]) ni) =
  _frames_out ni ++ replicate 3 (request_frame ni 167772162).
Proof.
  cbv zeta. rewrite (request_repeated _ Examples.addrB _ 0); vm_compute; reflexivity.
Defined.
