(* ===== verification/Router.v ===== *)
(** * The IP router

    Models [src/libsponge/router.hh] and [router.cc]: asynchronous interfaces
    with their queues of received datagrams, the routing table, the choice of
    a route, and the loop that routes every queued datagram.  The datagrams
    are routed in place, as in the source: the time to live of the datagram at
    the front of a queue is decremented before the datagram is popped, and
    stays decremented when an exception leaves the loop.

    [forward] says what becomes of a datagram without reference to that code:
    [best_route] is the last of the longest routes that cover the destination,
    found length by length.  [select_route_spec] proves that the loop over the
    table finds it, and [route_correct] that [route] delivers every queued
    datagram as [forward] says. *)
From stdpp Require Import base tactics list numbers option gmap.
From Stdlib Require Import ZArith Lia.
From S2P Require Import NetworkInterface Prelude Buffer Ethernet Address IPv4Header IPv4Datagram.

(** [AsyncNetworkInterface]: a network interface and the datagrams it has received. *)
Record AsyncNetworkInterface := mkAsync {
  base_interface : NetworkInterface.NetworkInterface;
  _datagrams_out : list IPv4Datagram
}.

Definition async_recv_frame (frame : EthernetFrame) : ste AsyncNetworkInterface unit := fun a =>
  match NetworkInterface.recv_frame frame (base_interface a) with
  | (ni, Throw e) => (mkAsync ni (_datagrams_out a), Throw e)
  | (ni, Ok (Some dgram)) => (mkAsync ni (_datagrams_out a ++ [dgram]), Ok tt)
  | (ni, Ok None) => (mkAsync ni (_datagrams_out a), Ok tt)
  end.

Record Route_Information := mkRoute {
  route_prefix : Z;
  prefix_length : Z;
  next_hop : option Address;
  interface_num : nat
}.

Record Router := mkRouter {
  _interfaces : list AsyncNetworkInterface;
  _routing_table : list Route_Information
}.

Definition new : Router := mkRouter [] [].

Definition add_interface (interface : AsyncNetworkInterface) (r : Router) : Router * nat :=
  (mkRouter (_interfaces r ++ [interface]) (_routing_table r), length (_interfaces r)).

Definition add_route (prefix len : Z) (hop : option Address) (num : nat) (r : Router) : Router :=
  mkRouter (_interfaces r) (_routing_table r ++ [mkRoute prefix len hop num]).

(** [0xFFFFFFFF << (32 - prefix_length)]; a negative shift count is undefined. *)
Definition route_mask (prefix_len : Z) : outcome Z :=
  if 32 <? prefix_len then Throw Undefined else Ok (u32 (Z.shiftl 4294967295 (32 - prefix_len))).

(** [not el.prefix_length or (dst & mask) == el.route_prefix]. *)
Definition route_matches (dst : Z) (el : Route_Information) : outcome bool :=
  if prefix_length el =? 0 then Ok true
  else mask ← route_mask (prefix_length el); Ok (Z.land dst mask =? route_prefix el).

(** The local variables of the loop over the routing table. *)
Record selection := mkSelection {
  is_matched : bool;
  matched_length : Z;
  sel_interface : nat;
  sel_next_hop : option Address
}.

Definition select_step (dst : Z) (s : selection) (el : Route_Information) : outcome selection :=
  b ← route_matches dst el;
  Ok (if b && (matched_length s <=? prefix_length el)
      then mkSelection true (prefix_length el) (interface_num el) (next_hop el)
      else s).

Fixpoint select_loop (dst : Z) (s : selection) (table : list Route_Information) : outcome selection :=
  match table with
  | [] => Ok s
  | el :: table' => s' ← select_step dst s el; select_loop dst s' table'
  end.

Definition select_route (dst : Z) (table : list Route_Information) : outcome selection :=
  select_loop dst (mkSelection false 0 0 None) table.

(** [interface(num).send_datagram(dgram, hop)]; [interface] is [_interfaces.at(num)]. *)
Definition send_on (num : nat) (dgram : IPv4Datagram) (hop : Address) : ste Router unit := fun r =>
  match _interfaces r !! num with
  | None => (r, Throw OutOfRange)
  | Some a =>
      let '(ni, o) := NetworkInterface.send_datagram dgram hop (base_interface a) in
      (mkRouter (<[num := mkAsync ni (_datagrams_out a)]> (_interfaces r)) (_routing_table r), o)
  end.

(** [--dgram.header().ttl], in [uint8_t]. *)
Definition decrement_ttl (d : IPv4Datagram) : IPv4Datagram :=
  mkIPv4Datagram (set_ttl (_header d) (u8 (ttl (_header d) - 1))) (_payload d).

(** [Router::route_one_datagram(dgram)]: the router, the datagram as it is
    left, and the outcome. *)
Definition route_one_datagram (dgram : IPv4Datagram) (r : Router) : Router * IPv4Datagram * outcome unit :=
  if ttl (_header dgram) <=? 1 then (r, dgram, Ok tt)
  else
    let dgram := decrement_ttl dgram in
    let dst := IPv4Header.dst (_header dgram) in
    match select_route dst (_routing_table r) with
    | Throw e => (r, dgram, Throw e)
    | Ok s =>
        if negb (is_matched s) then (r, dgram, Ok tt)
        else
          let hop := match sel_next_hop s with Some a => a | None => from_ipv4_numeric dst end in
          let '(r', o) := send_on (sel_interface s) dgram hop r in (r', dgram, o)
    end.

(** The received datagrams of interface [i], and their replacement. *)
Definition queue (r : Router) (i : nat) : list IPv4Datagram :=
  match _interfaces r !! i with Some a => _datagrams_out a | None => [] end.
Definition set_queue (r : Router) (i : nat) (q : list IPv4Datagram) : Router :=
  mkRouter (alter (fun a => mkAsync (base_interface a) q) i (_interfaces r)) (_routing_table r).

(** The [while (not queue.empty())] loop; [fuel] is the length of the queue,
    which no iteration lengthens. *)
Fixpoint route_queue (fuel i : nat) (r : Router) : Router * outcome unit :=
  match fuel, queue r i with
  | S fuel', dgram :: rest =>
      match route_one_datagram dgram r with
      | (r', dgram', Throw e) => (set_queue r' i (dgram' :: tail (queue r' i)), Throw e)
      | (r', _, Ok _) => route_queue fuel' i (set_queue r' i (tail (queue r' i)))
      end
  | _, _ => (r, Ok tt)
  end.

(** The loop over the interfaces, from index [i]. *)
Fixpoint route_interfaces (n i : nat) (r : Router) : Router * outcome unit :=
  match n with
  | O => (r, Ok tt)
  | S n' =>
      match route_queue (length (queue r i)) i r with
      | (r', Ok _) => route_interfaces n' (S i) r'
      | (r', Throw e) => (r', Throw e)
      end
  end.

Definition route (r : Router) : Router * outcome unit :=
  route_interfaces (length (_interfaces r)) 0 r.

(** ** Longest-prefix match *)

(** The documented meaning of a route: the [prefix_length] high-order bits of
    the prefix and of the destination agree. *)
Definition covers (el : Route_Information) (dst : Z) : bool :=
  Z.shiftr dst (32 - prefix_length el) =? Z.shiftr (route_prefix el) (32 - prefix_length el).

(** The low bits of the prefix are zero. *)
Definition canonical (el : Route_Information) : Prop :=
  0 <= prefix_length el <= 32 /\ 0 <= route_prefix el < 2 ^ 32 /\
  route_prefix el mod 2 ^ (32 - prefix_length el) = 0.

(** Masking a 32-bit number with [0xFFFFFFFF << k] clears its [k] low bits. *)
Lemma mask_high dst k :
  0 <= k <= 32 -> 0 <= dst < 2 ^ 32 ->
  Z.land dst (u32 (Z.shiftl 4294967295 k)) = Z.shiftl (Z.shiftr dst k) k.
Proof.
  intros Hk Hd. apply Z.bits_inj'. intros n Hn. unfold u32.
  change 4294967295 with (Z.ones 32). rewrite Z.land_spec.
  destruct (Z.lt_ge_cases n k) as [Hlt|Hge].
  - rewrite (Z.shiftl_spec_low _ k) by lia.
    destruct (Z.lt_ge_cases n 32).
    + rewrite Z.mod_pow2_bits_low, Z.shiftl_spec_low by lia. apply andb_false_r.
    + rewrite Z.mod_pow2_bits_high by lia. apply andb_false_r.
  - rewrite (Z.shiftl_spec _ k), Z.shiftr_spec by lia. replace (n - k + k) with n by lia.
    destruct (Z.lt_ge_cases n 32).
    + rewrite Z.mod_pow2_bits_low, Z.shiftl_spec, Z.ones_spec_low by lia. apply andb_true_r.
    + rewrite Z.mod_pow2_bits_high, andb_false_r by lia. symmetry.
      destruct (decide (dst = 0)) as [->|]; [apply Z.testbit_0_l|].
      apply Z.bits_above_log2; [lia|]. assert (Z.log2 dst < 32) by (apply Z.log2_lt_pow2; lia). lia.
Qed.

Lemma route_matches_spec dst el :
  0 <= prefix_length el <= 32 -> 0 <= dst < 2 ^ 32 -> 0 <= route_prefix el < 2 ^ 32 ->
  route_matches dst el =
    Ok ((prefix_length el =? 0) ||
        (Z.shiftl (Z.shiftr dst (32 - prefix_length el)) (32 - prefix_length el) =? route_prefix el)).
Proof.
  intros Hl Hd Hp. unfold route_matches, route_mask. destruct (prefix_length el =? 0); [done|].
  destruct (Z.ltb_spec 32 (prefix_length el)); [lia|]. cbn [mbind outcome_bind orb].
  by rewrite mask_high by lia.
Qed.

(** On canonical routes the test of the code is the documented one. *)
Lemma route_matches_covers dst el :
  canonical el -> 0 <= dst < 2 ^ 32 -> route_matches dst el = Ok (covers el dst).
Proof.
  intros (Hl & Hp & Hc) Hd. rewrite route_matches_spec by done. f_equal. unfold covers.
  set (k := 32 - prefix_length el) in *.
  rewrite !Z.shiftr_div_pow2, Z.shiftl_mul_pow2 by lia.
  assert (0 < 2 ^ k) by (apply Z.pow_pos_nonneg; lia).
  assert (route_prefix el = 2 ^ k * (route_prefix el / 2 ^ k)) as Ep
    by (pose proof (Z.div_mod (route_prefix el) (2 ^ k)); lia).
  destruct (Z.eqb_spec (prefix_length el) 0) as [E0|]; cbn [orb].
  - replace k with 32 by lia. rewrite !Z.div_small by lia. done.
  - destruct (Z.eqb_spec (dst / 2 ^ k) (route_prefix el / 2 ^ k)) as [E|E].
    + apply Z.eqb_eq. rewrite E. lia.
    + apply Z.eqb_neq. nia.
Qed.

Lemma select_loop_snoc dst s table el :
  select_loop dst s (table ++ [el]) = (s' ← select_loop dst s table; select_step dst s' el).
Proof.
  revert s. induction table as [|e table IH]; intros s; cbn [app select_loop].
  - cbn. by destruct (select_step dst s el).
  - cbn [mbind outcome_bind]. destruct (select_step dst s e) as [s'|]; cbn; [apply IH|done].
Qed.

(** [best dst table s]: the loop over [table] leaves the last of the longest
    covering routes in [s]. *)
Definition best (dst : Z) (table : list Route_Information) (s : selection) : Prop :=
  if is_matched s
  then exists l1 el l2, table = l1 ++ el :: l2 /\ covers el dst = true /\
    matched_length s = prefix_length el /\ sel_interface s = interface_num el /\
    sel_next_hop s = next_hop el /\
    Forall (fun e => covers e dst = true -> prefix_length e <= prefix_length el) l1 /\
    Forall (fun e => covers e dst = true -> prefix_length e < prefix_length el) l2
  else matched_length s = 0 /\ Forall (fun e => covers e dst = false) table.

Lemma best_step dst table s el :
  canonical el -> 0 <= dst < 2 ^ 32 -> best dst table s ->
  exists s', select_step dst s el = Ok s' /\ best dst (table ++ [el]) s'.
Proof.
  intros Hc Hd Hb. unfold select_step. rewrite route_matches_covers by done. cbn [mbind outcome_bind].
  eexists. split; [done|]. destruct Hc as [Hl _]. unfold best in Hb.
  destruct (covers el dst) eqn:Ec; cbn [andb].
  - destruct (Z.leb_spec (matched_length s) (prefix_length el)) as [Hle|Hgt].
    + unfold best. cbn [is_matched]. exists table, el, []. split_and!; try done.
      destruct (is_matched s).
      * destruct Hb as (l1 & e & l2 & -> & He & Hm & _ & _ & H1 & H2).
        apply Forall_app. split; [|constructor; [lia|]].
        -- eapply Forall_impl; [exact H1|]. intros e' He' Hce. specialize (He' Hce). lia.
        -- eapply Forall_impl; [exact H2|]. intros e' He' Hce. specialize (He' Hce). lia.
      * destruct Hb as [_ Hb]. eapply Forall_impl; [exact Hb|]. congruence.
    + unfold best. destruct (is_matched s); [|destruct Hb; lia].
      destruct Hb as (l1 & e & l2 & -> & He & Hm & Hi & Hn & H1 & H2).
      exists l1, e, (l2 ++ [el]). rewrite <- app_assoc. split_and!; try done.
      apply Forall_app. split; [done|]. constructor; [lia|done].
  - unfold best. destruct (is_matched s).
    + destruct Hb as (l1 & e & l2 & -> & He & Hm & Hi & Hn & H1 & H2).
      exists l1, e, (l2 ++ [el]). rewrite <- app_assoc. split_and!; try done.
      apply Forall_app. split; [done|]. constructor; [congruence|done].
    + destruct Hb as [Hm Hb]. split; [done|]. apply Forall_app. split; [done|]. by constructor.
Qed.

Lemma select_route_best dst table :
  Forall canonical table -> 0 <= dst < 2 ^ 32 ->
  exists s, select_route dst table = Ok s /\ best dst table s.
Proof.
  intros Ht Hd. unfold select_route. induction table as [|el table IH] using rev_ind.
  - eexists. split; [done|]. done.
  - apply Forall_app in Ht as [Ht Hel]. inversion_clear Hel as [|? ? Hc _].
    destruct (IH Ht) as (s & Es & Hs). destruct (best_step dst table s el Hc Hd Hs) as (s' & Es' & Hs').
    exists s'. split; [|done]. rewrite select_loop_snoc, Es. exact Es'.
Qed.

(** Longest-prefix match: on a table of canonical routes (up to 32 bits,
    no bits below the prefix), the loop finds a route exactly when some
    route covers the destination, and then a covering route with the greatest
    prefix length, the last one in the table among equals. *)
Theorem longest_prefix_match dst table :
  Forall canonical table -> 0 <= dst < 2 ^ 32 ->
  exists s, select_route dst table = Ok s /\
  if is_matched s
  then exists l1 el l2, table = l1 ++ el :: l2 /\ covers el dst = true /\
    sel_interface s = interface_num el /\ sel_next_hop s = next_hop el /\
    Forall (fun e => covers e dst = true -> prefix_length e <= prefix_length el) l1 /\
    Forall (fun e => covers e dst = true -> prefix_length e < prefix_length el) l2
  else Forall (fun e => covers e dst = false) table.
Proof.
  intros Ht Hd. destruct (select_route_best dst table Ht Hd) as (s & Es & Hb). exists s.
  split; [done|]. unfold best in Hb. destruct (is_matched s); [|by destruct Hb].
  destruct Hb as (l1 & el & l2 & ? & ? & _ & ? & ? & ? & ?). by exists l1, el, l2.
Qed.

(** A route whose prefix has bits below its prefix length is dead: it
    matches no destination, although its documented meaning (the high-order
    bits agree) covers some.  The network simulator adds such a route
    (128.30.76.255/16). *)
Theorem unmasked_route_dead el :
  0 < prefix_length el <= 32 -> 0 <= route_prefix el < 2 ^ 32 ->
  route_prefix el mod 2 ^ (32 - prefix_length el) <> 0 ->
  (forall dst, 0 <= dst < 2 ^ 32 -> route_matches dst el = Ok false) /\
  covers el (route_prefix el) = true.
Proof.
  intros Hl Hp Hn. split; [|apply Z.eqb_refl].
  intros dst Hd. rewrite route_matches_spec by lia. f_equal. apply orb_false_iff. split; [lia|].
  apply Z.eqb_neq. intros E. apply Hn. rewrite <- E, Z.shiftl_mul_pow2 by lia.
  apply Z.mod_mul. apply Z.pow_nonzero; lia.
Qed.

Module Examples.
(** The table of the network simulator, with its last route left as it is. *)
Definition ip4 (a b c d : Z) : Z := ((a * 256 + b) * 256 + c) * 256 + d.
Definition table : list Route_Information :=
  [mkRoute (ip4 0 0 0 0) 0 (Some (mkAddress (ip4 171 67 76 1) 0)) 0;
   mkRoute (ip4 10 0 0 0) 8 None 1;
   mkRoute (ip4 172 16 0 0) 16 None 2;
   mkRoute (ip4 192 168 0 0) 24 None 3;
   mkRoute (ip4 198 178 229 0) 24 None 4;
   mkRoute (ip4 143 195 0 0) 17 (Some (mkAddress (ip4 143 195 0 1) 0)) 5;
   mkRoute (ip4 143 195 128 0) 18 (Some (mkAddress (ip4 143 195 0 1) 0)) 5;
   mkRoute (ip4 143 195 192 0) 19 (Some (mkAddress (ip4 143 195 0 1) 0)) 5].
Definition mit_route : Route_Information :=
  mkRoute (ip4 128 30 76 255) 16 (Some (mkAddress (ip4 128 30 0 1) 0)) 6.
(** A router with the simulator's interfaces. *)
Definition eth (x : Z) : EthernetAddress := [2; 0; 0; 0; 0; x].
Definition interfaces : list AsyncNetworkInterface :=
  (fun p => mkAsync (NetworkInterface.new (eth (fst p)) (mkAddress (snd p) 0)) []) <$>
  [(0, ip4 171 67 76 46); (1, ip4 10 0 0 1); (2, ip4 172 16 0 1); (3, ip4 192 168 0 1);
   (4, ip4 198 178 229 1); (5, ip4 143 195 0 2); (6, ip4 128 30 76 255)].
Definition router : Router := mkRouter interfaces table.
(** A datagram from 10.0.0.2, and one with version 6 as its bytes arrive at eth0. *)
Definition dgram (dst t : Z) : IPv4Datagram :=
  mkIPv4Datagram (set_ttl (set_addrs (set_len default_header 21) (ip4 10 0 0 2) dst) t) (bl_of_string [x61]).
Definition bad_frame : EthernetFrame :=
  mkEthernetFrame (mkEthernetHeader (eth 0) (eth 9) TYPE_IPv4)
    (bl_of_string ([x65; x00; x00; x14] ++ replicate 4 x00 ++ [x40] ++ replicate 7 x00 ++ [xc0; xa8; x00; x02])).
End Examples.

Lemma longest_prefix_match_witness :
  exists s, select_route (Examples.ip4 143 195 193 52) Examples.table = Ok s /\
  if is_matched s
  then exists l1 el l2, Examples.table = l1 ++ el :: l2 /\ covers el (Examples.ip4 143 195 193 52) = true /\
    sel_interface s = interface_num el /\ sel_next_hop s = next_hop el /\
    Forall (fun e => covers e (Examples.ip4 143 195 193 52) = true -> prefix_length e <= prefix_length el) l1 /\
    Forall (fun e => covers e (Examples.ip4 143 195 193 52) = true -> prefix_length e < prefix_length el) l2
  else Forall (fun e => covers e (Examples.ip4 143 195 193 52) = false) Examples.table.
Proof.
  apply longest_prefix_match.
  - repeat constructor; vm_compute; congruence.
  - vm_compute. split; (reflexivity || discriminate).
Defined.

(** The route to 128.30.0.0/16 is not taken for 128.30.76.255 itself, nor for any address. *)
Lemma unmasked_route_dead_witness :
  (forall dst, 0 <= dst < 2 ^ 32 -> route_matches dst Examples.mit_route = Ok false) /\
  covers Examples.mit_route (route_prefix Examples.mit_route) = true.
Proof.
  apply unmasked_route_dead; vm_compute; [split; (reflexivity || discriminate) | split; (reflexivity || discriminate) | discriminate].
Defined.

(** ** The routing loop refines a specification over whole queues *)

(** The route that the table means for a destination: among the routes that
    cover it, the last of the longest, searched length by length. *)
Definition of_length (n : nat) (dst : Z) (table : list Route_Information) : list Route_Information :=
  List.filter (fun el => covers el dst && (prefix_length el =? Z.of_nat n)) table.
Fixpoint longest_route (n : nat) (dst : Z) (table : list Route_Information) : option Route_Information :=
  match last (of_length n dst table) with
  | Some el => Some el
  | None => match n with S n' => longest_route n' dst table | O => None end
  end.
Definition best_route : Z -> list Route_Information -> option Route_Information := longest_route 32.

(** A datagram one hop further. *)
Definition one_hop (d : IPv4Datagram) : IPv4Datagram :=
  mkIPv4Datagram (set_ttl (_header d) (ttl (_header d) - 1)) (_payload d).

(** The specification of one datagram: where it goes, and as what. *)
Definition forward (table : list Route_Information) (d : IPv4Datagram)
    : option (nat * IPv4Datagram * Address) :=
  let dst := IPv4Header.dst (_header d) in
  if ttl (_header d) <=? 1 then None
  else match best_route dst table with
       | Some el =>
           Some (interface_num el, one_hop d, match next_hop el with Some a => a | None => from_ipv4_numeric dst end)
       | None => None
       end.

Lemma of_length_none n dst l :
  Forall (fun e => covers e dst = true -> prefix_length e <> Z.of_nat n) l -> of_length n dst l = [].
Proof.
  induction 1 as [|e l He _ IH]; [done|]. cbn. fold (of_length n dst l). rewrite IH.
  destruct (covers e dst); [|done]. cbn. by rewrite (proj2 (Z.eqb_neq _ _)) by auto.
Qed.

Lemma longest_none n dst table : Forall (fun el => covers el dst = false) table -> longest_route n dst table = None.
Proof.
  intros H. induction n as [|n IH]; cbn [longest_route];
    (rewrite of_length_none; [done|eapply Forall_impl; [exact H|]; by intros el ->]).
Qed.

Lemma longest_found n dst l1 el l2 :
  0 <= prefix_length el <= Z.of_nat n -> covers el dst = true ->
  Forall (fun e => covers e dst = true -> prefix_length e <= prefix_length el) l1 ->
  Forall (fun e => covers e dst = true -> prefix_length e < prefix_length el) l2 ->
  longest_route n dst (l1 ++ el :: l2) = Some el.
Proof.
  intros Hl Hc H1 H2.
  assert (forall m, prefix_length el <= Z.of_nat m -> of_length m dst l2 = []) as E2.
  { intros m Hm. apply of_length_none. eapply Forall_impl; [exact H2|]. intros e He Hce. specialize (He Hce). lia. }
  assert (forall m, prefix_length el = Z.of_nat m -> last (of_length m dst (l1 ++ el :: l2)) = Some el) as Hfound.
  { intros m Hm. unfold of_length. rewrite List.filter_app. cbn [List.filter]. fold (of_length m dst l2).
    rewrite Hc, E2, (proj2 (Z.eqb_eq _ _) Hm) by lia. apply last_snoc. }
  induction n as [|n IH]; cbn [longest_route]; [by rewrite Hfound by lia|].
  destruct (Z.eq_dec (prefix_length el) (Z.of_nat (S n))) as [E|E]; [by rewrite Hfound|].
  rewrite of_length_none; [apply IH; lia|]. apply Forall_app. split; [|constructor; [lia|]];
    (eapply Forall_impl; [first [exact H1|exact H2]|]; intros e He Hce; specialize (He Hce); lia).
Qed.

(** The loop of the code finds that route. *)
Lemma select_route_spec dst table :
  Forall canonical table -> 0 <= dst < 2 ^ 32 ->
  exists s, select_route dst table = Ok s /\
    match best_route dst table with
    | Some el => el ∈ table /\ is_matched s = true /\ sel_interface s = interface_num el /\ sel_next_hop s = next_hop el
    | None => is_matched s = false
    end.
Proof.
  intros Ht Hd. destruct (select_route_best dst table Ht Hd) as (s & Es & Hb). exists s. split; [done|].
  unfold best in Hb. destruct (is_matched s) eqn:Em.
  - destruct Hb as (l1 & el & l2 & -> & Hc & _ & Hi & Hn & H1 & H2). rewrite Forall_forall in Ht.
    assert (el ∈ l1 ++ el :: l2) as Hin by (apply elem_of_app; right; left).
    destruct (Ht el Hin) as [Hl _]. unfold best_route. by rewrite (longest_found 32 dst l1 el l2).
  - destruct Hb as [_ Hb]. unfold best_route. by rewrite longest_none.
Qed.

Lemma decrement_one_hop d : 1 < ttl (_header d) < 256 -> decrement_ttl d = one_hop d.
Proof. intros Ht. unfold decrement_ttl, one_hop. by rewrite u8_small by lia. Qed.

Lemma forward_select table d :
  Forall canonical table -> 0 <= IPv4Header.dst (_header d) < 2 ^ 32 ->
  forward table d =
    if ttl (_header d) <=? 1 then None
    else match select_route (IPv4Header.dst (_header d)) table with
         | Ok s =>
             if is_matched s
             then Some (sel_interface s, one_hop d,
                        match sel_next_hop s with
                        | Some a => a | None => from_ipv4_numeric (IPv4Header.dst (_header d)) end)
             else None
         | Throw _ => None
         end.
Proof.
  intros Ht Hd. unfold forward. destruct (select_route_spec _ table Ht Hd) as (s & -> & Hb).
  destruct (best_route _ _); [destruct Hb as (_ & -> & -> & ->)|rewrite Hb]; done.
Qed.

(** Handing a datagram to an interface. *)
Definition deliver (nis : list NetworkInterface.NetworkInterface) (m : nat * IPv4Datagram * Address)
    : list NetworkInterface.NetworkInterface :=
  let '(i, d, hop) := m in alter (fun ni => fst (NetworkInterface.send_datagram d hop ni)) i nis.

Definition bases (r : Router) : list NetworkInterface.NetworkInterface := base_interface <$> _interfaces r.
Definition queues (r : Router) : list (list IPv4Datagram) := _datagrams_out <$> _interfaces r.

(** A router that can route: canonical routes to interfaces it has. *)
Definition table_ok (r : Router) : Prop :=
  Forall (fun el => canonical el /\ (interface_num el < length (_interfaces r))%nat) (_routing_table r).

Lemma send_outcome d hop ni :
  datagram_ok d -> NetworkInterface.send_datagram d hop ni =
    (fst (NetworkInterface.send_datagram d hop ni), Ok tt).
Proof.
  intros Hd. destruct (datagram_serialize_spec d Hd) as (bl & c & E & _).
  assert (NetworkInterface.dgram_outcome d = Ok tt) as Ho
    by (unfold NetworkInterface.dgram_outcome; by rewrite E).
  destruct (NetworkInterface._ip2eth ni !! ipv4_numeric hop) as [[eth t]|] eqn:El.
  - by rewrite (NetworkInterface.send_mapped _ _ _ _ _ El), Ho.
  - by rewrite (NetworkInterface.send_unmapped _ _ _ El), Ho.
Qed.

Lemma send_on_spec num d hop r :
  datagram_ok d -> (num < length (_interfaces r))%nat ->
  exists r', send_on num d hop r = (r', Ok tt) /\ bases r' = deliver (bases r) (num, d, hop) /\
    queues r' = queues r /\ _routing_table r' = _routing_table r.
Proof.
  intros Hd Hn. destruct (lookup_lt_is_Some_2 _ _ Hn) as [a Ha]. unfold send_on. rewrite Ha.
  rewrite (send_outcome d hop (base_interface a) Hd). eexists. split; [done|].
  unfold bases, queues. cbn [_interfaces _routing_table]. rewrite !list_fmap_insert. split_and!; [| |done].
  - cbn. apply list_eq. intros j. destruct (decide (j = num)) as [->|Hne].
    + rewrite list_lookup_insert_eq by (by rewrite length_fmap).
      rewrite list_lookup_alter_eq, list_lookup_fmap, Ha. done.
    + rewrite list_lookup_insert_ne, list_lookup_alter_ne by done. done.
  - cbn. apply list_insert_id. by rewrite list_lookup_fmap, Ha.
Qed.

Lemma one_hop_ok d : datagram_ok d -> 1 < ttl (_header d) -> datagram_ok (one_hop d).
Proof. intros [[] Hp] Ht. split; [split; try done|done]. cbn. lia. Qed.

Lemma datagram_ttl d : datagram_ok d -> ttl (_header d) < 256.
Proof. intros [[] _]. lia. Qed.

Lemma route_one_spec d r :
  table_ok r -> datagram_ok d ->
  exists r' d', route_one_datagram d r = (r', d', Ok tt) /\
    bases r' = fold_left deliver (option_list (forward (_routing_table r) d)) (bases r) /\
    queues r' = queues r /\ _routing_table r' = _routing_table r.
Proof.
  intros Ht Hd. unfold route_one_datagram, forward. pose proof (datagram_ttl d Hd).
  destruct (Z.leb_spec (ttl (_header d)) 1) as [Hle|Hgt]; [by do 2 eexists|].
  rewrite decrement_one_hop by done.
  change (IPv4Header.dst (_header (one_hop d))) with (IPv4Header.dst (_header d)).
  destruct (select_route_spec (IPv4Header.dst (_header d)) (_routing_table r)) as (s & -> & Hb).
  { eapply Forall_impl; [exact Ht|]. by intros el [? _]. }
  { apply Hd. }
  destruct (best_route _ _) as [el|]; [|rewrite Hb; by do 2 eexists].
  destruct Hb as (Hin & -> & -> & ->). unfold table_ok in Ht. rewrite Forall_forall in Ht. cbn [negb].
  destruct (send_on_spec (interface_num el) (one_hop d)
    (match next_hop el with Some a => a | None => from_ipv4_numeric (IPv4Header.dst (_header d)) end) r)
    as (r' & -> & Hr'); [by apply one_hop_ok|by apply Ht|by do 2 eexists].
Qed.

Lemma queue_lookup r i q : queues r !! i = Some q -> queue r i = q.
Proof.
  unfold queue, queues. rewrite list_lookup_fmap. destruct (_interfaces r !! i); cbn; congruence.
Qed.

Lemma bases_set_queue r i q : bases (set_queue r i q) = bases r.
Proof.
  unfold bases, set_queue. cbn. apply list_eq. intros j. rewrite !list_lookup_fmap.
  destruct (decide (j = i)) as [->|Hne].
  - rewrite list_lookup_alter_eq. by destruct (_interfaces r !! i).
  - by rewrite list_lookup_alter_ne by done.
Qed.

Lemma queues_set_queue r i q : queues (set_queue r i q) = <[i := q]> (queues r).
Proof.
  unfold queues, set_queue. cbn. apply list_eq. intros j. rewrite list_lookup_fmap.
  destruct (decide (j = i)) as [->|Hne].
  - rewrite list_lookup_alter_eq. destruct (_interfaces r !! i) eqn:E; cbn.
    + rewrite list_lookup_insert_eq; [done|]. rewrite length_fmap. by eapply lookup_lt_Some.
    + symmetry. apply lookup_ge_None_2. rewrite length_insert, length_fmap. by apply lookup_ge_None_1.
  - rewrite list_lookup_alter_ne, list_lookup_insert_ne by done. by rewrite list_lookup_fmap.
Qed.

Lemma length_bases_queues r r' :
  queues r' = queues r -> length (_interfaces r') = length (_interfaces r).
Proof. intros E. apply (f_equal length) in E. unfold queues in E. by rewrite !length_fmap in E. Qed.

Lemma table_ok_transfer r r' :
  length (_interfaces r') = length (_interfaces r) -> _routing_table r' = _routing_table r ->
  table_ok r -> table_ok r'.
Proof. unfold table_ok. by intros -> ->. Qed.

Lemma route_queue_spec q i r :
  queues r !! i = Some q -> table_ok r -> Forall datagram_ok q ->
  exists r', route_queue (length q) i r = (r', Ok tt) /\
    bases r' = fold_left deliver (omap (forward (_routing_table r)) q) (bases r) /\
    queues r' = <[i := []]> (queues r) /\ _routing_table r' = _routing_table r.
Proof.
  revert r. induction q as [|d q IH]; intros r Hq Ht Hok; cbn [length route_queue].
  - exists r. split_and!; try done. symmetry. by apply list_insert_id.
  - inversion_clear Hok as [|? ? Hd Hok']. rewrite (queue_lookup _ _ _ Hq).
    destruct (route_one_spec d r Ht Hd) as (r1 & d1 & -> & Hb1 & Hq1 & Ht1).
    rewrite (queue_lookup r1 i (d :: q)) by (by rewrite Hq1). cbn [tail].
    set (r2 := set_queue r1 i q).
    assert (queues r2 = <[i := q]> (queues r)) as Hq2 by (unfold r2; by rewrite queues_set_queue, Hq1).
    assert (length (_interfaces r2) = length (_interfaces r)) as Hl2.
    { unfold r2, set_queue. cbn. rewrite length_alter. by apply length_bases_queues. }
    destruct (IH r2) as (r3 & -> & Hb3 & Hq3 & Ht3).
    + rewrite Hq2. apply list_lookup_insert_eq. by eapply lookup_lt_Some.
    + by apply (table_ok_transfer r).
    + done.
    + exists r3. split; [done|]. change (_routing_table r2) with (_routing_table r1) in *.
      rewrite Hb3, Hq3, Ht3, Hq2, Ht1. unfold r2. rewrite bases_set_queue, Hb1.
      rewrite list_insert_insert_eq. split_and!; [|done|done]. cbn [omap list_omap].
      by destruct (forward (_routing_table r) d).
Qed.

Lemma route_interfaces_spec n i r :
  (i + n)%nat = length (_interfaces r) -> table_ok r -> Forall (Forall datagram_ok) (queues r) ->
  exists r', route_interfaces n i r = (r', Ok tt) /\
    bases r' = fold_left deliver (omap (forward (_routing_table r)) (concat (drop i (queues r)))) (bases r) /\
    queues r' = take i (queues r) ++ replicate n [] /\ _routing_table r' = _routing_table r.
Proof.
  revert i r. induction n as [|n IH]; intros i r Hn Ht Hok; cbn [route_interfaces].
  - exists r. assert (length (queues r) <= i)%nat by (unfold queues; rewrite length_fmap; lia).
    rewrite drop_ge, take_ge by done. cbn. by rewrite app_nil_r.
  - assert (i < length (queues r))%nat as Hlt by (unfold queues; rewrite length_fmap; lia).
    destruct (lookup_lt_is_Some_2 _ _ Hlt) as [q Hq].
    rewrite (queue_lookup _ _ _ Hq).
    destruct (route_queue_spec q i r Hq Ht) as (r1 & -> & Hb1 & Hq1 & Ht1);
      [by eapply Forall_lookup_1|].
    assert (length (_interfaces r1) = length (_interfaces r)) as Hl1.
    { apply (f_equal length) in Hq1. rewrite length_insert in Hq1. unfold queues in Hq1.
      by rewrite !length_fmap in Hq1. }
    destruct (IH (S i) r1) as (r2 & -> & Hb2 & Hq2 & Ht2);
      [lia | by apply (table_ok_transfer r) | rewrite Hq1; by apply Forall_insert |].
    exists r2. split; [done|]. rewrite Hb2, Hq2, Ht2, Hq1, Ht1, Hb1. split_and!; [| |done].
    + rewrite drop_insert_lt by lia. rewrite (drop_S _ _ _ Hq). cbn [concat].
      by rewrite omap_app, fold_left_app.
    + rewrite (take_S_r _ _ []) by (by apply list_lookup_insert_eq).
      rewrite take_insert_ge by lia. by rewrite <- app_assoc.
Qed.

(** C35. [Router::route] terminates without exception and does exactly this: it
    takes the queued datagrams of all interfaces in order, drops those whose
    time to live is spent or that no route matches, hands each other one, with
    its time to live reduced by one, to [send_datagram] of the interface of
    its longest-prefix route (with the route's next hop, or the destination
    itself when directly attached), and leaves every queue empty.  Which route
    that is does not depend on the loop of the code: it is the last of the
    longest among the routes whose high-order bits agree with the
    destination's. *)
Theorem route_correct r :
  table_ok r -> Forall (Forall datagram_ok) (queues r) ->
  exists r', route r = (r', Ok tt) /\
    bases r' = fold_left deliver (omap (forward (_routing_table r)) (concat (queues r))) (bases r) /\
    queues r' = replicate (length (_interfaces r)) [] /\ _routing_table r' = _routing_table r.
Proof.
  intros Ht Hok. destruct (route_interfaces_spec (length (_interfaces r)) 0 r eq_refl Ht Hok)
    as (r' & E & Hb & Hq & Htab). exists r'. split; [exact E|]. by rewrite Hb, Hq.
Qed.

Lemma send_wrong_version num d hop r a :
  _interfaces r !! num = Some a -> ver (_header d) <> 4 ->
  bl_size (_payload d) = payload_length (_header d) ->
  exists r', send_on num d hop r = (r', Throw RuntimeError) /\ queues r' = queues r /\
    length (_interfaces r') = length (_interfaces r).
Proof.
  intros Ha Hv Hs. unfold send_on. rewrite Ha.
  assert (IPv4Datagram.serialize d = Throw RuntimeError) as E.
  { unfold serialize. rewrite Hs, Z.eqb_refl. cbn [negb]. unfold IPv4Header.serialize.
    cbn [ver set_cksum]. by destruct (Z.eqb_spec (ver (_header d)) 4). }
  assert (snd (NetworkInterface.send_datagram d hop (base_interface a)) = Throw RuntimeError) as Eo.
  { destruct (NetworkInterface._ip2eth (base_interface a) !! ipv4_numeric hop) as [[eth t]|] eqn:El;
      [rewrite (NetworkInterface.send_mapped _ _ _ _ _ El) | rewrite (NetworkInterface.send_unmapped _ _ _ El)];
      cbn; unfold NetworkInterface.dgram_outcome; by rewrite E. }
  destruct (NetworkInterface.send_datagram d hop (base_interface a)) as [ni o]. cbn in Eo. subst o.
  eexists. split; [done|]. unfold queues. cbn. rewrite list_fmap_insert, length_insert. cbn.
  split; [|done]. apply list_insert_id. by rewrite list_lookup_fmap, Ha.
Qed.

(** A datagram with a wrong IP version blocks the router.  Such a datagram
    passes [IPv4Datagram::parse]; when it is first in a queue and has a route,
    [route] throws [std::runtime_error], and the datagram stays at the front
    with its time to live reduced by one: none of the datagrams behind it, on
    this or a later interface, is routed, and the next call throws again. *)
Theorem wrong_version_blocks r d rest s :
  table_ok r -> queues r !! 0%nat = Some (d :: rest) ->
  ver (_header d) <> 4 -> bl_size (_payload d) = payload_length (_header d) ->
  1 < ttl (_header d) < 256 -> 0 <= IPv4Header.dst (_header d) < 2 ^ 32 ->
  select_route (IPv4Header.dst (_header d)) (_routing_table r) = Ok s -> is_matched s = true ->
  exists r', route r = (r', Throw RuntimeError) /\
    queues r' = <[0%nat := decrement_ttl d :: rest]> (queues r) /\
    ttl (_header (decrement_ttl d)) = ttl (_header d) - 1 /\ ver (_header (decrement_ttl d)) <> 4.
Proof.
  intros Ht Hq Hv Hs Httl Hdst Es Hm.
  assert (sel_interface s < length (_interfaces r))%nat as Hlt.
  { destruct (select_route_best (IPv4Header.dst (_header d)) (_routing_table r)) as (s' & Es' & Hb);
      [eapply Forall_impl; [exact Ht|]; by intros el [? _] | done |].
    rewrite Es in Es'. apply Ok_inj in Es' as <-. unfold best in Hb. rewrite Hm in Hb.
    destruct Hb as (l1 & el & l2 & E & _ & _ & -> & _). unfold table_ok in Ht. rewrite E in Ht.
    apply Forall_app in Ht as [_ Ht]. by inversion_clear Ht as [|? ? [_ ?] _]. }
  destruct (lookup_lt_is_Some_2 _ _ Hlt) as [a Ha].
  destruct (send_wrong_version (sel_interface s) (decrement_ttl d)
    (match sel_next_hop s with Some a => a | None => from_ipv4_numeric (IPv4Header.dst (_header d)) end)
    r a Ha Hv Hs) as (r1 & E1 & Hq1 & Hl1).
  exists (set_queue r1 0 (decrement_ttl d :: rest)).
  split; [|split; [by rewrite queues_set_queue, Hq1|split; [cbn; apply u8_small; lia|done]]].
  unfold route. destruct (length (_interfaces r)) as [|n] eqn:En;
    [apply lookup_lt_Some in Hq; unfold queues in Hq; rewrite length_fmap in Hq; lia|].
  cbn [route_interfaces]. rewrite (queue_lookup _ _ _ Hq). cbn [length route_queue].
  rewrite (queue_lookup _ _ _ Hq). unfold route_one_datagram.
  destruct (Z.leb_spec (ttl (_header d)) 1); [lia|].
  change (IPv4Header.dst (_header (decrement_ttl d))) with (IPv4Header.dst (_header d)).
  rewrite Es, Hm. cbn [negb]. rewrite E1.
  by rewrite (queue_lookup r1 0 (d :: rest)) by (by rewrite Hq1).
Qed.

(** Three datagrams: to the Internet, to a directly attached host, and one
    whose time to live is spent. *)
Lemma route_correct_witness :
  let ds := [Examples.dgram (Examples.ip4 1 2 3 4) 64; Examples.dgram (Examples.ip4 192 168 0 2) 2;
             Examples.dgram (Examples.ip4 192 168 0 2) 1] in
  let r := set_queue Examples.router 1 ds in
  length (omap (forward Examples.table) (concat (queues r))) = 2%nat /\
  exists r', route r = (r', Ok tt) /\
    bases r' = fold_left deliver (omap (forward (_routing_table r)) (concat (queues r))) (bases r) /\
    queues r' = replicate (length (_interfaces r)) [] /\ _routing_table r' = _routing_table r.
Proof.
  cbv zeta. split; [vm_compute; reflexivity|]. apply route_correct.
  - repeat constructor; vm_compute; congruence || lia.
  - repeat constructor; vm_compute; repeat split; congruence || discriminate.
Defined.

(** The version-6 frame is accepted by the default interface, and then blocks the router. *)
Lemma wrong_version_blocks_witness :
  let a := fst (async_recv_frame Examples.bad_frame
    (mkAsync (NetworkInterface.new (Examples.eth 0) (mkAddress (Examples.ip4 171 67 76 46) 0)) [])) in
  exists d, _datagrams_out a = [d] /\
    let r := mkRouter (<[0%nat := a]> Examples.interfaces) Examples.table in
    exists r', route r = (r', Throw RuntimeError) /\
      queues r' = <[0%nat := [decrement_ttl d]]> (queues r) /\
      ttl (_header (decrement_ttl d)) = ttl (_header d) - 1 /\ ver (_header (decrement_ttl d)) <> 4.
Proof.
  cbv zeta. eexists. split; [vm_compute; reflexivity|].
  eapply wrong_version_blocks.
  - repeat constructor; vm_compute; congruence || lia.
  - vm_compute; reflexivity.
  - vm_compute; discriminate.
  - vm_compute; reflexivity.
  - vm_compute; split; reflexivity.
  - vm_compute; split; (reflexivity || discriminate).
  - vm_compute; reflexivity.
  - vm_compute; reflexivity.
Defined.
