(* ===== verification/FdAdapter.v ===== *)
(** * Adapters between TCP segments and the network

    Models [src/libsponge/tcp_helpers/tcp_config.hh] ([FdAdapterConfig]),
    [fd_adapter.hh] and [fd_adapter.cc] (UDP), [tcp_over_ip.hh] and
    [tcp_over_ip.cc], [tuntap_adapter.hh] and [tuntap_adapter.cc] (TUN and
    TAP), and [lossy_fd_adapter.hh].  The file descriptors themselves are not
    modelled: what is read from one is an argument, what is written to it is a
    result.  [FdAdapter] is the interface the socket is written against; its
    contract [Transport] says that a segment written by one adapter is read by
    its peer. *)
From stdpp Require Import base tactics list numbers option gmap.
From Stdlib Require Import ZArith Lia.
From S2P Require Import Prelude Buffer NetParser Address TCPHeader TCPSegment IPv4Header IPv4Datagram.
From S2P Require Import Ethernet NetworkInterface.

Record FdAdapterConfig := mkFdAdapterConfig {
  source : Address;
  destination : Address;
  loss_rate_dn : Z;
  loss_rate_up : Z
}.
Definition default_config : FdAdapterConfig :=
  mkFdAdapterConfig (mkAddress 0 0) (mkAddress 0 0) 0 0.

Definition set_source (c : FdAdapterConfig) (a : Address) : FdAdapterConfig :=
  mkFdAdapterConfig a (destination c) (loss_rate_dn c) (loss_rate_up c).
Definition set_destination (c : FdAdapterConfig) (a : Address) : FdAdapterConfig :=
  mkFdAdapterConfig (source c) a (loss_rate_dn c) (loss_rate_up c).

(** [FdAdapterBase]. *)
Record FdAdapterBase := mkFdAdapterBase { _cfg : FdAdapterConfig; _listen : bool }.

(** The operations of an adapter with state [A], inputs [I] read from its file
    descriptor and outputs [O] written to it. *)
Class FdAdapter (A I O : Type) := {
  base : A -> FdAdapterBase;
  set_base : FdAdapterBase -> A -> A;
  read : I -> A -> A * list O * outcome (option TCPSegment);
  write : TCPSegment -> A -> A * list O * outcome TCPSegment;
  tick : Z -> A -> A * list O
}.

Definition config {A I O} `{FdAdapter A I O} (a : A) : FdAdapterConfig := _cfg (base a).
Definition listening {A I O} `{FdAdapter A I O} (a : A) : bool := _listen (base a).
Definition set_listening {A I O} `{FdAdapter A I O} (l : bool) (a : A) : A :=
  set_base (mkFdAdapterBase (_cfg (base a)) l) a.
Definition set_config {A I O} `{FdAdapter A I O} (c : FdAdapterConfig) (a : A) : A :=
  set_base (mkFdAdapterBase c (_listen (base a))) a.

(** The two port assignments to the segment that [write] is given. *)
Definition with_ports (b : FdAdapterBase) (seg : TCPSegment) : TCPSegment :=
  set_header seg (set_ports (TCPSegment._header seg) (port (source (_cfg b))) (port (destination (_cfg b)))).

(** ** TCP in UDP *)

(** [TCPOverUDPSocketAdapter::read] on a received datagram (its source address and payload). *)
Definition udp_read (datagram : Address * list byte) (b : FdAdapterBase)
    : FdAdapterBase * list (Address * BufferList) * outcome (option TCPSegment) :=
  if negb (_listen b) && negb (bool_decide (fst datagram = destination (_cfg b))) then (b, [], Ok None)
  else
    let '(seg, r) := TCPSegment.parse default_segment (buf_of_string (snd datagram)) 0 in
    if negb (bool_decide (r = NoError)) then (b, [], Ok None)
    else if _listen b then
      if syn (TCPSegment._header seg) && negb (rst (TCPSegment._header seg))
      then (mkFdAdapterBase (set_destination (_cfg b) (fst datagram)) false, [], Ok (Some seg))
      else (b, [], Ok None)
    else (b, [], Ok (Some seg)).

(** [TCPOverUDPSocketAdapter::write]: the destination and the bytes given to [sendto]. *)
Definition udp_write (seg : TCPSegment) (b : FdAdapterBase)
    : FdAdapterBase * list (Address * BufferList) * outcome TCPSegment :=
  let seg := with_ports b seg in
  match TCPSegment.serialize seg 0 with
  | Throw e => (b, [], Throw e)
  | Ok bl => (b, [(destination (_cfg b), bl)], Ok seg)
  end.

#[global] Instance TCPOverUDPSocketAdapter : FdAdapter FdAdapterBase (Address * list byte) (Address * BufferList) := {
  base b := b;
  set_base b _ := b;
  read := udp_read;
  write := udp_write;
  tick _ b := (b, [])
}.

(** ** TCP in IPv4 *)

(** The end of [unwrap_tcp_in_ip], once the segment is parsed. *)
Definition unwrap_segment (ip_dgram : IPv4Datagram) (tcp_seg : TCPSegment) (b : FdAdapterBase)
    : FdAdapterBase * outcome (option TCPSegment) :=
  let h := TCPSegment._header tcp_seg in
  let from_peer (b : FdAdapterBase) :=
    if negb (sport h =? port (destination (_cfg b))) then (b, Ok None) else (b, Ok (Some tcp_seg)) in
  if negb (dport h =? port (source (_cfg b))) then (b, Ok None)
  else if _listen b then
    if syn h && negb (rst h) then
      let c := set_source (_cfg b) (mkAddress (IPv4Header.dst (IPv4Datagram._header ip_dgram)) (port (source (_cfg b)))) in
      let c := set_destination c (mkAddress (IPv4Header.src (IPv4Datagram._header ip_dgram)) (sport h)) in
      from_peer (mkFdAdapterBase c false)
    else (b, Ok None)
  else from_peer b.

(** [TCPOverIPv4Adapter::unwrap_tcp_in_ip]; the conversion of the payload to a
    [Buffer] throws when it is not contiguous. *)
Definition unwrap_tcp_in_ip (ip_dgram : IPv4Datagram) (b : FdAdapterBase)
    : FdAdapterBase * outcome (option TCPSegment) :=
  let h := IPv4Datagram._header ip_dgram in
  if negb (_listen b) && negb (IPv4Header.dst h =? ipv4_numeric (source (_cfg b))) then (b, Ok None)
  else if negb (_listen b) && negb (IPv4Header.src h =? ipv4_numeric (destination (_cfg b))) then (b, Ok None)
  else if negb (proto h =? PROTO_TCP) then (b, Ok None)
  else
    match bl_to_buffer (IPv4Datagram._payload ip_dgram) with
    | Throw e => (b, Throw e)
    | Ok buffer =>
        let '(tcp_seg, r) := TCPSegment.parse default_segment buffer (pseudo_cksum h) in
        if negb (bool_decide (r = NoError)) then (b, Ok None) else unwrap_segment ip_dgram tcp_seg b
    end.

(** The IPv4 header of [wrap_tcp_in_ip]; the length is in [uint16_t]. *)
Definition ip_header_for (seg : TCPSegment) (b : FdAdapterBase) : IPv4Header :=
  let h := set_addrs IPv4Header.default_header (ipv4_numeric (source (_cfg b)))
             (ipv4_numeric (destination (_cfg b))) in
  set_len h (Prelude.u16 (hlen h * 4 + doff (TCPSegment._header seg) * 4 + size (TCPSegment._payload seg))).

(** [TCPOverIPv4Adapter::wrap_tcp_in_ip]: the datagram, and the segment with its ports set. *)
Definition wrap_tcp_in_ip (seg : TCPSegment) (b : FdAdapterBase) : outcome (IPv4Datagram * TCPSegment) :=
  let seg := with_ports b seg in
  let h := ip_header_for seg b in
  payload ← TCPSegment.serialize seg (pseudo_cksum h);
  Ok (mkIPv4Datagram h payload, seg).

(** [TCPOverIPv4OverTunFdAdapter]. *)
Definition tun_read (bytes : list byte) (b : FdAdapterBase)
    : FdAdapterBase * list BufferList * outcome (option TCPSegment) :=
  let '(ip_dgram, r) := IPv4Datagram.parse default_datagram (buf_of_string bytes) in
  if negb (bool_decide (r = NoError)) then (b, [], Ok None)
  else let '(b', o) := unwrap_tcp_in_ip ip_dgram b in (b', [], o).

Definition tun_write (seg : TCPSegment) (b : FdAdapterBase)
    : FdAdapterBase * list BufferList * outcome TCPSegment :=
  match wrap_tcp_in_ip seg b with
  | Throw e => (b, [], Throw e)
  | Ok (dgram, seg) =>
      match IPv4Datagram.serialize dgram with
      | Throw e => (b, [], Throw e)
      | Ok bl => (b, [bl], Ok seg)
      end
  end.

#[global] Instance TCPOverIPv4OverTunFdAdapter : FdAdapter FdAdapterBase (list byte) BufferList := {
  base b := b;
  set_base b _ := b;
  read := tun_read;
  write := tun_write;
  tick _ b := (b, [])
}.

(** ** TCP in IPv4 in Ethernet *)

Record EthernetAdapter := mkEthernetAdapter {
  _base : FdAdapterBase;
  _interface : NetworkInterface;
  _next_hop : Address
}.

(** The constructor writes a dummy frame to the TAP device. *)
Definition new_ethernet (eth_address : EthernetAddress) (ip_address next_hop : Address)
    : EthernetAdapter * list BufferList :=
  (mkEthernetAdapter (mkFdAdapterBase default_config false) (NetworkInterface.new eth_address ip_address) next_hop,
   [Ethernet.serialize default_frame]).

(** [send_pending]: the loop writes every frame of the queue and pops it. *)
Fixpoint send_frames (frames : list EthernetFrame) (ni : NetworkInterface) : NetworkInterface * list BufferList :=
  match frames with
  | [] => (ni, [])
  | f :: frames' => let '(ni', out) := send_frames frames' (pop_frame ni) in (ni', Ethernet.serialize f :: out)
  end.
Definition send_pending (b : FdAdapterBase) (ni : NetworkInterface) (hop : Address)
    : EthernetAdapter * list BufferList :=
  let '(ni', out) := send_frames (_frames_out ni) ni in (mkEthernetAdapter b ni' hop, out).

Definition ethernet_read (bytes : list byte) (a : EthernetAdapter)
    : EthernetAdapter * list BufferList * outcome (option TCPSegment) :=
  let '(frame, r) := Ethernet.parse default_frame (buf_of_string bytes) in
  if negb (bool_decide (r = NoError)) then (a, [], Ok None)
  else
    match recv_frame frame (_interface a) with
    | (ni, Throw e) => (mkEthernetAdapter (_base a) ni (_next_hop a), [], Throw e)
    | (ni, Ok ip_dgram) =>
        let '(a', out) := send_pending (_base a) ni (_next_hop a) in
        match ip_dgram with
        | None => (a', out, Ok None)
        | Some dgram =>
            let '(b', o) := unwrap_tcp_in_ip dgram (_base a') in
            (mkEthernetAdapter b' (_interface a') (_next_hop a'), out, o)
        end
    end.

Definition ethernet_write (seg : TCPSegment) (a : EthernetAdapter)
    : EthernetAdapter * list BufferList * outcome TCPSegment :=
  match wrap_tcp_in_ip seg (_base a) with
  | Throw e => (a, [], Throw e)
  | Ok (dgram, seg) =>
      match send_datagram dgram (_next_hop a) (_interface a) with
      | (ni, Throw e) => (mkEthernetAdapter (_base a) ni (_next_hop a), [], Throw e)
      | (ni, Ok _) => let '(a', out) := send_pending (_base a) ni (_next_hop a) in (a', out, Ok seg)
      end
  end.

Definition ethernet_tick (ms : Z) (a : EthernetAdapter) : EthernetAdapter * list BufferList :=
  send_pending (_base a) (NetworkInterface.tick ms (_interface a)) (_next_hop a).

#[global] Instance TCPOverIPv4OverEthernetAdapter : FdAdapter EthernetAdapter (list byte) BufferList := {
  base := _base;
  set_base b a := mkEthernetAdapter b (_interface a) (_next_hop a);
  read := ethernet_read;
  write := ethernet_write;
  tick := ethernet_tick
}.

(** ** Random loss *)

(** [LossyFdAdapter<AdapterT>]: the outputs of the random number generator are
    a stream, [_drawn] of which have been used. *)
Record LossyFdAdapter (A : Type) := mkLossyFdAdapter { _adapter : A; _rand : nat -> Z; _drawn : nat }.
Arguments mkLossyFdAdapter {A}.
Arguments _adapter {A}.
Arguments _rand {A}.
Arguments _drawn {A}.

Section Lossy.
Context {A I O : Type} `{FdAdapter A I O}.

Definition with_adapter (a : A) (l : LossyFdAdapter A) : LossyFdAdapter A :=
  mkLossyFdAdapter a (_rand l) (_drawn l).

(** [loss != 0 && uint16_t(_rand()) < loss]: a number is drawn only when the rate is not zero. *)
Definition _should_drop (uplink : bool) (l : LossyFdAdapter A) : LossyFdAdapter A * bool :=
  let cfg := config (_adapter l) in
  let loss := if uplink then loss_rate_up cfg else loss_rate_dn cfg in
  if loss =? 0 then (l, false)
  else (mkLossyFdAdapter (_adapter l) (_rand l) (S (_drawn l)), Prelude.u16 (_rand l (_drawn l)) <? loss).

Definition lossy_read (i : I) (l : LossyFdAdapter A) : LossyFdAdapter A * list O * outcome (option TCPSegment) :=
  match read i (_adapter l) with
  | (a, out, Throw e) => (with_adapter a l, out, Throw e)
  | (a, out, Ok ret) =>
      let '(l', drop) := _should_drop false (with_adapter a l) in
      (l', out, Ok (if drop then None else ret))
  end.

Definition lossy_write (seg : TCPSegment) (l : LossyFdAdapter A) : LossyFdAdapter A * list O * outcome TCPSegment :=
  let '(l, drop) := _should_drop true l in
  if drop then (l, [], Ok seg)
  else let '(a, out, o) := write seg (_adapter l) in (with_adapter a l, out, o).

Definition lossy_tick (ms : Z) (l : LossyFdAdapter A) : LossyFdAdapter A * list O :=
  let '(a, out) := tick ms (_adapter l) in (with_adapter a l, out).

#[global] Instance LossyAdapter : FdAdapter (LossyFdAdapter A) I O := {
  base l := base (_adapter l);
  set_base b l := with_adapter (set_base b (_adapter l)) l;
  read := lossy_read;
  write := lossy_write;
  tick := lossy_tick
}.
End Lossy.

(** ** Adapters over a TUN device

    What the two adapters over a TUN device have in common: each operation is
    that of [TCPOverIPv4OverTunFdAdapter], except that a segment may be lost
    on its way in or out. *)
Class OverTun (A : Type) `{FdAdapter A (list byte) BufferList} : Prop := {
  over_set_base : forall b a, base (set_base b a) = b;
  over_read : forall d a b' outs r, tun_read d (base a) = (b', outs, r) ->
    exists a' r', read d a = (a', outs, r') /\ base a' = b' /\ (r' = r \/ r' = Ok None);
  over_write : forall g a b' outs r, tun_write g (base a) = (b', outs, r) ->
    exists a' outs' r', write g a = (a', outs', r') /\
      ((base a' = b' /\ outs' = outs /\ r' = r) \/ (base a' = base a /\ outs' = [] /\ r' = Ok g));
  over_tick : forall ms a, snd (tick ms a) = [] /\ base (fst (tick ms a)) = base a
}.

#[global] Instance tun_over_tun : OverTun FdAdapterBase.
Proof. split; [done| | |done]; intros * E; eexists _, _; [|eexists]; (split; [exact E|]); auto. Qed.

Lemma should_drop_adapter {A I O} `{FdAdapter A I O} up (l : LossyFdAdapter A) :
  _adapter (fst (_should_drop up l)) = _adapter l.
Proof. unfold _should_drop. by destruct up, (_ =? 0). Qed.

#[global] Instance lossy_over_tun {A} `{OverTun A} : OverTun (LossyFdAdapter A).
Proof.
  split.
  - intros b l. cbn. apply over_set_base.
  - intros d l b' outs r E. cbn in E |- *. apply over_read in E as (a' & r' & Er & Hb & Hr).
    unfold lossy_read. rewrite Er. destruct r' as [ret|e].
    + pose proof (should_drop_adapter false (with_adapter a' l)) as Ha.
      destruct (_should_drop false (with_adapter a' l)) as [l' drop]. cbn in Ha.
      eexists _, _. split; [done|]. split; [cbn; by rewrite Ha|]. destruct drop; [by right|exact Hr].
    + eexists _, _. split; [done|]. by split.
  - intros g l b' outs r E. cbn in E |- *. unfold lossy_write.
    pose proof (should_drop_adapter true l) as Ha. destruct (_should_drop true l) as [l' drop]. cbn in Ha.
    destruct drop; [eexists _, _, _; split; [done|]; right; cbn; by rewrite Ha|]. rewrite Ha.
    apply over_write in E as (a' & outs' & r' & -> & Hc). eexists _, _, _. split; [done|]. exact Hc.
  - intros ms l. cbn. unfold lossy_tick. pose proof (over_tick ms (_adapter l)) as Ht.
    by destruct (tick ms (_adapter l)).
Qed.

(** ** The contract of an adapter *)

(** A segment that fits a datagram, from an adapter with valid addresses. *)
Record sendable (b : FdAdapterBase) (seg : TCPSegment) : Prop := {
  send_source : address_valid (source (_cfg b));
  send_destination : address_valid (destination (_cfg b));
  send_header : TCPHeader.header_ok (TCPSegment._header seg);
  send_size : 20 + 4 * doff (TCPSegment._header seg) + size (TCPSegment._payload seg) <= 65535
}.

(** [b] is connected to [a], or listens on the port [a] sends a SYN to. *)
Definition peers (a b : FdAdapterBase) (seg : TCPSegment) : Prop :=
  if _listen b
  then port (source (_cfg b)) = port (destination (_cfg a)) /\
       syn (TCPSegment._header seg) = true /\ rst (TCPSegment._header seg) = false
  else source (_cfg b) = destination (_cfg a) /\ destination (_cfg b) = source (_cfg a).

(** [seg'] is [seg] as [a] sends it, with the checksum [c]. *)
Definition received_as (a : FdAdapterBase) (seg seg' : TCPSegment) : Prop :=
  (exists c, TCPSegment._header seg' = TCPHeader.set_cksum (TCPSegment._header (with_ports a seg)) c) /\
  str (TCPSegment._payload seg') = str (TCPSegment._payload seg).

(** [wire a o] is what the peer reads when [a] writes [o]. *)
Class Transport (A I O : Type) `{FdAdapter A I O} (wire : A -> O -> I) : Prop := {
  transport_delivers : forall a b seg,
    sendable (base a) seg -> peers (base a) (base b) seg ->
    exists a' out seg1 b' seg',
      write seg a = (a', [out], Ok seg1) /\ read (wire a out) b = (b', [], Ok (Some seg')) /\
      received_as (base a) seg seg' /\
      _listen (base b') = false /\ destination (_cfg (base b')) = source (_cfg (base a));
  transport_keeps_loss : forall i a a' out r,
    read i a = (a', out, r) -> loss_rate_dn (_cfg (base a')) = loss_rate_dn (_cfg (base a))
}.

Lemma with_ports_ok b seg :
  sendable b seg -> TCPHeader.header_ok (TCPSegment._header (with_ports b seg)).
Proof. intros [[_ ?] [_ ?] [] _]. by split. Qed.

Lemma udp_delivers a b seg :
  sendable a seg -> peers a b seg ->
  exists out seg1 b' seg',
    udp_write seg a = (a, [out], Ok seg1) /\
    udp_read (source (_cfg a), concatenate (snd out)) b = (b', [], Ok (Some seg')) /\
    received_as a seg seg' /\ _listen b' = false /\ destination (_cfg b') = source (_cfg a).
Proof.
  intros Hs Hp. pose proof (send_size _ _ Hs) as Hsz.
  destruct (parse_serialize_segment (with_ports a seg) default_segment 0) as (bl & c & E & Hl & Hr);
    [by apply with_ports_ok | lia | cbn; lia |].
  destruct (Hr (buf_of_string (concatenate bl))) as (seg' & Ep & Hh & Hpay);
    [apply buf_of_string_wf; rewrite Hl; cbn; lia | done |].
  assert (received_as a seg seg') as Hra by (split; [by eexists | done]).
  unfold udp_write. rewrite E. unfold peers in Hp. exists (destination (_cfg a), bl), (with_ports a seg).
  unfold udp_read. cbn [fst snd]. rewrite Ep. destruct (_listen b) eqn:El; cbn [negb andb].
  - destruct Hp as (_ & Hsyn & Hrst). rewrite (bool_decide_true (NoError = NoError)) by done. cbn [negb].
    rewrite Hh. cbn [syn rst TCPHeader.set_cksum with_ports set_header set_ports TCPSegment._header].
    rewrite Hsyn, Hrst. cbn [negb andb]. do 2 eexists. split; [done|]. split; [done|]. by split.
  - destruct Hp as [Hsrc Hdst]. rewrite !bool_decide_true by congruence. cbn [negb].
    do 2 eexists. split; [done|]. split; [done|]. by split.
Qed.

(** The pseudo-header sum is far from the 32-bit limit. *)
Lemma pseudo_cksum_bound h :
  0 <= IPv4Header.src h < 2 ^ 32 -> 0 <= IPv4Header.dst h < 2 ^ 32 -> 0 <= proto h < 2 ^ 8 ->
  0 <= pseudo_cksum h <= 2 ^ 19.
Proof.
  intros Hs Hd Hp. unfold pseudo_cksum. cbv zeta.
  change 65535 with (Z.ones 16). rewrite !Z.land_ones, !Z.shiftr_div_pow2 by lia.
  assert (0 <= payload_length h < 2 ^ 16) as Hl by (apply Z.mod_pos_bound; lia).
  set (pl := payload_length h) in *. clearbody pl.
  assert (forall z, 0 <= z < 2 ^ 32 -> 0 <= z / 2 ^ 16 + z mod 2 ^ 16 <= 131070) as Hw
    by (intros z Hz; Z.to_euclidean_division_equations; lia).
  specialize (Hw _ Hs) as Hs'. specialize (Hw _ Hd) as Hd'.
  rewrite (u32_small (_ / _ + _)) by lia. rewrite (u32_small (_ + (_ + _))) by lia.
  rewrite (u32_small (_ + proto h)) by lia. rewrite u32_small; lia.
Qed.

(** A wrapped segment is a datagram that can be sent, and unwraps to itself. *)
Lemma wrap_spec a seg :
  sendable a seg ->
  exists payload,
    wrap_tcp_in_ip seg a =
      Ok (mkIPv4Datagram (ip_header_for (with_ports a seg) a) payload, with_ports a seg) /\
    datagram_ok (mkIPv4Datagram (ip_header_for (with_ports a seg) a) payload) /\
    forall b, buf_wf b -> str b = concatenate payload ->
    exists seg', TCPSegment.parse default_segment b (pseudo_cksum (ip_header_for (with_ports a seg) a))
                   = (seg', NoError) /\ received_as a seg seg'.
Proof.
  intros Hs. destruct (Hs) as [[Hsrc _] [Hdst _] Hh Hsz]. set (h := ip_header_for (with_ports a seg) a).
  pose proof (pseudo_cksum_bound h Hsrc Hdst ltac:(done)) as Hps.
  destruct (parse_serialize_segment (with_ports a seg) default_segment (pseudo_cksum h))
    as (bl & c & E & Hl & Hr); [by apply with_ports_ok | done | cbn; lia |].
  exists bl. unfold wrap_tcp_in_ip. fold h. rewrite E. split; [done|]. split.
  - pose proof (ok_doff _ Hh) as Hdo. unfold size in *.
    pose proof (Zlen_nonneg (str (TCPSegment._payload seg))) as Hn.
    assert (len h = 20 + doff (TCPSegment._header seg) * 4 + Zlen (str (TCPSegment._payload seg))) as Elen
      by (unfold h, ip_header_for; cbn; apply u16_small; unfold size; lia).
    split; cbn [IPv4Datagram._header IPv4Datagram._payload].
    + split; try done; try (rewrite Elen; change (hlen h) with 5; lia).
    + rewrite Elen, Hl. change (hlen h) with 5. cbn. unfold size. lia.
  - intros b Hb Eb. destruct (Hr b Hb Eb) as (seg' & Ep & Hh' & Hp'). exists seg'.
    split; [exact Ep|]. split; [by eexists | exact Hp'].
Qed.

(** The checks of [unwrap_tcp_in_ip] pass between peers. *)
Lemma unwrap_segment_peers a b seg seg' d :
  peers a b seg -> received_as a seg seg' ->
  IPv4Header.src (IPv4Datagram._header d) = ipv4_numeric (source (_cfg a)) ->
  IPv4Header.dst (IPv4Datagram._header d) = ipv4_numeric (destination (_cfg a)) ->
  exists b', unwrap_segment d seg' b = (b', Ok (Some seg')) /\ _listen b' = false /\
    source (_cfg b') = destination (_cfg a) /\ destination (_cfg b') = source (_cfg a).
Proof.
  intros Hp [(c & Hh) _] Hs Hd. unfold unwrap_segment, peers in *. rewrite Hh.
  cbn [sport dport syn rst TCPHeader.set_cksum with_ports set_header set_ports TCPSegment._header].
  destruct (_listen b) eqn:El.
  - destruct Hp as (Hport & Hsyn & Hrst). rewrite Hport, Z.eqb_refl, Hsyn, Hrst. cbn.
    rewrite Z.eqb_refl. cbn. eexists. split; [done|]. cbn. rewrite Hs, Hd.
    by destruct (source (_cfg a)), (destination (_cfg a)).
  - destruct Hp as [Hsrc Hdst]. rewrite Hsrc, Hdst, !Z.eqb_refl. cbn. by eexists.
Qed.

Lemma unwrap_peers a b seg d buffer seg' :
  peers a b seg -> received_as a seg seg' ->
  IPv4Header.src (IPv4Datagram._header d) = ipv4_numeric (source (_cfg a)) ->
  IPv4Header.dst (IPv4Datagram._header d) = ipv4_numeric (destination (_cfg a)) ->
  proto (IPv4Datagram._header d) = PROTO_TCP ->
  IPv4Datagram._payload d = bl_of_buffer buffer ->
  TCPSegment.parse default_segment buffer (pseudo_cksum (IPv4Datagram._header d)) = (seg', NoError) ->
  exists b', unwrap_tcp_in_ip d b = (b', Ok (Some seg')) /\ _listen b' = false /\
    source (_cfg b') = destination (_cfg a) /\ destination (_cfg b') = source (_cfg a).
Proof.
  intros Hp Hra Hs Hd Hproto Hpay Epar.
  destruct (unwrap_segment_peers a b seg seg' d Hp Hra Hs Hd) as (b' & Eu & Hb').
  exists b'. split; [|done]. unfold unwrap_tcp_in_ip. rewrite Hproto, Z.eqb_refl, Hpay.
  cbn [bl_to_buffer bl_of_buffer negb]. rewrite Epar, Eu. unfold peers in Hp.
  destruct (_listen b); cbn [negb andb]; [done|]. destruct Hp as [Hsrc Hdst].
  by rewrite Hs, Hd, Hsrc, Hdst, !Z.eqb_refl.
Qed.

Lemma tun_delivers a b seg :
  sendable a seg -> peers a b seg ->
  exists out seg1 b' seg',
    tun_write seg a = (a, [out], Ok seg1) /\ tun_read (concatenate out) b = (b', [], Ok (Some seg')) /\
    received_as a seg seg' /\ _listen b' = false /\
    source (_cfg b') = destination (_cfg a) /\ destination (_cfg b') = source (_cfg a).
Proof.
  intros Hs Hp. destruct (wrap_spec a seg Hs) as (payload & Ew & Hd & Hr).
  set (h := ip_header_for (with_ports a seg) a) in *.
  destruct (IPv4Datagram.datagram_parse_serialize _ default_datagram Hd) as (bl & c & Es & Hl & Hparse).
  destruct (Hparse (buf_of_string (concatenate bl))) as (_ & d' & Ep & Hh & Hc & buffer & Hb & Hwf);
    [apply buf_of_string_wf; rewrite Hl; pose proof (ok_len _ (ok_header _ Hd)); lia | done |].
  cbn [IPv4Datagram._header IPv4Datagram._payload] in *.
  destruct (Hr buffer Hwf) as (seg' & Eseg & Hra).
  { rewrite <- Hc, Hb. unfold bl_of_buffer, concatenate. cbn. by rewrite app_nil_r. }
  destruct (unwrap_peers a b seg d' buffer seg' Hp Hra) as (b' & Eu & Hb');
    [by rewrite Hh | by rewrite Hh | by rewrite Hh | done | by rewrite Hh |].
  exists bl, (with_ports a seg), b', seg'. unfold tun_write. rewrite Ew, Es.
  split; [done|]. unfold tun_read. rewrite Ep. cbn [negb bool_decide]. rewrite Eu. done.
Qed.

Lemma udp_read_keeps_loss i b b' out r :
  udp_read i b = (b', out, r) -> loss_rate_dn (_cfg b') = loss_rate_dn (_cfg b).
Proof.
  unfold udp_read. destruct (TCPSegment.parse _ _ _) as [seg res].
  repeat case_match; intros [= <- <- <-]; done.
Qed.

Lemma unwrap_segment_keeps_loss d seg b b' r :
  unwrap_segment d seg b = (b', r) -> loss_rate_dn (_cfg b') = loss_rate_dn (_cfg b).
Proof. unfold unwrap_segment. cbv zeta. repeat case_match; intros [= <- <-]; done. Qed.

Lemma unwrap_keeps_loss d b b' r :
  unwrap_tcp_in_ip d b = (b', r) -> loss_rate_dn (_cfg b') = loss_rate_dn (_cfg b).
Proof.
  unfold unwrap_tcp_in_ip. destruct (bl_to_buffer _) as [buffer|e].
  - destruct (TCPSegment.parse _ _ _) as [seg res].
    repeat case_match; try (intros [= <- <-]; done). apply unwrap_segment_keeps_loss.
  - repeat case_match; intros [= <- <-]; done.
Qed.

Lemma tun_read_keeps_loss i b b' out r :
  tun_read i b = (b', out, r) -> loss_rate_dn (_cfg b') = loss_rate_dn (_cfg b).
Proof.
  unfold tun_read. destruct (IPv4Datagram.parse _ _) as [d res].
  case_match; [intros [= <- <- <-]; done|].
  destruct (unwrap_tcp_in_ip d b) as [b1 o] eqn:E. intros [= <- <- <-]. by eapply unwrap_keeps_loss.
Qed.

Definition udp_wire (a : FdAdapterBase) (o : Address * BufferList) : Address * list byte :=
  (source (_cfg a), concatenate (snd o)).
Definition tun_wire (a : FdAdapterBase) (o : BufferList) : list byte := concatenate o.

#[global] Instance udp_transport : Transport FdAdapterBase (Address * list byte) (Address * BufferList) udp_wire.
Proof.
  split.
  - intros a b seg Hs Hp. destruct (udp_delivers a b seg Hs Hp) as (out & seg1 & b' & seg' & H').
    by exists a, out, seg1, b', seg'.
  - exact udp_read_keeps_loss.
Qed.

#[global] Instance tun_transport : Transport FdAdapterBase (list byte) BufferList tun_wire.
Proof.
  split.
  - intros a b seg Hs Hp.
    destruct (tun_delivers a b seg Hs Hp) as (out & seg1 & b' & seg' & H1 & H2 & H3 & H4 & _ & H5).
    by exists a, out, seg1, b', seg'.
  - exact tun_read_keeps_loss.
Qed.

Section LossyTransport.
Context {A I O : Type} {wire : A -> O -> I} `{Transport A I O wire}.

(** The lossy adapter adds loss and nothing else, over any adapter that
    keeps the transport contract: with zero loss rates a segment written on
    one side is read on the other exactly as over the underlying adapters,
    and no random number is drawn; and whatever the rates, a read returns
    what the underlying adapter returns or nothing, and a write either is the
    underlying write or writes nothing. *)
Theorem lossy_transport (la lb : LossyFdAdapter A) seg :
  sendable (base (_adapter la)) seg -> peers (base (_adapter la)) (base (_adapter lb)) seg ->
  (loss_rate_up (_cfg (base (_adapter la))) = 0 -> loss_rate_dn (_cfg (base (_adapter lb))) = 0 ->
   exists la' out seg1 lb' seg',
     lossy_write seg la = (la', [out], Ok seg1) /\
     lossy_read (wire (_adapter la) out) lb = (lb', [], Ok (Some seg')) /\
     received_as (base (_adapter la)) seg seg' /\ _drawn la' = _drawn la /\ _drawn lb' = _drawn lb) /\
  (forall i, snd (lossy_read i lb) = snd (read i (_adapter lb)) \/ snd (lossy_read i lb) = Ok None) /\
  (snd (fst (lossy_write seg la)) = snd (fst (write seg (_adapter la))) \/
   snd (fst (lossy_write seg la)) = []).
Proof.
  intros Hs Hp. split; [|split].
  - intros Hup Hdn.
    destruct (transport_delivers (_adapter la) (_adapter lb) seg Hs Hp)
      as (a' & out & seg1 & b' & seg' & Ew & Er & Hra & _).
    exists (with_adapter a' la), out, seg1, (with_adapter b' lb), seg'.
    unfold lossy_write, _should_drop, config. rewrite Hup. cbn [Z.eqb]. rewrite Ew. split; [done|].
    unfold lossy_read, _should_drop, config. rewrite Er. cbn [_adapter with_adapter].
    rewrite (transport_keeps_loss _ _ _ _ _ Er), Hdn. done.
  - intros i. unfold lossy_read, _should_drop. destruct (read i (_adapter lb)) as [[b' out] [ret|e]]; [|by left].
    destruct (_ =? 0); [by left|]. destruct (_ <? _); [by right | by left].
  - unfold lossy_write, _should_drop. destruct (_ =? 0); [|destruct (_ <? _); [by right|]];
      destruct (write seg (_adapter la)) as [[a' out] o] eqn:E; left; cbn; by rewrite ?E.
Qed.
End LossyTransport.

(** A segment crosses the network: between two TUN adapters that are
    connected, or of which the receiver listens on the destination port and
    the segment is a SYN, a segment wrapped in TCP and IPv4 headers with both
    checksums, written as bytes, parsed at both layers and filtered arrives
    as sent (ports set, checksum filled in, payload unchanged); afterwards the
    receiver is connected to the sender. *)
Theorem segment_crosses_tun a b seg :
  sendable a seg -> peers a b seg ->
  exists out seg1 b' seg',
    tun_write seg a = (a, [out], Ok seg1) /\ tun_read (concatenate out) b = (b', [], Ok (Some seg')) /\
    received_as a seg seg' /\ _listen b' = false /\
    source (_cfg b') = destination (_cfg a) /\ destination (_cfg b') = source (_cfg a).
Proof. apply tun_delivers. Qed.

(** The filter of [unwrap_tcp_in_ip]: a segment that gets through comes, by
    its addresses and ports, from the configured peer to the configured
    source, of which a listening adapter has just learnt the peer from a SYN;
    and the adapter's configuration is otherwise never changed by incoming
    datagrams. *)
Theorem unwrap_filter d b b' seg :
  unwrap_tcp_in_ip d b = (b', Ok (Some seg)) ->
  let h := IPv4Datagram._header d in
  let t := TCPSegment._header seg in
  _listen b' = false /\ proto h = PROTO_TCP /\
  dport t = port (source (_cfg b')) /\ sport t = port (destination (_cfg b')) /\
  IPv4Header.dst h = ipv4_numeric (source (_cfg b')) /\
  IPv4Header.src h = ipv4_numeric (destination (_cfg b')) /\
  (if _listen b then syn t = true /\ rst t = false else b' = b).
Proof.
  unfold unwrap_tcp_in_ip. cbv zeta. intros E.
  destruct (negb (_listen b) && negb (IPv4Header.dst _ =? _)) eqn:E1; [done|].
  destruct (negb (_listen b) && negb (IPv4Header.src _ =? _)) eqn:E2; [done|].
  destruct (negb (proto _ =? _)) eqn:E3; [done|]. bsplit.
  destruct (bl_to_buffer _) as [buffer|]; [|done].
  destruct (TCPSegment.parse _ _ _) as [seg0 r]. destruct (bool_decide (r = NoError)); cbn [negb] in E; [|done].
  unfold unwrap_segment in E. destruct (negb (dport _ =? _)) eqn:E4; [done|]. bsplit.
  destruct (_listen b) eqn:El; cbn [negb andb] in *.
  - destruct (syn _ && negb _) eqn:E5; [|done]. bsplit. cbn in E. rewrite Z.eqb_refl in E. cbn in E.
    injection E as <- <-. cbn. split_and!; done.
  - destruct (negb (sport _ =? _)) eqn:E5; [done|]. bsplit. injection E as <- <-. done.
Qed.

(** ** A client and a listening server, for the examples *)

Module Examples.
Definition client_addr : Address := mkAddress 2852032521 40000.   (** 169.254.144.9 *)
Definition server_addr : Address := mkAddress 3232235522 80.      (** 192.168.0.2 *)
Definition client : FdAdapterBase :=
  mkFdAdapterBase (mkFdAdapterConfig client_addr server_addr 0 0) false.
Definition server : FdAdapterBase :=
  mkFdAdapterBase (mkFdAdapterConfig (mkAddress 0 80) (mkAddress 0 0) 0 0) true.
Definition syn_seg : TCPSegment :=
  mkTCPSegment (set_syn TCPHeader.default_header true) (buf_of_string [x68; x69]).
End Examples.

Lemma syn_sendable : sendable Examples.client Examples.syn_seg.
Proof.
  split; [split; vm_compute; split; (reflexivity || discriminate)
         | split; vm_compute; split; (reflexivity || discriminate) | | vm_compute; discriminate].
  split; vm_compute; split; (reflexivity || discriminate).
Qed.

Lemma segment_crosses_tun_witness :
  exists out seg1 b' seg',
    tun_write Examples.syn_seg Examples.client = (Examples.client, [out], Ok seg1) /\
    tun_read (concatenate out) Examples.server = (b', [], Ok (Some seg')) /\
    received_as Examples.client Examples.syn_seg seg' /\ _listen b' = false /\
    source (_cfg b') = destination (_cfg Examples.client) /\
    destination (_cfg b') = source (_cfg Examples.client).
Proof.
  apply segment_crosses_tun; [exact syn_sendable | vm_compute; repeat split; reflexivity].
Defined.

Lemma lossy_transport_witness :
  let la := mkLossyFdAdapter Examples.client (fun _ => 0) 0 in
  let lb := mkLossyFdAdapter Examples.server (fun _ => 0) 0 in
  exists la' out seg1 lb' seg',
    lossy_write Examples.syn_seg la = (la', [out], Ok seg1) /\
    lossy_read (tun_wire (_adapter la) out) lb = (lb', [], Ok (Some seg')) /\
    received_as (base (_adapter la)) Examples.syn_seg seg' /\ _drawn la' = 0%nat /\ _drawn lb' = 0%nat.
Proof.
  cbv zeta. apply (lossy_transport (wire := tun_wire)
    (mkLossyFdAdapter Examples.client (fun _ => 0) 0) (mkLossyFdAdapter Examples.server (fun _ => 0) 0)
    Examples.syn_seg); [exact syn_sendable | vm_compute; repeat split; reflexivity | reflexivity | reflexivity].
Defined.

(** The bytes of the example, unwrapped by the listening server. *)
Lemma unwrap_filter_witness :
  exists d b' seg,
    fst (IPv4Datagram.parse default_datagram (buf_of_string (concatenate
      (match tun_write Examples.syn_seg Examples.client with (_, [o], _) => o | _ => [] end)))) = d /\
    unwrap_tcp_in_ip d Examples.server = (b', Ok (Some seg)) /\
    _listen b' = false /\ proto (IPv4Datagram._header d) = PROTO_TCP /\
    dport (TCPSegment._header seg) = port (source (_cfg b')).
Proof.
  eexists _, _, _. split; [vm_compute; reflexivity|]. split; [vm_compute; reflexivity|].
  match goal with |- _listen ?b' = false /\ proto (IPv4Datagram._header ?d) = _ /\ dport (TCPSegment._header ?s) = _ =>
    destruct (unwrap_filter d Examples.server b' s) as (H1 & H2 & H3 & _); [vm_compute; reflexivity|] end.
  split; [exact H1|]. split; [exact H2 | exact H3].
Defined.
