(* ===== verification/SegmentStream.v ===== *)
(** * The contract between a sender and a receiver

    What the two endpoints of a connection promise each other about a segment:
    a byte stream [S], an initial sequence number and an absolute sequence
    number say what a segment must carry.  [TCPReceiver] assumes it of the
    segments that arrive, [TCPSender] guarantees it of those it queues. *)
From stdpp Require Import base tactics list numbers option.
From Stdlib Require Import ZArith Lia.
From S2P Require Import Prelude WrappingIntegers StreamReassembler Buffer TCPHeader TCPSegment.

(** The index in the stream of the first payload byte: SYN takes absolute number 0. *)
Definition stream_index (seg : TCPSegment) (a : Z) : Z :=
  a - (if syn (_header seg) then 0 else 1).

(** The segment with absolute sequence number [a] is an excerpt of the stream
    [S] of a sender whose initial sequence number is [isn]. *)
Record conveys (S : list byte) (isn : WrappingInt32) (a : Z) (seg : TCPSegment) : Prop := {
  cv_seqno : seqno (_header seg) = wrap a isn;
  cv_pos : if syn (_header seg) then a = 0 else 1 <= a;
  cv_data : slice S (stream_index seg a) (str (_payload seg));
  cv_fin : fin (_header seg) = true -> stream_index seg a + size (_payload seg) = Zlen S
}.

(** An empty segment that precedes SYN: it carries nothing. *)
Definition vacant (isn : WrappingInt32) (seg : TCPSegment) : Prop :=
  seqno (_header seg) = wrap 0 isn /\ syn (_header seg) = false /\ fin (_header seg) = false /\
  str (_payload seg) = [].

Lemma conveys_index S isn a seg : conveys S isn a seg -> 0 <= stream_index seg a <= a.
Proof. intros [_ H _ _]. unfold stream_index. destruct (syn _); lia. Qed.

Lemma slice_end S i d : slice S i d -> d <> [] -> i + Zlen d <= Zlen S.
Proof.
  intros [Hi H] Hd. destruct (decide (length d = 0%nat)) as [E|E]; [by apply length_zero_iff_nil in E|].
  pose proof (H (length d - 1)%nat ltac:(unfold Zlen; lia)) as Hl.
  apply lookup_lt_Some in Hl. unfold Zlen in *. lia.
Qed.

Lemma slice_nil S i : 0 <= i -> slice S i [].
Proof. intros Hi. split; [done|]. intros k. rewrite (@Zlen_nil byte). lia. Qed.

Lemma slice_app S i d e : slice S i (d ++ e) <-> slice S i d /\ slice S (i + Zlen d) e.
Proof.
  unfold slice. rewrite Zlen_app. pose proof (Zlen_nonneg d). pose proof (Zlen_nonneg e). split.
  - intros [Hi H']. split; (split; [lia|]); intros k Hk.
    + rewrite H' by lia. unfold Zlen in Hk. rewrite lookup_total_app_l by lia. done.
    + replace (Z.to_nat (i + Zlen d) + k)%nat with (Z.to_nat i + (length d + k))%nat
        by (unfold Zlen; lia).
      rewrite H' by (unfold Zlen in *; lia). by rewrite lookup_total_app_r, Nat.add_comm, Nat.add_sub by lia.
  - intros [[Hi H1] [_ H2]]. split; [done|]. intros k Hk.
    destruct (decide (Z.of_nat k < Zlen d)) as [Hkd|Hkd].
    + rewrite H1 by done. unfold Zlen in Hkd. rewrite lookup_total_app_l by lia. done.
    + unfold Zlen in *. specialize (H2 (k - length d)%nat ltac:(lia)).
      replace (Z.to_nat (i + Z.of_nat (length d)) + (k - length d))%nat with (Z.to_nat i + k)%nat in H2 by lia.
      rewrite H2. rewrite lookup_total_app_r by lia. done.
Qed.

Lemma slice_grow S T i d : slice S i d -> slice (S ++ T) i d.
Proof. intros [Hi H]. split; [done|]. intros k Hk. apply lookup_app_l_Some. by apply H. Qed.
