(* ===== verification/TCPReceiver.v ===== *)
(** * The TCP receiver

    Models [src/libsponge/tcp_receiver.hh] and [tcp_receiver.cc]: it unwraps
    the sequence numbers of the segments that arrive, feeds the reassembler,
    and computes the acknowledgment number and the window. *)
From stdpp Require Import base tactics list numbers option.
From Stdlib Require Import ZArith Lia.
From S2P Require Import Prelude WrappingIntegers ByteStream StreamReassembler Buffer TCPHeader.
From S2P Require Import TCPSegment SegmentStream.

Record TCPReceiver := mkTCPReceiver {
  _reassembler : StreamReassembler;
  _capacity : Z;
  isn : WrappingInt32;
  recievedSYN : bool;
  recievedFIN : bool
}.

Definition new (capacity : Z) : TCPReceiver :=
  mkTCPReceiver (StreamReassembler.new capacity) capacity (mkWrappingInt32 0) false false.

Definition stream_out (r : TCPReceiver) : ByteStream := StreamReassembler.stream_out (_reassembler r).

(** Work on the inbound stream through the non-const [stream_out()]. *)
Definition set_stream_out (r : TCPReceiver) (s : ByteStream) : TCPReceiver :=
  mkTCPReceiver (set_output (_reassembler r) s) (_capacity r) (isn r) (recievedSYN r) (recievedFIN r).

Definition segment_received (r : TCPReceiver) (seg : TCPSegment) : TCPReceiver :=
  let h := _header seg in
  if negb (recievedSYN r) && negb (syn h) then r
  else
    let r1 :=
      if syn h
      then mkTCPReceiver (_reassembler r) (_capacity r) (seqno h) true (recievedFIN r)
      else r in
    let r2 :=
      if fin h
      then mkTCPReceiver (_reassembler r1) (_capacity r1) (isn r1) (recievedSYN r1) true
      else r1 in
    let abs_seqno := unwrap (seqno h) (isn r2) (bytes_written (stream_out r2)) in
    mkTCPReceiver
      (push_substring (_reassembler r2) (copy (_payload seg))
         (u64 (abs_seqno - (if syn h then 0 else 1))) (fin h))
      (_capacity r2) (isn r2) (recievedSYN r2) (recievedFIN r2).

(** Each addition converts its right operand to [uint32_t]. *)
Definition ackno (r : TCPReceiver) : option WrappingInt32 :=
  if recievedSYN r then
    Some (wi_add (wi_add (wi_add (isn r) (bytes_written (stream_out r))) (b2i (recievedSYN r)))
            (if empty (_reassembler r) then b2i (recievedFIN r) else 0))
  else None.

Definition window_size (r : TCPReceiver) : Z := remaining_capacity (stream_out r).
Definition unassembled_bytes (r : TCPReceiver) : Z :=
  StreamReassembler.unassembled_bytes (_reassembler r).

(** SYN with data, then a FIN segment, then a read. *)
Example receive_two :
  let seg1 := mkTCPSegment (set_syn (set_seqno default_header (mkWrappingInt32 4294967295)) true)
                (buf_of_string [x61; x62]) in
  let seg2 := mkTCPSegment (set_fin (set_seqno default_header (mkWrappingInt32 2)) true)
                (buf_of_string [x63]) in
  let r := segment_received (segment_received (new 10) seg1) seg2 in
  (ackno r, window_size r, contents (stream_out r), eof (fst (read (stream_out r) 9)))
  = (Some (mkWrappingInt32 4), 7, [x61; x62; x63], true).
Proof. reflexivity. Qed.

(** ** Properties *)

(** The stream index is close enough to the receiver's position to be unwrapped. *)
Definition near (r : TCPReceiver) (a : Z) : Prop :=
  - 2 ^ 31 <= a - bytes_written (stream_out r) < 2 ^ 31.

(** A FIN that fits the window, and that carries data or finds all of it delivered. *)
Definition fin_ok (S : list byte) (r : TCPReceiver) (seg : TCPSegment) : Prop :=
  fin (_header seg) = true ->
  (str (_payload seg) <> [] \/ Zlen S <= bytes_written (stream_out r)) /\
  Zlen S <= bytes_written (stream_out r) + window_size r.

(** The states of a receiver of capacity [c] to which segments of the stream
    [S] (and empty segments from before SYN) are delivered in any order and
    multiplicity, with reads in between. *)
Inductive reach (honest : Prop) (S : list byte) (i : WrappingInt32) (c : Z) : TCPReceiver -> Prop :=
  | reach_new : reach honest S i c (new c)
  | reach_segment r seg a :
      reach honest S i c r -> conveys S i a seg -> near r a -> (honest -> fin_ok S r seg) ->
      reach honest S i c (segment_received r seg)
  | reach_read r n :
      reach honest S i c r -> 0 <= n ->
      reach honest S i c (set_stream_out r (fst (ByteStream.read (stream_out r) n)))
  | reach_vacant r seg :
      reach honest S i c r -> vacant i seg -> near r 0 -> reach honest S i c (segment_received r seg)
  | reach_error r :
      reach honest S i c r -> reach honest S i c (set_stream_out r (set_error (stream_out r))).

Lemma written_checkpoint r : settled r -> checkpoint_ok (bytesWritten (_output r)).
Proof.
  intros [[Ho _ _ _ _ _] _]. pose proof (wf_written_bound _ Ho). unfold checkpoint_ok. lia.
Qed.

(** The index passed to the reassembler is the segment's index in the stream. *)
Lemma segment_index S i a seg r :
  settled r -> conveys S i a seg -> - 2 ^ 31 <= a - bytesWritten (_output r) < 2 ^ 31 ->
  u64 (unwrap (seqno (_header seg)) i (bytesWritten (_output r))
       - (if syn (_header seg) then 0 else 1)) = stream_index seg a.
Proof.
  intros Hs Hcv Hn. pose proof (written_checkpoint r Hs) as Hck.
  pose proof (conveys_index _ _ _ _ Hcv) as Hix. rewrite (cv_seqno _ _ _ _ Hcv).
  rewrite unwrap_near by (done || lia). apply u64_small. unfold stream_index, checkpoint_ok in *. lia.
Qed.

(** What happens to the parts of the receiver when a segment of the stream arrives. *)
Lemma segment_received_synced S i a seg r :
  valid i -> settled (_reassembler r) -> conveys S i a seg -> near r a ->
  (recievedSYN r = true -> isn r = i) -> recievedSYN r || syn (_header seg) = true ->
  segment_received r seg =
    mkTCPReceiver
      (push_substring (_reassembler r) (str (_payload seg)) (stream_index seg a) (fin (_header seg)))
      (_capacity r) i true (recievedFIN r || fin (_header seg)).
Proof.
  intros Hi Hs Hcv Hn Hisn Hsyn. unfold segment_received.
  rewrite <- negb_orb, Hsyn. cbn [negb].
  pose proof (segment_index S i a seg (_reassembler r) Hs Hcv Hn) as Hx.
  pose proof (cv_seqno _ _ _ _ Hcv) as Hq. pose proof (cv_pos _ _ _ _ Hcv) as Hp.
  rewrite <- Hx. unfold stream_out, StreamReassembler.stream_out, bytes_written, copy.
  destruct r as [re cp i0 sy fi]. cbn [_reassembler _capacity isn recievedSYN recievedFIN] in *.
  destruct (syn (_header seg)).
  - assert (seqno (_header seg) = i) as ->.
    { rewrite Hq, Hp. apply wi_ext. rewrite wrap_raw. by apply u32_small. }
    destruct (fin (_header seg)); cbn; by rewrite ?orb_true_r, ?orb_false_r.
  - rewrite orb_false_r in Hsyn. subst sy. rewrite (Hisn eq_refl).
    destruct (fin (_header seg)); cbn; by rewrite ?orb_true_r, ?orb_false_r.
Qed.

Lemma segment_received_ignored r seg :
  recievedSYN r || syn (_header seg) = false -> segment_received r seg = r.
Proof. intros H. unfold segment_received. by rewrite <- negb_orb, H. Qed.

(** An arbitrary segment keeps the reassembler well formed and the flags of the stream. *)
Lemma segment_received_flags r seg :
  settled (_reassembler r) ->
  let r' := segment_received r seg in
  settled (_reassembler r') /\ error (stream_out r') = error (stream_out r) /\
  (input_ended (stream_out r) = true -> input_ended (stream_out r') = true) /\
  recievedSYN r' = recievedSYN r || syn (_header seg) /\
  (recievedSYN r' = false -> r' = r).
Proof.
  intros Hs. unfold segment_received. rewrite <- negb_orb.
  destruct (recievedSYN r || syn (_header seg)) eqn:E; cbn [negb];
    [|split_and!; try done; by apply orb_false_iff in E as [-> _]].
  unfold stream_out, StreamReassembler.stream_out. cbn [_reassembler recievedSYN].
  replace (_reassembler (if fin _ then _ else _)) with (_reassembler r)
    by (destruct (fin _), (syn _); done).
  match goal with |- context [recievedSYN (if ?b then ?y else ?z)] =>
    assert (recievedSYN (if b then y else z) = true) as Hsyn
      by (destruct (fin _), (syn _); rewrite ?orb_false_r in E; exact E || done) end.
  match goal with |- context [push_substring _ ?d ?x ?e] =>
    destruct (push_flags (_reassembler r) d x e Hs) as [Hf1 Hf2]; [apply u64_bound|];
    pose proof (push_settled (_reassembler r) d x e Hs) as Hs' end.
  split_and!; [apply Hs', u64_bound | done | done | exact Hsyn | rewrite Hsyn; done].
Qed.

Lemma segment_received_bytes_read r seg :
  settled (_reassembler r) -> bytes_read (stream_out (segment_received r seg)) = bytes_read (stream_out r).
Proof.
  intros Hs. unfold segment_received. destruct (_ && _); [done|].
  unfold stream_out, StreamReassembler.stream_out. cbn [_reassembler].
  replace (_reassembler (if fin _ then _ else _)) with (_reassembler r)
    by (destruct (fin _), (syn _); done).
  apply push_bytes_read; [done|apply u64_bound].
Qed.

(** Without FIN the inbound stream does not end. *)
Lemma segment_received_open r seg :
  settled (_reassembler r) -> _received_EOF (_reassembler r) = false -> fin (_header seg) = false ->
  let r' := segment_received r seg in
  input_ended (stream_out r') = input_ended (stream_out r) /\ _received_EOF (_reassembler r') = false.
Proof.
  intros Hs He Hf. unfold segment_received. destruct (_ && _); [done|]. rewrite Hf.
  unfold stream_out, StreamReassembler.stream_out. cbn [_reassembler].
  replace (_reassembler (if syn _ then _ else _)) with (_reassembler r) by (by destruct (syn _)).
  apply push_open; [done|apply u64_bound|done].
Qed.

(** An empty segment from before SYN pushes nothing, beyond every window. *)
Lemma segment_received_vacant i seg r :
  settled (_reassembler r) -> vacant i seg -> near r 0 ->
  (recievedSYN r = true -> isn r = i) -> recievedSYN r = true ->
  segment_received r seg =
    mkTCPReceiver (push_substring (_reassembler r) [] (2 ^ 64 - 1) false) (_capacity r) i true (recievedFIN r).
Proof.
  intros Hs (Hq & Hsyn & Hfin & Hd) Hn Hisn Hr. unfold segment_received, copy.
  rewrite Hr, Hsyn, Hfin, Hd, Hq, (Hisn Hr). cbn [negb andb].
  unfold near, stream_out, bytes_written, StreamReassembler.stream_out in *.
  rewrite unwrap_near by (done || lia || by apply written_checkpoint). by rewrite Hr.
Qed.

Section OnStream.
Context (S : list byte) (i : WrappingInt32) (c : Z).
Context (Hi : valid i) (Hc : 0 <= c < 2 ^ 32) (HS : Zlen S < 2 ^ 32).

(** The end of a segment's data is a valid [uint64_t]. *)
Lemma segment_end r a seg :
  settled (_reassembler r) -> conveys S i a seg -> near r a ->
  stream_index seg a + Zlen (str (_payload seg)) < 2 ^ 64.
Proof.
  intros Hs Hcv Hn. pose proof (written_checkpoint _ Hs) as Hck. unfold checkpoint_ok in Hck.
  pose proof (conveys_index _ _ _ _ Hcv). destruct Hcv as [_ _ Hd He].
  destruct (decide (str (_payload seg) = [])) as [E|E].
  - rewrite E, (@Zlen_nil byte).
    unfold near, stream_out, bytes_written, StreamReassembler.stream_out in Hn. lia.
  - pose proof (slice_end _ _ _ Hd E). lia.
Qed.

(** The receiver runs its reassembler on the stream, with the peer's initial
    sequence number once SYN has arrived. *)
Lemma reach_reassembler honest r :
  reach honest S i c r ->
  StreamReassembler.reach honest S c (_reassembler r) /\ (recievedSYN r = true -> isn r = i).
Proof.
  induction 1 as [|r seg a _ [IH Hisn] Hcv Hn Hf|r n _ [IH Hisn] Hn|r seg _ [IH Hisn] Hv Hn|r _ [IH Hisn]].
  - split; [constructor|done].
  - destruct (recievedSYN r || syn (_header seg)) eqn:E.
    + destruct (reach_ended _ _ _ _ Hc IH) as [Hs _].
      rewrite (segment_received_synced S i a) by done. split; [|done].
      pose proof (segment_end r a seg Hs Hcv Hn). destruct Hcv as [_ _ Hd He].
      apply StreamReassembler.reach_push; [done..|].
      intros Hh Hfin. destruct (Hf Hh Hfin) as [Ho Hw]. split; [by apply He|].
      destruct Ho as [?|Ho]; [by left|right].
      specialize (He Hfin). pose proof (Zlen_nonneg (str (_payload seg))).
      unfold size in He. unfold stream_out in Ho. lia.
    + by rewrite segment_received_ignored.
  - split; [|done]. by apply StreamReassembler.reach_read.
  - destruct (recievedSYN r) eqn:E.
    + destruct (reach_ended _ _ _ _ Hc IH) as [Hs _].
      rewrite (segment_received_vacant i) by (rewrite ?E; done). split; [|done].
      apply StreamReassembler.reach_push; [done|by apply slice_nil|done|done].
    + destruct Hv as (_ & Hsyn & _). rewrite segment_received_ignored by (rewrite E, Hsyn; done).
      by rewrite E.
  - split; [|done]. by apply StreamReassembler.reach_error.
Qed.

Lemma window_size_eq r :
  settled (_reassembler r) ->
  bytes_written (stream_out r) + window_size r =
    window_end (_reassembler r) (bytes_written (stream_out r)).
Proof.
  intros Hs. unfold window_size, window_end, stream_out, StreamReassembler.stream_out.
  rewrite remaining_capacity_eq by apply Hs. by rewrite (wf_cap (_reassembler r)) by apply Hs.
Qed.

(** With well-placed FINs the two records of the end of the stream agree. *)
Lemma reach_fin r :
  reach True S i c r -> recievedFIN r = _received_EOF (_reassembler r).
Proof.
  induction 1 as [|r seg a Hr IH Hcv Hn Hf|r n _ IH Hn|r seg Hr IH Hv Hn|r _ IH]; [done| |done| |done].
  2: { destruct (reach_reassembler _ _ Hr) as [Hre Hisn]. destruct (reach_ended _ _ _ _ Hc Hre) as [Hs _].
       destruct (recievedSYN r) eqn:E.
       - rewrite (segment_received_vacant i) by (rewrite ?E; done). cbn [recievedFIN _reassembler].
         rewrite push_received_EOF, IH by done. by rewrite orb_false_r.
       - destruct Hv as (_ & Hsyn & _). by rewrite segment_received_ignored by (rewrite E, Hsyn; done). }
  destruct (reach_reassembler _ _ Hr) as [Hre Hisn].
  destruct (recievedSYN r || syn (_header seg)) eqn:E; [|by rewrite segment_received_ignored].
  destruct (reach_ended _ _ _ _ Hc Hre) as [Hs _].
  rewrite (segment_received_synced S i a) by done. cbn [recievedFIN _reassembler].
  pose proof (conveys_index _ _ _ _ Hcv). pose proof (segment_end r a seg Hs Hcv Hn).
  pose proof (Zlen_nonneg (str (_payload seg))).
  rewrite push_received_EOF, IH, u64_small by (done || lia). f_equal.
  destruct (fin (_header seg)) eqn:F; [|done]. symmetry. apply Z.eqb_eq, Z.min_r.
  destruct (Hf I F) as [_ Hw]. rewrite window_size_eq in Hw by done.
  pose proof (cv_fin _ _ _ _ Hcv F). unfold size in *.
  unfold bytes_written, stream_out, StreamReassembler.stream_out in Hw. lia.
Qed.

Lemma ackno_wrap r :
  recievedSYN r = true -> isn r = i ->
  ackno r = Some (wrap (1 + bytes_written (stream_out r)
                        + b2i (recievedFIN r && empty (_reassembler r))) i).
Proof.
  intros Hsyn Hisn. unfold ackno. rewrite Hsyn, Hisn, (wi_add_wrap i), !wrap_add. do 2 f_equal.
  destruct (empty _), (recievedFIN r); cbn [b2i andb]; lia.
Qed.

End OnStream.

(** C7. The receiver delivers the peer's stream.  However the network drops,
    repeats and reorders the segments of a stream [S] (shorter than [2^32]
    bytes), the bytes in the inbound stream are exactly those of [S] between
    the reader's and the writer's position, for every initial sequence number.
    If the FINs fit the window and are not empty segments ahead of the data,
    the inbound stream ends only when all of [S] has been delivered. *)
Theorem receiver_correct (honest : Prop) S i c r :
  valid i -> 0 <= c < 2 ^ 32 -> Zlen S < 2 ^ 32 -> reach honest S i c r ->
  contents (stream_out r) =
    zdrop (bytes_read (stream_out r)) (ztake (bytes_written (stream_out r)) S) /\
  (honest -> input_ended (stream_out r) = true -> bytes_written (stream_out r) = Zlen S).
Proof.
  intros Hi Hc HS Hr. destruct (reach_reassembler S i c Hi Hc HS honest r Hr) as [Hre _].
  exact (reach_observe honest S c _ Hc HS Hre).
Qed.

(** C14. The acknowledgment number and the window.  Before SYN there is no
    acknowledgment; afterwards, with well-placed FINs, [ackno] is the wrapped
    absolute number of the first byte not delivered (one more once the stream
    has ended), and the window is the capacity minus the bytes held for the
    reader. *)
Theorem ackno_correct S i c r :
  valid i -> 0 <= c < 2 ^ 32 -> Zlen S < 2 ^ 32 -> reach True S i c r ->
  ackno r =
    (if recievedSYN r
     then Some (wrap (1 + bytes_written (stream_out r) + b2i (input_ended (stream_out r))) i)
     else None) /\
  bytes_written (stream_out r) + window_size r =
    window_end (_reassembler r) (bytes_written (stream_out r)).
Proof.
  intros Hi Hc HS Hr. destruct (reach_reassembler S i c Hi Hc HS True r Hr) as [Hre Hisn].
  destruct (reach_ended _ _ _ _ Hc Hre) as [Hs _]. split; [|by apply window_size_eq].
  destruct (recievedSYN r) eqn:E; [|unfold ackno; by rewrite E].
  rewrite (ackno_wrap i) by auto. rewrite (reach_fin S i c Hi Hc HS r Hr).
  do 3 f_equal. symmetry. f_equal. by apply (reach_ended_iff S c).
Qed.

(** A FIN that overtakes the data is acknowledged over bytes that never
    arrived: when an empty segment with FIN reaches a synchronised receiver
    that holds nothing out of order, while the last bytes of the stream are
    still missing, the inbound stream ends with the bytes it has, and the
    acknowledgment number moves past the first missing byte. *)
Theorem fin_ahead_acked S i r seg a :
  valid i -> settled (_reassembler r) -> recievedSYN r = true -> isn r = i ->
  empty (_reassembler r) = true ->
  conveys S i a seg -> near r a ->
  fin (_header seg) = true -> str (_payload seg) = [] ->
  bytes_written (stream_out r) < Zlen S <= bytes_written (stream_out r) + window_size r ->
  let r' := segment_received r seg in
  ackno r' = Some (wrap (1 + bytes_written (stream_out r) + 1) i) /\
  input_ended (stream_out r') = true /\ contents (stream_out r') = contents (stream_out r).
Proof.
  intros Hi Hs Hsyn Hisn He Hcv Hn Hfin Hnil Hlen r'. pose proof (written_checkpoint _ Hs) as Hck.
  assert (r' = mkTCPReceiver (set_output (set_received_EOF (_reassembler r))
    (end_input (_output (_reassembler r)))) (_capacity r) i true true) as ->.
  { unfold r'. rewrite (segment_received_synced S i a) by (rewrite ?Hsyn; done).
    rewrite Hfin, Hnil, orb_true_r. f_equal. rewrite window_size_eq in Hlen by done.
    pose proof (cv_fin _ _ _ _ Hcv Hfin) as Hf. unfold size in Hf.
    rewrite Hnil, (@Zlen_nil byte), Z.add_0_r in Hf. pose proof (conveys_index _ _ _ _ Hcv).
    unfold near, checkpoint_ok, stream_out, bytes_written, StreamReassembler.stream_out in *.
    apply empty_eof_push; (done || lia). }
  split; [|done]. rewrite (ackno_wrap i) by done.
  cbn [recievedFIN _reassembler andb]. unfold empty in *. cbn in *. by rewrite He.
Qed.

(** ** Witnesses *)

Definition ex_isn : WrappingInt32 := mkWrappingInt32 4294967294.
Definition ex_seg (a : Z) (s f : bool) (d : list byte) : TCPSegment :=
  mkTCPSegment (set_fin (set_syn (set_seqno default_header (wrap a ex_isn)) s) f) (buf_of_string d).

(** SYN, the end of the stream, then the beginning twice, and a read. *)
Definition ex_receiver : TCPReceiver :=
  let r := segment_received (new 8) (ex_seg 0 true false []) in
  let r := segment_received r (ex_seg 4 false true [x64; x65]) in
  let r := segment_received r (ex_seg 1 false false [x61; x62; x63]) in
  let r := segment_received r (ex_seg 1 false false [x61; x62]) in
  set_stream_out r (fst (ByteStream.read (stream_out r) 2)).

Lemma ex_seg_conveys a (s f : bool) d :
  (if s then a = 0 else 1 <= a) ->
  ztake (Zlen d) (zdrop (a - (if s then 0 else 1)) ex_stream) = d ->
  (f = true -> a - (if s then 0 else 1) + Zlen d = 5) ->
  conveys ex_stream ex_isn a (ex_seg a s f d).
Proof.
  intros Ha Hd Hf. split; [done|done| |done]. apply slice_dec_ok; [|done].
  unfold stream_index. cbn. destruct s; lia.
Qed.

Lemma ex_receiver_reach : reach True ex_stream ex_isn 8 ex_receiver.
Proof.
  unfold ex_receiver. cbv zeta. apply reach_read; [|lia].
  repeat (eapply reach_segment; [|apply ex_seg_conveys; [lia|reflexivity|done || (intros [=])]
    |split; [vm_compute; discriminate | reflexivity]|]);
    [constructor| | | |]; intros _; unfold fin_ok; cbn [ex_seg _header fin set_fin set_syn]; try (intros [=]; fail).
  intros _. split; [left; discriminate | vm_compute; discriminate].
Qed.

Lemma receiver_correct_witness :
  contents (stream_out ex_receiver) =
    zdrop (bytes_read (stream_out ex_receiver)) (ztake (bytes_written (stream_out ex_receiver)) ex_stream) /\
  (True -> input_ended (stream_out ex_receiver) = true ->
   bytes_written (stream_out ex_receiver) = Zlen ex_stream).
Proof.
  apply (receiver_correct True ex_stream ex_isn 8);
    [vm_compute; split; (discriminate || reflexivity) | lia | reflexivity | apply ex_receiver_reach].
Defined.

Lemma ackno_correct_witness :
  ackno ex_receiver =
    (if recievedSYN ex_receiver
     then Some (wrap (1 + bytes_written (stream_out ex_receiver)
                      + b2i (input_ended (stream_out ex_receiver))) ex_isn)
     else None) /\
  bytes_written (stream_out ex_receiver) + window_size ex_receiver =
    window_end (_reassembler ex_receiver) (bytes_written (stream_out ex_receiver)).
Proof.
  apply (ackno_correct ex_stream ex_isn 8);
    [vm_compute; split; (discriminate || reflexivity) | lia | reflexivity | apply ex_receiver_reach].
Defined.

Lemma fin_ahead_acked_witness :
  let r := segment_received (new 8) (ex_seg 0 true false []) in
  let r' := segment_received r (ex_seg 6 false true []) in
  ackno r' = Some (wrap (1 + bytes_written (stream_out r) + 1) ex_isn) /\
  input_ended (stream_out r') = true /\ contents (stream_out r') = contents (stream_out r).
Proof.
  apply (fin_ahead_acked ex_stream ex_isn _ _ 6);
    [vm_compute; split; (discriminate || reflexivity) | | reflexivity | reflexivity | reflexivity
    | apply ex_seg_conveys; [lia | reflexivity | reflexivity]
    | split; [vm_compute; discriminate | reflexivity]
    | reflexivity | reflexivity | split; [reflexivity | vm_compute; discriminate]].
  apply push_settled; [by apply new_settled | vm_compute; discriminate].
Defined.

#[global] Arguments segment_received : simpl never.
