(* ===== verification/TCPSender.v ===== *)
(** * The TCP sender

    Models [src/libsponge/tcp_sender.hh] and [tcp_sender.cc], with the limits
    of [tcp_helpers/tcp_config.hh]: segmentation of the outbound stream within
    the peer's window, tracking of the segments in flight, acknowledgments and
    the retransmission timer.

    The properties relate a sender to the logical stream [S] that its writer
    provides: an invariant of every operation, and what it gives for the
    segments on the wire, the window, acknowledgments and retransmissions. *)
From stdpp Require Import base tactics list numbers option.
From Stdlib Require Import ZArith Lia.
From S2P Require Import Prelude WrappingIntegers ByteStream StreamReassembler Buffer TCPHeader.
From S2P Require Import TCPSegment SegmentStream.

(** Constants of [TCPConfig]. *)
Definition DEFAULT_CAPACITY : Z := 64000.
Definition MAX_PAYLOAD_SIZE : Z := 1000.
Definition TIMEOUT_DFLT : Z := 1000.
Definition MAX_RETX_ATTEMPTS : Z := 8.

Record OrderedSegment := mkOrderedSegment { _abs_seqno : Z; _seg : TCPSegment }.

(** The [priority_queue] with [comp]: an element with the smallest key is on
    top.  The list holds the elements in insertion order. *)
Fixpoint pq_top (q : list OrderedSegment) : option OrderedSegment :=
  match q with
  | [] => None
  | e :: q' =>
      match pq_top q' with
      | Some t => if _abs_seqno t <? _abs_seqno e then Some t else Some e
      | None => Some e
      end
  end.

(** Removal of the element on top. *)
Fixpoint pq_pop (q : list OrderedSegment) : list OrderedSegment :=
  match q with
  | [] => []
  | e :: q' =>
      match pq_top q' with
      | Some t => if _abs_seqno t <? _abs_seqno e then e :: pq_pop q' else q'
      | None => q'
      end
  end.

Definition pq_push (q : list OrderedSegment) (e : OrderedSegment) : list OrderedSegment := q ++ [e].

Record TCPSender := mkTCPSender {
  _isn : WrappingInt32;
  _segments_out : list TCPSegment;
  _initial_retransmission_timeout : Z;
  _stream : ByteStream;
  _next_seqno : Z;
  _segments_in_flight : list OrderedSegment;
  _syn : bool;
  _fin : bool;
  _is_timer_running : bool;
  _time_spent : Z;
  _rwnd : Z;
  _bytes_in_flight : Z;
  _checkpoint : Z;
  _n_consecutive_retransmissions : Z;
  _rto : Z
}.

(** The constructor; [random] is the value of [random_device()()]. *)
Definition new (capacity retx_timeout : Z) (fixed_isn : option WrappingInt32) (random : Z) : TCPSender :=
  mkTCPSender (default (mkWrappingInt32 random) fixed_isn) [] retx_timeout (ByteStream.new capacity)
    0 [] false false false 0 1 0 0 0 0.

Definition stream_in (s : TCPSender) : ByteStream := _stream s.
Definition bytes_in_flight (s : TCPSender) : Z := _bytes_in_flight s.
Definition consecutive_retransmissions (s : TCPSender) : Z := _n_consecutive_retransmissions s.
Definition segments_out (s : TCPSender) : list TCPSegment := _segments_out s.
Definition next_seqno_absolute (s : TCPSender) : Z := _next_seqno s.
Definition next_seqno (s : TCPSender) : WrappingInt32 := wrap (_next_seqno s) (_isn s).

(** Assignments to single members. *)
Definition set_stream (s : TCPSender) (v : ByteStream) : TCPSender :=
  mkTCPSender (_isn s) (_segments_out s) (_initial_retransmission_timeout s) v (_next_seqno s)
    (_segments_in_flight s) (_syn s) (_fin s) (_is_timer_running s) (_time_spent s) (_rwnd s)
    (_bytes_in_flight s) (_checkpoint s) (_n_consecutive_retransmissions s) (_rto s).
Definition set_segments_out (s : TCPSender) (v : list TCPSegment) : TCPSender :=
  mkTCPSender (_isn s) v (_initial_retransmission_timeout s) (_stream s) (_next_seqno s)
    (_segments_in_flight s) (_syn s) (_fin s) (_is_timer_running s) (_time_spent s) (_rwnd s)
    (_bytes_in_flight s) (_checkpoint s) (_n_consecutive_retransmissions s) (_rto s).
Definition set_syn_sent (s : TCPSender) : TCPSender :=
  mkTCPSender (_isn s) (_segments_out s) (_initial_retransmission_timeout s) (_stream s) (_next_seqno s)
    (_segments_in_flight s) true (_fin s) (_is_timer_running s) (_time_spent s) (_rwnd s)
    (_bytes_in_flight s) (_checkpoint s) (_n_consecutive_retransmissions s) (_rto s).
Definition set_fin_sent (s : TCPSender) : TCPSender :=
  mkTCPSender (_isn s) (_segments_out s) (_initial_retransmission_timeout s) (_stream s) (_next_seqno s)
    (_segments_in_flight s) (_syn s) true (_is_timer_running s) (_time_spent s) (_rwnd s)
    (_bytes_in_flight s) (_checkpoint s) (_n_consecutive_retransmissions s) (_rto s).
Definition set_rwnd (s : TCPSender) (v : Z) : TCPSender :=
  mkTCPSender (_isn s) (_segments_out s) (_initial_retransmission_timeout s) (_stream s) (_next_seqno s)
    (_segments_in_flight s) (_syn s) (_fin s) (_is_timer_running s) (_time_spent s) v
    (_bytes_in_flight s) (_checkpoint s) (_n_consecutive_retransmissions s) (_rto s).
Definition set_checkpoint (s : TCPSender) (v : Z) : TCPSender :=
  mkTCPSender (_isn s) (_segments_out s) (_initial_retransmission_timeout s) (_stream s) (_next_seqno s)
    (_segments_in_flight s) (_syn s) (_fin s) (_is_timer_running s) (_time_spent s) (_rwnd s)
    (_bytes_in_flight s) v (_n_consecutive_retransmissions s) (_rto s).
Definition set_flight (s : TCPSender) (q : list OrderedSegment) (n : Z) : TCPSender :=
  mkTCPSender (_isn s) (_segments_out s) (_initial_retransmission_timeout s) (_stream s) (_next_seqno s)
    q (_syn s) (_fin s) (_is_timer_running s) (_time_spent s) (_rwnd s)
    n (_checkpoint s) (_n_consecutive_retransmissions s) (_rto s).
Definition set_next_seqno (s : TCPSender) (v : Z) : TCPSender :=
  mkTCPSender (_isn s) (_segments_out s) (_initial_retransmission_timeout s) (_stream s) v
    (_segments_in_flight s) (_syn s) (_fin s) (_is_timer_running s) (_time_spent s) (_rwnd s)
    (_bytes_in_flight s) (_checkpoint s) (_n_consecutive_retransmissions s) (_rto s).
(** The members of the timer: running, time spent, retransmissions, timeout. *)
Definition set_timer (s : TCPSender) (running : bool) (spent retx rto : Z) : TCPSender :=
  mkTCPSender (_isn s) (_segments_out s) (_initial_retransmission_timeout s) (_stream s) (_next_seqno s)
    (_segments_in_flight s) (_syn s) (_fin s) running spent (_rwnd s)
    (_bytes_in_flight s) (_checkpoint s) retx rto.

Definition _send_segment (s : TCPSender) (new_segment : TCPSegment) : TCPSender :=
  let seg := set_header new_segment (set_seqno (_header new_segment) (next_seqno s)) in
  let len := length_in_sequence_space seg in
  let s := set_segments_out s (_segments_out s ++ [seg]) in
  let s := set_flight s (pq_push (_segments_in_flight s) (mkOrderedSegment (_next_seqno s) seg))
             (_bytes_in_flight s) in
  let s := set_next_seqno s (u64 (_next_seqno s + len)) in
  let s := set_flight s (_segments_in_flight s) (u64 (_bytes_in_flight s + len)) in
  if negb (_is_timer_running s)
  then set_timer s true 0 (_n_consecutive_retransmissions s) (_initial_retransmission_timeout s)
  else s.

(** The segment built by one iteration of the loop of [fill_window]: the
    payload read from the stream, FIN if it is the last one and it fits. *)
Definition fill_step (s : TCPSender) (n_bytes_can_send : Z) : TCPSender * Z :=
  let payload_size :=
    if n_bytes_can_send >? MAX_PAYLOAD_SIZE then MAX_PAYLOAD_SIZE else n_bytes_can_send in
  let '(stream, payload) := ByteStream.read (_stream s) payload_size in
  let s := set_stream s stream in
  let new_segment := set_payload default_segment (buf_of_string payload) in
  if eof (_stream s) && (n_bytes_can_send >? length_in_sequence_space new_segment) then
    let new_segment := set_header new_segment (set_fin (_header new_segment) true) in
    (_send_segment (set_fin_sent s) new_segment, u64 (u64 (n_bytes_can_send - 1) - payload_size))
  else
    (_send_segment s new_segment, u64 (n_bytes_can_send - payload_size)).

(** The [while] loop; [None] when the fuel does not suffice. *)
Fixpoint fill_loop (fuel : nat) (s : TCPSender) (n_bytes_can_send : Z) : option TCPSender :=
  match fuel with
  | O => None
  | S fuel' =>
      if (n_bytes_can_send >? 0) && negb (_fin s) then
        if negb (eof (_stream s)) && buffer_empty (_stream s) then Some s
        else
          let '(s', n') := fill_step s n_bytes_can_send in
          fill_loop fuel' s' n'
      else Some s
  end.

(** Each iteration that does not end the loop takes a byte from the stream. *)
Definition fill_fuel (s : TCPSender) : nat := Z.to_nat (buffer_size (_stream s)) + 2.

(** The sequence numbers that may be sent: [size_t] arithmetic. *)
Definition window_budget (s : TCPSender) : Z :=
  u64 ((if _rwnd s >? 0 then _rwnd s else 1) - u64 (_next_seqno s - _checkpoint s)).

Definition fill_window (s : TCPSender) : TCPSender :=
  if negb (_syn s) then
    let new_segment := set_header default_segment (set_syn default_header true) in
    set_syn_sent (_send_segment s new_segment)
  else
    default s (fill_loop (fill_fuel s) s (window_budget s)).

(** The loop of [ack_received] over the segments in flight; the fuel is their number. *)
Fixpoint ack_loop (fuel : nat) (abs_ackno : Z) (q : list OrderedSegment) (n : Z)
  : list OrderedSegment * Z :=
  match fuel with
  | O => (q, n)
  | S fuel' =>
      match pq_top q with
      | None => (q, n)
      | Some top_seg =>
          let len := length_in_sequence_space (_seg top_seg) in
          if u64 (_abs_seqno top_seg + len) <=? abs_ackno
          then ack_loop fuel' abs_ackno (pq_pop q) (u64 (n - len))
          else (q, n)
      end
  end.

Definition ack_received (s : TCPSender) (ackno : WrappingInt32) (window_size : Z) : TCPSender :=
  let abs_ackno := unwrap ackno (_isn s) (_checkpoint s) in
  let s := set_rwnd s window_size in
  if abs_ackno >? _next_seqno s then s
  else if abs_ackno <=? _checkpoint s then s
  else
    let s := set_checkpoint s abs_ackno in
    let '(q, n) := ack_loop (length (_segments_in_flight s)) abs_ackno (_segments_in_flight s)
                     (_bytes_in_flight s) in
    let s := set_flight s q n in
    let s :=
      match q with
      | [] => set_timer s (_is_timer_running s) (_time_spent s) 0 (_initial_retransmission_timeout s)
      | _ => set_timer s true 0 0 (_initial_retransmission_timeout s)
      end in
    fill_window s.

Definition tick (s : TCPSender) (ms_since_last_tick : Z) : TCPSender :=
  let s := set_timer s (_is_timer_running s) (u64 (_time_spent s + ms_since_last_tick))
             (_n_consecutive_retransmissions s) (_rto s) in
  let s :=
    match pq_top (_segments_in_flight s) with
    | Some top =>
        if _rto s <=? _time_spent s then
          let s := set_segments_out s (_segments_out s ++ [_seg top]) in
          if _rwnd s >? 0
          then set_timer s (_is_timer_running s) 0 (u32 (_n_consecutive_retransmissions s + 1))
                 (u32 (_rto s * 2))
          else set_timer s (_is_timer_running s) 0 (_n_consecutive_retransmissions s) (_rto s)
        else s
    | None => s
    end in
  match _segments_in_flight s with
  | [] => set_timer s false 0 (_n_consecutive_retransmissions s) (_rto s)
  | _ => s
  end.

Definition send_empty_segment (s : TCPSender) : TCPSender :=
  let new_segment :=
    set_header default_segment (set_seqno (_header default_segment) (next_seqno s)) in
  set_segments_out s (_segments_out s ++ [new_segment]).

(** A connection's worth of calls: SYN, its acknowledgment with window 3, four bytes and the end. *)
Example send_four :
  let s := fill_window (new 10 1000 (Some (mkWrappingInt32 7)) 0) in
  let s := set_stream s (end_input (fst (write (_stream s) [x61; x62; x63; x64]))) in
  let s := ack_received s (mkWrappingInt32 8) 3 in
  let s := ack_received s (mkWrappingInt32 11) 3 in
  (map (fun g => (raw_value (seqno (_header g)), syn (_header g), fin (_header g), str (_payload g)))
     (segments_out s), bytes_in_flight s)
  = ([(7, true, false, []); (8, false, false, [x61; x62; x63]); (11, false, true, [x64])], 2).
Proof. reflexivity. Qed.

(** ** Invariant *)

(** The sequence numbers a segment occupies. *)
Definition seg_len (g : TCPSegment) : Z :=
  Zlen (str (_payload g)) + b2i (syn (_header g)) + b2i (fin (_header g)).

(** The first sequence number that is still in flight. *)
Definition first_outstanding (s : TCPSender) : Z :=
  match _segments_in_flight s with [] => _next_seqno s | e :: _ => _abs_seqno e end.

Section Invariant.
Context (S : list byte) (HS : Zlen S < 2 ^ 32).

(** The segments in flight are excerpts of [S] that cover [first, next) without
    gap or overlap, in order. *)
Fixpoint tiles (i : WrappingInt32) (first : Z) (q : list OrderedSegment) (next : Z) : Prop :=
  match q with
  | [] => first = next
  | e :: q' =>
      _abs_seqno e = first /\ 0 < seg_len (_seg e) /\ conveys S i first (_seg e) /\
      tiles i (first + seg_len (_seg e)) q' next
  end.

(** A segment that may be on the wire: an excerpt of [S] below [next], or an
    empty segment from before SYN. *)
Definition on_wire (i : WrappingInt32) (next : Z) (g : TCPSegment) : Prop :=
  vacant i g \/ exists a, conveys S i a g /\ a + seg_len g <= next.

Record flight_ok (s : TCPSender) : Prop := {
  fl_tiles : tiles (_isn s) (first_outstanding s) (_segments_in_flight s) (_next_seqno s);
  fl_chk : match _segments_in_flight s with
           | [] => _checkpoint s = _next_seqno s
           | e :: _ => 0 <= _abs_seqno e <= _checkpoint s /\
                       _checkpoint s < _abs_seqno e + seg_len (_seg e)
           end;
  fl_bytes : _bytes_in_flight s = _next_seqno s - first_outstanding s;
  fl_out : Forall (on_wire (_isn s) (_next_seqno s)) (_segments_out s);
  fl_next : 0 <= _next_seqno s < 2 ^ 33
}.

Record stream_ok (s : TCPSender) (a : Stream) : Prop := {
  sk_ref : refines (_stream s) a;
  sk_hist : hist a `prefix_of` S;
  sk_ended : ended a = true -> hist a = S;
  sk_next : _next_seqno s = if _syn s then 1 + popped a + b2i (_fin s) else 0;
  sk_unsynced : _syn s = false -> popped a = 0 /\ _fin s = false;
  sk_fin : _fin s = true -> ended a = true /\ popped a = Zlen (hist a)
}.

Definition inv (s : TCPSender) (a : Stream) : Prop := flight_ok s /\ stream_ok s a.

Lemma seg_len_nonneg g : 0 <= seg_len g.
Proof.
  unfold seg_len. pose proof (Zlen_nonneg (str (_payload g))).
  destruct (syn _), (fin _); cbn [b2i]; lia.
Qed.

Lemma conveys_len i a g : conveys S i a g -> length_in_sequence_space g = seg_len g.
Proof.
  intros Hcv. unfold length_in_sequence_space. apply u64_small. pose proof (seg_len_nonneg g).
  unfold seg_len in *. destruct Hcv as [_ _ Hd _].
  assert (Zlen (str (_payload g)) <= 2 ^ 32).
  { destruct (decide (str (_payload g) = [])) as [E|E]; [by rewrite E|].
    pose proof (slice_end _ _ _ Hd E). destruct Hd. lia. }
  destruct (syn _), (fin _); cbn [b2i] in *; lia.
Qed.

Lemma tiles_le i f q n : tiles i f q n -> f <= n.
Proof.
  revert f. induction q as [|e q IH]; intros f; cbn [tiles]; [lia|].
  intros (_ & Hl & _ & Ht). apply IH in Ht. lia.
Qed.

Lemma tiles_snoc i f q n e :
  tiles i f q n -> _abs_seqno e = n -> 0 < seg_len (_seg e) -> conveys S i n (_seg e) ->
  tiles i f (q ++ [e]) (n + seg_len (_seg e)).
Proof.
  revert f. induction q as [|e' q IH]; intros f; cbn [tiles app].
  - intros -> He Hl Hc. done.
  - intros (? & ? & ? & Ht) He Hl Hc. split_and!; [done..|]. by apply IH.
Qed.

(** The keys are in increasing order, so the queue is first-in first-out. *)
Lemma tiles_key i f q n t : tiles i f q n -> pq_top q = Some t -> f <= _abs_seqno t.
Proof.
  revert f t. induction q as [|e q IH]; intros f t; cbn [tiles pq_top]; [done|].
  intros (He & Hl & _ & Ht). destruct (pq_top q) as [t'|] eqn:E.
  - pose proof (IH _ t' Ht eq_refl). destruct (_ <? _); intros [= <-]; lia.
  - intros [= <-]. lia.
Qed.

Lemma tiles_top i f e q n :
  tiles i f (e :: q) n -> pq_top (e :: q) = Some e /\ pq_pop (e :: q) = q.
Proof.
  cbn [tiles pq_top pq_pop]. intros (He & Hl & _ & Ht).
  destruct (pq_top q) as [t|] eqn:E; [|done].
  pose proof (tiles_key _ _ _ _ _ Ht E). by destruct (Z.ltb_spec (_abs_seqno t) (_abs_seqno e)); [lia|].
Qed.

Lemma on_wire_mono i n n' g : on_wire i n g -> n <= n' -> on_wire i n' g.
Proof. intros [H|(a & Hc & Hl)] Hn; [by left|]. right. exists a. split; [done|lia]. Qed.

Lemma tiles_on_wire i f q n : tiles i f q n -> Forall (fun e => on_wire i n (_seg e)) q.
Proof.
  revert f. induction q as [|e q IH]; intros f; cbn [tiles]; [done|].
  intros (_ & Hl & Hc & Ht). constructor; [|by eapply IH].
  right. exists f. split; [done|]. by apply tiles_le in Ht.
Qed.

(** ** [_send_segment] *)

Definition stamped (s : TCPSender) (g : TCPSegment) : TCPSegment :=
  set_header g (set_seqno (_header g) (next_seqno s)).

(** Everything but the queues, the next number and the timer stays. *)
Definition same_rest (s s' : TCPSender) : Prop :=
  _isn s' = _isn s /\ _rwnd s' = _rwnd s /\ _checkpoint s' = _checkpoint s /\
  _initial_retransmission_timeout s' = _initial_retransmission_timeout s /\
  _n_consecutive_retransmissions s' = _n_consecutive_retransmissions s /\
  (_is_timer_running s = true ->
     _is_timer_running s' = true /\ _time_spent s' = _time_spent s /\ _rto s' = _rto s).

Lemma send_segment_fields s g :
  let s' := _send_segment s g in
  let len := length_in_sequence_space (stamped s g) in
  _segments_out s' = _segments_out s ++ [stamped s g] /\
  _segments_in_flight s' = _segments_in_flight s ++ [mkOrderedSegment (_next_seqno s) (stamped s g)] /\
  _next_seqno s' = u64 (_next_seqno s + len) /\ _bytes_in_flight s' = u64 (_bytes_in_flight s + len) /\
  _stream s' = _stream s /\ _syn s' = _syn s /\ _fin s' = _fin s /\ same_rest s s'.
Proof.
  unfold _send_segment, same_rest. cbn. destruct (_is_timer_running s) eqn:E; cbn;
    rewrite ?E; split_and!; done.
Qed.

Lemma flight_send s g :
  flight_ok s -> conveys S (_isn s) (_next_seqno s) (stamped s g) -> 0 < seg_len (stamped s g) ->
  _next_seqno s + seg_len (stamped s g) < 2 ^ 33 ->
  flight_ok (_send_segment s g) /\
  _next_seqno (_send_segment s g) = _next_seqno s + seg_len (stamped s g).
Proof.
  intros [Ht Hc Hb Ho Hn] Hcv Hl Hmax.
  destruct (send_segment_fields s g) as (Eo & Ef & En & Eb & _ & _ & _ & Ei & _ & Ec & _).
  rewrite (conveys_len _ _ _ Hcv) in *. pose proof (tiles_le _ _ _ _ Ht) as Hle.
  assert (0 <= first_outstanding s) as H0.
  { unfold first_outstanding. destruct (_segments_in_flight s); lia. }
  rewrite u64_small in En, Eb by lia.
  assert (first_outstanding (_send_segment s g) = first_outstanding s) as Efi.
  { unfold first_outstanding. rewrite Ef. by destruct (_segments_in_flight s). }
  split; [split|done]; rewrite ?Efi, ?Ei, ?En, ?Eb, ?Ec, ?Ef, ?Eo.
  - by apply tiles_snoc.
  - destruct (_segments_in_flight s); cbn [app]; [cbn; lia|done].
  - lia.
  - apply Forall_app. split; [|constructor; [|done]].
    + eapply Forall_impl; [|exact Ho]. intros g' Hg'. eapply on_wire_mono; [exact Hg'|lia].
    + right. exists (_next_seqno s). split; [done|lia].
  - lia.
Qed.

(** ** [fill_window] *)

Lemma stream_buffered st a : refines st a -> endOfBuffer st = Zlen (hist a) - popped a.
Proof.
  intros H. rewrite <- (Zlen_pending _ _ H). destruct H. unfold pending. zlen.
Qed.

Lemma stream_eof st a : refines st a -> eof st = ended a && (Zlen (hist a) - popped a =? 0).
Proof.
  intros H. unfold eof, buffer_empty. rewrite (ref_ended _ _ H). by rewrite (stream_buffered _ _ H).
Qed.

(** Reading from a stream, as its abstraction sees it. *)
Definition advance (a : Stream) (k : Z) : Stream :=
  mkStream (cap a) (hist a) (popped a + k) (ended a) (failed a).

Lemma stream_read st a n :
  refines st a -> 0 <= n ->
  let k := Z.min n (Zlen (hist a) - popped a) in
  exists st', ByteStream.read st n = (st', ztake k (pending a)) /\ refines st' (advance a k).
Proof.
  intros H Hn k. destruct (refines_call st a (Read n) H) as [Ho Hr]; [by apply Z.leb_le|].
  cbn [impl_call spec_call fst snd] in *. destruct (ByteStream.read st n) as [st' l].
  cbn [fst snd] in *. rewrite (Zlen_pending _ _ H), (stream_buffered _ _ H) in *. fold k in Ho, Hr.
  injection Ho as ->. eauto.
Qed.

Lemma pending_slice a k :
  hist a `prefix_of` S -> 0 <= popped a <= Zlen (hist a) -> 0 <= k <= Zlen (hist a) - popped a ->
  slice S (popped a) (ztake k (pending a)) /\ Zlen (ztake k (pending a)) = k.
Proof.
  intros [T ->] Hp Hk. assert (Zlen (ztake k (pending a)) = k) as Hl by (unfold pending; zlen).
  split; [|done]. apply slice_grow, slice_dec_ok; [lia|]. by rewrite Hl.
Qed.

Lemma sk_bound s a : stream_ok s a -> 0 <= popped a <= Zlen (hist a) /\ Zlen (hist a) <= Zlen S.
Proof.
  intros H. split; [apply (sk_ref _ _ H)|]. destruct (sk_hist _ _ H) as [T ->].
  rewrite Zlen_app. pose proof (Zlen_nonneg T). lia.
Qed.

Lemma flight_set_stream s v : flight_ok s -> flight_ok (set_stream s v).
Proof. intros []. by split. Qed.
Lemma flight_set_fin_sent s : flight_ok s -> flight_ok (set_fin_sent s).
Proof. intros []. by split. Qed.

(** The segment that one iteration sends: [k] bytes, and FIN when [f]. *)
Definition data_segment (payload : list byte) (f : bool) : TCPSegment :=
  mkTCPSegment (set_fin default_header f) (buf_of_string payload).

Lemma send_data s a k (f : bool) st' :
  inv s a -> _syn s = true -> _fin s = false ->
  0 <= k <= Zlen (hist a) - popped a -> 0 < k + b2i f ->
  (f = true -> ended a = true /\ k = Zlen (hist a) - popped a) ->
  refines st' (advance a k) ->
  let s0 := if f then set_fin_sent (set_stream s st') else set_stream s st' in
  let s' := _send_segment s0 (data_segment (ztake k (pending a)) f) in
  inv s' (advance a k) /\ _next_seqno s' = _next_seqno s + k + b2i f /\ _fin s' = f /\
  _syn s' = true /\ same_rest s s'.
Proof.
  intros [Hfl Hsk] Hsyn Hfin Hk Hpos Hf Hst s0 s'. destruct (sk_bound _ _ Hsk) as [Hp Hh].
  pose proof (sk_next _ _ Hsk) as Hn. rewrite Hsyn, Hfin in Hn. cbn [b2i] in Hn.
  destruct (pending_slice a k (sk_hist _ _ Hsk) Hp Hk) as [Hsl Hlen].
  assert (flight_ok s0) as Hfl0.
  { unfold s0. destruct f; auto using flight_set_stream, flight_set_fin_sent. }
  assert (_isn s0 = _isn s /\ _next_seqno s0 = _next_seqno s /\ _fin s0 = f /\ _syn s0 = true /\
    _stream s0 = st' /\ same_rest s s0) as (Ei & En & Ef & Es & Est & Er).
  { unfold s0, same_rest. destruct f; cbn; by split_and!. }
  set (g := stamped s0 (data_segment (ztake k (pending a)) f)).
  assert (str (_payload g) = ztake k (pending a)) as Hpay by done.
  assert (syn (_header g) = false /\ fin (_header g) = f) as [Hgs Hgf] by done.
  assert (seg_len g = k + b2i f) as Hg
    by (unfold seg_len; rewrite Hpay, Hgs, Hgf, Hlen; cbn [b2i]; lia).
  assert (conveys S (_isn s0) (_next_seqno s0) g) as Hcv.
  { assert (stream_index g (_next_seqno s0) = popped a) as Hix.
    { unfold stream_index. rewrite Hgs, En. lia. }
    split; rewrite ?Hix, ?Hgs, ?Hgf, ?Hpay; [done | lia | done |].
    intros Hff. destruct (Hf Hff) as [He Hke]. unfold size. rewrite Hpay, Hlen.
    rewrite <- (sk_ended _ _ Hsk He). lia. }
  destruct (flight_send s0 (data_segment (ztake k (pending a)) f) Hfl0 Hcv) as [Hfl' Hn'];
    [fold g; lia | fold g; destruct f; cbn [b2i] in *; lia |].
  fold s' in Hfl', Hn'. fold g in Hn'. rewrite Hg, En in Hn'.
  destruct (send_segment_fields s0 (data_segment (ztake k (pending a)) f))
    as (_ & _ & _ & _ & Est' & Es' & Ef' & Er'). fold s' in Est', Es', Ef', Er'.
  rewrite Est in Est'. rewrite Es in Es'. rewrite Ef in Ef'.
  split_and!; [split; [done|] | lia | done | done |].
  - destruct Hsk as [? ? ? ? ? ?]. split; rewrite ?Est', ?Es', ?Ef'; cbn [advance hist popped ended]; try done.
    + lia.
    + intros Hff. destruct (Hf Hff). split; [done|lia].
  - unfold same_rest in *. intuition congruence.
Qed.

Lemma fill_step_spec s a n :
  inv s a -> _syn s = true -> _fin s = false -> 0 < n < 2 ^ 64 ->
  (ended a = true \/ popped a < Zlen (hist a)) ->
  let buf := Zlen (hist a) - popped a in
  let k := Z.min (Z.min n MAX_PAYLOAD_SIZE) buf in
  let f := ended a && (buf =? k) && (n >? k) in
  exists s', fill_step s n = (s', u64 (n - b2i f - Z.min n MAX_PAYLOAD_SIZE)) /\
    inv s' (advance a k) /\ _next_seqno s' = _next_seqno s + k + b2i f /\ _fin s' = f /\
    _syn s' = true /\ same_rest s s'.
Proof.
  intros Hinv Hsyn Hfin Hn Hor buf k f. pose proof Hinv as [_ Hsk].
  destruct (sk_bound _ _ Hsk) as [Hp Hh]. unfold fill_step.
  assert ((if n >? MAX_PAYLOAD_SIZE then MAX_PAYLOAD_SIZE else n) = Z.min n MAX_PAYLOAD_SIZE) as ->
    by (destruct (Z.gtb_spec n MAX_PAYLOAD_SIZE); lia).
  destruct (stream_read (_stream s) a (Z.min n MAX_PAYLOAD_SIZE) (sk_ref _ _ Hsk))
    as (st' & -> & Hst); [unfold MAX_PAYLOAD_SIZE; lia|]. fold buf k in Hst |- *.
  assert (0 <= k <= buf) as Hk by (unfold k, buf, MAX_PAYLOAD_SIZE; lia).
  destruct (pending_slice a k (sk_hist _ _ Hsk) Hp Hk) as [_ Hlen].
  assert (length_in_sequence_space (set_payload default_segment (buf_of_string (ztake k (pending a)))) = k)
    as ->.
  { unfold length_in_sequence_space. cbn [set_payload _payload _header]. rewrite str_of_string, Hlen.
    cbn [default_segment default_header _header syn fin b2i]. rewrite u64_small; lia. }
  cbn [set_stream _stream]. rewrite (stream_eof _ _ Hst). cbn [advance hist popped ended].
  replace (Zlen (hist a) - (popped a + k) =? 0) with (buf =? k)
    by (apply Bool.eq_iff_eq_true; rewrite !Z.eqb_eq; unfold buf; lia).
  fold f. pose proof (send_data s a k f st' Hinv Hsyn Hfin Hk) as Hsend.
  assert (0 < k + b2i f) as Hpos.
  { unfold f. destruct (Z.eqb_spec buf k), (Z.gtb_spec n k), (ended a); cbn [andb b2i];
      unfold buf, k, MAX_PAYLOAD_SIZE in *; destruct Hor; try done; lia. }
  specialize (Hsend Hpos). destruct f eqn:Ef; cbn [b2i] in *.
  - eexists. split; [|apply Hsend; [|done]].
    + f_equal. rewrite (u64_small (n - 1)) by lia. done.
    + intros _. unfold f in Ef. bsplit. split; [done|lia].
  - eexists. split; [|apply Hsend; done]. by rewrite Z.sub_0_r.
Qed.

(** The sequence numbers the stream has to offer: its bytes, and FIN at its end. *)
Definition available (s : TCPSender) (a : Stream) : Z :=
  Zlen (hist a) - popped a + b2i (ended a && negb (_fin s)).

Lemma advance_0 a : advance a 0 = a.
Proof. unfold advance. rewrite Z.add_0_r. by destruct a. Qed.

Lemma advance_advance a j k : advance (advance a j) k = advance a (j + k).
Proof. unfold advance. cbn. by rewrite Z.add_assoc. Qed.

Lemma same_rest_refl s : same_rest s s.
Proof. by unfold same_rest. Qed.

Lemma same_rest_trans s s1 s2 : same_rest s s1 -> same_rest s1 s2 -> same_rest s s2.
Proof.
  intros (? & ? & ? & ? & ? & Ha) (? & ? & ? & ? & ? & Hb). unfold same_rest.
  split_and!; [congruence..|]. intros Hr. destruct (Ha Hr) as (Hr1 & ? & ?).
  destruct (Hb Hr1) as (? & ? & ?). split_and!; congruence.
Qed.

(** The arithmetic of one iteration: what it sends and what it leaves. *)
Lemma fill_arith n buf (e : bool) :
  0 < n < 2 ^ 64 -> 0 <= buf -> (e = true \/ 0 < buf) ->
  let m := Z.min n MAX_PAYLOAD_SIZE in
  let k := Z.min m buf in
  let f := e && (buf =? k) && (n >? k) in
  let n' := u64 (n - b2i f - m) in
  buf - k + b2i (negb f) < buf + 1 /\
  k + Z.min n' (buf - k) = Z.min n buf /\
  k + b2i f + Z.min n' (buf - k + b2i (e && negb f)) = Z.min n (buf + b2i e) /\
  f || (e && (buf - k <? n')) = e && (buf <? n).
Proof.
  intros Hn Hb He m k f n'. assert (0 < m <= n /\ m = Z.min n MAX_PAYLOAD_SIZE) as [Hm Em]
    by (unfold m, MAX_PAYLOAD_SIZE; lia). clearbody m.
  assert (0 <= n') by apply u64_bound.
  destruct f eqn:Ef; unfold f in Ef; unfold n' in *; cbn [b2i negb] in *.
  - bsplit. subst e. cbn [andb b2i orb].
    destruct (Z.gtb_spec n k); [|done]. destruct (Z.ltb_spec buf n); lia || (split_and!; done || lia).
  - rewrite Z.sub_0_r, (u64_small (n - m)) by lia. rewrite andb_true_r. cbn [orb].
    destruct e; cbn [andb b2i] in *.
    + destruct (Z.eqb_spec buf k), (Z.gtb_spec n k), (Z.ltb_spec (buf - k) (n - m)), (Z.ltb_spec buf n);
        cbn in Ef; try done; split_and!; done || lia.
    + destruct He; [done|]. split_and!; done || lia.
Qed.

(** The loop ends, having sent exactly as much as the budget and the stream allow. *)
Lemma fill_loop_spec fuel s a n :
  inv s a -> _syn s = true -> 0 <= n < 2 ^ 64 ->
  Zlen (hist a) - popped a + b2i (negb (_fin s)) < Z.of_nat fuel ->
  exists s' k, fill_loop fuel s n = Some s' /\
    let a' := advance a k in
    inv s' a' /\ _syn s' = true /\ same_rest s s' /\
    k = Z.min n (Zlen (hist a) - popped a) /\
    _next_seqno s' = _next_seqno s + Z.min n (available s a) /\
    _fin s' = _fin s || (ended a && (Zlen (hist a) - popped a <? n)).
Proof.
  revert s a n. induction fuel as [|fuel IH]; intros s a n Hinv Hsyn Hn Hfuel.
  { pose proof Hinv as [_ Hsk]. destruct (sk_bound _ _ Hsk). destruct (_fin s); cbn [negb b2i] in *; lia. }
  pose proof Hinv as [_ Hsk]. destruct (sk_bound _ _ Hsk) as [Hp Hh].
  cbn [fill_loop]. rewrite (stream_eof _ _ (sk_ref _ _ Hsk)).
  unfold buffer_empty. rewrite (stream_buffered _ _ (sk_ref _ _ Hsk)).
  set (buf := Zlen (hist a) - popped a) in *. unfold available. fold buf.
  assert (Z.min n buf = 0 -> Z.min n (buf + b2i (ended a && negb (_fin s))) = 0 ->
    exists s' k, Some s = Some s' /\ inv s' (advance a k) /\ _syn s' = true /\ same_rest s s' /\
      k = Z.min n buf /\
      _next_seqno s' = _next_seqno s + Z.min n (buf + b2i (ended a && negb (_fin s))) /\
      _fin s' = _fin s || (ended a && (buf <? n))) as Hstop.
  { intros Hk Hav. exists s, 0. rewrite advance_0. split_and!; try done; [lia|].
    destruct (ended a), (_fin s), (Z.ltb_spec buf n); cbn in *; lia || done. }
  destruct (Z.gtb_spec n 0) as [Hpos|Hz]; cbn [andb]; [|apply Hstop; destruct (_ && _); cbn [b2i]; lia].
  destruct (_fin s) eqn:Hfin; cbn [negb].
  { destruct (sk_fin _ _ Hsk Hfin). apply Hstop; cbn; rewrite ?andb_false_r; cbn; lia. }
  destruct (negb (ended a && (buf =? 0)) && (buf =? 0)) eqn:Hret.
  { bsplit. apply Hstop; [lia|]. destruct (ended a), (Z.eqb_spec buf 0); cbn in *; (done || lia). }
  destruct (fill_step_spec s a n Hinv Hsyn Hfin) as (s' & -> & Hinv' & Hn' & Hf' & Hsyn' & Hr'); [lia| |].
  { destruct (ended a), (Z.eqb_spec buf 0); cbn in Hret; try done; [by left..|right; unfold buf in *; lia]. }
  fold buf in Hinv', Hn', Hf' |- *. set (k := Z.min (Z.min n MAX_PAYLOAD_SIZE) buf) in *.
  set (f := ended a && (buf =? k) && (n >? k)) in *.
  set (n' := u64 (n - b2i f - Z.min n MAX_PAYLOAD_SIZE)).
  assert (ended a = true \/ 0 < buf) as Hor.
  { destruct (ended a), (Z.eqb_spec buf 0); cbn in Hret; try done; [by left..|right; lia]. }
  destruct (fill_arith n buf (ended a) ltac:(lia) ltac:(unfold buf; lia) Hor) as (A1 & A2 & A3 & A4).
  fold k f in A1, A2, A3, A4. fold n' in A2, A3, A4.
  destruct (IH s' (advance a k) n' Hinv' Hsyn') as (s2 & k2 & E2 & Hinv2 & Hsyn2 & Hr2 & Hk2 & Hn2 & Hf2).
  { apply u64_bound. }
  { cbn [advance hist popped]. rewrite Hf'. cbn [negb b2i] in Hfuel. unfold buf in *. lia. }
  exists s2, (k + k2). rewrite advance_advance in Hinv2. split; [done|]. cbv zeta.
  split; [done|]. split; [done|]. split; [by eapply same_rest_trans|].
  unfold available in Hn2. cbn [advance hist popped ended] in Hk2, Hn2, Hf2.
  replace (Zlen (hist a) - (popped a + k)) with (buf - k) in * by (unfold buf; lia).
  rewrite Hf' in *. rewrite andb_true_r. cbn [orb]. split_and!; [lia | lia | by rewrite Hf2].
Qed.

Lemma fl_chk_le s : flight_ok s -> 0 <= _checkpoint s <= _next_seqno s.
Proof.
  intros [Ht Hc _ _ Hn]. unfold first_outstanding in Ht.
  destruct (_segments_in_flight s) as [|e q]; [lia|]. cbn [tiles] in Ht.
  destruct Ht as (_ & Hl & _ & Ht). apply tiles_le in Ht. lia.
Qed.

Lemma syn_segment_inv s a :
  inv s a -> _syn s = false ->
  let s' := fill_window s in
  inv s' a /\ _syn s' = true /\ _next_seqno s' = 1 /\ same_rest s s'.
Proof.
  intros [Hfl Hsk] Hsyn s'. pose proof (sk_next _ _ Hsk) as Hn. rewrite Hsyn in Hn.
  unfold s', fill_window. rewrite Hsyn. cbn [negb].
  set (g := set_header default_segment (set_syn default_header true)).
  assert (conveys S (_isn s) (_next_seqno s) (stamped s g)) as Hcv.
  { split; [done|done| |done]. apply slice_nil. unfold stream_index. cbn. lia. }
  assert (seg_len (stamped s g) = 1) as Hl by done.
  destruct (flight_send s g Hfl Hcv) as [Hfl' Hn']; [lia..|]. rewrite Hl, Hn in Hn'.
  destruct (send_segment_fields s g) as (_ & _ & _ & _ & Est & _ & Ef & Hr).
  destruct (sk_unsynced _ _ Hsk Hsyn) as [Hp0 Hf0].
  revert Hfl' Hn' Est Ef Hr. generalize (_send_segment s g) as s1. intros s1 Hfl' Hn' Est Ef Hr.
  split_and!; [|done|done|exact Hr]. split.
  - destruct Hfl'. by split.
  - destruct Hsk. split; cbn [set_syn_sent _stream _next_seqno _syn _fin]; rewrite ?Est, ?Ef, ?Hf0, ?Hn', ?Hp0; done.
Qed.

(** [fill_window] on a synchronised sender, for any advertised window. *)
Lemma fill_window_synced s a :
  inv s a -> _syn s = true ->
  exists s' k, fill_loop (fill_fuel s) s (window_budget s) = Some s' /\ fill_window s = s' /\
    inv s' (advance a k) /\ _syn s' = true /\ same_rest s s' /\
    k = Z.min (window_budget s) (Zlen (hist a) - popped a) /\
    _next_seqno s' = _next_seqno s + Z.min (window_budget s) (available s a) /\
    _fin s' = _fin s || (ended a && (Zlen (hist a) - popped a <? window_budget s)).
Proof.
  intros Hinv Hsyn. destruct (fill_loop_spec (fill_fuel s) s a (window_budget s) Hinv Hsyn)
    as (s' & k & E & H); [apply u64_bound| |].
  - destruct Hinv as [_ Hsk]. unfold fill_fuel, buffer_size.
    rewrite (stream_buffered _ _ (sk_ref _ _ Hsk)). destruct (sk_bound _ _ Hsk).
    destruct (_fin s); cbn [negb b2i]; lia.
  - exists s', k. split; [done|]. split; [|exact H]. unfold fill_window. by rewrite Hsyn, E.
Qed.

Lemma fill_window_inv s a :
  inv s a -> exists k, inv (fill_window s) (advance a k) /\ same_rest s (fill_window s).
Proof.
  intros Hinv. destruct (_syn s) eqn:Hsyn.
  - destruct (fill_window_synced s a Hinv Hsyn) as (s' & k & _ & -> & ? & ? & ? & _). eauto.
  - destruct (syn_segment_inv s a Hinv Hsyn) as (? & ? & ? & ?). exists 0. by rewrite advance_0.
Qed.

(** The next sequence number only grows; SYN is sent; the stream's flags stay. *)
Lemma fill_window_grows s a :
  inv s a ->
  let s' := fill_window s in
  _next_seqno s <= _next_seqno s' /\ _syn s' = true /\
  error (_stream s') = error (_stream s) /\ input_ended (_stream s') = input_ended (_stream s).
Proof.
  intros Hinv. pose proof Hinv as [_ Hsk]. unfold error, input_ended.
  rewrite (ref_failed _ _ (sk_ref _ _ Hsk)), (ref_ended _ _ (sk_ref _ _ Hsk)).
  destruct (_syn s) eqn:Hsyn.
  - destruct (fill_window_synced s a Hinv Hsyn) as (s' & k & _ & -> & [_ Hsk'] & ? & _ & _ & Hn & _).
    rewrite (ref_failed _ _ (sk_ref _ _ Hsk')), (ref_ended _ _ (sk_ref _ _ Hsk')).
    pose proof (u64_bound ((if _rwnd s >? 0 then _rwnd s else 1) - u64 (_next_seqno s - _checkpoint s))).
    fold (window_budget s) in H0. destruct (sk_bound _ _ Hsk). unfold available in Hn.
    split_and!; try done. destruct (_ && _); cbn [b2i] in Hn; lia.
  - destruct (syn_segment_inv s a Hinv Hsyn) as ([_ Hsk'] & ? & Hn & _).
    rewrite (ref_failed _ _ (sk_ref _ _ Hsk')), (ref_ended _ _ (sk_ref _ _ Hsk')).
    pose proof (sk_next _ _ Hsk) as Hn0. rewrite Hsyn in Hn0. split_and!; try done. lia.
Qed.

(** The budget is the room left in the window, unless it is overdrawn. *)
Lemma window_budget_eq s :
  flight_ok s -> 0 <= _rwnd s < 2 ^ 16 ->
  window_budget s = u64 (_checkpoint s + Z.max 1 (_rwnd s) - _next_seqno s).
Proof.
  intros Hfl Hw. pose proof (fl_chk_le s Hfl). destruct Hfl as [_ _ _ _ Hn]. unfold window_budget.
  rewrite (u64_small (_next_seqno s - _checkpoint s)) by lia. f_equal.
  destruct (Z.gtb_spec (_rwnd s) 0); lia.
Qed.

(** ** [ack_received] *)

(** The flight after an acknowledgment: the segments not fully covered. *)
Definition uncovered (abs_ackno : Z) (q : list OrderedSegment) : list OrderedSegment :=
  filter (fun e => abs_ackno < _abs_seqno e + seg_len (_seg e)) q.

Lemma tiles_uncovered i first q next x :
  tiles i first q next -> x < first -> uncovered x q = q.
Proof.
  revert first. induction q as [|e q IH]; intros first; cbn [tiles]; [done|].
  intros (He & Hl & _ & Ht) Hx. unfold uncovered. rewrite filter_cons_True by lia.
  f_equal. apply (IH _ Ht). lia.
Qed.

Lemma ack_loop_spec i q first next x :
  tiles i first q next -> 0 <= first -> next < 2 ^ 33 -> first <= x <= next ->
  let q' := uncovered x q in
  let first' := match q' with [] => next | e :: _ => _abs_seqno e end in
  ack_loop (length q) x q (next - first) = (q', next - first') /\
  tiles i first' q' next /\ first <= first' <= x /\
  match q' with [] => True | e :: _ => x < first' + seg_len (_seg e) end.
Proof.
  revert first. induction q as [|e q IH]; intros first Ht H0 Hmax Hx; cbn [length ack_loop].
  { cbn in *. subst. split_and!; done || lia. }
  destruct (tiles_top _ _ _ _ _ Ht) as [-> ->]. pose proof Ht as (He & Hl & Hc & Ht').
  rewrite (conveys_len _ _ _ Hc), He. pose proof (tiles_le _ _ _ _ Ht').
  rewrite (u64_small (first + _)) by lia. unfold uncovered.
  destruct (Z.leb_spec (first + seg_len (_seg e)) x) as [Hle|Hgt].
  - rewrite filter_cons_False by lia. fold (uncovered x q). rewrite u64_small by lia.
    replace (next - first - seg_len (_seg e)) with (next - (first + seg_len (_seg e))) by lia.
    destruct (IH _ Ht') as (-> & ? & ? & ?); [lia..|]. split_and!; done || lia.
  - rewrite filter_cons_True by lia. fold (uncovered x q).
    rewrite (tiles_uncovered _ _ _ _ _ Ht') by lia. cbv zeta. rewrite He. split_and!; done || lia.
Qed.

(** The sender after an acknowledgment of something new, before it fills the window. *)
Definition acked (s : TCPSender) (x w : Z) : TCPSender :=
  let q := uncovered x (_segments_in_flight s) in
  let first := match q with [] => _next_seqno s | e :: _ => _abs_seqno e end in
  let s1 := set_flight (set_checkpoint (set_rwnd s w) x) q (_next_seqno s - first) in
  match q with
  | [] => set_timer s1 (_is_timer_running s) (_time_spent s) 0 (_initial_retransmission_timeout s)
  | _ => set_timer s1 true 0 0 (_initial_retransmission_timeout s)
  end.

Lemma first_outstanding_le s : flight_ok s -> 0 <= first_outstanding s <= _checkpoint s.
Proof.
  intros [_ Hc _ _ Hn]. unfold first_outstanding. destruct (_segments_in_flight s); lia.
Qed.

Lemma ack_received_eq s ackno w :
  flight_ok s ->
  let x := unwrap ackno (_isn s) (_checkpoint s) in
  ack_received s ackno w =
    if (_checkpoint s <? x) && (x <=? _next_seqno s)
    then fill_window (acked s x w) else set_rwnd s w.
Proof.
  intros Hfl x. pose proof Hfl as [Ht _ Hb _ Hn]. pose proof (first_outstanding_le s Hfl).
  unfold ack_received. fold x.
  cbn [set_rwnd _next_seqno _checkpoint set_checkpoint _segments_in_flight _bytes_in_flight].
  destruct (Z.gtb_spec x (_next_seqno s)), (Z.leb_spec x (_next_seqno s)); try lia;
    rewrite ?andb_false_r, ?andb_true_r; [done|].
  destruct (Z.leb_spec x (_checkpoint s)), (Z.ltb_spec (_checkpoint s) x); try lia; [done|].
  destruct (ack_loop_spec _ _ _ _ x Ht) as (E & _); [lia..|]. rewrite Hb, E. unfold acked.
  by destruct (uncovered x (_segments_in_flight s)).
Qed.

Lemma acked_inv s a x w :
  inv s a -> _checkpoint s < x <= _next_seqno s -> inv (acked s x w) a.
Proof.
  intros [Hfl Hsk] Hx. pose proof Hfl as [Ht _ _ Ho Hn]. pose proof (first_outstanding_le s Hfl).
  destruct (ack_loop_spec _ _ _ _ x Ht) as (_ & Htl & Hf & Hm); [lia..|]. unfold acked.
  split; [|destruct Hsk, (uncovered x (_segments_in_flight s)); by split].
  destruct (uncovered x (_segments_in_flight s)) as [|e q]; split; try done; cbn in *; lia.
Qed.

Lemma ack_received_inv s a ackno w :
  inv s a ->
  exists k, inv (ack_received s ackno w) (advance a k) /\
    _isn (ack_received s ackno w) = _isn s /\ _rwnd (ack_received s ackno w) = w.
Proof.
  intros Hinv. pose proof Hinv as [Hfl Hsk]. rewrite ack_received_eq by done.
  set (x := unwrap ackno (_isn s) (_checkpoint s)).
  destruct ((_checkpoint s <? x) && (x <=? _next_seqno s)) eqn:E; bsplit.
  - pose proof (acked_inv s a x w Hinv ltac:(lia)) as Ha.
    destruct (fill_window_inv _ a Ha) as (k & Hk & Ei & Er & _). exists k. rewrite Ei, Er.
    split; [done|]. unfold acked. by destruct (uncovered x (_segments_in_flight s)).
  - exists 0. rewrite advance_0. split; [|done].
    split; [destruct Hfl | destruct Hsk]; by split.
Qed.

Lemma ack_received_grows s a ackno w :
  inv s a ->
  let s' := ack_received s ackno w in
  _next_seqno s <= _next_seqno s' /\ error (_stream s') = error (_stream s).
Proof.
  intros Hinv. pose proof Hinv as [Hfl _]. rewrite ack_received_eq by done.
  set (x := unwrap ackno (_isn s) (_checkpoint s)).
  destruct ((_checkpoint s <? x) && (x <=? _next_seqno s)) eqn:E; [|done]. bsplit.
  pose proof (acked_inv s a x w Hinv ltac:(lia)) as Ha.
  destruct (fill_window_grows _ a Ha) as (Hn & _ & He & _). cbv zeta. rewrite He.
  assert (_next_seqno (acked s x w) = _next_seqno s /\ _stream (acked s x w) = _stream s) as [E1 E2]
    by (unfold acked; by destruct (uncovered x (_segments_in_flight s))).
  rewrite E1 in Hn. by rewrite E2.
Qed.

(** ** [tick] and [send_empty_segment] *)

Lemma tick_fields s ms :
  let s' := tick s ms in
  _stream s' = _stream s /\ _syn s' = _syn s /\ _fin s' = _fin s /\ _isn s' = _isn s /\
  _segments_in_flight s' = _segments_in_flight s /\ _next_seqno s' = _next_seqno s /\
  _checkpoint s' = _checkpoint s /\ _bytes_in_flight s' = _bytes_in_flight s /\
  _rwnd s' = _rwnd s /\
  (_segments_out s' = _segments_out s \/
   exists top, pq_top (_segments_in_flight s) = Some top /\
     _segments_out s' = _segments_out s ++ [_seg top]).
Proof.
  unfold tick. cbn [set_timer _segments_in_flight _time_spent _rto _segments_out].
  destruct (pq_top (_segments_in_flight s)) as [top|] eqn:E.
  - destruct (_ <=? _); [destruct (_ >? _)|]; cbn -[pq_top]; destruct (_segments_in_flight s) eqn:Eq;
      cbn -[pq_top]; split_and!; eauto.
  - cbn -[pq_top]. destruct (_segments_in_flight s) eqn:Eq; cbn -[pq_top]; split_and!; eauto.
Qed.

Lemma out_inv s s' a :
  inv s a -> _stream s' = _stream s -> _syn s' = _syn s -> _fin s' = _fin s -> _isn s' = _isn s ->
  _segments_in_flight s' = _segments_in_flight s -> _next_seqno s' = _next_seqno s ->
  _checkpoint s' = _checkpoint s -> _bytes_in_flight s' = _bytes_in_flight s ->
  Forall (on_wire (_isn s) (_next_seqno s)) (_segments_out s') -> inv s' a.
Proof.
  intros [[Ht Hc Hb Ho Hn] [? ? ? ? ? ?]] E1 E2 E3 E4 E5 E6 E7 E8 Hout.
  split; split; unfold first_outstanding in *; rewrite ?E1, ?E2, ?E3, ?E4, ?E5, ?E6, ?E7, ?E8; done.
Qed.

Lemma flight_top s top :
  flight_ok s -> pq_top (_segments_in_flight s) = Some top ->
  exists q, _segments_in_flight s = top :: q /\ on_wire (_isn s) (_next_seqno s) (_seg top) /\
    _abs_seqno top <= _checkpoint s < _abs_seqno top + seg_len (_seg top).
Proof.
  intros [Ht Hc _ _ _] E. destruct (_segments_in_flight s) as [|e q] eqn:Eq; [done|].
  destruct (tiles_top _ _ _ _ _ Ht) as [Etop _]. rewrite Etop in E. injection E as <-.
  exists q. split; [done|]. pose proof (tiles_on_wire _ _ _ _ Ht) as Hw.
  inversion Hw; subst. split; [done|lia].
Qed.

Lemma tick_inv s a ms : inv s a -> inv (tick s ms) a.
Proof.
  intros Hinv. destruct (tick_fields s ms) as (E1 & E2 & E3 & E4 & E5 & E6 & E7 & E8 & _ & Ho).
  pose proof Hinv as [Hfl _]. apply (out_inv s); try done. pose proof (fl_out _ Hfl) as Hf.
  destruct Ho as [->|(top & Etop & ->)]; [done|].
  apply Forall_app. split; [done|]. constructor; [|done].
  by destruct (flight_top s top Hfl Etop) as (q & _ & ? & _).
Qed.

Lemma send_empty_inv s a : inv s a -> inv (send_empty_segment s) a.
Proof.
  intros Hinv. pose proof Hinv as [Hfl Hsk]. apply (out_inv s); try done.
  unfold send_empty_segment. cbn [set_segments_out _segments_out].
  set (g := set_header default_segment _).
  apply Forall_app. split; [apply Hfl|]. constructor; [|done].
  pose proof (sk_next _ _ Hsk) as Hn. pose proof (sk_bound _ _ Hsk).
  assert (seqno (_header g) = wrap (_next_seqno s) (_isn s)) as Hq by done.
  destruct (_syn s); [right | by rewrite Hn in Hq; left].
  assert (0 <= b2i (_fin s)) by (destruct (_fin s); cbn; lia).
  exists (_next_seqno s). assert (seg_len g = 0) as -> by done. split; [|lia].
  assert (syn (_header g) = false) as Hg by done.
  split; rewrite ?Hg; [done|lia| |done]. apply slice_nil. unfold stream_index. rewrite Hg. lia.
Qed.

Lemma dequeue_inv s a g q :
  inv s a -> _segments_out s = g :: q -> inv (set_segments_out s q) a.
Proof.
  intros Hinv E. apply (out_inv s); try done. pose proof Hinv as [[_ _ _ Ho _] _].
  rewrite E in Ho. by inversion Ho.
Qed.

Lemma new_inv c rt i rnd :
  0 <= c < 2 ^ 32 -> inv (new c rt i rnd) (mkStream c [] 0 false false).
Proof.
  intros Hc. split; split; try done; cbn -[ByteStream.new]; try lia.
  - by apply refines_new.
  - apply prefix_nil.
Qed.

End Invariant.

(** ** What [fill_window] appends to the queues *)

(** Every segment sent is queued for transmission and kept for retransmission. *)
Definition emits (s s' : TCPSender) : Prop :=
  exists sent, _segments_in_flight s' = _segments_in_flight s ++ sent /\
               _segments_out s' = _segments_out s ++ map _seg sent.

#[global] Instance emits_preorder : PreOrder emits.
Proof.
  split.
  - intros s. exists []. by rewrite !app_nil_r.
  - intros s1 s2 s3 (l & E1 & E2) (k & E3 & E4). exists (l ++ k).
    by rewrite E3, E4, E1, E2, map_app, <- !app_assoc.
Qed.

Lemma send_segment_emits s g : emits s (_send_segment s g).
Proof.
  destruct (send_segment_fields s g) as (Eo & Ef & _).
  by exists [mkOrderedSegment (_next_seqno s) (stamped s g)].
Qed.

Lemma fill_step_emits s n : emits s (fst (fill_step s n)).
Proof.
  unfold fill_step. destruct (ByteStream.read _ _) as [st d]. cbn [set_stream _stream].
  assert (emits s (set_stream s st)) as H by (exists []; by rewrite !app_nil_r).
  destruct (_ && _); cbn [fst]; (etransitivity; [exact H|]); [|apply send_segment_emits].
  etransitivity; [|apply send_segment_emits]. exists []. by rewrite !app_nil_r.
Qed.

Lemma fill_loop_emits fuel s n s' : fill_loop fuel s n = Some s' -> emits s s'.
Proof.
  revert s n. induction fuel as [|fuel IH]; intros s n; cbn [fill_loop]; [done|].
  destruct (_ && _); [|by intros [= <-]]. destruct (_ && _); [by intros [= <-]|].
  pose proof (fill_step_emits s n) as H. destruct (fill_step s n) as [s1 n1]. cbn [fst] in H.
  intros E. etransitivity; [exact H|]. by eapply IH.
Qed.

Lemma fill_window_emits s : emits s (fill_window s).
Proof.
  unfold fill_window. destruct (negb (_syn s)).
  - etransitivity; [apply send_segment_emits|]. exists []. by rewrite !app_nil_r.
  - destruct (fill_loop _ _ _) as [s'|] eqn:E; cbn; [by eapply fill_loop_emits|done].
Qed.

(** The stream stays failed, or sound. *)
Lemma send_segment_stream s g : _stream (_send_segment s g) = _stream s.
Proof. unfold _send_segment. by destruct (negb _). Qed.

Lemma fill_step_error s n : error (_stream (fst (fill_step s n))) = error (_stream s).
Proof.
  unfold fill_step. destruct (ByteStream.read _ _) as [st d] eqn:E. cbn [set_stream _stream].
  assert (error st = error (_stream s)) as He by (rewrite read_eq in E; by injection E as <- _).
  destruct (_ && _); cbn [fst]; by rewrite send_segment_stream.
Qed.

Lemma fill_window_error s : error (_stream (fill_window s)) = error (_stream s).
Proof.
  unfold fill_window. destruct (negb (_syn s)).
  - cbn [set_syn_sent _stream]. by rewrite send_segment_stream.
  - destruct (fill_loop _ _ _) as [s'|] eqn:E; [|done]. cbn [default]. revert E.
    generalize (fill_fuel s) as fuel. generalize (window_budget s) as n. intros n fuel. revert s n.
    induction fuel as [|fuel IH]; intros s n; cbn [fill_loop]; [done|].
    destruct (_ && _); [|by intros [= <-]]. destruct (_ && _); [by intros [= <-]|].
    pose proof (fill_step_error s n) as Hs. destruct (fill_step s n) as [s1 n1]. cbn [fst] in Hs.
    intros E. by rewrite (IH _ _ E).
Qed.

(** ** Runs of a sender

    [reach S c rt i W s]: a sender of capacity [c], timeout [rt] and initial
    sequence number [i] can be in state [s] after its writer has had the bytes
    [W] accepted.  [S] is the whole stream of the writer, who ends it when all
    of it is written.  Acknowledgments are arbitrary; the queue is drained by
    the owner, and the stream may be marked as failed. *)
Inductive reach (S : list byte) (c rt : Z) (i : WrappingInt32) : list byte -> TCPSender -> Prop :=
  | reach_new : reach S c rt i [] (new c rt (Some i) 0)
  | reach_write W s d :
      reach S c rt i W s ->
      W ++ ztake (snd (write (_stream s) d)) d `prefix_of` S ->
      reach S c rt i (W ++ ztake (snd (write (_stream s) d)) d)
        (set_stream s (fst (write (_stream s) d)))
  | reach_end s : reach S c rt i S s -> reach S c rt i S (set_stream s (end_input (_stream s)))
  | reach_fill W s : reach S c rt i W s -> reach S c rt i W (fill_window s)
  | reach_ack W s ackno w :
      reach S c rt i W s -> 0 <= w < 2 ^ 16 -> reach S c rt i W (ack_received s ackno w)
  | reach_tick W s ms : reach S c rt i W s -> 0 <= ms -> reach S c rt i W (tick s ms)
  | reach_empty W s : reach S c rt i W s -> reach S c rt i W (send_empty_segment s)
  | reach_error W s :
      reach S c rt i W s -> reach S c rt i W (set_stream s (ByteStream.set_error (_stream s)))
  | reach_dequeue W s g q :
      reach S c rt i W s -> _segments_out s = g :: q -> reach S c rt i W (set_segments_out s q).

Lemma inv_stream S s a st a' :
  inv S s a -> refines st a' -> hist a' `prefix_of` S -> (ended a' = true -> hist a' = S) ->
  popped a' = popped a -> (ended a = true -> ended a' = true /\ hist a' = hist a) ->
  inv S (set_stream s st) a'.
Proof.
  intros [Hfl [? ? ? ? ? Hf]] Hr Hp He Hpop Hend. split; [by apply flight_set_stream|].
  split; cbn [set_stream _stream _next_seqno _syn _fin]; rewrite ?Hpop; try done.
  intros E. destruct (Hf E) as [E1 E2]. destruct (Hend E1) as [E3 E4]. by rewrite E4.
Qed.

Section Runs.
Context (S : list byte) (c rt : Z) (i : WrappingInt32).
Context (HS : Zlen S < 2 ^ 32) (Hc : 0 <= c < 2 ^ 32).

Lemma reach_inv W s :
  reach S c rt i W s -> exists a, inv S s a /\ hist a = W.
Proof.
  induction 1 as [|W s d _ (a & Hinv & HW) Hpre|s _ (a & Hinv & HW)|W s _ (a & Hinv & HW)
    |W s ackno w _ (a & Hinv & HW) Hw|W s ms _ (a & Hinv & HW) Hms|W s _ (a & Hinv & HW)|W s _ (a & Hinv & HW)
    |W s g q _ (a & Hinv & HW) E].
  - eexists. split; [by apply new_inv|done].
  - pose proof Hinv as [_ Hsk]. destruct (refines_extend _ _ d (sk_ref _ _ _ Hsk)) as [Hn Hr].
    rewrite Hn in *. subst W. set (a' := mkStream (cap a) (hist a ++ _) (popped a) (ended a) (failed a)) in *.
    exists a'. split; [|done].
    assert (ended a = true -> hist a' = hist a) as Hsame.
    { intros He. rewrite (sk_ended _ _ _ Hsk He) in Hpre. destruct Hpre as [T HT].
      rewrite <- app_assoc in HT. rewrite <- (app_nil_r S) in HT at 1.
      apply app_inv_head in HT. symmetry in HT. apply app_nil in HT as [HT _].
      unfold a'. cbn. by rewrite HT, app_nil_r. }
    apply (inv_stream S s a); try done.
    + intros He. rewrite Hsame by done. by apply (sk_ended _ _ _ Hsk).
    + intros He. by rewrite Hsame.
  - pose proof Hinv as [_ Hsk].
    destruct (refines_call _ _ EndInput (sk_ref _ _ _ Hsk) eq_refl) as [_ Hr].
    eexists. split; [apply (inv_stream S s a); [done|exact Hr|..]; try done|done].
    cbn. by rewrite HW.
  - destruct (fill_window_inv S HS s a Hinv) as (k & ? & _). eauto.
  - destruct (ack_received_inv S HS s a ackno w Hinv) as (k & ? & _). eauto.
  - exists a. split; [by apply tick_inv|done].
  - exists a. split; [by apply send_empty_inv|done].
  - pose proof Hinv as [_ Hsk].
    destruct (refines_call _ _ SetError (sk_ref _ _ _ Hsk) eq_refl) as [_ Hr].
    eexists. split; [apply (inv_stream S s a); [done|exact Hr|..]; try done|done]; apply Hsk.
  - exists a. split; [by eapply dequeue_inv|done].
Qed.

Lemma reach_params W s : reach S c rt i W s -> _isn s = i /\ 0 <= _rwnd s < 2 ^ 16.
Proof.
  induction 1 as [|W s d Hr IH Hpre|s Hr IH|W s Hr IH|W s ackno w Hr IH Hw|W s ms Hr IH Hms
    |W s Hr IH|W s Hr IH|W s g q Hr IH E]; try done.
  - destruct (reach_inv _ _ Hr) as (a & Hinv & _).
    destruct (fill_window_inv S HS s a Hinv) as (k & _ & (-> & -> & _)). done.
  - destruct (reach_inv _ _ Hr) as (a & Hinv & _).
    destruct (ack_received_inv S HS s a ackno w Hinv) as (k & _ & -> & ->). by destruct IH.
  - destruct (tick_fields s ms) as (_ & _ & _ & -> & _ & _ & _ & _ & -> & _). done.
Qed.

Lemma reach_drained W s : reach S c rt i W s -> reach S c rt i W (set_segments_out s []).
Proof.
  remember (_segments_out s) as q eqn:E. revert s E. induction q as [|g q IH]; intros s E Hr.
  - rewrite E. by destruct s.
  - specialize (IH (set_segments_out s q)). apply IH; [done|]. by eapply reach_dequeue.
Qed.

End Runs.

(** ** Correctness of the sender *)

Lemma tiles_sum S i first q next :
  tiles S i first q next -> next - first = foldr (fun e n => seg_len (_seg e) + n) 0 q.
Proof.
  revert first. induction q as [|e q IH]; intros first; cbn [tiles foldr]; [lia|].
  intros (_ & _ & _ & Ht). specialize (IH _ Ht). lia.
Qed.

(** C8. Everything a sender puts on the wire is genuine.  In every reachable
    state (any interleaving of writes, window fills, arbitrary
    acknowledgments and timer ticks) each segment queued for transmission or
    kept for retransmission carries the writer's bytes at the stream position
    its sequence number says, SYN only at absolute number 0 and FIN only at
    the end of the stream, and lies below the next sequence number (or it is
    an empty segment sent before SYN). *)
Theorem sender_segments_genuine S c rt i W s :
  Zlen S < 2 ^ 32 -> 0 <= c < 2 ^ 32 -> reach S c rt i W s ->
  Forall (on_wire S i (next_seqno_absolute s)) (segments_out s) /\
  Forall (fun e => on_wire S i (next_seqno_absolute s) (_seg e)) (_segments_in_flight s).
Proof.
  intros HS Hc Hr. destruct (reach_inv S c rt i HS Hc W s Hr) as (a & [Hfl _] & _).
  destruct (reach_params S c rt i HS Hc W s Hr) as [<- _].
  split; [apply Hfl | eapply tiles_on_wire, Hfl].
Qed.

(** C11. The book-keeping of the flight.  In every reachable state the tracked
    segments cover, in order and without gap or overlap, exactly the sequence
    numbers from the first outstanding one to the next; the acknowledged
    position lies inside the oldest of them (or at the end when none is
    left); and [bytes_in_flight] is the sum of their lengths. *)
Theorem sender_flight_exact S c rt i W s :
  Zlen S < 2 ^ 32 -> 0 <= c < 2 ^ 32 -> reach S c rt i W s ->
  tiles S i (first_outstanding s) (_segments_in_flight s) (next_seqno_absolute s) /\
  bytes_in_flight s = foldr (fun e n => seg_len (_seg e) + n) 0 (_segments_in_flight s) /\
  first_outstanding s <= _checkpoint s <= next_seqno_absolute s /\
  (forall e q, _segments_in_flight s = e :: q -> _checkpoint s < _abs_seqno e + seg_len (_seg e)).
Proof.
  intros HS Hc Hr. destruct (reach_inv S c rt i HS Hc W s Hr) as (a & [Hfl _] & _).
  destruct (reach_params S c rt i HS Hc W s Hr) as [<- _].
  pose proof (fl_chk_le S s Hfl). pose proof (first_outstanding_le S s Hfl).
  pose proof Hfl as [Ht Hk Hb _ _]. unfold next_seqno_absolute, bytes_in_flight.
  split; [done|]. split; [rewrite Hb; by eapply tiles_sum|]. split; [lia|].
  intros e q E. rewrite E in Hk. lia.
Qed.

(** What the outbound stream can still give, as its accessors show it. *)
Definition offered (s : TCPSender) : Z :=
  buffer_size (_stream s) + b2i (input_ended (_stream s) && negb (_fin s)).

Lemma available_offered S s a : stream_ok S s a -> available s a = offered s.
Proof.
  intros Hsk. unfold available, offered, buffer_size, input_ended.
  rewrite (stream_buffered _ _ (sk_ref _ _ _ Hsk)).
  by rewrite (ref_ended _ _ (sk_ref _ _ _ Hsk)).
Qed.

(** C10. [fill_window] terminates and fills the window exactly.  Once SYN is
    sent, and as long as no more is in flight than the peer's window (a zero
    window counts as one), the loop ends within [buffer_size + 2] iterations
    and the sender has sent exactly as many sequence numbers as fit: the
    smaller of the room left in the window and what the stream offers, FIN
    included.  So it never sends beyond the window's right edge, and stops
    short of it only when the stream has nothing left. *)
Theorem fill_window_exact S c rt i W s :
  Zlen S < 2 ^ 32 -> 0 <= c < 2 ^ 32 -> reach S c rt i W s -> _syn s = true ->
  let edge := _checkpoint s + Z.max 1 (_rwnd s) in
  _next_seqno s <= edge ->
  fill_loop (fill_fuel s) s (window_budget s) = Some (fill_window s) /\
  _next_seqno (fill_window s) = _next_seqno s + Z.min (edge - _next_seqno s) (offered s) /\
  _checkpoint (fill_window s) = _checkpoint s.
Proof.
  intros HS Hc Hr Hsyn edge Hle. destruct (reach_inv S c rt i HS Hc W s Hr) as (a & Hinv & _).
  destruct (reach_params S c rt i HS Hc W s Hr) as [_ Hw]. pose proof Hinv as [Hfl Hsk].
  destruct (fill_window_synced S HS s a Hinv Hsyn) as (s' & k & -> & -> & _ & _ & Hsame & _ & -> & _).
  pose proof (fl_chk_le S s Hfl). split; [done|]. split; [|apply Hsame].
  rewrite (window_budget_eq S s Hfl Hw), (available_offered S s a Hsk), u64_small by lia. done.
Qed.

Lemma ack_received_spec S c rt i W s x w :
  Zlen S < 2 ^ 32 -> 0 <= c < 2 ^ 32 -> reach S c rt i W s ->
  0 <= x -> - 2 ^ 31 <= x - _checkpoint s < 2 ^ 31 ->
  let s' := ack_received s (wrap x i) w in
  if (_checkpoint s <? x) && (x <=? _next_seqno s)
  then _checkpoint s' = x /\ _rwnd s' = w /\ consecutive_retransmissions s' = 0 /\
       exists sent, _segments_in_flight s' = uncovered x (_segments_in_flight s) ++ sent
  else s' = set_rwnd s w.
Proof.
  intros HS Hc Hr H0 Hx s'. destruct (reach_inv S c rt i HS Hc W s Hr) as (a & Hinv & _).
  destruct (reach_params S c rt i HS Hc W s Hr) as [Hi _]. pose proof Hinv as [Hfl Hsk].
  assert (unwrap (wrap x i) (_isn s) (_checkpoint s) = x) as Hu.
  { rewrite Hi. apply unwrap_near; [|done..]. pose proof (fl_chk_le S s Hfl).
    pose proof (fl_next _ _ Hfl). unfold checkpoint_ok. lia. }
  unfold s'. rewrite (ack_received_eq S HS s (wrap x i) w Hfl), Hu.
  destruct ((_checkpoint s <? x) && (x <=? _next_seqno s)) eqn:E; [|done]. bsplit.
  pose proof (acked_inv S HS s a x w Hinv ltac:(lia)) as Ha.
  destruct (fill_window_inv S HS _ a Ha) as (k & _ & _ & -> & -> & _ & Hn & _).
  unfold consecutive_retransmissions. rewrite Hn.
  destruct (fill_window_emits (acked s x w)) as (sent & -> & _). unfold acked.
  destruct (uncovered x (_segments_in_flight s)); eauto.
Qed.

(** C12. Acknowledgments.  An acknowledgment number that is close enough to be
    unwrapped and lies above the acknowledged position and not above the next
    sequence number becomes the new position; the tracked segments it covers
    entirely are dropped, and no other; the retransmission count is reset.
    Any other acknowledgment changes the recorded window only. *)
Theorem ack_received_exact S c rt i W s x w :
  Zlen S < 2 ^ 32 -> 0 <= c < 2 ^ 32 -> reach S c rt i W s ->
  0 <= x -> - 2 ^ 31 <= x - _checkpoint s < 2 ^ 31 ->
  let s' := ack_received s (wrap x i) w in
  if (_checkpoint s <? x) && (x <=? _next_seqno s)
  then _checkpoint s' = x /\ _rwnd s' = w /\ consecutive_retransmissions s' = 0 /\
       exists sent, _segments_in_flight s' = uncovered x (_segments_in_flight s) ++ sent
  else s' = set_rwnd s w.
Proof. apply ack_received_spec. Qed.

(** ** Retransmission *)

Lemma tick_expired s top ms :
  pq_top (_segments_in_flight s) = Some top -> 0 < _rwnd s ->
  _rto s <= u64 (_time_spent s + ms) ->
  tick s ms =
    set_timer (set_segments_out s (_segments_out s ++ [_seg top])) (_is_timer_running s) 0
      (u32 (_n_consecutive_retransmissions s + 1)) (u32 (_rto s * 2)).
Proof.
  intros Htop Hw Hexp. unfold tick. cbn [set_timer _segments_in_flight _time_spent _rto].
  rewrite Htop. destruct (Z.leb_spec (_rto s) (u64 (_time_spent s + ms))); [|lia].
  cbn [set_segments_out _segments_out _rwnd set_timer _is_timer_running
    _n_consecutive_retransmissions _rto].
  destruct (Z.gtb_spec (_rwnd s) 0); [|lia]. unfold set_timer, set_segments_out.
  cbn [_segments_in_flight]. by destruct (_segments_in_flight s).
Qed.

Lemma tick_early s ms :
  u64 (_time_spent s + ms) < _rto s -> _segments_out (tick s ms) = _segments_out s.
Proof.
  intros Hlt. unfold tick. cbn [set_timer _segments_in_flight _time_spent _rto].
  destruct (Z.leb_spec (_rto s) (u64 (_time_spent s + ms))); [lia|].
  destruct (pq_top _); cbn [_segments_in_flight set_timer]; by destruct (_segments_in_flight s).
Qed.

(** Time passes until the running timeout expires. *)
Definition expire (s : TCPSender) : TCPSender := tick s (_rto s).

Lemma expire_iter s e k j :
  pq_top (_segments_in_flight s) = Some e -> 0 < _rwnd s ->
  0 <= _time_spent s < 2 ^ 63 -> 0 <= _rto s -> _rto s * 2 ^ Z.of_nat k < 2 ^ 32 ->
  0 <= _n_consecutive_retransmissions s ->
  _n_consecutive_retransmissions s + Z.of_nat k < 2 ^ 32 -> (j <= k)%nat ->
  let s' := Nat.iter j expire s in
  _segments_out s' = _segments_out s ++ replicate j (_seg e) /\
  _n_consecutive_retransmissions s' = _n_consecutive_retransmissions s + Z.of_nat j /\
  _rto s' = _rto s * 2 ^ Z.of_nat j /\ 0 <= _time_spent s' < 2 ^ 63 /\
  _segments_in_flight s' = _segments_in_flight s /\ _rwnd s' = _rwnd s.
Proof.
  intros Htop Hw Ht Hrto Hk Hn0 Hn. induction j as [|j IH]; intros Hj.
  { cbn. rewrite app_nil_r. split_and!; done || lia. }
  destruct IH as (E1 & E2 & E3 & E4 & E5 & E6); [lia|]. cbv zeta in *.
  change (Nat.iter (S j) expire s) with (expire (Nat.iter j expire s)).
  set (t := Nat.iter j expire s) in *.
  assert (2 ^ Z.of_nat (S j) = 2 * 2 ^ Z.of_nat j) as Hpow
    by (rewrite Nat2Z.inj_succ, Z.pow_succ_r; lia).
  assert (2 ^ Z.of_nat (S j) <= 2 ^ Z.of_nat k) by (apply Z.pow_le_mono_r; lia).
  assert (0 < 2 ^ Z.of_nat j) by (apply Z.pow_pos_nonneg; lia).
  assert (0 <= _rto t * 2 < 2 ^ 32) as Hrt by nia.
  unfold expire. rewrite (tick_expired t e); [|by rewrite E5 | by rewrite E6 | rewrite u64_small; lia].
  cbn [set_timer set_segments_out _segments_out _n_consecutive_retransmissions _rto
    _time_spent _segments_in_flight _rwnd]. rewrite E1, E2, E5, E6, !u32_small by lia.
  split_and!; try done; try lia. rewrite <- app_assoc. f_equal. by rewrite <- replicate_cons_app.
Qed.

(** C13. Retransmission with exponential backoff.  In a reachable state with
    segments in flight and an open window, let the timeout expire [k] times
    without an acknowledgment (the timeout staying within 32 bits): each
    expiry queues the oldest segment that is not fully acknowledged once
    more, counts a retransmission and doubles the timeout; nothing is queued
    while the timeout has not been reached. *)
Theorem retransmission_backoff S c rt i W s e q k :
  Zlen S < 2 ^ 32 -> 0 <= c < 2 ^ 32 -> reach S c rt i W s ->
  _segments_in_flight s = e :: q -> 0 < _rwnd s ->
  0 <= _time_spent s < 2 ^ 63 -> 0 <= _rto s -> _rto s * 2 ^ Z.of_nat k < 2 ^ 32 ->
  0 <= consecutive_retransmissions s -> consecutive_retransmissions s + Z.of_nat k < 2 ^ 32 ->
  let s' := Nat.iter k expire s in
  segments_out s' = segments_out s ++ replicate k (_seg e) /\
  consecutive_retransmissions s' = consecutive_retransmissions s + Z.of_nat k /\
  _rto s' = _rto s * 2 ^ Z.of_nat k /\
  _abs_seqno e <= _checkpoint s < _abs_seqno e + seg_len (_seg e) /\
  (forall ms, 0 <= ms -> _time_spent s + ms < _rto s -> segments_out (tick s ms) = segments_out s).
Proof.
  intros HS Hc Hr Hq Hw Ht Hrto Hk Hn0 Hn. destruct (reach_inv S c rt i HS Hc W s Hr) as (a & [Hfl _] & _).
  assert (pq_top (_segments_in_flight s) = Some e) as Htop.
  { rewrite Hq. pose proof Hfl as [Htl _ _ _ _]. rewrite Hq in Htl. by eapply tiles_top. }
  unfold consecutive_retransmissions, segments_out in *.
  destruct (expire_iter s e k k) as (E1 & E2 & E3 & _); try done.
  destruct (flight_top S s e Hfl Htop) as (_ & _ & _ & ?). cbv zeta. split_and!; try done; try lia.
  intros ms Hms Hlt. apply tick_early. assert (0 < 2 ^ Z.of_nat k) by (apply Z.pow_pos_nonneg; lia).
  rewrite u64_small; nia.
Qed.

(** ** Boundary behaviour *)

(** A shrunken window is overdrawn.  [ack_received] records the window of an
    acknowledgment before it checks that the acknowledgment is current.  When
    an old one (at or below the acknowledged position) carries a window
    smaller than the flight, the unsigned budget of the next [fill_window]
    wraps around, and everything the stream offers is sent, far beyond the
    window. *)
Theorem stale_window_overdrawn S c rt i W s ackno w :
  Zlen S < 2 ^ 32 -> 0 <= c < 2 ^ 32 -> reach S c rt i W s -> _syn s = true ->
  unwrap ackno i (_checkpoint s) <= _checkpoint s -> 0 <= w < 2 ^ 16 ->
  _checkpoint s + Z.max 1 w < _next_seqno s ->
  let s' := fill_window (ack_received s ackno w) in
  _rwnd s' = w /\ _checkpoint s' = _checkpoint s /\
  _next_seqno s' = _next_seqno s + offered s /\ buffer_size (_stream s') = 0.
Proof.
  intros HS Hc Hr Hsyn Hold Hw Hsh s'. destruct (reach_inv S c rt i HS Hc W s Hr) as (a & Hinv & _).
  destruct (reach_params S c rt i HS Hc W s Hr) as [Hi _]. pose proof Hinv as [Hfl Hsk].
  assert (ack_received s ackno w = set_rwnd s w) as E.
  { rewrite (ack_received_eq S HS) by done. rewrite Hi.
    destruct (Z.ltb_spec (_checkpoint s) (unwrap ackno i (_checkpoint s))); [lia|done]. }
  assert (inv S (set_rwnd s w) a) as Hinv'.
  { split; [destruct Hfl | destruct Hsk]; by split. }
  unfold s'. rewrite E. clear s' E.
  destruct (fill_window_synced S HS _ a Hinv' Hsyn) as (s' & k & _ & -> & Hi' & _ & Hsame & Hk & Hn' & _).
  pose proof (fl_chk_le S s Hfl). pose proof (fl_next _ _ Hfl). pose proof (sk_bound S HS s a Hsk) as Hb.
  rewrite (window_budget_eq S (set_rwnd s w)) in Hk, Hn' by (done || apply Hinv').
  cbn [set_rwnd _checkpoint _rwnd _next_seqno] in Hk, Hn'.
  assert (forall z, - 2 ^ 33 < z < 0 -> u64 z = z + 2 ^ 64) as Hneg by (intros; wrap_lia).
  rewrite Hneg in Hk, Hn' by lia.
  destruct Hsame as (_ & Ew & Ec & _). rewrite Ew, Ec. split; [done|]. split; [done|].
  assert (available (set_rwnd s w) a = offered s) as Hav by (by rewrite <- (available_offered S s a Hsk)).
  rewrite Hn', Hav. unfold buffer_size. destruct Hi' as [_ Hsk'].
  rewrite (stream_buffered _ _ (sk_ref _ _ _ Hsk')). cbn [advance hist popped]. split; [|lia].
  f_equal. apply Z.min_r. rewrite <- Hav. unfold available.
  destruct (_ && _); cbn [b2i]; lia.
Qed.

(** The timer survives a full acknowledgment.  When an acknowledgment
    covers everything in flight and nothing new is waiting, the flight is
    empty but the timer keeps running with the time already spent; the next
    segment sent inherits it, so that its timeout can expire before a full
    retransmission timeout has passed since it was sent. *)
Theorem timer_survives_full_ack S c rt i W s w d :
  Zlen S < 2 ^ 32 -> 0 <= c < 2 ^ 32 -> reach S c rt i W s -> _syn s = true ->
  _is_timer_running s = true -> _checkpoint s < _next_seqno s < _checkpoint s + 2 ^ 31 ->
  offered s = 0 -> 0 <= w < 2 ^ 16 ->
  let s1 := ack_received s (next_seqno s) w in
  let s2 := fill_window (set_stream s1 (fst (write (_stream s1) d))) in
  _segments_in_flight s1 = [] /\ _is_timer_running s1 = true /\ _time_spent s1 = _time_spent s /\
  (W ++ ztake (snd (write (_stream s1) d)) d `prefix_of` S ->
   _time_spent s2 = _time_spent s /\ _rto s2 = _initial_retransmission_timeout s).
Proof.
  intros HS Hc Hr Hsyn Hrun Hx Hoff Hw s1 s2.
  destruct (reach_inv S c rt i HS Hc W s Hr) as (a & Hinv & HW).
  destruct (reach_params S c rt i HS Hc W s Hr) as [Hi _]. pose proof Hinv as [Hfl Hsk].
  pose proof (fl_chk_le S s Hfl). pose proof (fl_next _ _ Hfl).
  assert (uncovered (_next_seqno s) (_segments_in_flight s) = []) as Hun.
  { pose proof (first_outstanding_le S s Hfl).
    destruct (ack_loop_spec S HS _ _ _ _ (_next_seqno s) (fl_tiles _ _ Hfl)) as (_ & Ht & _ & Hm); [lia..|].
    destruct (uncovered _ _) as [|e q]; [done|]. cbn [tiles] in Ht.
    destruct Ht as (_ & _ & _ & Ht). apply tiles_le in Ht. lia. }
  set (t := acked s (_next_seqno s) w).
  assert (inv S t a) as Hinvt by (apply acked_inv; done || lia).
  assert (_segments_in_flight t = [] /\ _is_timer_running t = true /\ _time_spent t = _time_spent s /\
    _rto t = _initial_retransmission_timeout s /\ _syn t = true /\ _stream t = _stream s /\ _fin t = _fin s)
    as (F1 & F2 & F3 & F4 & F5 & F6 & F7) by (unfold t, acked; rewrite Hun; by split_and!).
  assert (s1 = fill_window t) as E1.
  { unfold s1. rewrite (ack_received_eq S HS) by done. unfold next_seqno.
    rewrite unwrap_near by (unfold checkpoint_ok; lia).
    destruct (Z.ltb_spec (_checkpoint s) (_next_seqno s)), (Z.leb_spec (_next_seqno s) (_next_seqno s));
      done || lia. }
  destruct (fill_window_synced S HS t a Hinvt F5) as (s' & k & _ & E2 & Hinv1 & Hsyn1 & Hsame & Hk & Hn & _).
  rewrite E2 in E1. assert (offered t = 0) as Hofft by (unfold offered; by rewrite F6, F7).
  pose proof Hinvt as [Hflt Hskt]. rewrite (available_offered S t a Hskt), Hofft in Hn.
  destruct Hsame as (_ & _ & Ec & Einit & _ & Htm). destruct (Htm F2) as (G1 & G2 & G3).
  assert (reach S c rt i W s1) as Hr1 by (by apply reach_ack).
  split_and!; [| by rewrite E1 | by rewrite E1, G2 |].
  - destruct Hinv1 as [Hfl1 _]. pose proof Hfl1 as [Ht1 Hc1 _ _ _]. rewrite E1.
    assert (_checkpoint t = _next_seqno s /\ _next_seqno t = _next_seqno s) as [Ect Ent]
      by (unfold t, acked; by rewrite Hun).
    pose proof (u64_bound ((if _rwnd t >? 0 then _rwnd t else 1) - u64 (_next_seqno t - _checkpoint t))).
    unfold first_outstanding in Ht1. destruct (_segments_in_flight s') as [|e q]; [done|].
    cbn [tiles] in Ht1. destruct Ht1 as (_ & _ & _ & Ht1). apply tiles_le in Ht1.
    unfold window_budget in Hn. lia.
  - intros Hpre. destruct (reach_inv S c rt i HS Hc _ _ (reach_write S c rt i W s1 d Hr1 Hpre)) as (a2 & Ha2 & _).
    destruct (fill_window_inv S HS _ a2 Ha2) as (k2 & _ & _ & _ & _ & _ & _ & Htm2).
    destruct Htm2 as (_ & T2 & T3); [by rewrite E1|]. fold s2 in T2, T3.
    rewrite T2, T3, E1. cbn [set_stream _time_spent _rto]. rewrite G2, G3. done.
Qed.

(** ** The end of the outbound stream *)

(** Everything has been sent, FIN included, and acknowledged. *)
Definition closed (s : TCPSender) : Prop :=
  _syn s = true /\ _fin s = true /\ _segments_in_flight s = [].

Lemma closed_fill s : closed s -> fill_window s = s.
Proof.
  intros (Hs & Hf & _). unfold fill_window, fill_fuel. rewrite Hs, Nat.add_comm. cbn [negb fill_loop Nat.add].
  rewrite Hf. by rewrite andb_false_r.
Qed.

Lemma closed_ack S s a ackno w :
  Zlen S < 2 ^ 32 -> inv S s a -> closed s -> ack_received s ackno w = set_rwnd s w.
Proof.
  intros HS [Hfl _] (Hs & Hf & Hq). rewrite (ack_received_eq S HS) by done.
  pose proof (fl_chk _ _ Hfl) as Hc. rewrite Hq in Hc. rewrite Hc.
  destruct (Z.ltb_spec (_next_seqno s) (unwrap ackno (_isn s) (_next_seqno s))),
    (Z.leb_spec (unwrap ackno (_isn s) (_next_seqno s)) (_next_seqno s)); done || lia.
Qed.

Lemma closed_tick s ms : closed s -> closed (tick s ms).
Proof.
  intros H. destruct (tick_fields s ms) as (_ & E2 & E3 & _ & E5 & _).
  unfold closed. by rewrite E2, E3, E5.
Qed.

Lemma closed_numbers S s a :
  inv S s a -> closed s ->
  hist a = S /\ _next_seqno s = Zlen S + 2 /\ _checkpoint s = Zlen S + 2 /\ _bytes_in_flight s = 0.
Proof.
  intros [Hfl Hsk] (Hs & Hf & Hq). destruct (sk_fin _ _ _ Hsk Hf) as [He Hp].
  pose proof (sk_ended _ _ _ Hsk He) as HS. pose proof (sk_next _ _ _ Hsk) as Hn.
  rewrite Hs, Hf, Hp, HS in Hn. cbn [b2i] in Hn.
  pose proof (fl_chk _ _ Hfl) as Hc. pose proof (fl_bytes _ _ Hfl) as Hb.
  unfold first_outstanding in Hb. rewrite Hq in Hc, Hb. split_and!; done || lia.
Qed.

(** A sender with nothing to offer and nothing in flight, when it fills its window. *)
Definition quiet (s : TCPSender) : Prop :=
  _syn s = true /\ offered s = 0 /\ _checkpoint s = _next_seqno s.

Lemma acknowledged_flight S s :
  flight_ok S s -> _checkpoint s = _next_seqno s ->
  _segments_in_flight s = [] /\ _bytes_in_flight s = 0.
Proof.
  intros Hfl Hc. pose proof Hfl as [Ht Hk Hb _ _]. unfold first_outstanding in *.
  destruct (_segments_in_flight s) as [|e q]; [split; [done|lia]|].
  cbn [tiles] in Ht. destruct Ht as (_ & _ & _ & Ht). apply tiles_le in Ht. lia.
Qed.

Lemma fill_nothing S s a :
  Zlen S < 2 ^ 32 -> inv S s a -> quiet s ->
  let s' := fill_window s in
  quiet s' /\ _next_seqno s' = _next_seqno s /\ (exists a', inv S s' a') /\
  error (_stream s') = error (_stream s) /\ input_ended (_stream s') = input_ended (_stream s).
Proof.
  intros HS Hinv (Hsyn & Ho & Hc). pose proof Hinv as [Hfl Hsk]. pose proof (sk_bound S HS s a Hsk).
  destruct (fill_window_grows S HS s a Hinv) as (_ & _ & He & Hi).
  destruct (fill_window_synced S HS s a Hinv Hsyn)
    as (s' & k & _ & E & Hinv' & Hsyn' & (_ & _ & Ec & _) & Hk & Hn & Hf). rewrite E in *.
  pose proof (u64_bound ((if _rwnd s >? 0 then _rwnd s else 1) - u64 (_next_seqno s - _checkpoint s))) as Hub.
  fold (window_budget s) in Hub. pose proof (available_offered S s a Hsk) as Hav. rewrite Hav, Ho in Hn.
  assert (offered s' = 0) as Ho'.
  { rewrite <- (available_offered S s' _ (proj2 Hinv')). unfold available in *.
    cbn [advance hist popped ended]. rewrite Hf, Ho in *.
    destruct (ended a), (_fin s); cbn [andb orb negb b2i] in *; lia. }
  split; [split_and!; done || lia|]. split; [lia|]. split; [by eexists|]. done.
Qed.

(** The acknowledgment of SYN, when nothing has been written yet. *)
Lemma ack_of_syn S s a w :
  Zlen S < 2 ^ 32 -> inv S s a -> _syn s = true -> _next_seqno s = 1 -> _checkpoint s = 0 ->
  offered s = 0 ->
  let s' := ack_received s (wrap 1 (_isn s)) w in
  quiet s' /\ _next_seqno s' = 1 /\ (exists a', inv S s' a') /\
  error (_stream s') = error (_stream s) /\ input_ended (_stream s') = input_ended (_stream s).
Proof.
  intros HS Hinv Hsyn Hn Hc Ho. pose proof Hinv as [Hfl _]. rewrite (ack_received_eq S HS) by done.
  rewrite Hc, unwrap_near by (unfold checkpoint_ok; lia). rewrite Hn. cbn [Z.ltb Z.leb Z.compare andb Pos.compare Pos.compare_cont].
  pose proof (acked_inv S HS s a 1 w Hinv ltac:(lia)) as Ha.
  assert (_next_seqno (acked s 1 w) = _next_seqno s /\ _stream (acked s 1 w) = _stream s /\
    _checkpoint (acked s 1 w) = 1 /\ _syn (acked s 1 w) = _syn s /\ _fin (acked s 1 w) = _fin s)
    as (E1 & E2 & E3 & E4 & E5) by (unfold acked; by destruct (uncovered 1 (_segments_in_flight s))).
  destruct (fill_nothing S (acked s 1 w) a HS Ha) as (Hq & Hn' & Hi & He & Hend).
  - unfold quiet, offered. rewrite E1, E2, E3, E4, E5. by split_and!.
  - cbv zeta. rewrite Hn', E1, Hn, He, Hend, E2. by split_and!.
Qed.

(** A sender that has filled its window, whose stream has ended and that has
    nothing in flight, is closed. *)
Lemma idle_closed S s a :
  Zlen S < 2 ^ 32 -> inv S s a -> 0 <= _rwnd s < 2 ^ 16 ->
  let s' := fill_window s in
  bytes_in_flight s' = 0 -> input_ended (_stream s') = true -> closed s'.
Proof.
  intros HS Hinv Hw s' Hb He. unfold bytes_in_flight in Hb. destruct (_syn s) eqn:Hsyn.
  2: { destruct (syn_segment_inv S HS s a Hinv Hsyn) as ([Hfl _] & _ & Hn & _ & _ & Hc & _).
       pose proof Hinv as [Hfl0 Hsk]. pose proof (sk_next _ _ _ Hsk) as Hn0. rewrite Hsyn in Hn0.
       pose proof (fl_chk_le _ _ Hfl0). pose proof (first_outstanding_le S _ Hfl).
       pose proof (fl_bytes _ _ Hfl). subst s'. lia. }
  destruct (fill_window_synced S HS s a Hinv Hsyn)
    as (s1 & k & _ & E & [Hfl' Hsk'] & Hsyn' & (_ & _ & Ec & _) & _ & Hn & Hfin).
  fold s' in E. clearbody s'. subst s1. pose proof Hinv as [Hfl Hsk].
  pose proof (fl_tiles _ _ Hfl') as Ht. pose proof (fl_bytes _ _ Hfl') as Hb'.
  pose proof (fl_chk _ _ Hfl') as Hc'. pose proof (fl_chk_le _ _ Hfl). pose proof (fl_next _ _ Hfl).
  assert (_segments_in_flight s' = []) as Hq.
  { unfold first_outstanding in *. destruct (_segments_in_flight s') as [|e q]; [done|].
    cbn [tiles] in Ht. destruct Ht as (_ & Hl & _ & Ht). apply tiles_le in Ht. lia. }
  rewrite Hq in Hc'. split_and!; [done| |done].
  pose proof (u64_bound ((if _rwnd s >? 0 then _rwnd s else 1) - u64 (_next_seqno s - _checkpoint s))) as Hub.
  fold (window_budget s) in Hub. pose proof (sk_bound S HS s a Hsk). unfold available in Hn.
  unfold input_ended in He. rewrite (ref_ended _ _ (sk_ref _ _ _ Hsk')) in He. cbn [advance ended] in He.
  rewrite He in Hn, Hfin. rewrite Hfin. destruct (_fin s); [done|]. cbn [andb orb negb b2i] in *.
  rewrite (window_budget_eq S s Hfl Hw), u64_small in * by lia.
  apply Z.ltb_lt. lia.
Qed.

(** ** Witnesses *)

Definition ex_isn : WrappingInt32 := mkWrappingInt32 4294967294.

(** SYN, five bytes and the end of the stream, then the first acknowledgment with window 3. *)
Definition ex_syn : TCPSender := fill_window (new 10 1000 (Some ex_isn) 0).
Definition ex_written : TCPSender :=
  set_stream ex_syn (fst (write (_stream ex_syn) ex_stream)).
Definition ex_ended : TCPSender := set_stream ex_written (end_input (_stream ex_written)).
Definition ex_sending : TCPSender := tick (ack_received ex_ended (wrap 1 ex_isn) 3) 400.

Lemma ex_sending_reach : reach ex_stream 10 1000 ex_isn ex_stream ex_sending.
Proof.
  apply reach_tick; [|lia]. apply reach_ack; [|lia]. apply reach_end.
  apply (reach_write ex_stream 10 1000 ex_isn [] ex_syn ex_stream).
  - apply reach_fill, reach_new.
  - vm_compute. by exists [].
Qed.

(** Two bytes of the stream, sent and not acknowledged. *)
Definition ex_two : TCPSender :=
  set_stream ex_syn (fst (write (_stream ex_syn) [x61; x62])).
Definition ex_waiting : TCPSender := tick (ack_received ex_two (wrap 1 ex_isn) 9) 400.

Lemma ex_waiting_reach : reach ex_stream 10 1000 ex_isn [x61; x62] ex_waiting.
Proof.
  apply reach_tick; [|lia]. apply reach_ack; [|lia].
  apply (reach_write ex_stream 10 1000 ex_isn [] ex_syn [x61; x62]).
  - apply reach_fill, reach_new.
  - by exists [x63; x64; x65].
Qed.

Lemma sender_segments_genuine_witness :
  Forall (on_wire ex_stream ex_isn (next_seqno_absolute ex_sending)) (segments_out ex_sending) /\
  Forall (fun e => on_wire ex_stream ex_isn (next_seqno_absolute ex_sending) (_seg e))
    (_segments_in_flight ex_sending).
Proof.
  apply (sender_segments_genuine ex_stream 10 1000 ex_isn ex_stream);
    [reflexivity | lia | apply ex_sending_reach].
Defined.

Lemma sender_flight_exact_witness : bytes_in_flight ex_sending = 3.
Proof.
  destruct (sender_flight_exact ex_stream 10 1000 ex_isn ex_stream ex_sending) as (_ & -> & _);
    [reflexivity | lia | apply ex_sending_reach | vm_compute; reflexivity].
Defined.

Lemma fill_window_exact_witness :
  _next_seqno (fill_window ex_waiting) = 3.
Proof.
  destruct (fill_window_exact ex_stream 10 1000 ex_isn [x61; x62] ex_waiting) as (_ & -> & _);
    [reflexivity | lia | apply ex_waiting_reach | reflexivity | vm_compute; discriminate
    | vm_compute; reflexivity].
Defined.

Lemma ack_received_exact_witness :
  _checkpoint (ack_received ex_sending (wrap 3 ex_isn) 7) = 3.
Proof.
  pose proof (ack_received_exact ex_stream 10 1000 ex_isn ex_stream ex_sending 3 7 eq_refl
    ltac:(lia) ex_sending_reach ltac:(lia) ltac:(vm_compute; split; (discriminate || reflexivity))) as H.
  assert ((_checkpoint ex_sending <? 3) && (3 <=? _next_seqno ex_sending) = true) as E
    by (vm_compute; reflexivity).
  cbv zeta in H. rewrite E in H. exact (proj1 H).
Defined.

Lemma retransmission_backoff_witness :
  consecutive_retransmissions (Nat.iter 3 expire ex_sending) = 3.
Proof.
  destruct (_segments_in_flight ex_sending) as [|e q] eqn:E; [vm_compute in E; discriminate|].
  assert (0 < _rwnd ex_sending /\ 0 <= _time_spent ex_sending < 2 ^ 63 /\ 0 <= _rto ex_sending /\
    _rto ex_sending * 2 ^ Z.of_nat 3 < 2 ^ 32 /\ 0 <= consecutive_retransmissions ex_sending /\
    consecutive_retransmissions ex_sending + Z.of_nat 3 < 2 ^ 32) as (H1 & H2 & H3 & H4 & H5 & H6)
    by (vm_compute; repeat split; discriminate).
  pose proof (retransmission_backoff ex_stream 10 1000 ex_isn ex_stream ex_sending e q 3
    eq_refl ltac:(lia) ex_sending_reach E H1 H2 H3 H4 H5 H6) as (_ & H & _).
  transitivity (consecutive_retransmissions ex_sending + Z.of_nat 3); [exact H | vm_compute; reflexivity].
Defined.

Lemma stale_window_overdrawn_witness :
  _next_seqno (fill_window (ack_received ex_sending (wrap 1 ex_isn) 1)) = 7.
Proof.
  destruct (stale_window_overdrawn ex_stream 10 1000 ex_isn ex_stream ex_sending (wrap 1 ex_isn) 1)
    as (_ & _ & -> & _);
    [reflexivity | lia | apply ex_sending_reach | reflexivity | vm_compute; discriminate | lia
    | reflexivity | vm_compute; reflexivity].
Defined.

Lemma timer_survives_full_ack_witness :
  let s1 := ack_received ex_waiting (next_seqno ex_waiting) 9 in
  _time_spent (fill_window (set_stream s1 (fst (write (_stream s1) [x63])))) = 400.
Proof.
  destruct (timer_survives_full_ack ex_stream 10 1000 ex_isn [x61; x62] ex_waiting 9 [x63])
    as (_ & _ & _ & H);
    [reflexivity | lia | apply ex_waiting_reach | reflexivity | reflexivity
    | vm_compute; split; (discriminate || reflexivity) | reflexivity | lia |].
  destruct H as [H _]; [by exists [x64; x65]|exact H].
Defined.

#[global] Arguments fill_window : simpl never.
#[global] Arguments ack_received : simpl never.
#[global] Arguments tick : simpl never.
#[global] Arguments _send_segment : simpl never.
