(* ===== verification/TCPConnection.v ===== *)
(** * A TCP endpoint

    Models [src/libsponge/tcp_connection.hh] and [tcp_connection.cc]: the
    sender and the receiver of one endpoint, the outbound queue, resets and
    the two ways of shutting down.  Objects are passed as state; the segments
    pushed to [_segments_out] stay there until the owner takes them. *)
From stdpp Require Import base tactics list numbers option.
From Stdlib Require Import ZArith Lia.
From S2P Require Import Prelude WrappingIntegers ByteStream StreamReassembler Buffer TCPHeader.
From S2P Require Import TCPSegment SegmentStream TCPReceiver TCPSender.

Record TCPConfig := mkTCPConfig {
  rt_timeout : Z;
  recv_capacity : Z;
  send_capacity : Z;
  fixed_isn : option WrappingInt32
}.

Definition default_config : TCPConfig :=
  mkTCPConfig TIMEOUT_DFLT DEFAULT_CAPACITY DEFAULT_CAPACITY None.

Record TCPConnection := mkTCPConnection {
  _cfg : TCPConfig;
  _receiver : TCPReceiver;
  _sender : TCPSender;
  _segments_out : list TCPSegment;
  _linger_after_streams_finish : bool;
  _time_since_last_segment_received : Z;
  _is_active : bool;
  _sent_SYN : bool
}.

(** The constructor; [random] is the initial sequence number of a sender without a fixed one. *)
Definition new (cfg : TCPConfig) (random : Z) : TCPConnection :=
  mkTCPConnection cfg (TCPReceiver.new (recv_capacity cfg))
    (TCPSender.new (send_capacity cfg) (rt_timeout cfg) (fixed_isn cfg) random)
    [] true 0 true false.

Definition remaining_outbound_capacity (c : TCPConnection) : Z :=
  remaining_capacity (stream_in (_sender c)).
Definition bytes_in_flight (c : TCPConnection) : Z := TCPSender.bytes_in_flight (_sender c).
Definition unassembled_bytes (c : TCPConnection) : Z := TCPReceiver.unassembled_bytes (_receiver c).
Definition time_since_last_segment_received (c : TCPConnection) : Z :=
  _time_since_last_segment_received c.
Definition active (c : TCPConnection) : bool := _is_active c.
Definition segments_out (c : TCPConnection) : list TCPSegment := _segments_out c.
Definition inbound_stream (c : TCPConnection) : ByteStream := TCPReceiver.stream_out (_receiver c).

(** Assignments to single members. *)
Definition set_sender (c : TCPConnection) (s : TCPSender) : TCPConnection :=
  mkTCPConnection (_cfg c) (_receiver c) s (_segments_out c) (_linger_after_streams_finish c)
    (_time_since_last_segment_received c) (_is_active c) (_sent_SYN c).
Definition set_receiver (c : TCPConnection) (r : TCPReceiver) : TCPConnection :=
  mkTCPConnection (_cfg c) r (_sender c) (_segments_out c) (_linger_after_streams_finish c)
    (_time_since_last_segment_received c) (_is_active c) (_sent_SYN c).
Definition set_out (c : TCPConnection) (q : list TCPSegment) : TCPConnection :=
  mkTCPConnection (_cfg c) (_receiver c) (_sender c) q (_linger_after_streams_finish c)
    (_time_since_last_segment_received c) (_is_active c) (_sent_SYN c).
Definition set_linger (c : TCPConnection) (b : bool) : TCPConnection :=
  mkTCPConnection (_cfg c) (_receiver c) (_sender c) (_segments_out c) b
    (_time_since_last_segment_received c) (_is_active c) (_sent_SYN c).
Definition set_time (c : TCPConnection) (t : Z) : TCPConnection :=
  mkTCPConnection (_cfg c) (_receiver c) (_sender c) (_segments_out c)
    (_linger_after_streams_finish c) t (_is_active c) (_sent_SYN c).
Definition set_inactive (c : TCPConnection) : TCPConnection :=
  mkTCPConnection (_cfg c) (_receiver c) (_sender c) (_segments_out c)
    (_linger_after_streams_finish c) (_time_since_last_segment_received c) false (_sent_SYN c).
Definition set_sent_SYN (c : TCPConnection) : TCPConnection :=
  mkTCPConnection (_cfg c) (_receiver c) (_sender c) (_segments_out c)
    (_linger_after_streams_finish c) (_time_since_last_segment_received c) (_is_active c) true.

(** Operations on the streams of the two halves. *)
Definition on_stream_in (c : TCPConnection) (f : ByteStream -> ByteStream) : TCPConnection :=
  set_sender c (set_stream (_sender c) (f (stream_in (_sender c)))).
Definition on_inbound (c : TCPConnection) (f : ByteStream -> ByteStream) : TCPConnection :=
  set_receiver c (set_stream_out (_receiver c) (f (TCPReceiver.stream_out (_receiver c)))).

Definition _kill_connection (c : TCPConnection) : TCPConnection :=
  let c := on_stream_in c set_error in
  let c := on_inbound c set_error in
  set_inactive c.

(** [header().win] is a [uint16_t]. *)
Definition stamp (r : TCPReceiver) (seg_out : TCPSegment) : TCPSegment :=
  let seg_out :=
    match TCPReceiver.ackno r with
    | Some a => set_header seg_out (set_ack (_header seg_out) true a)
    | None => seg_out
    end in
  set_header seg_out (set_win (_header seg_out) (u16 (TCPReceiver.window_size r))).

(** The loop of [_send_segments] over the sender's queue. *)
Fixpoint drain (r : TCPReceiver) (set_rst : bool) (q : list TCPSegment) : list TCPSegment :=
  match q with
  | [] => []
  | seg_out :: q' =>
      let seg_out := stamp r seg_out in
      let seg_out :=
        if set_rst && (match q' with [] => true | _ => false end)
        then set_header seg_out (TCPHeader.set_rst (_header seg_out) true) else seg_out in
      seg_out :: drain r set_rst q'
  end.

Definition _clean_shutdown (c : TCPConnection) : TCPConnection :=
  let c :=
    if input_ended (TCPReceiver.stream_out (_receiver c)) && negb (eof (stream_in (_sender c)))
    then set_linger c false else c in
  if input_ended (TCPReceiver.stream_out (_receiver c)) && (TCPReceiver.unassembled_bytes (_receiver c) =? 0)
     && input_ended (stream_in (_sender c)) && (TCPSender.bytes_in_flight (_sender c) =? 0)
  then
    if negb (_linger_after_streams_finish c)
       || (10 * rt_timeout (_cfg c) <=? time_since_last_segment_received c)
    then set_inactive c else c
  else c.

Definition _send_segments (c : TCPConnection) (set_rst : bool) : TCPConnection :=
  let c := set_sender c (fill_window (_sender c)) in
  let c := if negb (_sent_SYN c) then set_sent_SYN c else c in
  let c := set_out c (_segments_out c ++ drain (_receiver c) set_rst (TCPSender.segments_out (_sender c))) in
  let c := set_sender c (set_segments_out (_sender c) []) in
  _clean_shutdown c.

Definition _unclean_shutdown (c : TCPConnection) : TCPConnection :=
  let c := _kill_connection c in
  let c :=
    match TCPSender.segments_out (_sender c) with
    | [] => set_sender c (send_empty_segment (_sender c))
    | _ => c
    end in
  _send_segments c true.

Definition segment_received (c : TCPConnection) (seg : TCPSegment) : TCPConnection :=
  let h := _header seg in
  let c := set_time c 0 in
  if rst h then _kill_connection c
  else if negb (_sent_SYN c) && ack h then c
  else
    let c := set_receiver c (TCPReceiver.segment_received (_receiver c) seg) in
    let c := if ack h then set_sender c (ack_received (_sender c) (TCPHeader.ackno h) (win h)) else c in
    let c :=
      if (syn h && _sent_SYN c) || fin h || negb (Zlen (str (_payload seg)) =? 0)
      then set_sender c (send_empty_segment (_sender c)) else c in
    _send_segments c false.

Definition write (c : TCPConnection) (data : list byte) : TCPConnection * Z :=
  let '(s, n_bytes_written) := ByteStream.write (stream_in (_sender c)) data in
  (_send_segments (on_stream_in c (fun _ => s)) false, n_bytes_written).

(** [tick]: the addition is in [size_t]. *)
Definition tick (c : TCPConnection) (ms_since_last_tick : Z) : TCPConnection :=
  let c := set_sender c (TCPSender.tick (_sender c) ms_since_last_tick) in
  let c := set_time c (u64 (_time_since_last_segment_received c + ms_since_last_tick)) in
  let c :=
    if consecutive_retransmissions (_sender c) >? MAX_RETX_ATTEMPTS then _unclean_shutdown c else c in
  if _sent_SYN c then _send_segments c false else c.

Definition end_input_stream (c : TCPConnection) : TCPConnection :=
  _send_segments (on_stream_in c end_input) false.

Definition connect (c : TCPConnection) : TCPConnection := _send_segments c false.

(** The destructor, with what it leaves in the outbound queue. *)
Definition destroy (c : TCPConnection) : TCPConnection :=
  if active c then _unclean_shutdown c else c.

(** The reader takes up to [n] bytes of the inbound stream; the owner takes a segment. *)
Definition read_inbound (c : TCPConnection) (n : Z) : TCPConnection * list byte :=
  let '(s, d) := ByteStream.read (inbound_stream c) n in (on_inbound c (fun _ => s), d).
Definition pop_out (c : TCPConnection) : TCPConnection := set_out c (tail (_segments_out c)).

(** Two endpoints: handshake, data one way, both ends closed. *)
Definition ex_cfg (n : Z) : TCPConfig := mkTCPConfig 1000 100 100 (Some (mkWrappingInt32 n)).

(** Deliver everything [a] has queued to [b]. *)
Definition deliver (a b : TCPConnection) : TCPConnection * TCPConnection :=
  (set_out a [], fold_left segment_received (_segments_out a) b).

Definition ex_handshake : TCPConnection * TCPConnection :=
  let '(a, b) := deliver (connect (new (ex_cfg 4294967290) 0)) (new (ex_cfg 17) 0) in
  let '(b, a) := deliver b a in
  deliver a b.

Example handshake_run :
  (bytes_in_flight (fst ex_handshake), bytes_in_flight (snd ex_handshake),
   map (fun c => (TCPReceiver.ackno (_receiver c), segments_out c)) [fst ex_handshake; snd ex_handshake])
  = (0, 0, [(Some (mkWrappingInt32 18), []); (Some (mkWrappingInt32 4294967291), [])]).
Proof. vm_compute. reflexivity. Qed.

(** ** Properties *)

(** Nothing in the header that the connection fills in concerns the stream. *)
Lemma conveys_header S i a g h :
  seqno h = seqno (_header g) -> syn h = syn (_header g) -> fin h = fin (_header g) ->
  conveys S i a g -> conveys S i a (set_header g h).
Proof.
  intros E1 E2 E3 [H1 H2 H3 H4]. split; unfold stream_index in *; cbn [set_header _header _payload];
    rewrite ?E1, ?E2, ?E3; done.
Qed.

Lemma on_wire_header S i n g h :
  seqno h = seqno (_header g) -> syn h = syn (_header g) -> fin h = fin (_header g) ->
  on_wire S i n g -> on_wire S i n (set_header g h).
Proof.
  intros E1 E2 E3 [(H1 & H2 & H3 & H4)|(a & Hc & Hl)].
  - left. unfold vacant. cbn [set_header _header _payload]. by rewrite E1, E2, E3.
  - right. exists a. split; [by apply conveys_header|]. unfold seg_len in *.
    cbn [set_header _header _payload]. by rewrite E2, E3.
Qed.

Lemma on_wire_stamp S i n r g : on_wire S i n g -> on_wire S i n (stamp r g).
Proof.
  intros H. unfold stamp. apply on_wire_header; [done..|].
  destruct (TCPReceiver.ackno r); [by apply on_wire_header|done].
Qed.

Lemma drain_on_wire S i n r b q :
  Forall (on_wire S i n) q -> Forall (on_wire S i n) (drain r b q).
Proof.
  induction q as [|g q IH]; intros H; cbn [drain]; [done|]. inversion_clear H.
  constructor; [|by apply IH]. destruct (_ && _); [apply on_wire_header; [done..|]|]; by apply on_wire_stamp.
Qed.

(** The shutdown test touches the linger and active flags only. *)
Lemma clean_shutdown_fields c :
  let c' := _clean_shutdown c in
  _sender c' = _sender c /\ _receiver c' = _receiver c /\ _segments_out c' = _segments_out c /\
  _sent_SYN c' = _sent_SYN c /\ _cfg c' = _cfg c /\
  _time_since_last_segment_received c' = _time_since_last_segment_received c /\
  (_is_active c' = false -> _is_active c = false \/
     input_ended (inbound_stream c) = true /\ input_ended (stream_in (_sender c)) = true /\
     TCPSender.bytes_in_flight (_sender c) = 0).
Proof.
  unfold _clean_shutdown, inbound_stream.
  destruct (input_ended (TCPReceiver.stream_out (_receiver c)) && negb (eof (stream_in (_sender c)))) eqn:E1;
  cbn [set_linger _receiver _sender _cfg _linger_after_streams_finish];
  (destruct (_ && _ && _ && _) eqn:E2; [destruct (_ || _)|]);
  cbn; split_and!; try done; try (by left); intros _; right; bsplit; done.
Qed.

Lemma send_segments_fields c b :
  let c' := _send_segments c b in
  _sender c' = set_segments_out (fill_window (_sender c)) [] /\ _receiver c' = _receiver c /\
  _segments_out c' =
    _segments_out c ++ drain (_receiver c) b (TCPSender.segments_out (fill_window (_sender c))) /\
  _sent_SYN c' = true /\ _cfg c' = _cfg c /\
  _time_since_last_segment_received c' = _time_since_last_segment_received c /\
  (_is_active c' = false -> _is_active c = false \/
     input_ended (inbound_stream c) = true /\
     input_ended (stream_in (fill_window (_sender c))) = true /\
     TCPSender.bytes_in_flight (fill_window (_sender c)) = 0).
Proof.
  unfold _send_segments.
  match goal with |- context [_clean_shutdown ?x] =>
    destruct (clean_shutdown_fields x) as (-> & -> & -> & -> & -> & -> & Ha);
    generalize dependent (_clean_shutdown x) end.
  intros c' Ha. cbn in Ha |- *. destruct (negb (_sent_SYN c)) eqn:E; cbn in Ha |- *;
    split_and!; try done. by apply negb_false_iff in E.
Qed.

(** ** Runs of an endpoint

    [reach S cfg i W c]: a connection with configuration [cfg] and initial
    sequence number [i] can be in state [c] after its writer has had the bytes
    [W] of its stream [S] accepted.  The segments that arrive are arbitrary. *)
Inductive reach (S : list byte) (cfg : TCPConfig) (i : WrappingInt32)
  : list byte -> TCPConnection -> Prop :=
  | reach_new : reach S cfg i [] (new cfg 0)
  | reach_connect W c : reach S cfg i W c -> reach S cfg i W (connect c)
  | reach_write W c d :
      reach S cfg i W c ->
      W ++ ztake (snd (write c d)) d `prefix_of` S ->
      reach S cfg i (W ++ ztake (snd (write c d)) d) (fst (write c d))
  | reach_end c : reach S cfg i S c -> reach S cfg i S (end_input_stream c)
  | reach_segment W c seg :
      reach S cfg i W c -> 0 <= win (_header seg) < 2 ^ 16 ->
      reach S cfg i W (segment_received c seg)
  | reach_tick W c ms : reach S cfg i W c -> 0 <= ms -> reach S cfg i W (tick c ms)
  | reach_read W c n : reach S cfg i W c -> 0 <= n -> reach S cfg i W (fst (read_inbound c n))
  | reach_pop W c : reach S cfg i W c -> reach S cfg i W (pop_out c).

(** Both streams failed. *)
Definition killed (c : TCPConnection) : Prop :=
  error (inbound_stream c) = true /\ error (stream_in (_sender c)) = true.
(** The outbound stream is sent and acknowledged with its FIN, the inbound one has ended. *)
Definition finished (c : TCPConnection) : Prop :=
  closed (_sender c) /\ input_ended (inbound_stream c) = true.

Section Runs.
Context (S : list byte) (cfg : TCPConfig) (i : WrappingInt32).
Context (HS : Zlen S < 2 ^ 32) (Hi : fixed_isn cfg = Some i).
Context (Hsend : 0 <= send_capacity cfg < 2 ^ 32) (Hrecv : 0 <= recv_capacity cfg < 2 ^ 32).

Abbreviation sender_reach := (TCPSender.reach S (send_capacity cfg) (rt_timeout cfg) i).

(** What holds inside an operation, before [_send_segments]. *)
Record working (W : list byte) (c : TCPConnection) : Prop := {
  wk_cfg : _cfg c = cfg;
  wk_sender : sender_reach W (_sender c);
  wk_settled : settled (_reassembler (_receiver c));
  wk_out : Forall (on_wire S i (_next_seqno (_sender c))) (_segments_out c);
  wk_done : _is_active c = false -> killed c \/ finished c;
  wk_error : error (inbound_stream c) = error (stream_in (_sender c));
  wk_synced : input_ended (inbound_stream c) = true -> recievedSYN (_receiver c) = true
}.

(** What holds between operations. *)
Record cinv (W : list byte) (c : TCPConnection) : Prop := {
  ci_working : working W c;
  ci_queue : TCPSender._segments_out (_sender c) = [];
  ci_syn : _sent_SYN c = _syn (_sender c)
}.

(** Replacing the sender by a later one, and the receiver by one with the same flags. *)
Lemma working_sender W W' c s :
  working W c -> sender_reach W' s -> _next_seqno (_sender c) <= _next_seqno s ->
  error (_stream s) = error (_stream (_sender c)) -> (closed (_sender c) -> closed s) ->
  working W' (set_sender c s).
Proof.
  intros [H1 H2 H3 H4 H5 H6 H7] Hs Hn He Hc. split; try done; cbn [set_sender _segments_out _sender].
  - eapply Forall_impl; [|exact H4]. intros g Hg. eapply on_wire_mono; [exact Hg|done].
  - intros Ha. destruct (H5 Ha) as [[K1 K2]|[K1 K2]]; [left|right]; split; try done.
    + unfold stream_in in *. cbn. by rewrite He.
    + by apply Hc.
  - unfold stream_in in *. by rewrite He.
Qed.

Lemma working_receiver W c r :
  working W c -> settled (_reassembler r) ->
  error (TCPReceiver.stream_out r) = error (inbound_stream c) ->
  (input_ended (inbound_stream c) = true -> input_ended (TCPReceiver.stream_out r) = true) ->
  (input_ended (TCPReceiver.stream_out r) = true -> recievedSYN r = true) ->
  working W (set_receiver c r).
Proof.
  intros [H1 H2 H3 H4 H5 H6 H7] Hs He Hend Hsy. split; try done.
  - intros Ha. destruct (H5 Ha) as [[K1 K2]|[K1 K2]]; [left|right]; split; try done.
    + unfold inbound_stream in *. cbn. by rewrite He.
    + by apply Hend.
  - unfold inbound_stream in *. cbn. by rewrite He.
Qed.

Lemma working_inv W c :
  working W c -> exists a, inv S (_sender c) a /\ hist a = W /\ 0 <= _rwnd (_sender c) < 2 ^ 16.
Proof.
  intros [_ Hr _ _ _ _ _]. destruct (reach_inv S _ _ i HS Hsend _ _ Hr) as (a & Ha & HW).
  destruct (reach_params S _ _ i HS Hsend _ _ Hr). eauto.
Qed.

Lemma send_segments_cinv W c b : working W c -> cinv W (_send_segments c b).
Proof.
  intros Hw. destruct (working_inv W c Hw) as (a & Hinv & _ & Hrw).
  destruct (fill_window_grows S HS _ a Hinv) as (Hn & Hsyn & He & Hend).
  destruct (send_segments_fields c b) as (E1 & E2 & E3 & E4 & E5 & _ & Ha).
  pose proof Hw as [Hcfg Hr Hset Hout Hdone Herr Hsync].
  assert (sender_reach W (fill_window (_sender c))) as Hr' by (by apply TCPSender.reach_fill).
  assert (Forall (on_wire S i (_next_seqno (fill_window (_sender c)))) (TCPSender._segments_out (fill_window (_sender c)))) as Hwire.
  { destruct (reach_inv S _ _ i HS Hsend _ _ Hr') as (a' & [Hfl _] & _).
    destruct (reach_params S _ _ i HS Hsend _ _ Hr') as [Ei _]. pose proof (fl_out _ _ Hfl) as Ho.
    by rewrite Ei in Ho. }
  split; [split|..]; rewrite ?E1, ?E2, ?E3, ?E4, ?E5; try done.
  - by apply reach_drained.
  - cbn [set_segments_out _next_seqno]. apply Forall_app. split; [|by apply drain_on_wire].
    eapply Forall_impl; [|exact Hout]. intros g Hg. eapply on_wire_mono; [exact Hg|done].
  - intros Hact. unfold killed, finished, inbound_stream, stream_in in *. rewrite E1, E2.
    cbn [set_segments_out _stream].
    destruct (Ha Hact) as [Hin|(I1 & I2 & I3)].
    + destruct (Hdone Hin) as [[K1 K2]|[K1 K2]]; [left; by rewrite He|right].
      by rewrite closed_fill.
    + right. split; [|done]. by apply (idle_closed S _ a).
  - unfold inbound_stream, stream_in in *. rewrite ?E1, ?E2. cbn [set_segments_out _stream]. by rewrite He.
  - unfold inbound_stream in *. by rewrite E2.
Qed.

Lemma working_time W c t : working W c -> working W (set_time c t).
Proof. intros []. by split. Qed.

Lemma kill_working W c : working W c -> working W (_kill_connection c).
Proof.
  intros [H1 H2 H3 H4 H5 H6 H7]. split; try done.
  - by apply TCPSender.reach_error.
  - cbn. apply set_output_settled; [done | apply set_error_wf, H3 | apply H3 | done].
  - intros _. left. done.
Qed.

Lemma write_error st d : error (fst (ByteStream.write st d)) = error st.
Proof.
  rewrite write_eq. unfold error. by destruct (write_loop _ _ _ _).
Qed.

Lemma empty_working W c : working W c -> working W (set_sender c (send_empty_segment (_sender c))).
Proof.
  intros Hw. apply (working_sender W); [done| |done|done|done].
  apply TCPSender.reach_empty, Hw.
Qed.

Lemma unclean_cinv W c : working W c -> cinv W (_unclean_shutdown c).
Proof.
  intros Hw. unfold _unclean_shutdown. apply send_segments_cinv. apply kill_working in Hw.
  destruct (TCPSender.segments_out _); [by apply empty_working|done].
Qed.

Lemma segment_working W c seg :
  working W c -> working W (set_receiver c (TCPReceiver.segment_received (_receiver c) seg)).
Proof.
  intros Hw. destruct (segment_received_flags (_receiver c) seg (wk_settled _ _ Hw)) as (? & ? & ? & ? & Hid).
  apply working_receiver; try done. intros He.
  destruct (recievedSYN (TCPReceiver.segment_received (_receiver c) seg)) eqn:E; [done|].
  rewrite (Hid eq_refl) in He. rewrite (Hid eq_refl), (wk_synced _ _ Hw He) in E. done.
Qed.

Lemma ack_working W c ackno w :
  working W c -> 0 <= w < 2 ^ 16 -> working W (set_sender c (ack_received (_sender c) ackno w)).
Proof.
  intros Hw Hwin. destruct (working_inv W c Hw) as (a & Hinv & _).
  destruct (ack_received_grows S HS _ a ackno w Hinv) as (Hn & He).
  apply (working_sender W); try done.
  - apply TCPSender.reach_ack; [apply Hw|done].
  - intros Hc. by rewrite (closed_ack S _ a).
Qed.

Lemma tick_working W c ms :
  working W c -> 0 <= ms -> working W (set_sender c (TCPSender.tick (_sender c) ms)).
Proof.
  intros Hw Hms. destruct (tick_fields (_sender c) ms) as (E1 & _ & _ & _ & _ & E6 & _).
  apply (working_sender W); [done|apply TCPSender.reach_tick; [apply Hw|done]|by rewrite E6|
    unfold error; by rewrite E1|apply closed_tick].
Qed.

(** Before SYN nothing is in flight, so that a tick queues nothing. *)
Lemma tick_unsynced W c ms :
  cinv W c -> _syn (_sender c) = false ->
  TCPSender._segments_out (TCPSender.tick (_sender c) ms) = [].
Proof.
  intros [Hw Hq _] Hsyn. destruct (working_inv W c Hw) as (a & [Hfl Hsk] & _).
  destruct (tick_fields (_sender c) ms) as (_ & _ & _ & _ & _ & _ & _ & _ & _ & [->|(top & Etop & _)]); [done|].
  destruct (flight_top S _ top Hfl Etop) as (q & Eq & _ & ?).
  pose proof (sk_next _ _ _ Hsk) as Hn. rewrite Hsyn in Hn. pose proof (fl_chk_le _ _ Hfl).
  pose proof (fl_chk _ _ Hfl) as Hc. pose proof (fl_tiles _ _ Hfl) as Ht. rewrite Eq in Hc, Ht.
  cbn [tiles] in Ht. destruct Ht as (_ & _ & _ & Ht). apply tiles_le in Ht.
  unfold first_outstanding in Ht. rewrite Eq in Ht. lia.
Qed.

Lemma tick_cinv W c ms : cinv W c -> 0 <= ms -> cinv W (tick c ms).
Proof.
  intros Hc Hms. pose proof Hc as [Hw Hq Hs]. unfold tick.
  set (c1 := set_time (set_sender c (TCPSender.tick (_sender c) ms)) _).
  assert (working W c1) as Hw1 by (by apply working_time, tick_working).
  destruct (_ >? _).
  - pose proof (unclean_cinv W c1 Hw1) as Hc2.
    destruct (_sent_SYN (_unclean_shutdown c1)); [by apply send_segments_cinv, Hc2|done].
  - destruct (_sent_SYN c1) eqn:E; [by apply send_segments_cinv|].
    change (_sent_SYN c1) with (_sent_SYN c) in E. rewrite Hs in E.
    destruct (tick_fields (_sender c) ms) as (_ & E2 & _).
    split; [done|by eapply tick_unsynced|]. cbn. by rewrite E2, Hs.
Qed.

Lemma segment_cinv W c seg :
  cinv W c -> 0 <= win (_header seg) < 2 ^ 16 -> cinv W (segment_received c seg).
Proof.
  intros [Hw Hq Hs] Hwin. unfold segment_received. apply (working_time W c 0) in Hw.
  destruct (rst (_header seg)); [by split; [apply kill_working|..]|].
  destruct (_ && _); [by split|]. apply send_segments_cinv.
  apply (segment_working W _ seg) in Hw.
  set (c1 := set_receiver _ _) in *.
  assert (working W (if ack (_header seg)
    then set_sender c1 (ack_received (_sender c1) (TCPHeader.ackno (_header seg)) (win (_header seg)))
    else c1)) as Hw1 by (destruct (ack (_header seg)); [by apply ack_working|done]).
  destruct (_ || _); [by apply empty_working|done].
Qed.

Lemma reach_cinv W c : reach S cfg i W c -> cinv W c.
Proof.
  induction 1 as [|W c _ IH|W c d _ IH Hpre|c _ IH|W c seg _ IH Hwin|W c ms _ IH Hms|W c n _ IH Hn|W c _ IH].
  - split; [split|..]; try done.
    + unfold new. cbn. rewrite Hi. apply TCPSender.reach_new.
    + by apply new_settled.
  - unfold connect. by apply send_segments_cinv, ci_working.
  - pose proof IH as [Hw Hq Hs]. unfold write in *.
    pose proof (TCPSender.reach_write _ _ _ _ W _ d (wk_sender _ _ Hw)) as Hr.
    pose proof (write_error (_stream (_sender c)) d) as He. unfold stream_in in *.
    destruct (ByteStream.write (_stream (_sender c)) d) as [st n]. cbn [fst snd] in *.
    apply send_segments_cinv. apply (working_sender W); try done. by apply Hr.
  - pose proof IH as [Hw Hq Hs]. unfold end_input_stream, on_stream_in.
    apply send_segments_cinv, (working_sender S); try done.
    apply TCPSender.reach_end, Hw.
  - by apply segment_cinv.
  - by apply tick_cinv.
  - pose proof IH as [Hw Hq Hs]. unfold read_inbound.
    assert (settled (_reassembler (_receiver c))) as Hset by apply Hw.
    pose proof (read_output_settled _ n Hset Hn) as Hset'.
    destruct (read_spec (inbound_stream c) n) as (_ & _ & _ & _ & _ & _ & _ & E1 & E2); [apply Hset|done|].
    change (_output (_reassembler (_receiver c))) with (inbound_stream c) in Hset'.
    destruct (ByteStream.read (inbound_stream c) n) as [st d]. cbn [fst] in *.
    split; [|done|done]. apply working_receiver; try done; unfold input_ended; cbn; [congruence|].
    rewrite E1. apply (wk_synced _ _ Hw).
  - destruct IH as [[] ? ?]. split; [split|..]; try done. cbn.
    destruct (_segments_out c) as [|g q]; [done|]. by inversion wk_out0.
Qed.

End Runs.

(** ** Correctness of an endpoint *)

(** C9. An endpoint only sends genuine segments.  Whatever segments arrive, in
    any state the connection can reach, every segment it has queued for the
    network carries the bytes of its writer's stream at the position given by
    its sequence number. *)
Theorem connection_segments_genuine S cfg i W c :
  Zlen S < 2 ^ 32 -> fixed_isn cfg = Some i -> 0 <= send_capacity cfg < 2 ^ 32 ->
  0 <= recv_capacity cfg < 2 ^ 32 -> reach S cfg i W c ->
  Forall (on_wire S i (next_seqno_absolute (_sender c))) (segments_out c).
Proof. intros HS Hi Hs Hr H. apply (reach_cinv S cfg i HS Hi Hs Hr W c H). Qed.

(** *** How a connection ends *)

Lemma send_segments_killed c b : killed c -> killed (_send_segments c b).
Proof.
  destruct (send_segments_fields c b) as (E1 & E2 & _). intros [K1 K2]. unfold killed, inbound_stream, stream_in in *.
  rewrite E1, E2. cbn [set_segments_out _stream]. by rewrite fill_window_error.
Qed.

Lemma unclean_killed c : killed (_unclean_shutdown c).
Proof.
  unfold _unclean_shutdown. apply send_segments_killed. by destruct (TCPSender.segments_out _).
Qed.

(** The operation that ends a connection cleanly leaves nothing to be done. *)
Definition settled_up (c : TCPConnection) : Prop :=
  input_ended (inbound_stream c) = true /\ unassembled_bytes c = 0 /\
  input_ended (stream_in (_sender c)) = true /\ bytes_in_flight c = 0.

Lemma send_segments_ends c b :
  active c = true -> active (_send_segments c b) = false -> settled_up (_send_segments c b).
Proof.
  unfold _send_segments. generalize (fill_window (_sender c)) as s. intros s Ha.
  match goal with |- context [_clean_shutdown ?x] => set (c1 := x) end.
  assert (active c1 = true) as Ha1 by (unfold c1, active in *; by destruct (negb _)).
  clearbody c1. unfold settled_up, active, inbound_stream, unassembled_bytes, bytes_in_flight, _clean_shutdown in *.
  destruct (input_ended (TCPReceiver.stream_out (_receiver c1)) && negb (eof (stream_in (_sender c1))));
    cbn [set_linger _receiver _sender _cfg _linger_after_streams_finish];
    (destruct (_ && _ && _ && _) eqn:E; [destruct (_ || _)|]); cbn; intros; try congruence; by bsplit.
Qed.

(** What can happen to a connection. *)
Inductive operation (c : TCPConnection) : TCPConnection -> Prop :=
  | op_connect : operation c (connect c)
  | op_write d : operation c (fst (write c d))
  | op_end : operation c (end_input_stream c)
  | op_segment seg : operation c (segment_received c seg)
  | op_tick ms : operation c (tick c ms)
  | op_read n : operation c (fst (read_inbound c n))
  | op_pop : operation c (pop_out c).

Lemma operation_ends c c' :
  operation c c' -> active c = true -> active c' = false -> killed c' \/ settled_up c'.
Proof.
  intros Hop Ha H. revert H. destruct Hop as [|d| |seg|ms|n|].
  - intros H. right. exact (send_segments_ends c false Ha H).
  - unfold write. destruct (ByteStream.write _ _) as [s n]. cbn [fst]. intros H. right.
    exact (send_segments_ends (on_stream_in c (fun _ => s)) false Ha H).
  - intros H. right. exact (send_segments_ends (on_stream_in c end_input) false Ha H).
  - unfold segment_received. destruct (rst _); [by left|]. destruct (_ && _); [unfold active in *; cbn; congruence|].
    right. apply send_segments_ends; [|done]. unfold active in *. by destruct (_ || _ || _), (ack _).
  - unfold tick. destruct (_ >? _).
    + left. destruct (_sent_SYN _); [apply send_segments_killed|]; apply unclean_killed.
    + right. destruct (_sent_SYN _); [by apply send_segments_ends|]. unfold active in *. cbn in *. congruence.
  - unfold read_inbound. destruct (ByteStream.read _ _). unfold active in *. cbn. congruence.
  - unfold active in *. cbn. congruence.
Qed.

(** C16. A connection ends in one of two ways.  When it is no longer active,
    either both of its streams have failed (a reset), or the shutdown was
    clean: the inbound stream has ended, all of the writer's stream has been
    written and sent with its FIN, and everything has been acknowledged.  And
    when the operation that ended it was clean, no received byte is left
    waiting to be assembled. *)
Theorem shutdown_complete S cfg i W c :
  Zlen S < 2 ^ 32 -> fixed_isn cfg = Some i -> 0 <= send_capacity cfg < 2 ^ 32 ->
  0 <= recv_capacity cfg < 2 ^ 32 -> reach S cfg i W c ->
  (active c = false ->
   (error (inbound_stream c) = true /\ error (stream_in (_sender c)) = true) \/
   (input_ended (inbound_stream c) = true /\ W = S /\ bytes_in_flight c = 0 /\
    next_seqno_absolute (_sender c) = Zlen S + 2 /\ _checkpoint (_sender c) = Zlen S + 2)) /\
  (forall c', operation c c' -> active c = true -> active c' = false ->
   (error (inbound_stream c') = true /\ error (stream_in (_sender c')) = true) \/
   (input_ended (inbound_stream c') = true /\ unassembled_bytes c' = 0 /\
    input_ended (stream_in (_sender c')) = true /\ bytes_in_flight c' = 0)).
Proof.
  intros HS Hi Hs Hr H. split; [intros Ha|intros c'; apply operation_ends].
  destruct (reach_cinv S cfg i HS Hi Hs Hr W c H) as [Hw _ _].
  destruct (wk_done _ _ _ _ _ Hw Ha) as [[K1 K2]|[K1 K2]]; [by left|right].
  destruct (working_inv S cfg i HS Hs W c Hw) as (a & Hinv & HW & _).
  destruct (closed_numbers S _ a Hinv K1) as (E1 & E2 & E3 & E4).
  split_and!; done || congruence.
Qed.

Lemma send_segments_inactive c b : active c = false -> active (_send_segments c b) = false.
Proof.
  unfold active, _send_segments, _clean_shutdown. intros H.
  repeat match goal with |- context [if ?x then _ else _] => destruct x end; done.
Qed.

Lemma unclean_inactive c : active (_unclean_shutdown c) = false.
Proof.
  unfold _unclean_shutdown. apply send_segments_inactive. by destruct (TCPSender.segments_out _).
Qed.


Lemma drain_rst r q : q <> [] -> exists l g, drain r true q = l ++ [g] /\ rst (_header g) = true.
Proof.
  induction q as [|g q IH]; intros Hq; [done|]. cbn [drain andb]. destruct q as [|g' q].
  - by eexists [], _.
  - destruct IH as (l & x & -> & Hx); [done|]. by eexists (_ :: l), x.
Qed.

(** A queued segment stays queued when the window is filled. *)
Lemma fill_window_queue s : TCPSender._segments_out s <> [] -> TCPSender._segments_out (fill_window s) <> [].
Proof.
  intros H. destruct (fill_window_emits s) as (sent & _ & ->). intros E. by apply app_nil in E as [E _].
Qed.

Lemma unclean_rst c :
  exists l g, segments_out (_unclean_shutdown c) = segments_out c ++ l ++ [g] /\ rst (_header g) = true.
Proof.
  unfold _unclean_shutdown.
  match goal with |- context [_send_segments ?x true] => set (c1 := x) end.
  destruct (send_segments_fields c1 true) as (_ & _ & E & _). unfold segments_out. rewrite E.
  assert (TCPSender._segments_out (_sender c1) <> [] /\ _segments_out c1 = _segments_out c) as [Hq ->].
  { unfold c1, TCPSender.segments_out.
    destruct (TCPSender._segments_out (_sender (_kill_connection c))) eqn:Eq; split; try done.
    - intros H. by apply app_nil in H as [_ H].
    - by rewrite Eq. }
  destruct (drain_rst (_receiver c1) _ (fill_window_queue _ Hq)) as (l & g & El & Hg).
  exists l, g. unfold TCPSender.segments_out. by rewrite El.
Qed.

Lemma reset_after_limit c :
  let c2 := _unclean_shutdown c in
  let c3 := if _sent_SYN c2 then _send_segments c2 false else c2 in
  active c3 = false /\ killed c3 /\
  exists l g l', segments_out c3 = segments_out c ++ l ++ g :: l' /\ rst (_header g) = true.
Proof.
  destruct (unclean_rst c) as (l & g & El & Hg). pose proof (unclean_inactive c) as Ha. pose proof (unclean_killed c) as Hk.
  cbv zeta. revert El Ha Hk. generalize (_unclean_shutdown c) as c2. intros c2 El Ha Hk.
  destruct (_sent_SYN c2); [|rewrite El; split; [done|split; [done|by eexists l, g, []]]].
  split; [by apply send_segments_inactive|]. split; [by apply send_segments_killed|].
  destruct (send_segments_fields c2 false) as (_ & _ & E & _).
  unfold segments_out in *. rewrite E, El, <- !app_assoc. by eexists l, g, _.
Qed.

Lemma tick_over c ms :
  consecutive_retransmissions (TCPSender.tick (_sender c) ms) > MAX_RETX_ATTEMPTS ->
  let c1 := set_time (set_sender c (TCPSender.tick (_sender c) ms))
              (u64 (_time_since_last_segment_received c + ms)) in
  tick c ms = let c2 := _unclean_shutdown c1 in if _sent_SYN c2 then _send_segments c2 false else c2.
Proof.
  intros H c1. unfold tick. fold c1.
  change (_sender (set_time (set_sender c (TCPSender.tick (_sender c) ms)) _))
    with (TCPSender.tick (_sender c) ms).
  destruct (Z.gtb_spec (consecutive_retransmissions (TCPSender.tick (_sender c) ms)) MAX_RETX_ATTEMPTS);
    [done|lia].
Qed.

(** C18. The retransmission limit.  When the timeout expires on a connection
    that has already retransmitted [MAX_RETX_ATTEMPTS] times in a row, [tick]
    gives up: the connection becomes inactive, both streams fail, and a
    segment with RST is queued for the peer. *)
Theorem retransmission_limit c ms e :
  pq_top (_segments_in_flight (_sender c)) = Some e -> 0 < _rwnd (_sender c) ->
  consecutive_retransmissions (_sender c) = MAX_RETX_ATTEMPTS ->
  _rto (_sender c) <= u64 (_time_spent (_sender c) + ms) ->
  let c' := tick c ms in
  active c' = false /\ error (inbound_stream c') = true /\ error (stream_in (_sender c')) = true /\
  exists l g l', segments_out c' = segments_out c ++ l ++ g :: l' /\ rst (_header g) = true.
Proof.
  intros Htop Hw Hn Hexp. rewrite tick_over.
  - destruct (reset_after_limit (set_time (set_sender c (TCPSender.tick (_sender c) ms))
      (u64 (_time_since_last_segment_received c + ms)))) as (Ha & [K1 K2] & l & g & l' & E & Hg).
    split; [exact Ha|]. split; [exact K1|]. split; [exact K2|]. exists l, g, l'. split; [exact E|exact Hg].
  - rewrite (tick_expired _ e ms Htop Hw Hexp). unfold consecutive_retransmissions in *.
    cbn [set_timer _n_consecutive_retransmissions]. rewrite Hn. reflexivity.
Qed.

(** The verdict of [_clean_shutdown] when both streams are finished. *)
Lemma clean_shutdown_active c :
  input_ended (inbound_stream c) = true -> eof (stream_in (_sender c)) = true ->
  unassembled_bytes c = 0 -> bytes_in_flight c = 0 ->
  active (_clean_shutdown c) =
    active c && _linger_after_streams_finish c &&
    (time_since_last_segment_received c <? 10 * rt_timeout (_cfg c)).
Proof.
  intros H1 H2 H3 H4. unfold eof in H2. bsplit. unfold _clean_shutdown, eof, inbound_stream,
    unassembled_bytes, bytes_in_flight, input_ended, active in *. rewrite H1, H, H0. cbn [andb negb].
  rewrite H3, H4, H. cbn [andb Z.eqb].
  destruct (_linger_after_streams_finish c), (Z.leb_spec (10 * rt_timeout (_cfg c)) (time_since_last_segment_received c)),
    (Z.ltb_spec (time_since_last_segment_received c) (10 * rt_timeout (_cfg c))); cbn; try lia;
    rewrite H1; cbn; by rewrite ?andb_true_r, ?andb_false_r.
Qed.

(** The outbound queue plays no part in it. *)
Lemma clean_shutdown_out c q : active (_clean_shutdown (set_out c q)) = active (_clean_shutdown c).
Proof.
  unfold active, _clean_shutdown. cbn [set_out _receiver _sender].
  destruct (input_ended (stream_out (_receiver c)) && negb (eof (stream_in (_sender c))));
    cbn [set_linger set_out _receiver _sender]; destruct (_ && _ && _ && _); try done;
    cbn [set_linger set_out _linger_after_streams_finish _cfg]; by destruct (_ || _).
Qed.

Lemma closed_tick_count s ms :
  closed s -> consecutive_retransmissions (TCPSender.tick s ms) = consecutive_retransmissions s.
Proof.
  intros (_ & _ & Hq). unfold TCPSender.tick. cbn [set_timer _segments_in_flight]. rewrite Hq.
  cbn [pq_top set_timer _segments_in_flight]. by rewrite Hq.
Qed.

(** A tick of a connection whose outbound stream is closed only lets time pass. *)
Lemma tick_closed c ms :
  closed (_sender c) -> _sent_SYN c = true ->
  consecutive_retransmissions (_sender c) <= MAX_RETX_ATTEMPTS ->
  exists s, closed s /\ _stream s = _stream (_sender c) /\
    TCPSender.bytes_in_flight s = TCPSender.bytes_in_flight (_sender c) /\
    active (tick c ms) = active (_clean_shutdown (set_time (set_sender c s)
      (u64 (time_since_last_segment_received c + ms)))).
Proof.
  intros Hcl Hsyn Hn. exists (set_segments_out (TCPSender.tick (_sender c) ms) []).
  pose proof (closed_tick _ ms Hcl) as Hcl'. destruct (tick_fields (_sender c) ms) as (E1 & _ & _ & _ & _ & _ & _ & E8 & _).
  split_and!; [exact Hcl'|exact E1|exact E8|]. unfold tick.
  change (_sender (set_time (set_sender c (TCPSender.tick (_sender c) ms)) _))
    with (TCPSender.tick (_sender c) ms).
  rewrite closed_tick_count by done.
  destruct (Z.gtb_spec (consecutive_retransmissions (_sender c)) MAX_RETX_ATTEMPTS); [lia|].
  cbn [set_time set_sender _sent_SYN]. rewrite Hsyn. unfold _send_segments.
  cbn [set_sender set_time _sender]. rewrite (closed_fill _ Hcl').
  cbn [set_sender set_time _sent_SYN]. rewrite Hsyn.
  cbn [negb]. symmetry.
  refine (eq_trans (eq_sym (clean_shutdown_out _ (_segments_out c ++ drain (_receiver c) false
    (TCPSender.segments_out (TCPSender.tick (_sender c) ms))))) _). reflexivity.
Qed.

(** C17. Lingering.  When both streams are finished (the inbound stream ended and
    assembled, the outbound one sent and acknowledged with its FIN), a tick
    leaves an active connection active exactly if it has to linger and fewer
    than ten initial timeouts have passed since the last segment; an endpoint
    whose peer finished first does not linger at all. *)
Theorem linger_time S cfg i W c ms :
  Zlen S < 2 ^ 32 -> fixed_isn cfg = Some i -> 0 <= send_capacity cfg < 2 ^ 32 ->
  0 <= recv_capacity cfg < 2 ^ 32 -> reach S cfg i W c -> active c = true ->
  closed (_sender c) -> input_ended (inbound_stream c) = true -> unassembled_bytes c = 0 ->
  consecutive_retransmissions (_sender c) <= MAX_RETX_ATTEMPTS ->
  0 <= time_since_last_segment_received c + ms < 2 ^ 64 ->
  active (tick c ms) =
    _linger_after_streams_finish c &&
    (time_since_last_segment_received c + ms <? 10 * rt_timeout cfg).
Proof.
  intros HS Hi Hs Hr H Ha Hcl Hin Hun Hn Ht.
  destruct (reach_cinv S cfg i HS Hi Hs Hr W c H) as [Hw _ Hsyn].
  destruct (working_inv S cfg i HS Hs W c Hw) as (a & Hinv & _).
  destruct (closed_numbers S _ a Hinv Hcl) as (_ & _ & _ & Hb). destruct Hinv as [_ Hsk].
  destruct Hcl as (K1 & K2 & K3) eqn:Ecl. destruct (sk_fin _ _ _ Hsk K2) as [He Hp].
  assert (eof (_stream (_sender c)) = true) as Heof.
  { rewrite (stream_eof _ a (sk_ref _ _ _ Hsk)), He, Hp, Z.sub_diag. done. }
  destruct (tick_closed c ms Hcl) as (s & _ & Es & Eb & ->); [congruence|done|].
  rewrite clean_shutdown_active; cbn [set_time set_sender _receiver _sender]; try done.
  - rewrite u64_small by lia. unfold active in *. cbn [set_time set_sender _is_active
      _linger_after_streams_finish _cfg time_since_last_segment_received
      _time_since_last_segment_received]. by rewrite Ha, (wk_cfg _ _ _ _ _ Hw).
  - unfold stream_in. by rewrite Es.
  - unfold bytes_in_flight. cbn. rewrite Eb. exact Hb.
Qed.

(** A listening endpoint answers anything with a SYN.  Before a connection
    is opened, any segment without RST and ACK, be it without SYN, makes the
    endpoint send a SYN of its own, although the receiver ignores the segment. *)
Theorem listen_opens_on_stray S cfg i W c seg :
  Zlen S < 2 ^ 32 -> fixed_isn cfg = Some i -> 0 <= send_capacity cfg < 2 ^ 32 ->
  0 <= recv_capacity cfg < 2 ^ 32 -> reach S cfg i W c -> _sent_SYN c = false ->
  recievedSYN (_receiver c) = false ->
  rst (_header seg) = false -> ack (_header seg) = false -> syn (_header seg) = false ->
  let c' := segment_received c seg in
  _receiver c' = _receiver c /\ exists g, g ∈ segments_out c' /\ syn (_header g) = true.
Proof.
  intros HS Hi Hs Hr H Hns Hnr Hrst Hack Hsyn c'.
  destruct (reach_cinv S cfg i HS Hi Hs Hr W c H) as [Hw _ Hss]. rewrite Hns in Hss.
  unfold c', segment_received. rewrite Hrst, Hack, Hsyn. cbn [set_time _sent_SYN]. rewrite andb_false_r.
  assert (TCPReceiver.segment_received (_receiver (set_time c 0)) seg = _receiver c) as ->.
  { rewrite segment_received_ignored; [done|]. cbn. by rewrite Hnr, Hsyn. }
  cbn [andb orb]. match goal with |- context [_send_segments ?x false] => set (c1 := x) end.
  destruct (send_segments_fields c1 false) as (_ & Er & Eo & _). rewrite Er. unfold segments_out. rewrite Eo.
  assert (_syn (_sender c1) = false /\ _receiver c1 = _receiver c) as [Hs1 ->]
    by (unfold c1; destruct (_ || _); done).
  split; [done|]. set (g0 := set_header default_segment (set_syn default_header true)).
  assert (exists l, TCPSender.segments_out (fill_window (_sender c1)) = l ++ [stamped (_sender c1) g0]) as [l ->].
  { unfold fill_window. rewrite Hs1. cbn [negb]. destruct (send_segment_fields (_sender c1) g0) as (E & _).
    eexists. exact E. }
  exists (stamp (_receiver c) (stamped (_sender c1) g0)). split.
  - apply elem_of_app. right. clear. induction l as [|x l IH]; cbn [app drain andb]; [by left|by right].
  - unfold stamp. by destruct (TCPReceiver.ackno (_receiver c)).
Qed.

(** The advertised window.  Every segment the connection sends announces the
    receiver's acknowledgment number and its window reduced to 16 bits; a
    receive capacity of 65536 or more is therefore announced modulo 65536,
    and a capacity of exactly 65536 as a closed window. *)
Theorem advertised_window c b g :
  g ∈ drain (_receiver c) b (TCPSender.segments_out (_sender c)) ->
  win (_header g) = u16 (TCPReceiver.window_size (_receiver c)) /\
  (forall a, TCPReceiver.ackno (_receiver c) = Some a ->
     ack (_header g) = true /\ TCPHeader.ackno (_header g) = a).
Proof.
  generalize (TCPSender.segments_out (_sender c)). intros q.
  induction q as [|g0 q IH]; cbn [drain]; intros Hg; [by apply not_elem_of_nil in Hg|].
  apply elem_of_cons in Hg as [->|Hg]; [|by apply IH]. unfold stamp.
  split; [by destruct (_ && _), (TCPReceiver.ackno (_receiver c))|].
  intros a ->. by destruct (_ && _).
Qed.

(** ** Witnesses *)

Definition ex_isn : WrappingInt32 := mkWrappingInt32 4294967290.

(** A segment of the peer, whose initial sequence number is 17. *)
Definition ex_peer (sq ak : Z) (s f a r : bool) (d : list byte) : TCPSegment :=
  mkTCPSegment (mkTCPHeader 0 0 (mkWrappingInt32 sq) (wrap ak ex_isn) 5 false a false r s f 50 0 0)
    (buf_of_string d).

(** Open, write two bytes, close, and receive the peer's acknowledgment and FIN. *)
Definition ex_open : TCPConnection :=
  segment_received (connect (new (ex_cfg 4294967290) 0)) (ex_peer 17 1 true false true false []).
Definition ex_closing : TCPConnection := end_input_stream (fst (write ex_open [x61; x62])).
Definition ex_lingering : TCPConnection :=
  segment_received ex_closing (ex_peer 18 4 false true true false []).

Lemma ex_open_reach S : reach S (ex_cfg 4294967290) ex_isn [] ex_open.
Proof.
  unfold ex_open. apply reach_segment; [|cbn; lia]. apply reach_connect, reach_new.
Qed.

Lemma ex_lingering_reach : reach [x61; x62] (ex_cfg 4294967290) ex_isn [x61; x62] ex_lingering.
Proof.
  unfold ex_lingering, ex_closing. apply reach_segment; [|cbn; lia]. apply reach_end.
  apply (reach_write _ _ _ [] ex_open [x61; x62]); [apply ex_open_reach|]. vm_compute. by exists [].
Qed.

Lemma connection_segments_genuine_witness :
  Forall (on_wire [x61; x62] ex_isn (next_seqno_absolute (_sender ex_lingering)))
    (segments_out ex_lingering).
Proof.
  apply (connection_segments_genuine [x61; x62] (ex_cfg 4294967290) ex_isn [x61; x62]);
    [reflexivity | reflexivity | cbn; lia | cbn; lia | apply ex_lingering_reach].
Defined.

(** The connection that lingers, and the tick that ends it. *)
Lemma shutdown_complete_witness :
  let c := tick ex_lingering 10000 in
  ((error (inbound_stream c) = true /\ error (stream_in (_sender c)) = true) \/
   (input_ended (inbound_stream c) = true /\ [x61; x62] = [x61; x62] /\ bytes_in_flight c = 0 /\
    next_seqno_absolute (_sender c) = Zlen [x61; x62] + 2 /\
    _checkpoint (_sender c) = Zlen [x61; x62] + 2)) /\
  ((error (inbound_stream c) = true /\ error (stream_in (_sender c)) = true) \/
   (input_ended (inbound_stream c) = true /\ unassembled_bytes c = 0 /\
    input_ended (stream_in (_sender c)) = true /\ bytes_in_flight c = 0)).
Proof.
  split.
  - apply (shutdown_complete [x61; x62] (ex_cfg 4294967290) ex_isn [x61; x62]);
      [reflexivity | reflexivity | cbn; lia | cbn; lia | | vm_compute; reflexivity].
    apply reach_tick; [apply ex_lingering_reach | lia].
  - apply (shutdown_complete [x61; x62] (ex_cfg 4294967290) ex_isn [x61; x62] ex_lingering);
      [reflexivity | reflexivity | cbn; lia | cbn; lia | apply ex_lingering_reach | apply op_tick
      | vm_compute; reflexivity | vm_compute; reflexivity].
Defined.

Lemma linger_time_witness : active (tick ex_lingering 9999) = true.
Proof.
  assert (closed (_sender ex_lingering)) as Hc by (vm_compute; repeat split).
  rewrite (linger_time [x61; x62] (ex_cfg 4294967290) ex_isn [x61; x62]);
    [vm_compute; reflexivity | reflexivity | reflexivity | cbn; lia | cbn; lia
    | apply ex_lingering_reach | vm_compute; reflexivity | exact Hc | vm_compute; reflexivity
    | vm_compute; reflexivity | vm_compute; discriminate
    | vm_compute; split; (discriminate || reflexivity)].
Defined.


(** The two bytes are sent into silence. *)
Definition ex_silent : TCPConnection :=
  Nat.iter 8 (fun c => tick c (_rto (_sender c))) (fst (write ex_open [x61; x62])).

Lemma retransmission_limit_witness :
  let c := tick ex_silent 256000 in
  active c = false /\ error (inbound_stream c) = true /\ error (stream_in (_sender c)) = true.
Proof.
  destruct (pq_top (_segments_in_flight (_sender ex_silent))) as [e|] eqn:E;
    [|vm_compute in E; discriminate].
  destruct (retransmission_limit ex_silent 256000 e E) as (H1 & H2 & H3 & _);
    [vm_compute; reflexivity | vm_compute; reflexivity | vm_compute; discriminate |].
  split; [exact H1|]. split; [exact H2|exact H3].
Defined.

Lemma listen_opens_on_stray_witness :
  let c' := segment_received (new (ex_cfg 4294967290) 0) (ex_peer 99 0 false false false false [x61]) in
  _receiver c' = _receiver (new (ex_cfg 4294967290) 0) /\
  exists g, g ∈ segments_out c' /\ syn (_header g) = true.
Proof.
  apply (listen_opens_on_stray [] (ex_cfg 4294967290) ex_isn []);
    try reflexivity; [cbn; lia | cbn; lia | apply reach_new].
Defined.

Lemma advertised_window_witness :
  let c := new (mkTCPConfig 1000 65536 100 (Some ex_isn)) 0 in
  let c := set_sender c (fill_window (_sender c)) in
  exists g, g ∈ drain (_receiver c) false (TCPSender.segments_out (_sender c)) /\ win (_header g) = 0.
Proof.
  intros c0 c.
  destruct (drain (_receiver c) false (TCPSender.segments_out (_sender c))) as [|g l] eqn:E.
  - vm_compute in E. discriminate.
  - exists g. assert (g ∈ drain (_receiver c) false (TCPSender.segments_out (_sender c))) as Hg
      by (rewrite E; left).
    split; [left|]. rewrite (proj1 (advertised_window c false g Hg)). vm_compute. reflexivity.
Defined.

#[global] Arguments _send_segments : simpl never.
