(* ===== verification/TCPState.v ===== *)
(** * The official states of TCP

    Models [src/libsponge/tcp_helpers/tcp_state.hh] and [tcp_state.cc]: the
    summary of a connection as two strings and two flags, and its comparison
    with the states named in RFC 793. *)
From stdpp Require Import base tactics list numbers option.
From Stdlib Require Import ZArith Lia.
From Stdlib Require String.
Import String.StringSyntax.
From S2P Require Import Prelude WrappingIntegers ByteStream StreamReassembler Buffer TCPHeader.
From S2P Require Import TCPSegment SegmentStream TCPReceiver TCPSender TCPConnection.

#[local] Open Scope string_scope.
#[local] Open Scope Z_scope.

Module TCPReceiverStateSummary.
Definition ERROR : String.string := "error (connection was reset)".
Definition LISTEN : String.string := "waiting for SYN: ackno is empty".
Definition SYN_RECV : String.string := "SYN received (ackno exists), and input to stream hasn't ended".
Definition FIN_RECV : String.string := "input to stream has ended".
End TCPReceiverStateSummary.

Module TCPSenderStateSummary.
Definition ERROR : String.string := "error (connection was reset)".
Definition CLOSED : String.string := "waiting for stream to begin (no SYN sent)".
Definition SYN_SENT : String.string := "stream started but nothing acknowledged".
Definition SYN_ACKED : String.string := "stream ongoing".
Definition FIN_SENT : String.string := "stream finished (FIN sent) but not fully acknowledged".
Definition FIN_ACKED : String.string := "stream finished and fully acknowledged".
End TCPSenderStateSummary.

Module R := TCPReceiverStateSummary.
Module Sn := TCPSenderStateSummary.

Record TCPState := mkTCPState {
  st_sender : String.string;
  st_receiver : String.string;
  st_active : bool;
  st_linger : bool
}.

Definition state_eqb (a b : TCPState) : bool :=
  Bool.eqb (st_active a) (st_active b) && Bool.eqb (st_linger a) (st_linger b) &&
  String.eqb (st_sender a) (st_sender b) && String.eqb (st_receiver a) (st_receiver b).
Definition state_neqb (a b : TCPState) : bool := negb (state_eqb a b).

(** [to_string] of a [bool]. *)
Definition bool_string (b : bool) : String.string := if b then "1" else "0".
Definition name (s : TCPState) : String.string :=
  String.append "sender=`" (String.append (st_sender s) (String.append "`, receiver=`"
    (String.append (st_receiver s) (String.append "`, active=" (String.append (bool_string (st_active s))
    (String.append ", linger_after_streams_finish=" (bool_string (st_linger s)))))))).

Inductive State : Type :=
  | LISTEN | SYN_RCVD | SYN_SENT | ESTABLISHED | CLOSE_WAIT | LAST_ACK | FIN_WAIT_1 | FIN_WAIT_2
  | CLOSING | TIME_WAIT | CLOSED | RESET.

#[global] Instance State_eq_dec : EqDecision State.
Proof. solve_decision. Defined.

Definition of_state (state : State) : TCPState :=
  match state with
  | LISTEN => mkTCPState Sn.CLOSED R.LISTEN true true
  | SYN_RCVD => mkTCPState Sn.SYN_SENT R.SYN_RECV true true
  | SYN_SENT => mkTCPState Sn.SYN_SENT R.LISTEN true true
  | ESTABLISHED => mkTCPState Sn.SYN_ACKED R.SYN_RECV true true
  | CLOSE_WAIT => mkTCPState Sn.SYN_ACKED R.FIN_RECV true false
  | LAST_ACK => mkTCPState Sn.FIN_SENT R.FIN_RECV true false
  | CLOSING => mkTCPState Sn.FIN_SENT R.FIN_RECV true true
  | FIN_WAIT_1 => mkTCPState Sn.FIN_SENT R.SYN_RECV true true
  | FIN_WAIT_2 => mkTCPState Sn.FIN_ACKED R.SYN_RECV true true
  | TIME_WAIT => mkTCPState Sn.FIN_ACKED R.FIN_RECV true true
  | RESET => mkTCPState Sn.ERROR R.ERROR false false
  | CLOSED => mkTCPState Sn.FIN_ACKED R.FIN_RECV false false
  end.

Definition receiver_summary (receiver : TCPReceiver) : String.string :=
  if error (TCPReceiver.stream_out receiver) then R.ERROR
  else if negb (bool_decide (is_Some (TCPReceiver.ackno receiver))) then R.LISTEN
  else if input_ended (TCPReceiver.stream_out receiver) then R.FIN_RECV
  else R.SYN_RECV.

(** [bytes_written() + 2] is in [size_t]. *)
Definition sender_summary (sender : TCPSender) : String.string :=
  if error (stream_in sender) then Sn.ERROR
  else if next_seqno_absolute sender =? 0 then Sn.CLOSED
  else if next_seqno_absolute sender =? TCPSender.bytes_in_flight sender then Sn.SYN_SENT
  else if negb (eof (stream_in sender)) then Sn.SYN_ACKED
  else if next_seqno_absolute sender <? u64 (bytes_written (stream_in sender) + 2) then Sn.SYN_ACKED
  else if negb (TCPSender.bytes_in_flight sender =? 0) then Sn.FIN_SENT
  else Sn.FIN_ACKED.

Definition of_parts (sender : TCPSender) (receiver : TCPReceiver) (active linger : bool) : TCPState :=
  mkTCPState (sender_summary sender) (receiver_summary receiver) active (if active then linger else false).

(** [TCPConnection::state]. *)
Definition state (c : TCPConnection) : TCPState :=
  of_parts (_sender c) (_receiver c) (active c) (_linger_after_streams_finish c).

(** The life of the two endpoints of a connection, state by state. *)
Example states_run :
  let '(a, b) := ex_handshake in
  let a1 := end_input_stream a in
  let '(a2, b2) := deliver a1 b in
  let '(b3, a3) := deliver b2 a2 in
  let b4 := end_input_stream b3 in
  let '(b5, a5) := deliver b4 a3 in
  let '(a6, b6) := deliver a5 b5 in
  map (fun p => state_eqb (state (fst p)) (of_state (snd p)))
    [(a, ESTABLISHED); (b, ESTABLISHED); (a1, FIN_WAIT_1); (b2, CLOSE_WAIT); (a3, FIN_WAIT_2);
     (b4, LAST_ACK); (a5, TIME_WAIT); (b6, CLOSED); (tick a6 9999, TIME_WAIT); (tick a6 10000, CLOSED)]
  = replicate 10 true.
Proof. vm_compute. reflexivity. Qed.

(** ** Properties *)

(** The summary separates the official states: two of the twelve states
    compare equal only if they are the same. *)
Theorem states_distinct s t : state_eqb (of_state s) (of_state t) = true <-> s = t.
Proof. split; [destruct s, t; vm_compute; done | intros ->; by destruct t]. Qed.

(** A dead connection is CLOSED or RESET.  In every state that a connection
    can reach with arbitrary segments from the network, once it is inactive
    its summary is that of RESET if its streams failed, and otherwise that of
    CLOSED. *)
Theorem inactive_state S cfg i W c :
  Zlen S < 2 ^ 32 - 2 -> fixed_isn cfg = Some i -> 0 <= send_capacity cfg < 2 ^ 32 ->
  0 <= recv_capacity cfg < 2 ^ 32 -> reach S cfg i W c -> active c = false ->
  state c = of_state (if error (inbound_stream c) then RESET else CLOSED).
Proof.
  intros HS Hi Hs Hr H Ha. assert (Zlen S < 2 ^ 32) as HS' by lia.
  destruct (reach_cinv S cfg i HS' Hi Hs Hr W c H) as [Hw _ _].
  pose proof (wk_error _ _ _ _ _ Hw) as He. unfold state, of_parts, receiver_summary, sender_summary.
  unfold inbound_stream in *. rewrite Ha, <- He.
  destruct (error (TCPReceiver.stream_out (_receiver c))) eqn:E; [done|].
  destruct (wk_done _ _ _ _ _ Hw Ha) as [[K _]|[Hcl Hin]].
  { unfold inbound_stream in K. by rewrite E in K. }
  destruct (working_inv S cfg i HS' Hs W c Hw) as (a & Hinv & HW & _).
  destruct (closed_numbers S _ a Hinv Hcl) as (Eh & En & _ & Eb). destruct Hinv as [_ Hsk].
  destruct (sk_fin _ _ _ Hsk) as [Hend Hp]; [apply Hcl|].
  pose proof (wk_synced _ _ _ _ _ Hw Hin) as Hsyn. unfold inbound_stream in Hin.
  unfold TCPReceiver.ackno, next_seqno_absolute, TCPSender.bytes_in_flight, stream_in, bytes_written.
  rewrite Hsyn, Hin, En, Eb, (stream_eof _ a (sk_ref _ _ _ Hsk)), Hend, Hp, Z.sub_diag.
  rewrite (ref_written _ _ (sk_ref _ _ _ Hsk)), Eh. pose proof (Zlen_nonneg S).
  rewrite u32_small, u64_small by lia. rewrite Z.ltb_irrefl, bool_decide_true by eauto.
  destruct (Z.eqb_spec (Zlen S + 2) 0); [lia|]. done.
Qed.

(** An endpoint whose inbound stream is open keeps its flags. *)
Lemma send_segments_open c b :
  input_ended (inbound_stream c) = false ->
  active (_send_segments c b) = active c /\
  _linger_after_streams_finish (_send_segments c b) = _linger_after_streams_finish c.
Proof.
  unfold inbound_stream, active, _send_segments, _clean_shutdown. intros H. cbn.
  destruct (negb (_sent_SYN c)); cbn; rewrite H; cbn; rewrite H; done.
Qed.

Section Opening.
Context (cfg : TCPConfig) (i : WrappingInt32).
Context (Hi : fixed_isn cfg = Some i) (Hsend : 0 <= send_capacity cfg < 2 ^ 32)
  (Hrecv : 0 <= recv_capacity cfg < 2 ^ 32).

(** The receiver of a fresh endpoint after the peer's SYN. *)
Lemma syn_received seg :
  syn (_header seg) = true -> fin (_header seg) = false ->
  let r := TCPReceiver.segment_received (TCPReceiver.new (recv_capacity cfg)) seg in
  receiver_summary r = R.SYN_RECV /\ input_ended (TCPReceiver.stream_out r) = false.
Proof.
  intros Hs Hf r. pose proof (new_settled _ Hrecv) as Hset.
  destruct (segment_received_flags (TCPReceiver.new (recv_capacity cfg)) seg Hset) as (_ & He & _ & Hsy & _).
  destruct (segment_received_open (TCPReceiver.new (recv_capacity cfg)) seg Hset eq_refl Hf) as [Hin _].
  fold r in He, Hsy, Hin. rewrite Hs, orb_true_r in Hsy.
  split; [|exact Hin]. unfold receiver_summary, TCPReceiver.ackno. rewrite He, Hin, Hsy.
  rewrite bool_decide_true by eauto. done.
Qed.

(** The sender of an endpoint that has just sent its SYN. *)
Lemma connected_sender :
  let s := _sender (connect (TCPConnection.new cfg 0)) in
  (exists a, inv [] s a) /\ _isn s = i /\ _syn s = true /\ _next_seqno s = 1 /\ _checkpoint s = 0 /\
  offered s = 0 /\ error (_stream s) = false /\ input_ended (_stream s) = false.
Proof.
  intros s. assert (Zlen (@nil byte) < 2 ^ 32) as HS by done.
  pose proof (reach_connect [] cfg i [] _ (reach_new [] cfg i)) as Hr.
  destruct (reach_cinv [] cfg i HS Hi Hsend Hrecv [] _ Hr) as [Hw _ _].
  destruct (working_inv [] cfg i HS Hsend [] _ Hw) as (a & Hinv & _).
  destruct (reach_params [] _ _ i HS Hsend _ _ (wk_sender _ _ _ _ _ Hw)) as [Hisn _].
  split; [by exists a|]. split; [exact Hisn|]. by split_and!.
Qed.

(** A quiet sender with only its SYN sent counts as established. *)
Lemma quiet_summary S s a q :
  inv S s a -> quiet s -> _next_seqno s = 1 -> error (_stream s) = false ->
  input_ended (_stream s) = false -> sender_summary (set_segments_out s q) = Sn.SYN_ACKED.
Proof.
  intros [Hfl _] (_ & _ & Hc) Hn He Hi'. destruct (acknowledged_flight S s Hfl Hc) as [_ Hb].
  unfold sender_summary, stream_in, next_seqno_absolute, TCPSender.bytes_in_flight, eof.
  cbn [set_segments_out _stream _next_seqno _bytes_in_flight].
  unfold input_ended in Hi'. by rewrite He, Hn, Hb, Hi'.
Qed.

(** An empty segment changes nothing but the queue. *)
Lemma send_empty_fields s :
  (quiet s -> quiet (send_empty_segment s)) /\ _next_seqno (send_empty_segment s) = _next_seqno s /\
  _stream (send_empty_segment s) = _stream s.
Proof. done. Qed.

(** The work of [segment_received] on a SYN with an acknowledgment. *)
Lemma syn_ack_step c seg :
  rst (_header seg) = false -> ack (_header seg) = true -> syn (_header seg) = true ->
  _sent_SYN c = true ->
  exists c1, segment_received c seg = _send_segments c1 false /\
    _sender c1 = send_empty_segment
      (ack_received (_sender c) (TCPHeader.ackno (_header seg)) (win (_header seg))) /\
    _receiver c1 = TCPReceiver.segment_received (_receiver c) seg /\ active c1 = active c /\
    _linger_after_streams_finish c1 = _linger_after_streams_finish c.
Proof.
  intros Hrst Hack Hsyn Hs. unfold segment_received. rewrite Hrst, Hack, Hsyn.
  cbn [set_time set_receiver set_sender _sent_SYN]. rewrite Hs. cbn [negb andb orb].
  eexists. split; [reflexivity|]. by split_and!.
Qed.

Lemma syn_ack_established seg :
  rst (_header seg) = false -> ack (_header seg) = true -> syn (_header seg) = true ->
  fin (_header seg) = false -> TCPHeader.ackno (_header seg) = wrap 1 i ->
  state (segment_received (connect (TCPConnection.new cfg 0)) seg) = of_state ESTABLISHED.
Proof.
  intros Hrst Hack Hsyn Hfin Hak. assert (Zlen (@nil byte) < 2 ^ 32) as HS by done.
  destruct (syn_received seg Hsyn Hfin) as [Hsum Hopen].
  destruct connected_sender as ([a Ha] & Hisn & Hs & Hn & Hc & Ho & He & Hin).
  set (c := connect (TCPConnection.new cfg 0)) in *.
  destruct (ack_of_syn [] (_sender c) a (win (_header seg)) HS Ha Hs Hn Hc Ho)
    as (Hq1 & Hn1 & [a1 Ha1] & He1 & Hin1). rewrite Hisn in *.
  set (s0 := ack_received (_sender c) (wrap 1 i) (win (_header seg))) in *.
  set (s1 := send_empty_segment s0). destruct (send_empty_fields s0) as (Hq2 & Hn2 & Hst2).
  specialize (Hq2 Hq1). pose proof (send_empty_inv [] HS s0 a1 Ha1) as Ha2. fold s1 in Hq2, Hn2, Hst2, Ha2.
  destruct (fill_nothing [] s1 a1 HS Ha2 Hq2) as (Hq3 & Hn3 & [a3 Ha3] & He3 & Hin3).
  destruct (syn_ack_step c seg Hrst Hack Hsyn eq_refl) as (c1 & -> & Es & Er & Eact & El).
  rewrite Hak in Es. fold s0 s1 in Es.
  change (_receiver c) with (TCPReceiver.new (recv_capacity cfg)) in Er.
  change (active c) with true in Eact. change (_linger_after_streams_finish c) with true in El.
  destruct (send_segments_open c1 false) as [E1 E2]; [unfold inbound_stream; by rewrite Er|].
  destruct (send_segments_fields c1 false) as (E3 & E4 & _). unfold state, of_parts.
  rewrite E1, E2, E3, E4, Er, Eact, El, Hsum, Es.
  rewrite (quiet_summary [] _ a3 [] Ha3 Hq3); [done|congruence|congruence|congruence].
Qed.

End Opening.

(** C22. Opening a connection.  For every configuration, a new endpoint is in
    LISTEN and enters SYN_SENT by connecting; a SYN from the peer takes a
    listening endpoint to SYN_RCVD; and a SYN with the acknowledgment of our
    own SYN takes a connecting endpoint to ESTABLISHED, whatever the two
    initial sequence numbers and the advertised window are. *)
Theorem opening_states cfg i :
  fixed_isn cfg = Some i -> 0 <= send_capacity cfg < 2 ^ 32 -> 0 <= recv_capacity cfg < 2 ^ 32 ->
  let c := TCPConnection.new cfg 0 in
  state c = of_state LISTEN /\ state (connect c) = of_state SYN_SENT /\
  (forall seg, rst (_header seg) = false -> syn (_header seg) = true -> fin (_header seg) = false ->
     (ack (_header seg) = false -> str (_payload seg) = [] ->
      state (segment_received c seg) = of_state SYN_RCVD) /\
     (ack (_header seg) = true -> TCPHeader.ackno (_header seg) = wrap 1 i ->
      state (segment_received (connect c) seg) = of_state ESTABLISHED)).
Proof.
  intros Hi Hs Hr c. split; [done|]. split; [vm_compute; done|].
  intros seg Hrst Hsyn Hfin. split; [|intros; by apply (syn_ack_established cfg i)].
  intros Hack Hnil. destruct (syn_received cfg Hr seg Hsyn Hfin) as [Hsum Hopen].
  set (c1 := set_receiver (set_time c 0) (TCPReceiver.segment_received (TCPReceiver.new (recv_capacity cfg)) seg)).
  assert (segment_received c seg = _send_segments c1 false) as ->.
  { unfold segment_received. rewrite Hrst, Hack, Hsyn, Hfin, Hnil. reflexivity. }
  destruct (send_segments_open c1 false Hopen) as [E1 E2].
  destruct (send_segments_fields c1 false) as (E3 & E4 & _).
  unfold state, of_parts. rewrite E1, E2, E3, E4.
  change (_receiver c1) with (TCPReceiver.segment_received (TCPReceiver.new (recv_capacity cfg)) seg).
  rewrite Hsum. reflexivity.
Qed.

Lemma states_distinct_witness : state_eqb (of_state CLOSING) (of_state LAST_ACK) <> true.
Proof. intros H. apply states_distinct in H. discriminate. Defined.

Lemma inactive_state_witness :
  state (tick ex_lingering 10000) = of_state CLOSED.
Proof.
  rewrite (inactive_state [x61; x62] (ex_cfg 4294967290) ex_isn [x61; x62]);
    [vm_compute; reflexivity | reflexivity | reflexivity | cbn; lia | cbn; lia | | vm_compute; reflexivity].
  apply reach_tick; [apply ex_lingering_reach | lia].
Defined.

Lemma opening_states_witness :
  state (segment_received (connect (TCPConnection.new (ex_cfg 4294967290) 0))
           (ex_peer 17 1 true false true false [])) = of_state ESTABLISHED.
Proof.
  destruct (opening_states (ex_cfg 4294967290) ex_isn) as (_ & _ & H);
    [reflexivity | cbn; lia | cbn; lia |]. apply H; reflexivity.
Defined.
