(* ===== verification/BuiltSegments.v ===== *)
(** * What the sender builds

    A property of segments that holds of the default segment and is kept by
    the steps in which [TCPSender] builds one (a payload, SYN, FIN, a sequence
    number) holds of every segment that the sender of a connection queues or
    keeps for retransmission.  [Built] states those steps; its instances are
    in the files that need them. *)
From stdpp Require Import base tactics list numbers option.
From Stdlib Require Import ZArith Lia.
From S2P Require Import Prelude WrappingIntegers ByteStream StreamReassembler Buffer TCPHeader.
From S2P Require Import TCPSegment SegmentStream TCPReceiver TCPSender TCPConnection.

Class Built (Q : TCPSegment -> Prop) : Prop := {
  built_default : Q default_segment;
  built_seqno g n : valid n -> Q g -> Q (set_header g (set_seqno (TCPSegment._header g) n));
  built_fin g : Q g -> Q (set_header g (set_fin (TCPSegment._header g) true));
  built_syn : Q (set_header default_segment (set_syn default_header true));
  built_payload d : Zlen d <= MAX_PAYLOAD_SIZE -> Q (set_payload default_segment (buf_of_string d))
}.

Definition sender_all (Q : TCPSegment -> Prop) (s : TCPSender) : Prop :=
  Forall Q (TCPSender._segments_out s) /\ Forall (fun e => Q (_seg e)) (_segments_in_flight s).

(** *** The sender *)

Lemma read_size st n : 0 < n -> Zlen (snd (ByteStream.read st n)) <= n.
Proof.
  intros Hn. rewrite read_eq. unfold peek_output. cbn [snd]. unfold ztake, Zlen. rewrite length_take.
  destruct (Z.ltb_spec n (endOfBuffer st)); lia.
Qed.

Lemma pq_top_in q t : pq_top q = Some t -> t ∈ q.
Proof.
  revert t. induction q as [|e q IH]; intros t; cbn; [done|].
  destruct (pq_top q) as [x|]; [|intros [= <-]; by left].
  destruct (_ <? _); intros [= <-]; [right; auto|by left].
Qed.

Lemma pq_pop_Forall (P : OrderedSegment -> Prop) q : Forall P q -> Forall P (pq_pop q).
Proof.
  induction q as [|e q IH]; intros H; cbn; [done|]. inversion H; subst.
  destruct (pq_top q); [destruct (_ <? _); [constructor; auto|done]|done].
Qed.

Lemma ack_loop_Forall (P : OrderedSegment -> Prop) fuel x q n :
  Forall P q -> Forall P (fst (ack_loop fuel x q n)).
Proof.
  revert q n. induction fuel as [|fuel IH]; intros q n H; cbn [ack_loop]; [done|].
  destruct (pq_top q); [|done]. destruct (_ <=? _); [apply IH; by apply pq_pop_Forall|done].
Qed.

Section Sender.
Context {Q : TCPSegment -> Prop} `{Built Q}.

Lemma send_segment_all s g : sender_all Q s -> Q g -> sender_all Q (_send_segment s g).
Proof.
  intros [Ho Hf] Hg. destruct (send_segment_fields s g) as (Eo & Ef & _).
  assert (Q (stamped s g)) as Hst by (apply built_seqno; [apply wrap_valid|done]).
  split; rewrite ?Eo, ?Ef; apply Forall_app; (split; [done|by apply Forall_singleton]).
Qed.

Lemma fill_step_all s n : 0 < n -> sender_all Q s -> sender_all Q (fst (fill_step s n)).
Proof.
  intros Hn Hs. unfold fill_step. set (k := if n >? MAX_PAYLOAD_SIZE then MAX_PAYLOAD_SIZE else n).
  assert (0 < k <= MAX_PAYLOAD_SIZE) as Hk by (unfold k; rewrite Z.gtb_ltb; destruct (Z.ltb_spec MAX_PAYLOAD_SIZE n); unfold MAX_PAYLOAD_SIZE in *; lia).
  pose proof (read_size (_stream s) k ltac:(lia)) as Hl.
  destruct (ByteStream.read (_stream s) k) as [st d]. cbn [snd] in Hl.
  assert (Q (set_payload default_segment (buf_of_string d))) as Hg by (apply built_payload; lia).
  destruct (_ && _); cbn [fst]; apply send_segment_all; try done. by apply built_fin.
Qed.

Lemma fill_loop_all fuel s n s' : sender_all Q s -> fill_loop fuel s n = Some s' -> sender_all Q s'.
Proof.
  revert s n. induction fuel as [|fuel IH]; intros s n Hs; cbn [fill_loop]; [done|].
  destruct ((n >? 0) && negb (_fin s)) eqn:E; [|by intros [= ->]]. 
  destruct (negb (ByteStream.eof (_stream s)) && buffer_empty (_stream s)); [by intros [= ->]|].
  apply andb_true_iff in E as [E _]. rewrite Z.gtb_ltb in E. bsplit.
  pose proof (fill_step_all s n ltac:(lia) Hs) as Hf. destruct (fill_step s n) as [s1 n1]. by apply IH.
Qed.

Lemma fill_window_all s : sender_all Q s -> sender_all Q (fill_window s).
Proof.
  intros Hs. unfold fill_window. destruct (negb (_syn s)).
  - apply (send_segment_all s); [done|apply built_syn].
  - destruct (fill_loop _ _ _) as [s'|] eqn:E; cbn; [by eapply fill_loop_all|done].
Qed.

Lemma ack_received_all s a w : sender_all Q s -> sender_all Q (ack_received s a w).
Proof.
  intros [Ho Hf]. unfold ack_received. destruct (_ >? _); [done|]. destruct (_ <=? _); [done|].
  set (x := unwrap _ _ _). cbn [set_checkpoint set_rwnd _segments_in_flight _bytes_in_flight].
  pose proof (ack_loop_Forall (fun e => Q (_seg e)) (length (_segments_in_flight s)) x
    (_segments_in_flight s) (_bytes_in_flight s) Hf) as Hq.
  destruct (ack_loop _ _ _ _) as [q n]. cbn [fst] in Hq. apply fill_window_all. by destruct q.
Qed.

Lemma tick_all s ms : sender_all Q s -> sender_all Q (TCPSender.tick s ms).
Proof.
  intros [Ho Hf]. destruct (tick_fields s ms) as (_ & _ & _ & _ & E5 & _ & _ & _ & _ & Eo).
  split; [|by rewrite E5]. destruct Eo as [->|(t & Et & ->)]; [done|].
  apply Forall_app. split; [done|]. apply Forall_singleton.
  apply (proj1 (Forall_forall _ _) Hf t), list_elem_of_In. by apply pq_top_in.
Qed.

Lemma send_empty_all s : sender_all Q s -> sender_all Q (send_empty_segment s).
Proof.
  intros [Ho Hf]. split; [|done]. apply Forall_app. split; [done|].
  apply Forall_singleton, built_seqno; [apply wrap_valid|apply built_default].
Qed.

(** *** The connection *)

Lemma send_segments_all c b : sender_all Q (_sender c) -> sender_all Q (_sender (_send_segments c b)).
Proof.
  intros Hs. apply fill_window_all in Hs as [_ Hf].
  destruct (send_segments_fields c b) as (-> & _). by split.
Qed.

Lemma unclean_all c : sender_all Q (_sender c) -> sender_all Q (_sender (_unclean_shutdown c)).
Proof.
  intros [Ho Hf]. unfold _unclean_shutdown. apply send_segments_all.
  destruct (TCPSender.segments_out _); [by apply send_empty_all|by split].
Qed.

Lemma segment_all c g : sender_all Q (_sender c) -> sender_all Q (_sender (segment_received c g)).
Proof.
  intros Hs. unfold segment_received. destruct (rst _); [by destruct Hs|]. destruct (_ && _); [done|].
  apply send_segments_all.
  assert (forall s, sender_all Q s -> sender_all Q (ack_received s (TCPHeader.ackno (TCPSegment._header g)) (win (TCPSegment._header g)))) as Ha
    by (intros; by apply ack_received_all).
  destruct (ack _), (_ || _); cbn [set_sender _sender set_receiver set_time];
    try apply send_empty_all; try apply Ha; done.
Qed.

Lemma conn_tick_all c ms : sender_all Q (_sender c) -> sender_all Q (_sender (TCPConnection.tick c ms)).
Proof.
  intros Hs. unfold TCPConnection.tick. set (c1 := set_time _ _).
  assert (sender_all Q (_sender c1)) as H1 by by apply tick_all. clearbody c1.
  assert (sender_all Q (_sender (if consecutive_retransmissions (_sender c1) >? MAX_RETX_ATTEMPTS
    then _unclean_shutdown c1 else c1))) as H2 by (destruct (_ >? _); [by apply unclean_all|done]).
  revert H2. generalize (if consecutive_retransmissions (_sender c1) >? MAX_RETX_ATTEMPTS
    then _unclean_shutdown c1 else c1) as c2. intros c2 H2.
  destruct (_sent_SYN c2); [by apply send_segments_all|done].
Qed.

Lemma reach_all S cfg i W c : TCPConnection.reach S cfg i W c -> sender_all Q (_sender c).
Proof.
  induction 1 as [|W c _ IH|W c d _ IH _|c _ IH|W c seg _ IH _|W c ms _ IH _|W c n _ IH _|W c _ IH];
    [split; constructor|unfold TCPConnection.connect; by apply send_segments_all| | | | | |done].
  - unfold TCPConnection.write. destruct (ByteStream.write _ _). cbn [fst].
    apply send_segments_all. by destruct IH.
  - unfold end_input_stream. apply send_segments_all. by destruct IH.
  - by apply segment_all.
  - by apply conn_tick_all.
  - unfold read_inbound. by destruct (ByteStream.read _ _).
Qed.
End Sender.
