(* ===== verification/EndToEnd.v ===== *)
(** * Two endpoints and an unreliable network

    Composes two [TCPConnection]s (each with its application) over a network
    that loses, repeats and reorders segments.  The receiving side is proved
    against an interface, [GenuineSource], which says of whatever feeds the
    network that its segments belong to one stream; [TCPSender] and
    [TCPConnection] are its instances. *)
From stdpp Require Import base tactics list numbers option.
From Stdlib Require Import ZArith Lia.
From S2P Require Import Prelude WrappingIntegers ByteStream StreamReassembler Buffer TCPHeader.
From S2P Require Import TCPSegment SegmentStream TCPReceiver TCPSender TCPConnection.

(** ** The interface *)

(** In every state allowed by [R], a source of type [T] has queued only
    segments of the stream [S] numbered from [i]. *)
Class GenuineSource (S : list byte) (i : WrappingInt32) {T : Type} (out : T -> list TCPSegment)
    (R : T -> Prop) : Prop :=
  genuine_out : forall t, R t -> Forall (on_wire S i (Zlen S + 2)) (out t).

Lemma inv_next_le S s a : Zlen S < 2 ^ 32 -> inv S s a -> _next_seqno s <= Zlen S + 2.
Proof.
  intros HS [_ Hsk]. pose proof (sk_bound S HS s a Hsk). rewrite (sk_next _ _ _ Hsk).
  destruct (_syn s), (_fin s); cbn [b2i]; lia.
Qed.

#[global] Instance sender_source S c rt i (HS : Zlen S < 2 ^ 32) (Hc : 0 <= c < 2 ^ 32) :
  GenuineSource S i TCPSender.segments_out (fun s => exists W, TCPSender.reach S c rt i W s).
Proof.
  intros s [W Hr]. destruct (reach_inv S c rt i HS Hc W s Hr) as (a & Hinv & _).
  destruct (reach_params S c rt i HS Hc W s Hr) as [<- _]. pose proof (inv_next_le S s a HS Hinv).
  destruct Hinv as [Hfl _]. eapply Forall_impl; [|exact (fl_out _ _ Hfl)].
  intros g Hg. eapply on_wire_mono; [exact Hg|done].
Qed.

#[global] Instance connection_source S cfg i (HS : Zlen S < 2 ^ 32) (Hi : fixed_isn cfg = Some i)
    (Hs : 0 <= send_capacity cfg < 2 ^ 32) (Hr : 0 <= recv_capacity cfg < 2 ^ 32) :
  GenuineSource S i TCPConnection.segments_out (fun c => exists W, TCPConnection.reach S cfg i W c).
Proof.
  intros c [W H]. destruct (reach_cinv S cfg i HS Hi Hs Hr W c H) as [Hw _ _].
  destruct (working_inv S cfg i HS Hs W c Hw) as (a & Hinv & _). pose proof (inv_next_le S _ a HS Hinv).
  eapply Forall_impl; [|exact (wk_out _ _ _ _ _ Hw)].
  intros g Hg. eapply on_wire_mono; [exact Hg|done].
Qed.

(** ** The receiver on the other side of the network *)

Section Receiving.
Context (S : list byte) (i : WrappingInt32) (c : Z).
Context (HS : Zlen S < 2 ^ 31 - 2) (Hi : valid i) (Hc : 0 <= c < 2 ^ 32).

(** Any genuine segment may arrive at any time. *)
Lemma genuine_arrives r g :
  TCPReceiver.reach False S i c r -> on_wire S i (Zlen S + 2) g ->
  TCPReceiver.reach False S i c (TCPReceiver.segment_received r g).
Proof.
  intros Hr Hg. assert (Zlen S < 2 ^ 32) as HS' by lia.
  destruct (reach_reassembler S i c Hi Hc HS' False r Hr) as [Hre _].
  destruct (reach_ended _ _ _ _ Hc Hre) as [Hs _].
  destruct (reach_forget _ _ _ _ Hre) as (r' & Hr' & E).
  destruct (reach_tracks True S c r' I Hc HS' Hr') as [a Ha].
  assert (0 <= bytes_written (TCPReceiver.stream_out r) <= Zlen S) as Hw.
  { destruct (same_bytes_observe _ _ E) as (_ & _ & E3). unfold TCPReceiver.stream_out. rewrite E3.
    pose proof (tr_stores _ _ _ Ha) as Hst. unfold bytes_written, StreamReassembler.stream_out.
    rewrite (stores_written S r' a HS' Hst). pose proof (stores_hist_le _ _ _ Hst).
    pose proof (Zlen_nonneg (hist a)). lia. }
  destruct Hg as [Hv|(x & Hcv & Hl)].
  - apply TCPReceiver.reach_vacant; [done|done|]. unfold near. lia.
  - eapply TCPReceiver.reach_segment; [done|exact Hcv| |done].
    pose proof (conveys_index _ _ _ _ Hcv). pose proof (seg_len_nonneg g). unfold near. lia.
Qed.

End Receiving.

(** ** The windows on the wire fit their field *)

Definition wins_ok (q : list TCPSegment) : Prop := Forall (fun g => 0 <= win (_header g) < 2 ^ 16) q.

Lemma drain_wins r b q : wins_ok (drain r b q).
Proof.
  induction q as [|g q IH]; cbn [drain]; [constructor|]. constructor; [|exact IH].
  assert (forall z, 0 <= u16 z < 2 ^ 16) as Hu by (intros; apply Z.mod_pos_bound; lia).
  unfold stamp. destruct (_ && _), (TCPReceiver.ackno r); apply Hu.
Qed.

Lemma send_segments_wins c b : wins_ok (_segments_out c) -> wins_ok (_segments_out (_send_segments c b)).
Proof.
  intros H. destruct (send_segments_fields c b) as (_ & _ & -> & _).
  apply Forall_app. split; [done|apply drain_wins].
Qed.

Lemma unclean_wins c : wins_ok (_segments_out c) -> wins_ok (_segments_out (_unclean_shutdown c)).
Proof.
  intros H. unfold _unclean_shutdown. apply send_segments_wins.
  by destruct (TCPSender.segments_out _).
Qed.

Lemma reach_wins S cfg i W c : TCPConnection.reach S cfg i W c -> wins_ok (_segments_out c).
Proof.
  induction 1 as [|W c _ IH|W c d _ IH _|c _ IH|W c seg _ IH _|W c ms _ IH _|W c n _ IH _|W c _ IH].
  - constructor.
  - unfold connect. by apply send_segments_wins.
  - unfold write. destruct (ByteStream.write _ _). by apply send_segments_wins.
  - unfold end_input_stream. by apply send_segments_wins.
  - unfold segment_received. destruct (rst _); [done|]. destruct (_ && _); [done|].
    apply send_segments_wins. destruct (ack _), (_ || _); done.
  - unfold tick. set (c1 := set_time _ _). assert (wins_ok (_segments_out c1)) as H1 by done.
    clearbody c1. destruct (_ >? _); [apply unclean_wins in H1; revert H1;
      generalize (_unclean_shutdown c1) as c2; intros c2 H1; destruct (_sent_SYN c2)
      |destruct (_sent_SYN c1)]; try done; by apply send_segments_wins.
  - unfold read_inbound. by destruct (ByteStream.read _ _).
  - cbn. destruct (_segments_out c) as [|g q]; [done|]. by inversion IH.
Qed.

(** ** The world *)

(** An endpoint with its application: the bytes it has still to write, the
    bytes it has read, and everything it has put on the network. *)
Record Side := mkSide {
  conn : TCPConnection;
  todo : list byte;
  got : list byte;
  wire : list TCPSegment
}.

(** What an endpoint, its application or the network can do next.  A segment
    that is never delivered is lost; [EDeliver k] may come in any order and
    any number of times. *)
Inductive event : Type :=
  | EConnect
  | EWrite (n : nat)
  | EEnd
  | ETick (ms : nat)
  | ERead (n : nat)
  | ESend
  | EDeliver (k : nat).

Definition set_conn (me : Side) (c : TCPConnection) : Side := mkSide c (todo me) (got me) (wire me).

Definition exec (e : event) (me : Side) (incoming : list TCPSegment) : Side :=
  let c := conn me in
  match e with
  | EConnect => set_conn me (connect c)
  | EWrite n =>
      let '(c', k) := write c (ztake (Z.of_nat n) (todo me)) in
      mkSide c' (zdrop k (todo me)) (got me) (wire me)
  | EEnd => match todo me with [] => set_conn me (end_input_stream c) | _ => me end
  | ETick ms => set_conn me (tick c (Z.of_nat ms))
  | ERead n =>
      let '(c', d) := read_inbound c (Z.of_nat n) in
      mkSide c' (todo me) (got me ++ d) (wire me)
  | ESend =>
      match segments_out c with
      | [] => me
      | g :: _ => mkSide (pop_out c) (todo me) (got me) (wire me ++ [g])
      end
  | EDeliver k =>
      match incoming !! k with
      | Some g => set_conn me (segment_received c g)
      | None => me
      end
  end.

Record World := mkWorld { left : Side; right : Side }.

(** One event on the left ([true]) or on the right. *)
Definition step (w : World) (x : bool * event) : World :=
  let '(on_left, e) := x in
  if on_left then mkWorld (exec e (left w) (wire (right w))) (right w)
  else mkWorld (left w) (exec e (right w) (wire (left w))).

Definition run (w : World) (evs : list (bool * event)) : World := fold_left step evs w.

Definition init (cfg : TCPConfig) (S : list byte) : Side := mkSide (TCPConnection.new cfg 0) S [] [].

(** ** Invariant of a side *)

Lemma tick_receiver c ms :
  _receiver (tick c ms) = _receiver c \/
  _receiver (tick c ms) = set_stream_out (_receiver c) (set_error (inbound_stream c)).
Proof.
  unfold tick. set (c1 := set_time _ _). assert (_receiver c1 = _receiver c) as E1 by done.
  clearbody c1. destruct (_ >? _).
  - right. assert (_receiver (_unclean_shutdown c1) = set_stream_out (_receiver c) (set_error (inbound_stream c))) as E2.
    { unfold _unclean_shutdown. match goal with |- context [_send_segments ?x true] =>
        destruct (send_segments_fields x true) as (_ & -> & _) end.
      unfold inbound_stream. rewrite <- E1. by destruct (TCPSender.segments_out _). }
    revert E2. generalize (_unclean_shutdown c1) as c2. intros c2 E2.
    destruct (_sent_SYN c2); [|done]. by destruct (send_segments_fields c2 false) as (_ & -> & _).
  - left. destruct (_sent_SYN c1); [|done]. by destruct (send_segments_fields c1 false) as (_ & -> & _).
Qed.

Lemma segment_receiver c g :
  _receiver (segment_received c g) = _receiver c \/
  _receiver (segment_received c g) = set_stream_out (_receiver c) (set_error (inbound_stream c)) \/
  _receiver (segment_received c g) = TCPReceiver.segment_received (_receiver c) g.
Proof.
  unfold segment_received. destruct (rst _); [right; by left|]. destruct (_ && _); [by left|].
  right; right. match goal with |- context [_send_segments ?x false] =>
    destruct (send_segments_fields x false) as (_ & -> & _) end.
  by destruct (ack _), (_ || _).
Qed.

Section OneSide.
Context (S S' : list byte) (cfg : TCPConfig) (i i' : WrappingInt32).
Context (HS : Zlen S < 2 ^ 31 - 2) (HS' : Zlen S' < 2 ^ 31 - 2).
Context (Hi : fixed_isn cfg = Some i) (Hi' : valid i').
Context (Hsend : 0 <= send_capacity cfg < 2 ^ 32) (Hrecv : 0 <= recv_capacity cfg < 2 ^ 32).

Abbreviation recv_reach := (TCPReceiver.reach False S' i' (recv_capacity cfg)).

(** What holds of a side that writes [S] and whose peer writes [S']. *)
Record side_ok (me : Side) : Prop := {
  sd_conn : exists W, TCPConnection.reach S cfg i W (conn me) /\ W ++ todo me = S;
  sd_wire : Forall (on_wire S i (Zlen S + 2)) (wire me);
  sd_wins : wins_ok (wire me);
  sd_recv : recv_reach (_receiver (conn me));
  sd_got : got me = ztake (bytes_read (inbound_stream (conn me))) S'
}.

Lemma init_ok : side_ok (init cfg S).
Proof.
  split; try done; [exists []; split; [constructor|done]|constructor..].
Qed.

(** Replacing the connection by one reached without reading. *)
Lemma side_conn me c W t :
  side_ok me -> TCPConnection.reach S cfg i W c -> W ++ t = S -> recv_reach (_receiver c) ->
  bytes_read (inbound_stream c) = bytes_read (inbound_stream (conn me)) ->
  side_ok (mkSide c t (got me) (wire me)).
Proof. intros [_ ? ? _ Hg] Hr HW Hrr Hb. split; cbn; eauto. by rewrite Hb. Qed.

Lemma recv_settled r : recv_reach r -> settled (_reassembler r).
Proof.
  intros Hr. destruct (reach_reassembler S' i' _ Hi' Hrecv ltac:(lia) False r Hr) as [Hre _].
  by destruct (reach_ended _ _ _ _ Hrecv Hre).
Qed.

Lemma deliver_ok me g :
  side_ok me -> on_wire S' i' (Zlen S' + 2) g -> 0 <= win (_header g) < 2 ^ 16 ->
  side_ok (set_conn me (segment_received (conn me) g)).
Proof.
  intros Hok Hg Hw. pose proof Hok as [(W & Hr & HW) _ _ Hrr _].
  apply (side_conn me _ W (todo me)); [done|by apply TCPConnection.reach_segment|done|..];
    unfold inbound_stream; destruct (segment_receiver (conn me) g) as [->|[->| ->]]; try done.
  - by apply TCPReceiver.reach_error.
  - by apply (genuine_arrives S' i').
  - by apply segment_received_bytes_read, recv_settled.
Qed.

Lemma write_count st d : 0 <= snd (ByteStream.write st d) <= Zlen d.
Proof.
  rewrite write_eq. unfold remaining_capacity.
  pose proof (u64_bound (ByteStream._capacity st - endOfBuffer st)). pose proof (Zlen_nonneg d).
  destruct (write_loop _ _ _ _). cbn [snd]. lia.
Qed.

Lemma read_take (br bw n : Z) :
  0 <= br -> 0 <= n -> br + n <= bw ->
  ztake br S' ++ ztake n (zdrop br (ztake bw S')) = ztake (br + n) S'.
Proof.
  intros. unfold ztake, zdrop. rewrite skipn_firstn_comm, take_take.
  replace (Z.to_nat (br + n)) with (Z.to_nat br + Z.to_nat n)%nat by lia.
  rewrite <- take_take_drop. do 2 f_equal. lia.
Qed.

Lemma read_ok me n : side_ok me -> side_ok (exec (ERead n) me []).
Proof.
  intros Hok. pose proof Hok as [(W & Hr & HW) Hwire Hwins Hrr Hg]. cbn [exec].
  pose proof (TCPConnection.reach_read S cfg i W (conn me) (Z.of_nat n) Hr ltac:(lia)) as Hr'.
  pose proof (TCPReceiver.reach_read False S' i' _ _ (Z.of_nat n) Hrr ltac:(lia)) as Hrr'.
  pose proof (recv_settled _ Hrr) as Hs. unfold read_inbound in *.
  destruct (reach_reassembler S' i' _ Hi' Hrecv ltac:(lia) False _ Hrr) as [Hre _].
  destruct (reach_observe False S' _ _ Hrecv ltac:(lia) Hre) as [Hobs _].
  change (StreamReassembler.stream_out (_reassembler (_receiver (conn me))))
    with (inbound_stream (conn me)) in Hobs.
  change (TCPReceiver.stream_out (_receiver (conn me))) with (inbound_stream (conn me)) in Hrr'.
  assert (ByteStream.wf (inbound_stream (conn me))) as Hwf by apply Hs.
  destruct (read_spec (inbound_stream (conn me)) (Z.of_nat n) Hwf ltac:(lia)) as (Hd & _ & _ & _ & _ & Hbr & _).
  pose proof (Zlen_contents _ Hwf) as Hlen.
  destruct (ByteStream.read (inbound_stream (conn me)) (Z.of_nat n)) as [st d]. cbn [fst snd] in *.
  split; cbn [conn todo got wire]; [by exists W|done|done|exact Hrr'|].
  change (inbound_stream (on_inbound (conn me) (fun _ => st))) with st.
  unfold bytes_read. rewrite Hbr, Hg, Hd, Hobs. unfold bytes_read in *.
  set (s := inbound_stream (conn me)) in *. pose proof (wf_written_bound s Hwf).
  destruct Hwf as [? ? ? ? _]. rewrite Hobs in Hlen. unfold bytes_written in *.
  assert (Zlen (zdrop (bytesRead s) (ztake (bytesWritten s) S'))
    = Z.max 0 (Z.min (bytesWritten s) (Zlen S') - bytesRead s)) as Hz by (pose proof (Zlen_nonneg S'); zlen).
  rewrite Hz in Hlen.
  destruct (decide (endOfBuffer s = 0)) as [E0|E0].
  - rewrite E0, Z.min_r, Z.add_0_r, u32_small by lia. by rewrite app_nil_r.
  - rewrite u32_small by lia. apply read_take; lia.
Qed.

Lemma exec_ok e me incoming :
  side_ok me -> Forall (on_wire S' i' (Zlen S' + 2)) incoming -> wins_ok incoming ->
  side_ok (exec e me incoming).
Proof.
  intros Hok Hin Hwin. pose proof Hok as [(W & Hr & HW) Hwire Hwins Hrr Hg].
  destruct e as [|n| |ms|n| |k]; cbn [exec].
  - apply (side_conn me _ W (todo me)); [done|by apply TCPConnection.reach_connect|done|..];
      unfold connect, inbound_stream; by destruct (send_segments_fields (conn me) false) as (_ & -> & _).
  - set (d := ztake (Z.of_nat n) (todo me)).
    pose proof (TCPConnection.reach_write S cfg i W (conn me) d Hr) as Hr'. revert Hr'.
    unfold write. destruct (ByteStream.write _ d) as [st k] eqn:Ek. cbn [fst snd]. intros Hr'.
    assert (ztake k d ++ zdrop k (todo me) = todo me) as Et.
    { pose proof (write_count (stream_in (_sender (conn me))) d) as Hk. rewrite Ek in Hk. cbn [snd] in Hk.
      unfold d in *. pose proof (Zlen_nonneg (todo me)). rewrite Zlen_ztake in Hk by lia.
      unfold ztake, zdrop in *. rewrite take_take. rewrite <- (take_drop (Z.to_nat k) (todo me)) at 3.
      do 2 f_equal. lia. }
    apply (side_conn me _ (W ++ ztake k d) (zdrop k (todo me))); [done| |by rewrite <- app_assoc, Et|..].
    + apply Hr'. exists (zdrop k (todo me)). by rewrite <- app_assoc, Et.
    + by destruct (send_segments_fields (on_stream_in (conn me) (fun _ => st)) false) as (_ & -> & _).
    + unfold inbound_stream.
      by destruct (send_segments_fields (on_stream_in (conn me) (fun _ => st)) false) as (_ & -> & _).
  - destruct (todo me) eqn:Et; [|done]. rewrite app_nil_r in HW. subst W.
    apply (side_conn me _ S (todo me)); [done|by apply TCPConnection.reach_end|by rewrite Et, app_nil_r|..];
      unfold end_input_stream, inbound_stream;
      by destruct (send_segments_fields (on_stream_in (conn me) end_input) false) as (_ & -> & _).
  - apply (side_conn me _ W (todo me)); [done|apply TCPConnection.reach_tick; [done|lia]|done|..];
      unfold inbound_stream; destruct (tick_receiver (conn me) (Z.of_nat ms)) as [->| ->]; try done.
    by apply TCPReceiver.reach_error.
  - by apply read_ok.
  - destruct (segments_out (conn me)) as [|g q] eqn:Eo; [done|].
    pose proof (connection_source S cfg i ltac:(lia) Hi Hsend Hrecv (conn me) (ex_intro _ W Hr)) as Hgen.
    pose proof (reach_wins _ _ _ _ _ Hr) as Hw. unfold segments_out in *. rewrite Eo in *.
    inversion Hgen; inversion Hw; subst.
    split; cbn; [exists W; split; [by apply TCPConnection.reach_pop|done]| | |done|done];
      apply Forall_app; split; try done; by constructor.
  - destruct (incoming !! k) as [g|] eqn:Ek; [|done].
    apply deliver_ok; [done|by eapply Forall_lookup_1 in Hin|by eapply Forall_lookup_1 in Hwin].
Qed.

End OneSide.

(** ** The two theorems about the whole system *)

Lemma side_delivers S S' cfg i i' me :
  Zlen S' < 2 ^ 31 - 2 -> valid i' -> 0 <= recv_capacity cfg < 2 ^ 32 ->
  side_ok S S' cfg i i' me ->
  got me `prefix_of` S' /\
  contents (inbound_stream (conn me)) =
    zdrop (Zlen (got me)) (ztake (bytes_written (inbound_stream (conn me))) S').
Proof.
  intros HS' Hi' Hrecv [_ _ _ Hrr Hg].
  destruct (reach_reassembler S' i' _ Hi' Hrecv ltac:(lia) False _ Hrr) as [Hre _].
  destruct (reach_observe False S' _ _ Hrecv ltac:(lia) Hre) as [Hobs _].
  change (StreamReassembler.stream_out (_reassembler (_receiver (conn me))))
    with (inbound_stream (conn me)) in Hobs.
  set (s := inbound_stream (conn me)) in *. split.
  - rewrite Hg. exists (zdrop (bytes_read s) S'). symmetry. apply ztake_zdrop.
  - rewrite Hobs. destruct (reach_ended _ _ _ _ Hrecv Hre) as [Hset _].
    assert (ByteStream.wf s) as Hwf by apply Hset. pose proof (wf_written_bound s Hwf) as Hbw.
    destruct Hwf as [_ _ _ Hbr _]. rewrite Hg, Zlen_ztake by (unfold bytes_read; lia). unfold bytes_read in *.
    destruct (Z.le_gt_cases (bytesRead s) (Zlen S')); [by rewrite Z.min_l|].
    rewrite Z.min_r by lia. pose proof (Zlen_nonneg S').
    unfold bytes_written. rewrite !zdrop_ge; zlen; done.
Qed.

Section TwoSides.
Context (Sl Sr : list byte) (cl cr : TCPConfig) (il ir : WrappingInt32).
Context (HSl : Zlen Sl < 2 ^ 31 - 2) (HSr : Zlen Sr < 2 ^ 31 - 2).
Context (Hil : fixed_isn cl = Some il) (Hir : fixed_isn cr = Some ir) (Vil : valid il) (Vir : valid ir).
Context (Hsl : 0 <= send_capacity cl < 2 ^ 32) (Hrl : 0 <= recv_capacity cl < 2 ^ 32).
Context (Hsr : 0 <= send_capacity cr < 2 ^ 32) (Hrr : 0 <= recv_capacity cr < 2 ^ 32).

Lemma run_ok evs w :
  side_ok Sl Sr cl il ir (left w) -> side_ok Sr Sl cr ir il (right w) ->
  side_ok Sl Sr cl il ir (left (run w evs)) /\ side_ok Sr Sl cr ir il (right (run w evs)).
Proof.
  revert w. induction evs as [|[b e] evs IH]; intros w Hl Hr; [done|]. cbn [run fold_left].
  apply IH; destruct b; cbn [step left right]; try done.
  - apply exec_ok; try done; apply Hr.
  - apply exec_ok; try done; apply Hl.
Qed.

End TwoSides.

(** C3. Reliable in-order delivery, in both directions at once.  Two endpoints
    exchange streams over a network that loses, duplicates and reorders
    segments, with connects, writes, timer ticks, reads and closes interleaved
    arbitrarily: at every moment the bytes that each application has read are
    a prefix of the stream its peer writes, and the bytes waiting in the
    inbound buffer are the ones that come next. *)
Theorem end_to_end_prefix Sl Sr cl cr il ir evs :
  Zlen Sl < 2 ^ 31 - 2 -> Zlen Sr < 2 ^ 31 - 2 ->
  fixed_isn cl = Some il -> fixed_isn cr = Some ir -> valid il -> valid ir ->
  0 <= send_capacity cl < 2 ^ 32 -> 0 <= recv_capacity cl < 2 ^ 32 ->
  0 <= send_capacity cr < 2 ^ 32 -> 0 <= recv_capacity cr < 2 ^ 32 ->
  let w := run (mkWorld (init cl Sl) (init cr Sr)) evs in
  (got (right w) `prefix_of` Sl /\
   contents (inbound_stream (conn (right w))) =
     zdrop (Zlen (got (right w))) (ztake (bytes_written (inbound_stream (conn (right w)))) Sl)) /\
  (got (left w) `prefix_of` Sr /\
   contents (inbound_stream (conn (left w))) =
     zdrop (Zlen (got (left w))) (ztake (bytes_written (inbound_stream (conn (left w)))) Sr)).
Proof.
  intros HSl HSr Hil Hir Vil Vir Hsl Hrl Hsr Hrr w.
  destruct (run_ok Sl Sr cl cr il ir HSl HSr Hil Hir Vil Vir Hsl Hrl Hsr Hrr evs
    (mkWorld (init cl Sl) (init cr Sr))) as [Hl Hr]; [apply init_ok|apply init_ok|].
  split; [exact (side_delivers Sr Sl cr ir il _ HSl Vil Hrr Hr)
         | exact (side_delivers Sl Sr cl il ir _ HSr Vir Hrl Hl)].
Qed.

(** ** Runs *)

Definition ex_world : World := mkWorld (init (ex_cfg 4294967290) ex_stream) (init (ex_cfg 17) []).

(** The three-way handshake. *)
Definition ex_shake : list (bool * event) :=
  [(true, EConnect); (true, ESend); (false, EDeliver 0); (false, ESend); (true, EDeliver 0);
   (true, ESend); (false, EDeliver 1)].

(** Two segments of data that arrive in the wrong order and twice, then reads. *)
Definition ex_reordered : list (bool * event) :=
  ex_shake ++
  [(true, EWrite 2); (true, EWrite 3); (true, ESend); (true, ESend);
   (false, EDeliver 3); (false, EDeliver 3); (false, EDeliver 2); (false, ERead 4)].

Lemma end_to_end_prefix_witness :
  let w := run ex_world ex_reordered in
  got (right w) = [x61; x62; x63; x64] /\ got (right w) `prefix_of` ex_stream.
Proof.
  intros w. split; [vm_compute; reflexivity|].
  destruct (end_to_end_prefix ex_stream [] (ex_cfg 4294967290) (ex_cfg 17) (mkWrappingInt32 4294967290)
    (mkWrappingInt32 17) ex_reordered) as [[H _] _];
    [reflexivity | reflexivity | reflexivity | reflexivity
    | split; [discriminate | reflexivity] | split; [discriminate | reflexivity]
    | cbn; lia | cbn; lia | cbn; lia | cbn; lia | exact H].
Defined.

(** The end of a stream can be seen before its data.  There is a run in
    which the sender has written and ended its stream, the segment with the
    data is lost (delayed), and the empty segment with FIN arrives: the
    reader sees the end of file having received nothing of a non-empty
    stream, and both connections are still without error. *)
Theorem truncated_by_reordering :
  exists evs,
    let w := run ex_world evs in
    todo (left w) = [] /\ eof (inbound_stream (conn (right w))) = true /\ got (right w) = [] /\
    ex_stream <> [] /\ error (inbound_stream (conn (right w))) = false /\
    active (conn (right w)) = true /\ active (conn (left w)) = true.
Proof.
  exists (ex_shake ++ [(true, EWrite 5); (true, EEnd); (true, ESend); (true, ESend); (false, EDeliver 3)]).
  vm_compute. repeat split; discriminate.
Qed.
