(* ===== verification/Progress.v ===== *)
(** * Retransmission makes progress

    What the receiver acknowledges follows what the sender has sent, and the
    other way round: two connections over an unreliable network, as in
    [EndToEnd], while the writer has not ended its stream.  From the
    invariants that tie the two endpoints together: from every reachable
    state the network can still deliver everything. *)
From stdpp Require Import base tactics list numbers option.
From Stdlib Require Import ZArith Lia.
From S2P Require Import Prelude WrappingIntegers ByteStream StreamReassembler Buffer TCPHeader.
From S2P Require Import TCPSegment SegmentStream TCPReceiver TCPSender TCPConnection EndToEnd BuiltSegments.

(** ** The position of the receiver *)

(** The absolute number it acknowledges while no FIN has come: 0 before SYN. *)
Definition pos (r : TCPReceiver) : Z :=
  if recievedSYN r then 1 + bytes_written (TCPReceiver.stream_out r) else 0.

Section Receiver.
Context (S : list byte) (i : WrappingInt32).
Context (HS : Zlen S < 2 ^ 31 - 2) (Hi : valid i).

(** The receiver has heard a part of the stream [S] from a sender that has
    used the sequence numbers below [N] and has not ended its stream. *)
Record heard_as (N : Z) (r : TCPReceiver) (a : Stream) : Prop := {
  hd_tracks : tracks S (_reassembler r) a;
  hd_open : _received_EOF (_reassembler r) = false;
  hd_nofin : recievedFIN r = false;
  hd_isn : recievedSYN r = true -> isn r = i;
  hd_pos : pos r <= N;
  hd_below : forall p, received (_reassembler r) (Zlen (hist a)) p -> p < N - 1
}.
Definition heard (N : Z) (r : TCPReceiver) : Prop := exists a, heard_as N r a.

Lemma heard_written N r a : heard_as N r a -> bytes_written (TCPReceiver.stream_out r) = Zlen (hist a).
Proof.
  intros H. unfold bytes_written, TCPReceiver.stream_out, StreamReassembler.stream_out.
  apply (stores_written S); [lia|apply (hd_tracks _ _ _ H)].
Qed.

Lemma heard_bounds N r a : heard_as N r a -> 0 <= bytes_written (TCPReceiver.stream_out r) <= Zlen S.
Proof.
  intros H. rewrite (heard_written _ _ _ H). split; [apply Zlen_nonneg|].
  apply (stores_hist_le _ _ _ (tr_stores _ _ _ (hd_tracks _ _ _ H))).
Qed.

Lemma heard_settled N r a : heard_as N r a -> settled (_reassembler r).
Proof. intros H. apply (st_settled _ _ _ (tr_stores _ _ _ (hd_tracks _ _ _ H))). Qed.

Lemma heard_new c : 0 <= c < 2 ^ 32 -> heard 0 (TCPReceiver.new c).
Proof.
  intros Hc. eexists. split; try done; [by apply tracks_new|].
  intros p [Hp|[_ Hm]]; [unfold Zlen in Hp; cbn in Hp; lia|].
  exfalso. apply Hm. apply bytes_lookup_blank.
Qed.

Lemma heard_mono N N' r : N <= N' -> heard N r -> heard N' r.
Proof.
  intros Hle (a & H). exists a. destruct H as [? ? ? ? ? Hb]. split; try done; [lia|].
  intros p Hp. specialize (Hb p Hp). lia.
Qed.

(** Work on the stream that keeps what was assembled. *)
Lemma heard_stream N r st :
  (forall a, tracks S (_reassembler r) a -> exists a', tracks S (set_output (_reassembler r) st) a' /\ hist a' = hist a) ->
  bytes_written st = bytes_written (TCPReceiver.stream_out r) ->
  heard N r -> heard N (set_stream_out r st) /\ pos (set_stream_out r st) = pos r.
Proof.
  intros Ht Hb (a & H). destruct (Ht a (hd_tracks _ _ _ H)) as (a' & Ha' & E).
  assert (pos (set_stream_out r st) = pos r) as Ep.
  { unfold pos. cbn [recievedSYN set_stream_out].
    change (TCPReceiver.stream_out (set_stream_out r st)) with st. by rewrite Hb. }
  split; [|exact Ep]. exists a'. destruct H. split; try done; [by rewrite Ep|by rewrite E].
Qed.

Lemma heard_read N r n :
  0 <= n -> heard N r ->
  let r' := set_stream_out r (fst (ByteStream.read (TCPReceiver.stream_out r) n)) in
  heard N r' /\ pos r' = pos r.
Proof.
  intros Hn Hh. pose proof Hh as (a & H). apply heard_stream; [|by destruct (ByteStream.read _ _) eqn:E; injection E as <- _|done].
  intros a0 Ha0. by apply read_tracks.
Qed.

Lemma heard_error N r :
  heard N r ->
  let r' := set_stream_out r (set_error (TCPReceiver.stream_out r)) in heard N r' /\ pos r' = pos r.
Proof. intros Hh. apply heard_stream; [|done|done]. intros a Ha. by apply error_tracks. Qed.

Lemma heard_ackno N r : heard N r ->
  TCPReceiver.ackno r = if recievedSYN r then Some (wrap (pos r) i) else None.
Proof.
  intros (a & H). destruct (recievedSYN r) eqn:E; [|unfold TCPReceiver.ackno; by rewrite E].
  rewrite (ackno_wrap i) by (done || by apply H). unfold pos. rewrite E, (hd_nofin _ _ _ H).
  cbn [andb b2i]. do 2 f_equal. lia.
Qed.

(** A substring below [N] is pushed. *)
Lemma heard_push N r a d x sy :
  heard_as N r a -> slice S x d -> x + Zlen d < 2 ^ 64 -> (d <> [] -> x + Zlen d <= N - 1) -> 1 <= N ->
  let r' := mkTCPReceiver (push_substring (_reassembler r) d x false) (_capacity r) i sy (recievedFIN r) in
  (recievedSYN r = true -> sy = true) ->
  exists a', heard_as N r' a' /\ pos r <= pos r' /\ Zlen (hist a) <= Zlen (hist a') /\
    (x <= Zlen (hist a) < x + Zlen d -> Zlen (hist a) < window_end (_reassembler r) (Zlen (hist a)) ->
     Zlen (hist a) < Zlen (hist a')).
Proof.
  intros H Hd Hmax Hend HN r' Hsy. pose proof H as [Ht Ho Hf Hq Hp Hb].
  assert (Zlen S < 2 ^ 32) as HS' by lia.
  destruct (push_tracks S (_reassembler r) a d x false HS' Ht Hd Hmax ltac:(done))
    as (a' & Ht' & [e Ee] & _ & _ & Hrec).
  assert (Zlen (hist a) <= Zlen (hist a')) as Hle by (rewrite Ee, Zlen_app; pose proof (Zlen_nonneg e); lia).
  assert (forall p, received (_reassembler r') (Zlen (hist a')) p -> p < N - 1) as Hb'.
  { intros p Hr%Hrec. destruct Hr as [Hr|Hr]; [by apply Hb|].
    destruct d as [|c0 d0]; [rewrite Zlen_nil in Hr; lia|]. specialize (Hend ltac:(done)). lia. }
  assert (pos r' <= N) as Hp'.
  { unfold r', pos, bytes_written, TCPReceiver.stream_out, StreamReassembler.stream_out. cbn [recievedSYN _reassembler].
    destruct sy; [|lia]. rewrite (stores_written S _ a' HS' (tr_stores _ _ _ Ht')).
    pose proof (Zlen_nonneg (hist a')). destruct (decide (Zlen (hist a') = 0)); [lia|].
    specialize (Hb' (Zlen (hist a') - 1) ltac:(left; lia)). lia. }
  exists a'. split; [|split_and!].
  - split; cbn [_reassembler recievedFIN isn]; try done.
    destruct (push_open (_reassembler r) d x) as [_ E]; [apply (heard_settled _ _ _ H)|apply Hd|done|exact E].
  - unfold r', pos. cbn [recievedSYN]. destruct (recievedSYN r) eqn:Er.
    + rewrite (Hsy eq_refl), (heard_written _ _ _ H).
      unfold bytes_written, TCPReceiver.stream_out, StreamReassembler.stream_out. cbn [_reassembler].
      rewrite (stores_written S _ a' HS' (tr_stores _ _ _ Ht')). lia.
    + destruct sy; [|done]. unfold bytes_written, TCPReceiver.stream_out, StreamReassembler.stream_out.
      cbn [_reassembler]. rewrite (stores_written S _ a' HS' (tr_stores _ _ _ Ht')).
      pose proof (Zlen_nonneg (hist a')). lia.
  - done.
  - intros Hx Hw. destruct (decide (Zlen (hist a) = Zlen (hist a'))) as [E|]; [|lia].
    assert (received (push_substring (_reassembler r) d x false) (Zlen (hist a')) (Zlen (hist a'))) as Hr
      by (apply Hrec; right; lia).
    destruct Hr as [?|[_ Hm]]; [lia|]. rewrite Z.sub_diag in Hm.
    by destruct (st_settled _ _ _ (tr_stores _ _ _ Ht')) as [_ []].
Qed.

(** The end of what a segment carries. *)
Lemma carried g N x : conveys S i x g -> x + seg_len g <= N -> fin (_header g) = false ->
  stream_index g x + Zlen (str (_payload g)) <= N - 1.
Proof.
  intros Hc Hl Hf. pose proof (cv_pos _ _ _ _ Hc) as Hpos.
  unfold seg_len in Hl. rewrite Hf in Hl. unfold stream_index. destruct (syn _); cbn [b2i] in Hl; lia.
Qed.

(** Any segment of the stream may arrive: the position only grows. *)
Lemma heard_segment N r g :
  N < 2 ^ 31 -> heard N r -> on_wire S i N g -> fin (_header g) = false ->
  heard N (TCPReceiver.segment_received r g) /\ pos r <= pos (TCPReceiver.segment_received r g).
Proof.
  intros HN (a & H) Hg Hf. pose proof (heard_settled _ _ _ H) as Hs. pose proof (heard_bounds _ _ _ H) as Hbw.
  destruct (recievedSYN r || syn (_header g)) eqn:E;
    [|rewrite segment_received_ignored by done; split; [by exists a|lia]].
  destruct Hg as [Hv|(x & Hc & Hl)].
  - pose proof Hv as (_ & Hsyn & _). rewrite Hsyn, orb_false_r in E.
    rewrite (segment_received_vacant i) by (done || (unfold near; lia) || apply (hd_isn _ _ _ H)).
    pose proof (hd_pos _ _ _ H) as Hp. unfold pos in Hp. rewrite E in Hp.
    destruct (heard_push N r a [] (2 ^ 64 - 1) true H) as (a' & Ha' & ? & _);
      [by apply slice_nil|by rewrite Zlen_nil|done|lia|done|]. split; [by exists a'|done].
  - pose proof (seg_len_nonneg g). pose proof (conveys_index _ _ _ _ Hc).
    assert (near r x) as Hn by (unfold near; lia).
    rewrite (segment_received_synced S i x) by (done || apply (hd_isn _ _ _ H)).
    rewrite Hf, orb_false_r. pose proof (carried g N x Hc Hl Hf).
    destruct (heard_push N r a (str (_payload g)) (stream_index g x) true H) as (a' & Ha' & ? & _);
      [apply Hc|lia|lia| |done|]; [|split; [by exists a'|done]].
    apply orb_true_iff in E as [E|E].
    + pose proof (hd_pos _ _ _ H) as Hp. unfold pos in Hp. rewrite E in Hp. lia.
    + unfold seg_len in *. rewrite E, Hf in Hl. cbn [b2i] in Hl. pose proof (Zlen_nonneg (str (_payload g))). lia.
Qed.

(** A segment that covers the position moves it, if there is room. *)
Lemma heard_progress N r g x :
  N < 2 ^ 31 -> heard N r -> conveys S i x g -> x + seg_len g <= N -> fin (_header g) = false ->
  x <= pos r < x + seg_len g -> 0 < window_size r ->
  pos r < pos (TCPReceiver.segment_received r g).
Proof.
  intros HN Hh Hc Hl Hf Hx Hw. destruct (heard_segment N r g HN Hh) as [(a' & H') _]; [right; by exists x|done|].
  destruct Hh as (a & H). pose proof (heard_settled _ _ _ H) as Hs.
  pose proof (heard_bounds _ _ _ H) as Hbw. pose proof (heard_bounds _ _ _ H') as Hbw'.
  pose proof (heard_written _ _ _ H) as Ew. pose proof (cv_pos _ _ _ _ Hc) as Hp0.
  pose proof (conveys_index _ _ _ _ Hc). pose proof (hd_pos _ _ _ H).
  assert (near r x) as Hn by (unfold near; lia).
  assert (recievedSYN r || syn (_header g) = true) as Es.
  { unfold pos in Hx. destruct (recievedSYN r); [done|]. destruct (syn (_header g)); [done|lia]. }
  rewrite (segment_received_synced S i x) in * by (done || apply (hd_isn _ _ _ H)).
  unfold pos in *. cbn [recievedSYN] in *. destruct (recievedSYN r) eqn:Er; [|lia].
  rewrite Hf, orb_false_r in *. pose proof (carried g N x Hc Hl Hf).
  destruct (heard_push N r a (str (_payload g)) (stream_index g x) true H) as (a2 & Ha2 & _ & _ & Hstep);
    [apply Hc|lia|lia|lia|done|].
  rewrite (heard_written _ _ _ Ha2), Ew. apply Z.add_lt_mono_l, Hstep.
  - rewrite <- Ew. unfold seg_len, stream_index in *. rewrite Hf in Hx.
    destruct (syn (_header g)); cbn [b2i] in Hx; lia.
  - rewrite <- Ew, <- window_size_eq by done. lia.
Qed.

Lemma heard_covers N r g x C :
  N < 2 ^ 31 -> heard N r -> conveys S i x g -> x + seg_len g <= N -> fin (_header g) = false ->
  x <= C < x + seg_len g -> C <= pos r -> 0 < window_size r ->
  C < pos (TCPReceiver.segment_received r g).
Proof.
  intros HN Hh Hc Hl Hf Hx HC Hw. destruct (Z.lt_ge_cases (pos r) (x + seg_len g)) as [Hlt|Hge].
  - pose proof (heard_progress N r g x HN Hh Hc Hl Hf ltac:(lia) Hw). lia.
  - destruct (heard_segment N r g HN Hh) as [_ ?]; [right; by exists x|done|lia].
Qed.
End Receiver.

(** ** What an endpoint does to its numbers *)

(** A segment as the sender builds it: neither ACK nor RST. *)
Definition plain (g : TCPSegment) : Prop := ack (_header g) = false /\ rst (_header g) = false.
#[global] Instance plain_built : Built plain.
Proof. split; try done; intros g; intros; by destruct g. Qed.

(** The acknowledgments of the segments [q] are at most [p]. *)
Definition acks_ok (i : WrappingInt32) (p : Z) (q : list TCPSegment) : Prop :=
  Forall (fun g => ack (_header g) = true -> exists x, 0 <= x <= p /\ TCPHeader.ackno (_header g) = wrap x i) q.

Lemma acks_mono i p p' q : p <= p' -> acks_ok i p q -> acks_ok i p' q.
Proof. intros Hp. apply Forall_impl. intros g Hg Ha. destruct (Hg Ha) as (x & ? & ?). exists x. split; [lia|done]. Qed.

Section Endpoint.
Context (S : list byte) (i : WrappingInt32).
Context (HS : Zlen S < 2 ^ 31 - 2) (Hi : valid i).

Lemma stamp_ack r g : plain g ->
  ack (_header (stamp r g)) = true -> TCPReceiver.ackno r = Some (TCPHeader.ackno (_header (stamp r g))).
Proof.
  intros [Ha _]. unfold stamp. destruct (TCPReceiver.ackno r) as [x|]; [done|].
  cbn [set_header _header set_win ack]. by rewrite Ha.
Qed.

Lemma stamp_rst r g : plain g -> rst (_header (stamp r g)) = false.
Proof. intros [_ Hr]. unfold stamp. by destruct (TCPReceiver.ackno r). Qed.

Lemma heard_pos_nonneg N r : heard S i N r -> 0 <= pos r.
Proof. intros (a & H). pose proof (heard_bounds S i HS N r a H). unfold pos. destruct (recievedSYN r); lia. Qed.

Lemma drain_acks N r b q : heard S i N r -> Forall plain q -> acks_ok i (pos r) (drain r b q).
Proof.
  intros Hh. induction 1 as [|g q Hg _ IH]; cbn [drain]; constructor; [|exact IH].
  intros Ha. assert (ack (_header (stamp r g)) = true) as Ha' by by destruct (_ && _).
  pose proof (stamp_ack r g Hg Ha') as E. rewrite (heard_ackno S i N r Hh) in E.
  destruct (recievedSYN r); [|done]. injection E as E. exists (pos r).
  split; [pose proof (heard_pos_nonneg N r Hh); lia|]. rewrite E. by destruct (_ && _).
Qed.

(** *** The queue of an endpoint *)

Record queue_ok (N : Z) (c : TCPConnection) : Prop := {
  qu_heard : heard S i N (_receiver c);
  qu_plain : sender_all plain (_sender c);
  qu_acks : acks_ok i (pos (_receiver c)) (_segments_out c)
}.

Lemma send_segments_queue N c b : queue_ok N c -> queue_ok N (_send_segments c b).
Proof.
  intros [Hh Hp Ha]. pose proof (send_segments_all c b Hp) as Hp'.
  destruct (send_segments_fields c b) as (_ & Er & Eo & _).
  split; rewrite ?Er, ?Eo; try done. apply Forall_app. split; [done|].
  apply (drain_acks N); [done|]. by apply fill_window_all in Hp as [? _].
Qed.

Lemma set_sender_queue N c s : queue_ok N c -> sender_all plain s -> queue_ok N (set_sender c s).
Proof. intros [Hh Hp Ha] Hs. by split. Qed.

Lemma kill_queue N c : queue_ok N c -> queue_ok N (_kill_connection c).
Proof.
  intros [Hh Hp Ha]. destruct (heard_error S i N _ Hh) as [Hh' Ep]. split; [exact Hh'|exact Hp|].
  unfold acks_ok. cbn. unfold acks_ok in Ha. by rewrite Ep.
Qed.

Lemma unclean_queue N c : queue_ok N c -> queue_ok N (_unclean_shutdown c).
Proof.
  intros Hq. apply kill_queue in Hq. unfold _unclean_shutdown. apply send_segments_queue.
  destruct (TCPSender.segments_out _); [|done]. apply set_sender_queue; [done|]. apply send_empty_all, Hq.
Qed.

Lemma tick_queue N c ms :
  queue_ok N c -> queue_ok N (TCPConnection.tick c ms) /\ pos (_receiver (TCPConnection.tick c ms)) = pos (_receiver c).
Proof.
  intros Hq. split.
  - unfold TCPConnection.tick. set (c1 := set_time _ _).
    assert (queue_ok N c1) as H1 by (destruct Hq; split; [done|by apply tick_all|done]). clearbody c1.
    assert (queue_ok N (if consecutive_retransmissions (_sender c1) >? MAX_RETX_ATTEMPTS
      then _unclean_shutdown c1 else c1)) as H2 by (destruct (_ >? _); [by apply unclean_queue|done]).
    revert H2. generalize (if consecutive_retransmissions (_sender c1) >? MAX_RETX_ATTEMPTS
      then _unclean_shutdown c1 else c1) as c2. intros c2 H2.
    destruct (_sent_SYN c2); [by apply send_segments_queue|done].
  - by destruct (tick_receiver c ms) as [->| ->].
Qed.

(** A segment of the stream arrives. *)
Lemma segment_queue N c g :
  N < 2 ^ 31 -> queue_ok N c -> on_wire S i N g -> fin (_header g) = false ->
  queue_ok N (segment_received c g) /\ pos (_receiver c) <= pos (_receiver (segment_received c g)).
Proof.
  intros HN [Hh Hp Ha] Hg Hf. pose proof (segment_all c g Hp) as Hp'.
  destruct (heard_segment S i HS Hi N _ g HN Hh Hg Hf) as [Hh' Hle].
  unfold segment_received in *. destruct (rst _).
  { split; [|done]. apply kill_queue. by split. }
  destruct (negb _ && _); [split; [by split|done]|]. cbn [set_time _receiver set_receiver _sender] in *.
  match goal with |- queue_ok _ (_send_segments ?x false) /\ _ => set (c1 := x) in * end.
  assert (_receiver c1 = TCPReceiver.segment_received (_receiver c) g) as Er by (unfold c1; by destruct (ack _), (_ || _)).
  assert (_segments_out c1 = _segments_out c) as Eo by (unfold c1; by destruct (ack _), (_ || _)).
  assert (queue_ok N c1) as H1.
  { split; rewrite ?Er, ?Eo; [done| |by eapply acks_mono].
    assert (forall s, sender_all plain s -> sender_all plain (ack_received s (TCPHeader.ackno (_header g)) (win (_header g)))) as Hack
      by (intros; by apply ack_received_all).
    unfold c1. destruct (ack _), (_ || _); cbn [set_sender _sender set_receiver set_time];
      try apply send_empty_all; try apply Hack; done. }
  split; [by apply send_segments_queue|].
  destruct (send_segments_fields c1 false) as (_ & -> & _). by rewrite Er.
Qed.

(** Every event at an endpoint that hears [S]. *)
Lemma exec_queue N e me incoming :
  N < 2 ^ 31 -> queue_ok N (conn me) -> acks_ok i (pos (_receiver (conn me))) (wire me) ->
  Forall (fun g => on_wire S i N g /\ fin (_header g) = false) incoming ->
  let me' := exec e me incoming in
  queue_ok N (conn me') /\ acks_ok i (pos (_receiver (conn me'))) (wire me') /\
  pos (_receiver (conn me)) <= pos (_receiver (conn me')).
Proof.
  intros HN Hq Hw Hin me'. unfold me'.
  assert (forall c b, _receiver (_send_segments c b) = _receiver c) as Er
    by (intros c b; by destruct (send_segments_fields c b) as (_ & -> & _)).
  destruct e as [|n| |ms|n| |k]; cbn [exec].
  - unfold TCPConnection.connect, set_conn; cbn [conn wire]. rewrite Er. split; [by apply send_segments_queue|done].
  - unfold TCPConnection.write. destruct (ByteStream.write _ _) as [st m]. cbn [conn wire]. rewrite Er.
    split; [|done]. apply send_segments_queue. destruct Hq as [? [? ?] ?]. by split.
  - destruct (todo me); [|done]. unfold end_input_stream, set_conn; cbn [conn wire]. rewrite Er.
    split; [|done]. apply send_segments_queue. destruct Hq as [? [? ?] ?]. by split.
  - destruct (tick_queue N (conn me) (Z.of_nat ms) Hq) as [H1 E]. cbn [set_conn conn wire]. rewrite E. done.
  - unfold read_inbound, inbound_stream.
    destruct Hq as [Hh Hp Ha]. destruct (heard_read S i N _ (Z.of_nat n) ltac:(lia) Hh) as [Hh' Ep].
    destruct (ByteStream.read _ _) as [st d]. cbn [fst conn wire] in *.
    change (_receiver (on_inbound (conn me) (fun _ => st))) with (set_stream_out (_receiver (conn me)) st).
    rewrite Ep. split; [split; [exact Hh'|exact Hp|]|done].
    change (_receiver (on_inbound (conn me) (fun _ => st))) with (set_stream_out (_receiver (conn me)) st). by rewrite Ep.
  - destruct (segments_out (conn me)) as [|g q] eqn:Eo; [done|]. cbn [conn wire].
    destruct Hq as [Hh Hp Ha]. unfold segments_out in Eo. rewrite Eo in Ha. inversion Ha; subst.
    split; [|split; [|done]].
    + split; [done|done|]. cbn. by rewrite Eo.
    + apply Forall_app. split; [done|]. by apply Forall_singleton.
  - destruct (incoming !! k) as [g|] eqn:Ek; [|done].
    destruct (Forall_lookup_1 _ _ _ _ Hin Ek) as [Hg Hf].
    destruct (segment_queue N (conn me) g HN Hq Hg Hf) as [H1 Hle]. cbn [set_conn conn wire].
    split; [done|]. split; [by eapply acks_mono|done].
Qed.
End Endpoint.

#[global] Instance event_eq_dec : EqDecision event.
Proof. solve_decision. Defined.

(** Until it has sent SYN an endpoint has sent nothing, and heard no SYN. *)
Definition quiet (me : Side) : Prop :=
  _sent_SYN (conn me) = true \/
  wire me = [] /\ _segments_out (conn me) = [] /\ recievedSYN (_receiver (conn me)) = false.

Lemma send_segments_sent c b : _sent_SYN (_send_segments c b) = true.
Proof. by destruct (send_segments_fields c b) as (_ & _ & _ & -> & _). Qed.

Lemma tick_quiet c ms :
  _sent_SYN (TCPConnection.tick c ms) = true \/
  (_sent_SYN c = false /\ _segments_out (TCPConnection.tick c ms) = _segments_out c /\
   recievedSYN (_receiver (TCPConnection.tick c ms)) = recievedSYN (_receiver c)).
Proof.
  unfold TCPConnection.tick. set (c1 := set_time _ _).
  assert (_sent_SYN c1 = _sent_SYN c /\ _segments_out c1 = _segments_out c /\ _receiver c1 = _receiver c)
    as (E1 & E2 & E3) by done. clearbody c1.
  destruct (_ >? _).
  - assert (_sent_SYN (_unclean_shutdown c1) = true) as -> by (unfold _unclean_shutdown; apply send_segments_sent).
    left. apply send_segments_sent.
  - destruct (_sent_SYN c1); [left; apply send_segments_sent|right]. by rewrite <- E1, E3.
Qed.

Lemma segment_quiet c g :
  _sent_SYN (segment_received c g) = true \/
  (_sent_SYN c = false /\ _segments_out (segment_received c g) = _segments_out c /\
   recievedSYN (_receiver (segment_received c g)) = recievedSYN (_receiver c)).
Proof.
  unfold segment_received. destruct (rst _); [cbn; destruct (_sent_SYN c); auto|].
  destruct (_ && _); [cbn; destruct (_sent_SYN c); auto|]. left. apply send_segments_sent.
Qed.

Lemma exec_quiet e me incoming :
  quiet me ->
  quiet (exec e me incoming) /\ (_sent_SYN (conn me) = true -> _sent_SYN (conn (exec e me incoming)) = true).
Proof.
  intros Hq. unfold quiet in *. destruct e as [|n| |ms|n| |k]; cbn [exec].
  - unfold TCPConnection.connect. cbn. by rewrite !send_segments_sent; auto.
  - unfold TCPConnection.write. destruct (ByteStream.write _ _). cbn [conn]. rewrite send_segments_sent. auto.
  - destruct (todo me); [|auto]. unfold end_input_stream. cbn [set_conn conn]. rewrite send_segments_sent. auto.
  - cbn [set_conn conn wire]. destruct (tick_quiet (conn me) (Z.of_nat ms)) as [->|(E & -> & ->)]; [auto|].
    rewrite E in *. split; [|done]. destruct Hq as [|(? & ? & ?)]; [done|auto].
  - unfold read_inbound. destruct (ByteStream.read _ _). cbn. auto.
  - destruct (segments_out (conn me)) eqn:E; [auto|]. cbn [conn pop_out set_out _sent_SYN].
    destruct Hq as [|(_ & Hq & _)]; [auto|]. unfold segments_out in E. congruence.
  - destruct (incoming !! k) as [g|]; [|auto]. cbn [set_conn conn wire].
    destruct (segment_quiet (conn me) g) as [->|(E & -> & ->)]; [auto|]. rewrite E in *. split; [|done].
    destruct Hq as [|(? & ? & ?)]; [done|auto].
Qed.

(** ** The numbers of the sending endpoint *)

Section Sending.
Context (S : list byte) (cfg : TCPConfig) (i : WrappingInt32).
Context (HS : Zlen S < 2 ^ 31 - 2) (Hi : fixed_isn cfg = Some i).
Context (Hsend : 0 <= send_capacity cfg < 2 ^ 32) (Hrecv : 0 <= recv_capacity cfg < 2 ^ 32).

Abbreviation next c := (_next_seqno (_sender c)).
Abbreviation chk c := (_checkpoint (_sender c)).
Definition ended_in (c : TCPConnection) : bool := input_ended (stream_in (_sender c)).

(** From one state to another of the same endpoint: the numbers grow, the
    acknowledged position at most to any [p] in [P]. *)
Record grows (P : Z -> Prop) (c c' : TCPConnection) : Prop := {
  gr_next : next c <= next c';
  gr_chk : forall p, P p -> chk c <= p -> chk c <= chk c' <= p;
  gr_ended : ended_in c' = ended_in c
}.

#[export] Instance grows_preorder P : PreOrder (grows P).
Proof.
  split; [split; [lia|intros; lia|done]|]. intros c1 c2 c3 [H1 H2 H3] [K1 K2 K3]. split; [lia| |congruence].
  intros p Hp Hc. specialize (H2 p Hp Hc). specialize (K2 p Hp ltac:(lia)). lia.
Qed.

Lemma HS32 : Zlen S < 2 ^ 32.
Proof. lia. Qed.

Lemma send_segments_grows P W c b : working S cfg i W c -> grows P c (_send_segments c b).
Proof.
  intros Hw. destruct (working_inv S cfg i HS32 Hsend W c Hw) as (a & Hinv & _).
  destruct (fill_window_grows S HS32 _ a Hinv) as (Hn & _ & _ & He).
  destruct (fill_window_inv S HS32 _ a Hinv) as (k & _ & (_ & _ & Hc & _)).
  destruct (send_segments_fields c b) as (Es & _).
  split; unfold ended_in, stream_in in *; rewrite Es; cbn [set_segments_out _next_seqno _checkpoint _stream];
    [lia|intros; lia|congruence].
Qed.

(** Anything that replaces the sender by one with the same numbers. *)
Lemma same_grows P c c' : next c' = next c -> chk c' = chk c -> ended_in c' = ended_in c -> grows P c c'.
Proof. intros E1 E2 E3. split; rewrite ?E1, ?E2, ?E3; [lia|intros; lia|done]. Qed.

Lemma unclean_grows P W c : working S cfg i W c -> grows P c (_unclean_shutdown c).
Proof.
  intros Hw. unfold _unclean_shutdown. apply (kill_working S cfg i) in Hw.
  transitivity (_kill_connection c); [by apply same_grows|].
  set (c1 := match _ with [] => _ | _ => _ end).
  assert (working S cfg i W c1 /\ grows P (_kill_connection c) c1) as [Hw1 Hg1].
  { unfold c1. destruct (TCPSender.segments_out _); [|by split].
    split; [by apply (empty_working S cfg i)|by apply same_grows]. }
  transitivity c1; [done|by apply (send_segments_grows P W)].
Qed.

Lemma tick_grows P W c ms : TCPConnection.reach S cfg i W c -> 0 <= ms -> grows P c (TCPConnection.tick c ms).
Proof.
  intros Hr Hms. destruct (reach_cinv S cfg i HS32 Hi Hsend Hrecv W c Hr) as [Hw _ _].
  unfold TCPConnection.tick. set (c1 := set_time _ _).
  assert (working S cfg i W c1) as Hw1 by by apply working_time, tick_working.
  transitivity c1.
  { destruct (tick_fields (_sender c) ms) as (E1 & _ & _ & _ & _ & E6 & E7 & _).
    apply same_grows; [exact E6|exact E7|]. unfold ended_in, stream_in, c1. cbn. by rewrite E1. }
  clearbody c1. destruct (_ >? _).
  - pose proof (unclean_cinv S cfg i HS32 Hsend W c1 Hw1) as Hc2.
    transitivity (_unclean_shutdown c1); [by apply (unclean_grows P W)|].
    destruct (_sent_SYN (_unclean_shutdown c1)); [|done]. apply (send_segments_grows P W), Hc2.
  - destruct (_sent_SYN c1); [by apply (send_segments_grows P W)|done].
Qed.

Lemma write_ended st d : input_ended (fst (ByteStream.write st d)) = input_ended st.
Proof. rewrite write_eq. unfold input_ended. by destruct (write_loop _ _ _ _). Qed.

(** An acknowledgment of at most [p] moves the position at most to [p]. *)
Lemma ack_moves p W c x w :
  working S cfg i W c -> 0 <= x <= p -> p < 2 ^ 31 ->
  let s' := ack_received (_sender c) (wrap x i) w in
  (chk c <= p -> chk c <= _checkpoint s' <= p) /\
  (chk c < x <= next c -> _checkpoint s' = x /\ _n_consecutive_retransmissions s' = 0).
Proof.
  intros Hw Hx Hp s'. destruct (working_inv S cfg i HS32 Hsend W c Hw) as (a & Hinv & HW & _).
  pose proof (inv_next_le S _ a HS32 Hinv). pose proof Hinv as [Hfl _].
  pose proof (fl_chk_le S _ Hfl). pose proof (first_outstanding_le S _ Hfl).
  pose proof (ack_received_spec S _ _ i W (_sender c) x w HS32 Hsend (wk_sender _ _ _ _ _ Hw) ltac:(lia) ltac:(lia)) as He.
  cbv zeta in He. fold s' in He. split.
  - intros Hc. destruct ((_checkpoint (_sender c) <? x) && (x <=? _next_seqno (_sender c))) eqn:E; bsplit.
    + destruct He as (-> & _). lia.
    + rewrite He. cbn. lia.
  - intros [Hlt Hle]. apply Z.ltb_lt in Hlt. apply Z.leb_le in Hle. rewrite Hlt, Hle in He. cbn [andb] in He.
    destruct He as (? & _ & ? & _). done.
Qed.

(** Acknowledgments that are at most every [p] in [P]. *)
Definition acks_below (P : Z -> Prop) (q : list TCPSegment) : Prop :=
  forall p, P p -> p < 2 ^ 31 /\ acks_ok i p q.

Lemma ack_grows P W c g w :
  working S cfg i W c -> ack (_header g) = true -> acks_below P [g] ->
  grows P c (set_sender c (ack_received (_sender c) (TCPHeader.ackno (_header g)) w)).
Proof.
  intros Hw Hg Ha. destruct (working_inv S cfg i HS32 Hsend W c Hw) as (a & Hinv & _).
  set (y := TCPHeader.ackno (_header g)) in *.
  destruct (ack_received_grows S HS32 _ a y w Hinv) as [Hn _].
  destruct (ack_received_inv S HS32 _ a y w Hinv) as (k & [_ Hsk] & _).
  pose proof Hinv as [_ Hsk0]. split; cbn [set_sender _sender].
  - exact Hn.
  - intros p Hp. destruct (Ha p Hp) as [Hb Hq]. apply (proj1 (Forall_singleton _ g)) in Hq.
    destruct (Hq Hg) as (x & Hx & E). unfold y. rewrite E. by apply (ack_moves p W).
  - unfold ended_in, stream_in, input_ended. cbn [set_sender _sender].
    rewrite (ref_ended _ _ (sk_ref _ _ _ Hsk)), (ref_ended _ _ (sk_ref _ _ _ Hsk0)). done.
Qed.

(** A segment received, up to the point where [_send_segments] runs. *)
Definition answer (c : TCPConnection) (g : TCPSegment) : TCPConnection :=
  let c := set_receiver (set_time c 0) (TCPReceiver.segment_received (_receiver c) g) in
  let c := if ack (_header g)
    then set_sender c (ack_received (_sender c) (TCPHeader.ackno (_header g)) (win (_header g))) else c in
  if (syn (_header g) && _sent_SYN c) || fin (_header g) || negb (Zlen (str (_payload g)) =? 0)
  then set_sender c (send_empty_segment (_sender c)) else c.

Lemma segment_answer c g :
  rst (_header g) = false -> _sent_SYN c = true \/ ack (_header g) = false ->
  segment_received c g = _send_segments (answer c g) false.
Proof.
  intros Hr Hs. unfold segment_received. rewrite Hr.
  destruct (negb (_sent_SYN (set_time c 0)) && ack (_header g)) eqn:E; [|done].
  apply andb_true_iff in E as [E1 E2]. cbn in E1. destruct Hs as [Hs|Hs]; [by rewrite Hs in E1|congruence].
Qed.

Lemma answer_grows P W c g :
  working S cfg i W c -> 0 <= win (_header g) < 2 ^ 16 -> acks_below P [g] ->
  working S cfg i W (answer c g) /\ grows P c (answer c g).
Proof.
  intros Hw Hwin Ha. unfold answer.
  set (c1 := set_receiver _ _). assert (working S cfg i W c1 /\ grows P c c1) as [Hw1 Hg1].
  { split; [|by apply same_grows]. apply (segment_working S cfg i W (set_time c 0)). by apply working_time. }
  set (c2 := if ack (_header g) then _ else _). assert (working S cfg i W c2 /\ grows P c c2) as [Hw2 Hg2].
  { unfold c2. destruct (ack (_header g)) eqn:E; [|done].
    split; [by apply ack_working, Hwin; [apply HS32|..]|]. transitivity c1; [done|]. by apply (ack_grows P W). }
  clearbody c2. destruct (_ || _); [|done].
  split; [by apply (empty_working S cfg i)|]. transitivity c2; [done|by apply same_grows].
Qed.

Lemma segment_grows P W c g :
  TCPConnection.reach S cfg i W c -> 0 <= win (_header g) < 2 ^ 16 -> acks_below P [g] ->
  grows P c (segment_received c g).
Proof.
  intros Hr Hwin Ha. destruct (reach_cinv S cfg i HS32 Hi Hsend Hrecv W c Hr) as [Hw _ _].
  destruct (rst (_header g)) eqn:Er.
  { unfold segment_received. rewrite Er. by apply same_grows. }
  destruct (negb (_sent_SYN c) && ack (_header g)) eqn:E.
  { unfold segment_received. rewrite Er. cbn [set_time _sent_SYN]. rewrite E. by apply same_grows. }
  rewrite segment_answer; [|done|by apply andb_false_iff in E as [?%negb_false_iff| ->]; auto].
  destruct (answer_grows P W c g Hw Hwin Ha) as [Hw' Hg].
  transitivity (answer c g); [done|by apply (send_segments_grows P W)].
Qed.

(** A new acknowledgment is recorded, and the retransmission count starts again. *)
Lemma conn_acked W c g x :
  TCPConnection.reach S cfg i W c -> 0 <= win (_header g) < 2 ^ 16 -> _sent_SYN c = true ->
  rst (_header g) = false -> ack (_header g) = true -> TCPHeader.ackno (_header g) = wrap x i ->
  0 <= x < 2 ^ 31 -> chk c < x <= next c ->
  let c' := segment_received c g in
  chk c' = x /\ _n_consecutive_retransmissions (_sender c') = 0.
Proof.
  intros Hr Hwin Hs Hrst Ha Ex Hx Hc c'. destruct (reach_cinv S cfg i HS32 Hi Hsend Hrecv W c Hr) as [Hw _ _].
  destruct (answer_grows (fun _ => False) W c g Hw Hwin ltac:(done)) as [Hw' _].
  destruct (working_inv S cfg i HS32 Hsend W _ Hw') as (a & Hinv & _).
  destruct (fill_window_inv S HS32 _ a Hinv) as (k & _ & (_ & _ & Ec & _ & En & _)).
  destruct (ack_moves x W c x (win (_header g)) Hw ltac:(lia) ltac:(lia)) as [_ Hm].
  destruct (Hm Hc) as [E1 E2]. unfold c'. rewrite segment_answer by auto.
  destruct (send_segments_fields (answer c g) false) as (-> & _).
  cbn [set_segments_out _checkpoint _n_consecutive_retransmissions]. rewrite Ec, En.
  unfold answer. rewrite Ha, Ex. by destruct (_ || _).
Qed.
End Sending.

Section Side.
Context (S S' : list byte) (cfg : TCPConfig) (i i' : WrappingInt32).
Context (HS : Zlen S < 2 ^ 31 - 2) (HS' : Zlen S' < 2 ^ 31 - 2).
Context (Hi : fixed_isn cfg = Some i) (Hi' : valid i').
Context (Hsend : 0 <= send_capacity cfg < 2 ^ 32) (Hrecv : 0 <= recv_capacity cfg < 2 ^ 32).

Abbreviation nextn me := (_next_seqno (_sender (conn me))).

(** Bytes of the stream are written, before they are sent. *)
Lemma write_working me W n :
  TCPConnection.reach S cfg i W (conn me) -> W ++ todo me = S ->
  let st := fst (ByteStream.write (stream_in (_sender (conn me))) (ztake (Z.of_nat n) (todo me))) in
  exists W', working S cfg i W' (on_stream_in (conn me) (fun _ => st)).
Proof.
  intros Hr HW. destruct (reach_cinv S cfg i (HS32 S HS) Hi Hsend Hrecv W _ Hr) as [Hw _ _].
  set (d := ztake _ _).
  pose proof (TCPSender.reach_write S _ _ i W _ d (wk_sender _ _ _ _ _ Hw)) as Hr'.
  pose proof (write_error (_stream (_sender (conn me))) d) as He. unfold stream_in.
  destruct (ByteStream.write _ d) as [st m]. cbn [fst snd] in *.
  exists (W ++ ztake m d). apply (working_sender S cfg i W); try done.
  apply Hr'. rewrite <- HW. apply prefix_app. unfold d, ztake. rewrite take_take.
  eexists. symmetry. apply take_drop.
Qed.

Lemma exec_grows P e me incoming :
  e <> EEnd -> side_ok S S' cfg i i' me -> wins_ok incoming -> acks_below i P incoming ->
  grows P (conn me) (conn (exec e me incoming)).
Proof.
  intros Hend [(W & Hr & HW) _ _ _ _] Hwin Hack.
  pose proof (reach_cinv S cfg i (HS32 S HS) Hi Hsend Hrecv W _ Hr) as [Hw _ _].
  destruct e as [|n| |ms|n| |k]; cbn [exec].
  - by apply (send_segments_grows S cfg i HS Hsend P W).
  - destruct (write_working me W n Hr HW) as (W' & Hw').
    pose proof (write_ended (stream_in (_sender (conn me))) (ztake (Z.of_nat n) (todo me))) as Hin.
    unfold TCPConnection.write. destruct (ByteStream.write _ _) as [st m]. cbn [fst conn] in *.
    transitivity (on_stream_in (conn me) (fun _ => st)); [by apply same_grows|].
    by apply (send_segments_grows S cfg i HS Hsend P W').
  - done.
  - apply (tick_grows S cfg i HS Hi Hsend Hrecv P W); [done|lia].
  - unfold read_inbound. destruct (ByteStream.read _ _). by apply same_grows.
  - destruct (segments_out (conn me)); [done|]. by apply same_grows.
  - destruct (incoming !! k) as [g|] eqn:Ek; [|done]. cbn [set_conn conn].
    pose proof (Forall_lookup_1 _ _ _ _ Hwin Ek).
    apply (segment_grows S cfg i HS Hi Hsend Hrecv P W); [done..|].
    intros p Hp. destruct (Hack p Hp) as [Hb Ha]. split; [done|].
    apply Forall_singleton. exact (Forall_lookup_1 _ _ _ _ Ha Ek).
Qed.

Lemma exec_end me incoming :
  side_ok S S' cfg i i' me ->
  exec EEnd me incoming = me \/ ended_in (conn (exec EEnd me incoming)) = true.
Proof.
  intros [(W & Hr & HW) _ _ _ _].
  pose proof (reach_cinv S cfg i (HS32 S HS) Hi Hsend Hrecv W _ Hr) as [Hw _ _].
  cbn [exec]. destruct (todo me) eqn:Et; [right|by left]. rewrite app_nil_r in HW. subst W. cbn [set_conn conn].
  assert (grows (fun _ => False) (on_stream_in (conn me) end_input) (end_input_stream (conn me))) as [_ _ ->]; [|done].
  apply (send_segments_grows S cfg i HS Hsend _ S). apply (working_sender S cfg i S); try done.
  apply TCPSender.reach_end, Hw.
Qed.

Lemma exec_wire P e me incoming :
  side_ok S S' cfg i i' me -> grows P (conn me) (conn (exec e me incoming)) ->
  Forall (on_wire S i (nextn me)) (wire me) ->
  Forall (on_wire S i (nextn (exec e me incoming))) (wire (exec e me incoming)).
Proof.
  intros Hok [Hn _ _] Hw.
  assert (Forall (on_wire S i (nextn (exec e me incoming))) (wire me)) as Hw'.
  { eapply Forall_impl; [|exact Hw]. intros g Hg. by eapply on_wire_mono. }
  destruct e as [|n| |ms|n| |k]; cbn [exec] in *.
  - exact Hw'.
  - unfold TCPConnection.write in *. by destruct (ByteStream.write _ _).
  - by destruct (todo me).
  - exact Hw'.
  - unfold read_inbound in *. by destruct (ByteStream.read _ _).
  - destruct Hok as [(W & Hr & HW) _ _ _ _].
    destruct (reach_cinv S cfg i (HS32 S HS) Hi Hsend Hrecv W _ Hr) as [Hwk _ _].
    pose proof (wk_out _ _ _ _ _ Hwk) as Ho.
    unfold segments_out in *. destruct (_segments_out (conn me)) as [|g q] eqn:Eo; [done|].
    cbn [conn wire] in *. apply Forall_app. split; [done|]. inversion Ho. by apply Forall_singleton.
  - by destruct (incoming !! k).
Qed.

(** SYN is heard from a peer that has sent something. *)
Lemma exec_syn e me incoming :
  recievedSYN (_receiver (conn (exec e me incoming))) = true ->
  recievedSYN (_receiver (conn me)) = true \/ incoming <> [].
Proof.
  assert (forall c b, _receiver (_send_segments c b) = _receiver c) as Er
    by (intros c b; by destruct (send_segments_fields c b) as (_ & -> & _)).
  destruct e as [|n| |ms|n| |k]; cbn [exec].
  - cbn [set_conn conn]. unfold TCPConnection.connect. rewrite Er. auto.
  - unfold TCPConnection.write. destruct (ByteStream.write _ _). cbn [conn]. rewrite Er. auto.
  - destruct (todo me); [|auto]. cbn [set_conn conn]. unfold end_input_stream. rewrite Er. auto.
  - cbn [set_conn conn]. destruct (tick_receiver (conn me) (Z.of_nat ms)) as [->| ->]; auto.
  - unfold read_inbound. destruct (ByteStream.read _ _). auto.
  - destruct (segments_out (conn me)); auto.
  - destruct (incoming !! k) eqn:E; [|auto]. intros _. right. intros ->. done.
Qed.

(** Before the writer has ended its stream no segment carries FIN. *)
Lemma unended_fin me g :
  side_ok S S' cfg i i' me -> ended_in (conn me) = false -> on_wire S i (nextn me) g -> fin (_header g) = false.
Proof.
  intros [(W & Hr & HW) _ _ _ _] He Hg.
  destruct (reach_cinv S cfg i (HS32 S HS) Hi Hsend Hrecv W _ Hr) as [Hwk _ _].
  destruct (working_inv S cfg i (HS32 S HS) Hsend W _ Hwk) as (a & [Hfl Hsk] & _).
  destruct (fin (_header g)) eqn:Ef; [|done]. exfalso.
  destruct Hg as [(_ & _ & Hv & _)|(x & Hc & Hl)]; [congruence|].
  pose proof (cv_fin _ _ _ _ Hc Ef) as Hend. unfold seg_len in Hl. unfold size, stream_index in Hend.
  rewrite Ef in Hl. pose proof (cv_pos _ _ _ _ Hc).
  assert (_fin (_sender (conn me)) = false) as Hfin.
  { destruct (_fin (_sender (conn me))) eqn:E; [|done]. destruct (sk_fin _ _ _ Hsk E) as [He' _].
    unfold ended_in, stream_in, input_ended in He. by rewrite (ref_ended _ _ (sk_ref _ _ _ Hsk)), He' in He. }
  pose proof (sk_next _ _ _ Hsk) as Hn. rewrite Hfin in Hn. pose proof (ref_popped _ _ (sk_ref _ _ _ Hsk)).
  pose proof (prefix_length _ _ (sk_hist _ _ _ Hsk)). unfold Zlen in *.
  destruct (syn (_header g)), (_syn (_sender (conn me))); cbn [b2i] in *; lia.
Qed.
End Side.

(** ** The timer *)

(** The timer's members are within their types, and the capacity is the configured one. *)
Definition timer_ok (rt cp : Z) (s : TCPSender) : Prop :=
  0 <= _time_spent s < 2 ^ 64 /\ 0 <= _rto s < 2 ^ 32 /\
  0 <= _n_consecutive_retransmissions s /\ _initial_retransmission_timeout s = rt /\
  ByteStream._capacity (_stream s) = cp.

Section Timer.
Context (rt cp : Z) (Hrt : 0 <= rt < 2 ^ 32).

Lemma send_segment_timer s g : timer_ok rt cp s -> timer_ok rt cp (_send_segment s g).
Proof.
  intros (Ht & Hr & Hc & Hi & Hcp). unfold _send_segment.
  cbn [set_segments_out set_flight set_next_seqno _is_timer_running].
  destruct (negb _); unfold timer_ok; cbn; subst; split_and!; done || lia.
Qed.

Lemma fill_step_timer s n : timer_ok rt cp s -> timer_ok rt cp (fst (fill_step s n)).
Proof.
  intros Hs. unfold fill_step. rewrite read_eq. cbv beta zeta iota.
  match goal with |- context [if eof ?s && ?b then _ else _] => destruct (eof s && b) end; cbn [fst]; by apply send_segment_timer.
Qed.

Lemma fill_loop_timer fuel s n s' : timer_ok rt cp s -> fill_loop fuel s n = Some s' -> timer_ok rt cp s'.
Proof.
  revert s n. induction fuel as [|fuel IH]; intros s n Hs; cbn [fill_loop]; [done|].
  destruct (_ && _); [|by intros [= <-]]. destruct (_ && _); [by intros [= <-]|].
  pose proof (fill_step_timer s n Hs) as Hf. destruct (fill_step s n) as [s1 n1]. by apply IH.
Qed.

Lemma fill_window_timer s : timer_ok rt cp s -> timer_ok rt cp (fill_window s).
Proof.
  intros Hs. unfold fill_window. destruct (negb (_syn s)).
  - by apply (send_segment_timer s).
  - destruct (fill_loop _ _ _) as [s'|] eqn:E; cbn; [by eapply fill_loop_timer|done].
Qed.

Lemma ack_timer s a w : timer_ok rt cp s -> timer_ok rt cp (ack_received s a w).
Proof.
  intros (Ht & Hr & Hc & Hi & Hcp). unfold ack_received. destruct (_ >? _); [done|]. destruct (_ <=? _); [done|].
  destruct (ack_loop _ _ _ _) as [[|e q] n]; apply fill_window_timer; unfold timer_ok; cbn; subst; split_and!; done || lia.
Qed.

Lemma tick_timer s ms : timer_ok rt cp s -> timer_ok rt cp (TCPSender.tick s ms).
Proof.
  intros (Ht & Hr & Hc & Hi & Hcp). unfold TCPSender.tick. pose proof (u64_bound (_time_spent s + ms)).
  pose proof (u32_bound (_rto s * 2)). pose proof (u32_bound (_n_consecutive_retransmissions s + 1)).
  destruct (pq_top _), (_segments_in_flight s) eqn:E; cbn [set_timer _segments_in_flight]; rewrite ?E;
    repeat (case_match; cbn [set_timer set_segments_out _segments_in_flight] in * ); unfold timer_ok; cbn; split_and!; done || lia.
Qed.

Lemma reach_timer S i W s : TCPSender.reach S cp rt i W s -> timer_ok rt cp s.
Proof.
  induction 1; try done; [|by apply fill_window_timer|by apply ack_timer|by apply tick_timer].
  rewrite write_eq. cbv zeta. by destruct (write_loop ByteStream.plain (ztake _ d) _ _).
Qed.

(** The timeout expires: the oldest segment in flight is queued again. *)
Lemma tick_resends s top ms :
  pq_top (_segments_in_flight s) = Some top -> _rto s <= u64 (_time_spent s + ms) ->
  0 <= _n_consecutive_retransmissions s < 2 ^ 31 ->
  TCPSender._segments_out (TCPSender.tick s ms) = TCPSender._segments_out s ++ [_seg top] /\
  _n_consecutive_retransmissions (TCPSender.tick s ms) <= _n_consecutive_retransmissions s + 1.
Proof.
  intros Htop He Hn. unfold TCPSender.tick. cbn [set_timer _segments_in_flight _time_spent _rto]. rewrite Htop.
  destruct (Z.leb_spec (_rto s) (u64 (_time_spent s + ms))); [|lia].
  cbn [set_segments_out TCPSender._segments_out _rwnd set_timer _n_consecutive_retransmissions].
  rewrite (u32_small (_n_consecutive_retransmissions s + 1)) by lia.
  destruct (_rwnd s >? 0); cbn [set_timer set_segments_out _segments_in_flight];
    destruct (_segments_in_flight s); cbn; (split; [done|lia]).
Qed.

End Timer.

Section Resend.
Context (S : list byte) (cfg : TCPConfig) (i : WrappingInt32).
Context (HS : Zlen S < 2 ^ 31 - 2) (Hi : fixed_isn cfg = Some i).
Context (Hsend : 0 <= send_capacity cfg < 2 ^ 32) (Hrecv : 0 <= recv_capacity cfg < 2 ^ 32).
Context (Hrt : 0 <= rt_timeout cfg < 2 ^ 32).

(** The oldest segment in flight covers the acknowledged position. *)
Lemma oldest W c e q :
  TCPConnection.reach S cfg i W c -> _segments_in_flight (_sender c) = e :: q ->
  pq_top (_segments_in_flight (_sender c)) = Some e /\ _sent_SYN c = true /\
  exists x, conveys S i x (_seg e) /\ x + seg_len (_seg e) <= _next_seqno (_sender c) /\
    x <= _checkpoint (_sender c) < x + seg_len (_seg e).
Proof.
  intros Hr Eq. destruct (reach_cinv S cfg i (HS32 S HS) Hi Hsend Hrecv W c Hr) as [Hw _ Hsyn].
  destruct (working_inv S cfg i (HS32 S HS) Hsend W c Hw) as (a & [Hfl Hsk] & _).
  destruct (reach_params S _ _ i (HS32 S HS) Hsend W _ (wk_sender _ _ _ _ _ Hw)) as [Ei _].
  pose proof (fl_tiles _ _ Hfl) as Ht. pose proof (fl_chk _ _ Hfl) as Hc. unfold first_outstanding in Ht.
  rewrite Eq in Ht, Hc. rewrite Ei in Ht. destruct (tiles_top _ _ _ _ _ _ Ht) as [Etop _].
  destruct Ht as (_ & Hlen & Hcv & Hn). apply tiles_le in Hn.
  split; [by rewrite Eq|]. split; [|exists (_abs_seqno e); split; [done|lia]].
  rewrite Hsyn. pose proof (sk_next _ _ _ Hsk) as En. destruct (_syn (_sender c)); [done|lia].
Qed.

Lemma conn_tick_resends W c e q :
  TCPConnection.reach S cfg i W c -> _segments_in_flight (_sender c) = e :: q ->
  consecutive_retransmissions (_sender c) < MAX_RETX_ATTEMPTS ->
  exists ms : nat, let c' := TCPConnection.tick c (Z.of_nat ms) in
    stamp (_receiver c) (_seg e) ∈ _segments_out c' /\ _receiver c' = _receiver c.
Proof.
  intros Hr Eq Hn. destruct (reach_cinv S cfg i (HS32 S HS) Hi Hsend Hrecv W c Hr) as [Hw Hq _].
  destruct (oldest W c e q Hr Eq) as (Htop & Hsent & _).
  destruct (reach_timer _ _ Hrt _ _ _ _ (wk_sender _ _ _ _ _ Hw)) as (Ht & Hrto & Hc & _).
  set (ms := Z.to_nat (Z.max 0 (_rto (_sender c) - _time_spent (_sender c)))).
  exists ms. unfold MAX_RETX_ATTEMPTS, consecutive_retransmissions in *.
  destruct (tick_resends (_sender c) e (Z.of_nat ms) Htop) as [Eo Hc']; [rewrite u64_small; lia|lia|].
  cbv zeta. unfold TCPConnection.tick.
  set (c1 := set_time (set_sender c (TCPSender.tick (_sender c) (Z.of_nat ms))) _).
  assert ((consecutive_retransmissions (_sender c1) >? MAX_RETX_ATTEMPTS) = false) as ->.
  { unfold consecutive_retransmissions, MAX_RETX_ATTEMPTS. rewrite Z.gtb_ltb. apply Z.ltb_ge. cbn. lia. }
  change (_sent_SYN c1) with (_sent_SYN c). rewrite Hsent.
  destruct (send_segments_fields c1 false) as (_ & -> & -> & _). split; [|done].
  unfold TCPSender.segments_out. destruct (fill_window_emits (_sender c1)) as (sent & _ & ->).
  change (TCPSender._segments_out (_sender c1)) with (TCPSender._segments_out (TCPSender.tick (_sender c) (Z.of_nat ms))).
  rewrite Eo, Hq. cbn [app drain]. apply elem_of_app. right. destruct sent; by left.
Qed.
End Resend.

(** ** The room at the receiver *)

Lemma push_capacity r d x e :
  StreamReassembler._capacity (push_substring r d x e) = StreamReassembler._capacity r.
Proof.
  unfold push_substring.
  set (r1 := if e && _ then _ else _). assert (StreamReassembler._capacity r1 = StreamReassembler._capacity r) as E1
    by (unfold r1; by destruct (_ && _)). clearbody r1.
  match goal with |- context [write_segment ?y] => set (r2 := y) end.
  assert (StreamReassembler._capacity r2 = StreamReassembler._capacity r) as E2.
  { unfold r2, create_segment. destruct (_ <=? _); [done|]. by destruct (create_loop _ _ _ _ _ _ _ _) as [[? ?] ?]. }
  clearbody r2. by destruct (_ && _).
Qed.

Lemma reach_capacity honest S i c r :
  TCPReceiver.reach honest S i c r -> StreamReassembler._capacity (_reassembler r) = c.
Proof.
  assert (forall r g, StreamReassembler._capacity (_reassembler (TCPReceiver.segment_received r g)) =
    StreamReassembler._capacity (_reassembler r)) as Hs.
  { intros r0 g. unfold TCPReceiver.segment_received. destruct (_ && _); [done|]. cbn [_reassembler].
    rewrite push_capacity. by destruct (fin _), (syn _). }
  induction 1; rewrite ?Hs; done.
Qed.

(** After the reader has taken everything the whole capacity is free. *)
Lemma read_all_window r n :
  settled (_reassembler r) -> buffer_size (TCPReceiver.stream_out r) <= n ->
  let r' := set_stream_out r (fst (ByteStream.read (TCPReceiver.stream_out r) n)) in
  window_size r' = StreamReassembler._capacity (_reassembler r).
Proof.
  intros [Hwf _] Hn r'. unfold TCPReceiver.stream_out, StreamReassembler.stream_out, buffer_size in *.
  pose proof (wf_output _ Hwf) as Ho. pose proof (ByteStream.Zlen_contents _ Ho) as Hl.
  pose proof (Zlen_nonneg (contents (_output (_reassembler r)))).
  destruct (read_spec (_output (_reassembler r)) n Ho ltac:(lia)) as (_ & _ & He & Hc & _).
  pose proof (read_wf (_output (_reassembler r)) n Ho ltac:(lia)) as Hwf'.
  unfold r', window_size, TCPReceiver.stream_out, StreamReassembler.stream_out in *.
  cbn [set_stream_out _reassembler set_output _output]. rewrite remaining_capacity_eq by done.
  rewrite He, Hc, (StreamReassembler.wf_cap _ Hwf). lia.
Qed.

(** ** The reply *)

Lemma fill_window_answers s :
  TCPSender._segments_out s <> [] \/ _syn s = false -> TCPSender._segments_out (fill_window s) <> [].
Proof.
  intros [Ho|Hs].
  - destruct (fill_window_emits s) as (sent & _ & ->). by destruct (TCPSender._segments_out s).
  - unfold fill_window. rewrite Hs. cbn [negb].
    destruct (send_segment_fields s (set_header default_segment (set_syn default_header true))) as (Eo & _).
    change (TCPSender._segments_out (_send_segment s (set_header default_segment (set_syn default_header true))) <> []).
    rewrite Eo. by destruct (TCPSender._segments_out s).
Qed.

Section Reply.
Context (S : list byte) (i : WrappingInt32) (HS : Zlen S < 2 ^ 31 - 2) (Hi : valid i).

Lemma stamp_heard N r g :
  heard S i N r -> recievedSYN r = true -> plain g ->
  ack (_header (stamp r g)) = true /\ TCPHeader.ackno (_header (stamp r g)) = wrap (pos r) i /\
  rst (_header (stamp r g)) = false.
Proof.
  intros Hh Hr Hg. pose proof (stamp_rst r g Hg) as Hrst. revert Hrst. unfold stamp.
  rewrite (heard_ackno S i N r Hh), Hr. done.
Qed.

(** An endpoint answers a segment that carries SYN or data with its position. *)
Lemma conn_replies N c g :
  queue_ok S i N c -> N < 2 ^ 31 -> on_wire S i N g -> fin (_header g) = false -> rst (_header g) = false ->
  _sent_SYN c = _syn (_sender c) -> _sent_SYN c = true \/ (ack (_header g) = false /\ syn (_header g) = true) ->
  syn (_header g) = true \/ str (_payload g) <> [] ->
  let c' := segment_received c g in
  recievedSYN (_receiver c') = true ->
  exists g', g' ∈ _segments_out c' /\ ack (_header g') = true /\
    TCPHeader.ackno (_header g') = wrap (pos (_receiver c')) i /\ rst (_header g') = false.
Proof.
  intros Hq HN Hg Hf Hrst Hsyn Hs Hd c' Hsynced.
  destruct (segment_queue S i HS Hi N c g HN Hq Hg Hf) as [[Hh' _ _] _]. fold c' in Hh'.
  assert (c' = _send_segments (answer c g) false) as Ec by (apply segment_answer; [done|tauto]).
  assert (sender_all plain (_sender (answer c g)) /\
    TCPSender._segments_out (fill_window (_sender (answer c g))) <> []) as [Hp Hne].
  { destruct Hq as [_ Hp _]. unfold answer.
    set (c1 := if ack (_header g) then _ else _). assert (sender_all plain (_sender c1)) as H1.
    { unfold c1. destruct (ack _); [by apply ack_received_all|done]. }
    destruct (((syn (_header g) && _sent_SYN c1) || fin (_header g)) || negb (Zlen (str (_payload g)) =? 0)) eqn:E.
    - split; [by apply send_empty_all|]. apply fill_window_answers. left. cbn.
      by destruct (TCPSender._segments_out (_sender c1)).
    - split; [done|]. apply fill_window_answers. right.
      apply orb_false_iff in E as [[E1 _]%orb_false_iff E2]. apply negb_false_iff, Z.eqb_eq, Zlen_0_inv in E2.
      destruct Hd as [Hd|Hd]; [|done]. rewrite Hd in E1. cbn [andb] in E1.
      assert (_sent_SYN c1 = _sent_SYN c) as Es by (unfold c1; by destruct (ack _)). rewrite Es in E1.
      destruct Hs as [?|[Hs _]]; [congruence|]. unfold c1. rewrite Hs. cbn [_sender set_receiver set_time]. congruence. }
  destruct (send_segments_fields (answer c g) false) as (_ & Er & Eo & _). rewrite <- Ec in Er, Eo.
  apply fill_window_all in Hp as [Hp _]. unfold TCPSender.segments_out in Eo.
  destruct (TCPSender._segments_out (fill_window (_sender (answer c g)))) as [|x q]; [done|].
  inversion Hp; subst x0 l. exists (stamp (_receiver c') x).
  split; [|by apply (stamp_heard N)]. rewrite Eo, Er. apply elem_of_app. right. by left.
Qed.
End Reply.

(** ** Emptying the queues *)

Definition sd (b : bool) (w : World) : Side := if b then left w else right w.
Definition put (b : bool) (w : World) (me : Side) : World :=
  if b then mkWorld me (right w) else mkWorld (left w) me.
Definition flushed (me : Side) : Side :=
  mkSide (set_out (conn me) []) (todo me) (got me) (wire me ++ segments_out (conn me)).
Definition flush (b : bool) (w : World) : list (bool * event) :=
  replicate (length (segments_out (conn (sd b w)))) (b, ESend).

Lemma run_flush b w : run w (flush b w) = put b w (flushed (sd b w)).
Proof.
  unfold flush, flushed. remember (segments_out (conn (sd b w))) as q eqn:Eq. revert w Eq.
  induction q as [|g q IH]; intros w Eq.
  - assert (forall c, [] = segments_out c -> set_out c [] = c) as E
      by (intros [] E; unfold segments_out in E; cbn in E; by subst).
    destruct w as [[] []], b; cbn in *; rewrite app_nil_r; by rewrite E.
  - cbn [length replicate run fold_left]. change (fold_left step) with (fun evs w => run w evs). cbv beta.
    rewrite IH; destruct w as [l r], b; cbn in *; rewrite <- Eq; cbn;
      [by rewrite <- app_assoc..| |]; unfold segments_out in *; cbn; by rewrite <- Eq.
Qed.

(** ** The two endpoints together *)

Section Flow.
(** [S] is what the first endpoint writes and the second hears. *)
Context (S S' : list byte) (cA cB : TCPConfig) (i i' : WrappingInt32).
Context (HS : Zlen S < 2 ^ 31 - 2) (HS' : Zlen S' < 2 ^ 31 - 2).
Context (Hi : fixed_isn cA = Some i) (Hi' : fixed_isn cB = Some i') (Vi : valid i) (Vi' : valid i').
Context (HsA : 0 <= send_capacity cA < 2 ^ 32) (HrA : 0 <= recv_capacity cA < 2 ^ 32).
Context (HsB : 0 <= send_capacity cB < 2 ^ 32) (HrB : 0 <= recv_capacity cB < 2 ^ 32).

Abbreviation nextn me := (_next_seqno (_sender (conn me))).
Abbreviation chkn me := (_checkpoint (_sender (conn me))).
Abbreviation posn me := (pos (_receiver (conn me))).

Record flow (A B : Side) : Prop := {
  fw_wire : Forall (on_wire S i (nextn A)) (wire A);
  fw_queue : queue_ok S i (nextn A) (conn B);
  fw_acks : acks_ok i (posn B) (wire B);
  fw_chk : chkn A <= posn B;
  fw_quiet : quiet B;
  fw_syn : recievedSYN (_receiver (conn A)) = true -> _sent_SYN (conn B) = true
}.

Definition sideA := side_ok S S' cA i i'.
Definition sideB := side_ok S' S cB i' i.

Lemma next_bound A : sideA A -> nextn A < 2 ^ 31.
Proof.
  intros [(W & Hr & _) _ _ _ _]. destruct (reach_cinv S cA i (HS32 S HS) Hi HsA HrA W _ Hr) as [Hwk _ _].
  destruct (working_inv S cA i (HS32 S HS) HsA W _ Hwk) as (a & Hinv & _).
  pose proof (inv_next_le S _ a (HS32 S HS) Hinv). lia.
Qed.

Lemma flow_pos A B : flow A B -> posn B <= nextn A.
Proof. intros Hf. destruct (qu_heard _ _ _ _ (fw_queue _ _ Hf)) as (a & H). apply (hd_pos _ _ _ _ _ H). Qed.

Lemma flow_sending e A B :
  sideA A -> sideB B -> flow A B -> ended_in (conn (exec e A (wire B))) = false ->
  flow (exec e A (wire B)) B.
Proof.
  intros HA HB Hf He. destruct (decide (e = EEnd)) as [->|Hne].
  { destruct (exec_end S S' cA i i' HS Hi HsA HrA A (wire B) HA) as [->|E]; [done|congruence]. }
  pose proof (flow_pos _ _ Hf) as Hle. pose proof (next_bound A HA) as Hb.
  pose proof Hf as [F1 [Q1 Q2 Q3] F3 F4 F5 F6].
  pose proof (exec_grows S S' cA i i' HS Hi HsA HrA (eq (posn B)) e A (wire B) Hne HA (sd_wins _ _ _ _ _ _ HB)
    ltac:(intros p <-; split; [lia|exact F3])) as Hg.
  pose proof (exec_wire S S' cA i i' HS Hi HsA HrA _ e A (wire B) HA Hg F1) as Hw.
  destruct Hg as [G1 G2 G3]. split; try done.
  - split; try done. by eapply heard_mono.
  - by apply (G2 _ eq_refl).
  - intros Hs. destruct (exec_syn e A (wire B) Hs) as [?|Hsome]; [auto|].
    destruct F5 as [?|(? & _)]; [done|congruence].
Qed.

Lemma flow_hearing e A B :
  sideA A -> flow A B -> ended_in (conn A) = false -> flow A (exec e B (wire A)).
Proof.
  intros HA Hf He. pose proof (next_bound A HA) as Hb. pose proof Hf as [F1 F2 F3 F4 F5 F6].
  destruct (exec_quiet e B (wire A) F5) as [Hq Hsent].
  destruct (exec_queue S i HS Vi (nextn A) e B (wire A) Hb F2 F3) as (H1 & H2 & H3).
  { eapply Forall_impl; [|exact F1]. intros g Hg. split; [done|].
    by eapply (unended_fin S S' cA i i' HS Hi HsA HrA A). }
  split; try done; [lia|auto].
Qed.

(** Both sides and the flow between them. *)
Definition good (w : World) : Prop := sideA (left w) /\ sideB (right w) /\ flow (left w) (right w).

Lemma good_step w x : good w -> ended_in (conn (left (step w x))) = false -> good (step w x).
Proof.
  intros (HA & HB & Hf) He. destruct x as [[|] e]; cbn [step left right] in *.
  - split; [|split; [done|by apply flow_sending]].
    by apply (exec_ok S S' cA i i' HS HS' Hi Vi' HsA HrA); [|apply HB|apply HB].
  - split; [done|split; [|by apply flow_hearing]].
    by apply (exec_ok S' S cB i' i HS' HS Hi' Vi HsB HrB); [|apply HA|apply HA].
Qed.

(** Once given, the end of the stream stays. *)
Lemma step_ended w x : sideA (left w) -> sideB (right w) ->
  ended_in (conn (left (step w x))) = false -> ended_in (conn (left w)) = false.
Proof.
  intros HA HB. destruct x as [[|] e]; cbn [step left right]; [|done].
  destruct (decide (e = EEnd)) as [->|Hne].
  { destruct (exec_end S S' cA i i' HS Hi HsA HrA (left w) (wire (right w)) HA) as [->|E]; congruence. }
  by rewrite (gr_ended _ _ _ (exec_grows S S' cA i i' HS Hi HsA HrA (fun _ => False) e (left w) (wire (right w))
    Hne HA (sd_wins _ _ _ _ _ _ HB) ltac:(done))).
Qed.

Lemma good_run evs w : good w -> ended_in (conn (left (run w evs))) = false -> good (run w evs).
Proof.
  intros Hg. induction evs as [|x evs IH] using rev_ind; [done|].
  unfold run. rewrite fold_left_app. cbn [fold_left]. fold (run w evs). intros He.
  destruct Hg as (HA & HB & Hf).
  destruct (run_ok S S' cA cB i i' HS HS' Hi Hi' Vi Vi' HsA HrA HsB HrB evs w HA HB) as [HA' HB'].
  apply good_step; [|done]. apply IH. by eapply step_ended.
Qed.

Lemma good_init : good (mkWorld (init cA S) (init cB S')).
Proof.
  split; [by apply init_ok|split; [by apply init_ok|]].
  assert (_next_seqno (_sender (TCPConnection.new cA 0)) = 0) as En by done.
  split; cbn [init conn wire left right]; [constructor| |constructor|done|by right|done].
  split; [rewrite En; by apply heard_new|split; constructor|constructor].
Qed.

(** An event that is not the end of the left stream. *)
Lemma good_next w x :
  good w -> ended_in (conn (left w)) = false -> x <> (true, EEnd) ->
  good (step w x) /\ ended_in (conn (left (step w x))) = false /\
  chkn (left w) <= chkn (left (step w x)) /\ nextn (left w) <= nextn (left (step w x)).
Proof.
  intros Hg He Hx. pose proof Hg as (HA & HB & Hf).
  assert (ended_in (conn (left (step w x))) = false /\ chkn (left w) <= chkn (left (step w x)) /\
    nextn (left w) <= nextn (left (step w x))) as [He' Hc].
  { destruct x as [[|] e]; cbn [step left]; [|split; [done|lia]].
    pose proof (flow_pos _ _ Hf). pose proof (next_bound _ HA).
    destruct (exec_grows S S' cA i i' HS Hi HsA HrA (eq (posn (right w))) e (left w) (wire (right w)))
      as [Gn Gc ->]; [congruence|done|apply HB|intros p <-; split; [lia|apply Hf]|].
    split; [done|]. split; [by apply (Gc _ eq_refl), Hf|done]. }
  split; [by apply good_step|done].
Qed.

Definition not_end (x : bool * event) : Prop := x <> (true, EEnd).

Lemma good_nexts evs w :
  good w -> ended_in (conn (left w)) = false -> Forall not_end evs ->
  good (run w evs) /\ ended_in (conn (left (run w evs))) = false /\
  chkn (left w) <= chkn (left (run w evs)) /\ nextn (left w) <= nextn (left (run w evs)).
Proof.
  intros Hg He Hev. revert w Hg He. induction Hev as [|x evs Hx _ IH]; intros w Hg He; [split; [done|split; [done|cbn; lia]]|].
  destruct (good_next w x Hg He Hx) as (Hg' & He' & Hc & Hn). destruct (IH _ Hg' He') as (H1 & H2 & H3 & H4).
  cbn [run fold_left]. unfold run in H3, H4. split; [done|split; [done|lia]].
Qed.

(** *** A retransmission *)

Context (Hrt : 0 <= rt_timeout cA < 2 ^ 32).

(** What time and the network do. *)
Definition by_network (x : bool * event) : Prop :=
  match snd x with ETick _ | ESend | EDeliver _ => True | _ => False end.

Lemma network_not_end evs : Forall by_network evs -> Forall not_end evs.
Proof. apply Forall_impl. by intros [[|] []] H [=]. Qed.

Lemma flush_by_network b w : Forall by_network (flush b w).
Proof. by apply Forall_replicate. Qed.

Lemma run_app w evs evs' : run w (evs ++ evs') = run (run w evs) evs'.
Proof. apply fold_left_app. Qed.

(** The left endpoint resends its oldest segment; it reaches the right one. *)
Lemma resend w e q :
  good w -> ended_in (conn (left w)) = false -> _segments_in_flight (_sender (conn (left w))) = e :: q ->
  consecutive_retransmissions (_sender (conn (left w))) < MAX_RETX_ATTEMPTS ->
  exists evs j, Forall by_network evs /\ chkn (left (run w evs)) = chkn (left w) /\
    right (run w evs) = right w /\ _receiver (conn (left (run w evs))) = _receiver (conn (left w)) /\
    wire (left (run w evs)) !! j = Some (stamp (_receiver (conn (left w))) (_seg e)).
Proof.
  intros (HA & HB & Hf) He Eq Hn. pose proof HA as [(W & Hr & _) _ _ _ _].
  destruct (conn_tick_resends S cA i HS Hi HsA HrA Hrt W _ e q Hr Eq Hn) as (ms & Hin & Erec).
  set (w1 := step w (true, ETick ms)).
  apply list_elem_of_lookup in Hin as [k Hk].
  exists ((true, ETick ms) :: flush true w1), (length (wire (left w)) + k)%nat.
  split; [constructor; [done|apply flush_by_network]|].
  change (run w ((true, ETick ms) :: flush true w1)) with (run w1 (flush true w1)).
  rewrite run_flush. cbn [put sd left right flushed conn wire].
  split; [|split; [done|split; [exact Erec|]]].
  - destruct (tick_grows S cA i HS Hi HsA HrA (eq (chkn (left w))) W _ (Z.of_nat ms) Hr ltac:(lia)) as [_ Gc _].
    specialize (Gc _ eq_refl ltac:(lia)). unfold w1. cbn. lia.
  - rewrite lookup_app_r by (unfold w1; cbn; lia). unfold w1. cbn [step left exec set_conn wire].
    rewrite Nat.add_comm, Nat.add_sub. exact Hk.
Qed.

(** It is answered with a higher position; the answer reaches the left one. *)
Lemma answered w g x j :
  good w -> ended_in (conn (left w)) = false -> wire (left w) !! j = Some g ->
  conveys S i x g -> x + seg_len g <= nextn (left w) -> rst (_header g) = false ->
  x <= chkn (left w) < x + seg_len g -> 0 < window_size (_receiver (conn (right w))) ->
  (ack (_header g) = true -> recievedSYN (_receiver (conn (left w))) = true) ->
  _sent_SYN (conn (left w)) = true ->
  exists evs, Forall by_network evs /\ chkn (left w) < chkn (left (run w evs)) /\
    consecutive_retransmissions (_sender (conn (left (run w evs)))) = 0.
Proof.
  intros Hgood He Hj Hcv Hend Hrst Hx Hwin Hack Hsent. pose proof Hgood as (HA & HB & Hf).
  pose proof (next_bound _ HA) as Hb. pose proof Hf as [F1 F2 F3 F4 F5 F6].
  pose proof (Forall_lookup_1 _ _ _ _ F1 Hj) as Hg.
  assert (fin (_header g) = false) as Hfin by (by eapply (unended_fin S S' cA i i' HS Hi HsA HrA (left w))).
  set (c := conn (right w)) in *. set (c1 := segment_received c g).
  assert (_sent_SYN c = true \/ ack (_header g) = false /\ syn (_header g) = true) as Hsyn.
  { destruct (_sent_SYN c) eqn:Es; [by left|right].
    assert (ack (_header g) = false) as Ea by (destruct (ack (_header g)); [specialize (F6 (Hack eq_refl)); congruence|done]).
    split; [done|]. pose proof (cv_pos _ _ _ _ Hcv).
    destruct (syn (_header g)); [done|]. destruct F5 as [?|(_ & _ & Er)]; [unfold c in Es; congruence|].
    unfold pos in F4. fold c in Er. rewrite Er in F4. lia. }
  assert (_receiver c1 = TCPReceiver.segment_received (_receiver c) g) as Er.
  { unfold c1. rewrite segment_answer by tauto. destruct (send_segments_fields (answer c g) false) as (_ & -> & _).
    unfold answer. by destruct (ack _), (_ || _). }
  assert (chkn (left w) < pos (_receiver c1)) as Hpos
    by (rewrite Er; apply (heard_covers S i HS Vi (nextn (left w)) _ g x); try done; apply F2).
  pose proof (conveys_index _ _ _ _ Hcv).
  set (w1 := step w (false, EDeliver j)).
  assert (right w1 = set_conn (right w) c1) as Ew1 by (unfold w1; cbn [step exec left right]; by rewrite Hj).
  destruct (conn_replies S i HS Vi (nextn (left w)) c g F2 Hb Hg Hfin Hrst) as (g' & Hin & Ha & Ex & Hr'); [| done | | |].
  - destruct HB as [(W & Hr & _) _ _ _ _]. apply (reach_cinv S' cB i' (HS32 S' HS') Hi' HsB HrB W _ Hr).
  - destruct (syn (_header g)) eqn:E; [by left|right]. intros E0. unfold seg_len in Hx. rewrite E, E0, Hfin in Hx.
    unfold Zlen in Hx. cbn in Hx. lia.
  - fold c1. unfold pos in Hpos. destruct (recievedSYN (_receiver c1)); [done|lia].
  - fold c1 in Hin, Ex. apply list_elem_of_lookup in Hin as [k Hk].
    set (j' := (length (wire (right w)) + k)%nat).
    exists ((false, EDeliver j) :: flush false w1 ++ [(true, EDeliver j')]).
    assert (Forall by_network ((false, EDeliver j) :: flush false w1)) as Hnet
      by (constructor; [done|apply flush_by_network]).
    split; [rewrite app_comm_cons; apply Forall_app; split; [done|by constructor]|].
    rewrite app_comm_cons, run_app. set (w2 := run w ((false, EDeliver j) :: flush false w1)).
    assert (w2 = put false w1 (flushed (right w1))) as Ew2 by (unfold w2; cbn [run fold_left]; apply run_flush).
    destruct (good_nexts _ w Hgood He (network_not_end _ Hnet)) as ((HA2 & HB2 & Hf2) & He2 & _). fold w2 in HA2, HB2, Hf2, He2.
    assert (left w2 = left w) as El by by rewrite Ew2.
    assert (wire (right w2) !! j' = Some g') as Hj'.
    { rewrite Ew2. cbn [put right flushed wire]. rewrite Ew1. cbn [set_conn wire conn]. unfold j'.
      rewrite lookup_app_r by lia. by rewrite Nat.add_comm, Nat.add_sub. }
    assert (pos (_receiver c1) <= nextn (left w)) as Hle.
    { pose proof (flow_pos _ _ Hf2) as H2. rewrite El in H2. rewrite Ew2 in H2. cbn [put right flushed conn] in H2.
      by rewrite Ew1 in H2. }
    cbn [run fold_left step left exec]. rewrite Hj'. cbn [set_conn conn]. rewrite El.
    pose proof HA as [(W & Hr & _) _ _ _ _].
    destruct (conn_acked S cA i HS Hi HsA HrA W (conn (left w)) g' (pos (_receiver c1)) Hr) as [-> E0];
      [exact (Forall_lookup_1 _ _ _ _ (sd_wins _ _ _ _ _ _ HB2) Hj')|done|done|done|done|lia|lia|]. done.
Qed.

Lemma stamp_conveys r g x : conveys S i x g -> conveys S i x (stamp r g) /\ seg_len (stamp r g) = seg_len g.
Proof.
  intros H. unfold stamp. destruct (TCPReceiver.ackno r); (split; [|done]);
    repeat (apply conveys_header; [done..|]); exact H.
Qed.

(** One retransmission that arrives, and whose answer arrives, makes progress. *)
Lemma round w :
  good w -> ended_in (conn (left w)) = false -> _segments_in_flight (_sender (conn (left w))) <> [] ->
  consecutive_retransmissions (_sender (conn (left w))) < MAX_RETX_ATTEMPTS ->
  0 < window_size (_receiver (conn (right w))) ->
  exists evs, Forall by_network evs /\ chkn (left w) < chkn (left (run w evs)) /\
    consecutive_retransmissions (_sender (conn (left (run w evs)))) = 0.
Proof.
  intros Hg He Hfl Hn Hwin. destruct (_segments_in_flight (_sender (conn (left w)))) as [|e q] eqn:Eq; [done|].
  pose proof Hg as ([(W & Hr & _) _ _ _ _] & _).
  destruct (oldest S cA i HS Hi HsA HrA W _ e q Hr Eq) as (_ & _ & x & Hcv & Hl & Hx).
  destruct (resend w e q Hg He Eq Hn) as (evs & j & Hnet & Ec & Er & Erec & Hj).
  destruct (good_nexts evs w Hg He (network_not_end _ Hnet)) as (Hg1 & He1 & _ & Hn1).
  set (w1 := run w evs) in *. destruct (stamp_conveys (_receiver (conn (left w))) _ _ Hcv) as [Hcv' El].
  assert (plain (_seg e)) as Hp.
  { destruct (reach_all (Q := plain) S cA i W _ Hr) as [_ Hf]. rewrite Eq in Hf. by inversion Hf. }
  pose proof Hg1 as ([(W1 & Hr1 & _) _ _ _ _] & _).
  assert (_sent_SYN (conn (left w1)) = true) as Hs1.
  { destruct (reach_cinv S cA i (HS32 S HS) Hi HsA HrA W1 _ Hr1) as [Hw1 _ ->].
    destruct (working_inv S cA i (HS32 S HS) HsA W1 _ Hw1) as (a & [_ Hsk] & _).
    pose proof (sk_next _ _ _ Hsk). pose proof (conveys_index _ _ _ _ Hcv).
    destruct (_syn (_sender (conn (left w1)))); [done|lia]. }
  destruct (answered w1 (stamp (_receiver (conn (left w))) (_seg e)) x j Hg1 He1 Hj Hcv')
    as (evs' & Hnet' & Hlt & H0); [lia|by apply stamp_rst|lia|by rewrite Er| |done|].
  - intros Ha. pose proof (stamp_ack _ _ Hp Ha) as E. rewrite Erec. unfold TCPReceiver.ackno in E.
    by destruct (recievedSYN (_receiver (conn (left w)))).
  - exists (evs ++ evs'). rewrite run_app. fold w1. split; [by apply Forall_app|]. split; [lia|done].
Qed.

(** *** Everything is acknowledged *)

Context (HcB : 0 < recv_capacity cB).

(** Time, the network, and the reader on the right. *)
Definition serving (x : bool * event) : Prop := by_network x \/ exists n, x = (false, ERead n).

Lemma serving_not_end evs : Forall serving evs -> Forall not_end evs.
Proof. apply Forall_impl. intros x [Hn|[n ->]] H; [|done]. by rewrite H in Hn. Qed.

Lemma serving_todo evs w : Forall serving evs -> todo (left (run w evs)) = todo (left w).
Proof.
  intros H. revert w. induction H as [|x evs Hx _ IH]; intros w; [done|].
  cbn [run fold_left]. change (fold_left step evs) with (fun w => run w evs). cbv beta. rewrite IH.
  destruct Hx as [Hx|[n ->]]; [|done]. destruct x as [[|] []]; try done; cbn [step left exec].
  - by destruct (segments_out _).
  - by destruct (wire (right w) !! _).
Qed.

(** What the loops below keep of a state. *)
Record ready (w : World) : Prop := {
  rd_good : good w;
  rd_open : ended_in (conn (left w)) = false;
  rd_next : 0 < nextn (left w);
  rd_count : consecutive_retransmissions (_sender (conn (left w))) < MAX_RETX_ATTEMPTS
}.

Lemma ready_run w evs :
  ready w -> Forall not_end evs ->
  consecutive_retransmissions (_sender (conn (left (run w evs)))) < MAX_RETX_ATTEMPTS ->
  ready (run w evs) /\ chkn (left w) <= chkn (left (run w evs)).
Proof.
  intros [Hg He Hn _] Hev Hc. destruct (good_nexts evs w Hg He Hev) as (H1 & H2 & H3 & H4).
  split; [|done]. split; try done. lia.
Qed.

(** An idle sender with something to send sends it at the next tick. *)
Lemma wake w :
  ready w -> _segments_in_flight (_sender (conn (left w))) = [] -> 0 < offered (_sender (conn (left w))) ->
  let w' := step w (true, ETick 0) in
  _segments_in_flight (_sender (conn (left w'))) <> [] /\
  consecutive_retransmissions (_sender (conn (left w'))) = consecutive_retransmissions (_sender (conn (left w))).
Proof.
  intros [(HA & _) _ Hn Hc] Eq Ho w'. pose proof HA as [(W & Hr & _) _ _ _ _]. set (c := conn (left w)) in *.
  destruct (reach_cinv S cA i (HS32 S HS) Hi HsA HrA W _ Hr) as [Hw _ Hs].
  set (s1 := set_timer (_sender c) false 0 (_n_consecutive_retransmissions (_sender c)) (_rto (_sender c))).
  assert (TCPSender.tick (_sender c) (Z.of_nat 0) = s1) as Et.
  { unfold TCPSender.tick. cbn [set_timer _segments_in_flight]. rewrite Eq. cbn. by rewrite Eq. }
  assert (working S cA i W (set_sender c s1)) as Hw1 by (rewrite <- Et; by apply tick_working).
  destruct (working_inv S cA i (HS32 S HS) HsA W _ Hw1) as (a & Hinv & _ & Hrw). cbn [set_sender _sender] in Hinv, Hrw.
  pose proof Hinv as [Hfl Hsk].
  assert (_syn (_sender c) = true) as Hsyn.
  { pose proof (sk_next _ _ _ Hsk) as E. cbn in E. change (nextn (left w)) with (_next_seqno (_sender c)) in Hn.
    destruct (_syn (_sender c)); [done|lia]. }
  assert (_sender (conn (left w')) = set_segments_out (fill_window s1) []) as E.
  { unfold w'. cbn [step left exec set_conn conn]. fold c. unfold TCPConnection.tick. rewrite Et.
    set (c1 := set_time _ _).
    assert ((consecutive_retransmissions (_sender c1) >? MAX_RETX_ATTEMPTS) = false) as ->.
    { rewrite Z.gtb_ltb. apply Z.ltb_ge. change (consecutive_retransmissions (_sender c1))
        with (consecutive_retransmissions (_sender c)). lia. }
    change (_sent_SYN c1) with (_sent_SYN c). rewrite Hs, Hsyn.
    match goal with |- context [_send_segments ?y false] => by destruct (send_segments_fields y false) as (-> & _) end. }
  rewrite E. cbn [set_segments_out _segments_in_flight].
  destruct (fill_window_synced S (HS32 S HS) s1 a Hinv Hsyn) as (s' & k & _ & -> & [Hfl' _] & _ & (_ & _ & Ec & _ & En & _) & _ & Hn' & _).
  split; [|exact En]. intros E0. pose proof (fl_chk _ _ Hfl) as H1. pose proof (fl_chk _ _ Hfl') as H2.
  rewrite E0 in H2. change (_segments_in_flight s1) with (_segments_in_flight (_sender c)) in H1. rewrite Eq in H1.
  rewrite (window_budget_eq S s1 Hfl Hrw) in Hn'. pose proof (available_offered S s1 a Hsk) as Ha.
  change (offered s1) with (offered (_sender c)) in Ha. rewrite u64_small in Hn' by lia. lia.
Qed.

(** The reader makes room and a retransmission makes progress. *)
Lemma serve_round w :
  ready w -> _segments_in_flight (_sender (conn (left w))) <> [] ->
  exists evs, Forall serving evs /\ ready (run w evs) /\ chkn (left w) < chkn (left (run w evs)).
Proof.
  intros Hrd Hfl. pose proof Hrd as [Hg He Hn Hc]. pose proof Hg as (_ & HB & _).
  pose proof (recv_settled S cB i HS Vi HrB _ (sd_recv _ _ _ _ _ _ HB)) as Hset.
  set (n := Z.to_nat (buffer_size (inbound_stream (conn (right w))))).
  set (w1 := step w (false, ERead n)).
  assert (0 < window_size (_receiver (conn (right w1)))) as Hwin.
  { unfold w1. cbn [step right exec]. unfold read_inbound.
    pose proof (read_all_window (_receiver (conn (right w))) (Z.of_nat n) Hset) as E.
    rewrite (reach_capacity _ _ _ _ _ (sd_recv _ _ _ _ _ _ HB)) in E.
    destruct (ByteStream.read (inbound_stream (conn (right w))) (Z.of_nat n)) as [st d] eqn:Ed. cbn [conn].
    change (_receiver (on_inbound (conn (right w)) (fun _ => st))) with (set_stream_out (_receiver (conn (right w))) st).
    unfold inbound_stream in Ed. rewrite Ed in E. cbn [fst] in E. rewrite E; [done|]. unfold n, inbound_stream. lia. }
  destruct (good_next w (false, ERead n) Hg He ltac:(done)) as (Hg1 & He1 & _). fold w1 in Hg1, He1.
  assert (left w1 = left w) as El by done.
  destruct (round w1 Hg1 He1) as (evs & Hnet & Hlt & H0); [by rewrite El|by rewrite El|done|].
  exists ((false, ERead n) :: evs). change (run w ((false, ERead n) :: evs)) with (run w1 evs).
  assert (Forall serving ((false, ERead n) :: evs)) as Hs.
  { constructor; [right; by exists n|]. eapply Forall_impl; [|exact Hnet]. by left. }
  split; [done|]. rewrite El in Hlt. split; [|done].
  apply (ready_run w ((false, ERead n) :: evs)); [done|by apply serving_not_end|].
  change (run w ((false, ERead n) :: evs)) with (run w1 evs). rewrite H0. reflexivity.
Qed.

Lemma offered_nonneg w : sideA (left w) -> 0 <= offered (_sender (conn (left w))).
Proof.
  intros [(W & Hr & _) _ _ _ _]. destruct (reach_cinv S cA i (HS32 S HS) Hi HsA HrA W _ Hr) as [Hw _ _].
  destruct (working_inv S cA i (HS32 S HS) HsA W _ Hw) as (a & [_ Hsk] & _).
  rewrite <- (available_offered S _ a Hsk). unfold available. pose proof (ref_popped _ _ (sk_ref _ _ _ Hsk)).
  destruct (ended a && _); cbn [b2i]; lia.
Qed.

(** Nothing is waiting for an acknowledgment, nothing to be sent. *)
Definition caught_up (w : World) : Prop :=
  _segments_in_flight (_sender (conn (left w))) = [] /\ offered (_sender (conn (left w))) = 0.
#[local] Instance caught_up_dec w : Decision (caught_up w).
Proof.
  unfold caught_up. apply and_dec; [|apply _].
  destruct (_segments_in_flight _); [by left|by right].
Defined.

Lemma serve_more w :
  ready w -> ~ caught_up w ->
  exists evs, Forall serving evs /\ ready (run w evs) /\ chkn (left w) < chkn (left (run w evs)).
Proof.
  intros Hrd Hc. destruct (_segments_in_flight (_sender (conn (left w)))) eqn:Eq.
  - pose proof (offered_nonneg w (proj1 (rd_good w Hrd))).
    assert (0 < offered (_sender (conn (left w)))) as Ho.
    { destruct (decide (offered (_sender (conn (left w))) = 0)); [by destruct Hc|lia]. }
    destruct (wake w Hrd Eq Ho) as [Hf Hn]. set (w1 := step w (true, ETick 0)) in *.
    destruct (ready_run w [(true, ETick 0)] Hrd ltac:(by constructor)) as [Hrd1 Hle];
      [change (run w [(true, ETick 0)]) with w1; rewrite Hn; apply (rd_count w Hrd)|].
    change (run w [(true, ETick 0)]) with w1 in Hrd1, Hle.
    destruct (serve_round w1 Hrd1 Hf) as (evs & Hs & Hrd' & Hlt).
    exists ((true, ETick 0) :: evs). change (run w ((true, ETick 0) :: evs)) with (run w1 evs).
    split; [constructor; [by left|done]|]. split; [done|lia].
  - apply serve_round; [done|by rewrite Eq].
Qed.

Lemma chk_bound w : ready w -> chkn (left w) < 2 ^ 31.
Proof.
  intros [(HA & _ & Hf) _ _ _]. pose proof (fw_chk _ _ Hf). pose proof (flow_pos _ _ Hf). pose proof (next_bound _ HA). lia.
Qed.

Lemma catch_up w : ready w -> exists evs, Forall serving evs /\ ready (run w evs) /\ caught_up (run w evs).
Proof.
  intros Hrd. remember (Z.to_nat (2 ^ 31 - chkn (left w))) as n eqn:En.
  revert w Hrd En. induction (lt_wf n) as [n _ IH]; intros w Hrd En.
  destruct (decide (caught_up w)) as [Hc|Hc]; [by exists []|].
  destruct (serve_more w Hrd Hc) as (evs & Hs & Hrd' & Hlt).
  pose proof (chk_bound w Hrd). pose proof (chk_bound _ Hrd').
  destruct (IH (Z.to_nat (2 ^ 31 - chkn (left (run w evs)))) ltac:(lia) _ Hrd' eq_refl) as (evs' & Hs' & ? & ?).
  exists (evs ++ evs'). rewrite run_app. split; [by apply Forall_app|done].
Qed.

(** The receiver then has all that the writer has handed over. *)
Lemma caught_up_written w :
  ready w -> caught_up w ->
  exists W, W ++ todo (left w) = S /\ bytes_written (inbound_stream (conn (right w))) = Zlen W /\
    buffer_size (stream_in (_sender (conn (left w)))) = 0.
Proof.
  intros [(HA & HB & Hf) He Hn _] [Eq Ho]. pose proof HA as [(W & Hr & HW) _ _ _ _]. exists W. split; [done|].
  destruct (reach_cinv S cA i (HS32 S HS) Hi HsA HrA W _ Hr) as [Hw _ _].
  destruct (working_inv S cA i (HS32 S HS) HsA W _ Hw) as (a & [Hfl Hsk] & HaW & _).
  pose proof (fl_chk _ _ Hfl) as Hc. rewrite Eq in Hc. pose proof (fw_chk _ _ Hf) as H1. pose proof (flow_pos _ _ Hf) as H2.
  unfold offered in Ho. unfold ended_in, stream_in in *. rewrite He in Ho. cbn [andb b2i] in Ho.
  unfold buffer_size in *. pose proof (stream_buffered _ _ (sk_ref _ _ _ Hsk)) as Hb.
  pose proof (sk_next _ _ _ Hsk) as Hnx. assert (_fin (_sender (conn (left w))) = false) as Hfin.
  { destruct (_fin (_sender (conn (left w)))) eqn:E; [|done]. destruct (sk_fin _ _ _ Hsk E) as [He' _].
    unfold input_ended in He. by rewrite (ref_ended _ _ (sk_ref _ _ _ Hsk)), He' in He. }
  rewrite Hfin in Hnx. destruct (_syn (_sender (conn (left w)))); [|lia]. cbn [b2i] in Hnx.
  split; [|lia]. unfold pos, inbound_stream in *. destruct (recievedSYN (_receiver (conn (right w)))); [|lia].
  rewrite <- HaW. lia.
Qed.

(** And the reader can take it. *)
Lemma settle w :
  ready w -> exists evs, Forall serving evs /\ ready (run w evs) /\
    got (right (run w evs)) ++ todo (left (run w evs)) = S /\
    buffer_size (stream_in (_sender (conn (left (run w evs))))) = 0.
Proof.
  intros Hrd. destruct (catch_up w Hrd) as (evs & Hs & Hrd1 & Hc). set (w1 := run w evs) in *.
  destruct (caught_up_written w1 Hrd1 Hc) as (W & HW & Hbw & Hb0).
  set (n := Z.to_nat (buffer_size (inbound_stream (conn (right w1))))).
  assert (Forall serving (evs ++ [(false, ERead n)])) as Hs'
    by (apply Forall_app; split; [done|constructor; [right; by exists n|done]]).
  assert (run w (evs ++ [(false, ERead n)]) = step w1 (false, ERead n)) as Er by (rewrite run_app; done).
  exists (evs ++ [(false, ERead n)]). rewrite Er.
  destruct (ready_run w _ Hrd (serving_not_end _ Hs')) as [Hrd' _]; [rewrite Er; apply (rd_count w1 Hrd1)|].
  rewrite Er in Hrd'. split; [done|]. split; [done|]. split; [|exact Hb0].
  change (left (step w1 (false, ERead n))) with (left w1). transitivity (W ++ todo (left w1)); [|exact HW]. f_equal.
  pose proof (proj1 (proj2 (rd_good _ Hrd'))) as HB'. pose proof (sd_got _ _ _ _ _ _ HB') as ->.
  pose proof (recv_settled S cB i HS Vi HrB _ (sd_recv _ _ _ _ _ _ (proj1 (proj2 (rd_good _ Hrd1))))) as [Hwf1 _].
  pose proof (recv_settled S cB i HS Vi HrB _ (sd_recv _ _ _ _ _ _ HB')) as [Hwf' _].
  apply wf_output in Hwf', Hwf1. revert Hwf'. cbn [step right exec]. unfold read_inbound.
  destruct (read_spec (inbound_stream (conn (right w1))) (Z.of_nat n) Hwf1 ltac:(lia))
    as (_ & _ & He & _ & _ & _ & Ew & _).
  destruct (ByteStream.read _ _) as [st d]. cbn [fst conn] in *. intros Hwf'.
  change (inbound_stream (on_inbound (conn (right w1)) (fun _ => st))) with st.
  change (_output (_reassembler (_receiver (on_inbound (conn (right w1)) (fun _ => st))))) with st in Hwf'.
  assert (bytes_read st = Zlen W) as ->.
  { rewrite <- Hbw. unfold bytes_written, bytes_read. rewrite <- Ew, (wf_written _ Hwf'), He.
    unfold n, buffer_size. pose proof (wf_end _ Hwf1). pose proof (wf_read _ Hwf').
    rewrite Z.min_r, Z.sub_diag, Z.add_0_r, u32_small by lia. done. }
  unfold ztake. rewrite <- HW, take_app_le, take_ge by (unfold Zlen; lia). done.
Qed.

(** *** The whole stream *)

Context (HcA : 0 < send_capacity cA).

(** The writer hands over more. *)
Lemma hand_over w :
  ready w -> buffer_size (stream_in (_sender (conn (left w)))) = 0 -> todo (left w) <> [] ->
  exists n, let w' := step w (true, EWrite n) in
    ready w' /\ (length (todo (left w')) < length (todo (left w)))%nat.
Proof.
  intros Hrd Hb Ht. pose proof Hrd as [([(W & Hr & HW) _ _ _ _] & _) _ _ Hc].
  destruct (reach_cinv S cA i (HS32 S HS) Hi HsA HrA W _ Hr) as [Hw _ _].
  destruct (reach_timer _ _ Hrt _ _ _ _ (wk_sender _ _ _ _ _ Hw)) as (_ & _ & _ & _ & Hcap).
  destruct (working_inv S cA i (HS32 S HS) HsA W _ Hw) as (a & [_ Hsk] & _).
  destruct (write_working S cA i HS Hi HsA HrA (left w) W 1 Hr HW) as (W' & Hw').
  destruct (write_spec (stream_in (_sender (conn (left w)))) (ztake (Z.of_nat 1) (todo (left w))))
    as (Hk & _); [apply (sk_ref _ _ _ Hsk)|].
  destruct (todo (left w)) as [|b t] eqn:Et; [done|]. change (ztake (Z.of_nat 1) (b :: t)) with [b] in *.
  unfold buffer_size, stream_in in *. rewrite Hb, Hcap, Z.sub_0_r, Z.min_l in Hk by (change (Zlen [b]) with 1; lia).
  change (Zlen [b]) with 1 in Hk. exists 1%nat.
  assert (todo (left (step w (true, EWrite 1))) = t /\
    consecutive_retransmissions (_sender (conn (left (step w (true, EWrite 1))))) =
      consecutive_retransmissions (_sender (conn (left w)))) as [E1 E2].
  { cbn [step left exec]. rewrite Et. change (ztake (Z.of_nat 1) (b :: t)) with [b].
    unfold TCPConnection.write, stream_in. destruct (ByteStream.write _ [b]) as [st k]. cbn [fst snd conn todo] in *.
    subst k. split; [done|]. destruct (send_segments_fields (on_stream_in (conn (left w)) (fun _ => st)) false) as (-> & _).
    destruct (working_inv S cA i (HS32 S HS) HsA W' _ Hw') as (a' & Hinv' & _).
    destruct (fill_window_inv S (HS32 S HS) _ a' Hinv') as (k & _ & (_ & _ & _ & _ & En & _)). exact En. }
  split; [|rewrite E1; cbn; lia].
  destruct (ready_run w [(true, EWrite 1)] Hrd) as [H1 _]; [by constructor| |exact H1].
  change (run w [(true, EWrite 1)]) with (step w (true, EWrite 1)). by rewrite E2.
Qed.

(** Everything but the end of the stream. *)
Definition cooperative (x : bool * event) : Prop := serving x \/ exists n, x = (true, EWrite n).

Lemma finish_stream w :
  ready w -> exists evs, Forall cooperative evs /\ got (right (run w evs)) = S.
Proof.
  intros Hrd. remember (length (todo (left w))) as n eqn:En. revert w Hrd En.
  induction (lt_wf n) as [n _ IH]; intros w Hrd En.
  destruct (settle w Hrd) as (evs & Hs & Hrd1 & Hgot & Hb). pose proof (serving_todo evs w Hs) as Etodo.
  assert (Forall cooperative evs) as Hco by (eapply Forall_impl; [|exact Hs]; by left).
  set (w1 := run w evs) in *. destruct (decide (todo (left w1) = [])) as [E|E].
  { exists evs. split; [done|]. rewrite E, app_nil_r in Hgot. exact Hgot. }
  destruct (hand_over w1 Hrd1 Hb E) as (k & Hrd2 & Hlt).
  destruct (IH (length (todo (left (step w1 (true, EWrite k))))) ltac:(rewrite En, <- Etodo; lia) _ Hrd2 eq_refl)
    as (evs' & Hs' & Hg').
  exists (evs ++ (true, EWrite k) :: evs'). rewrite run_app. split; [|exact Hg'].
  apply Forall_app. split; [done|]. constructor; [right; by exists k|done].
Qed.
End Flow.

(** ** Delivery stays possible *)

Section System.
Context (Sl Sr : list byte) (cl cr : TCPConfig) (il ir : WrappingInt32).
Context (HSl : Zlen Sl < 2 ^ 31 - 2) (HSr : Zlen Sr < 2 ^ 31 - 2).
Context (Hil : fixed_isn cl = Some il) (Hir : fixed_isn cr = Some ir) (Vil : valid il) (Vir : valid ir).
Context (Hsl : 0 < send_capacity cl < 2 ^ 32) (Hrl : 0 <= recv_capacity cl < 2 ^ 32).
Context (Hsr : 0 <= send_capacity cr < 2 ^ 32) (Hrr : 0 < recv_capacity cr < 2 ^ 32).
Context (Hrt : 0 <= rt_timeout cl < 2 ^ 32).

Lemma ready_reached evs :
  let w := run (mkWorld (init cl Sl) (init cr Sr)) evs in
  ended_in (conn (left w)) = false -> _sent_SYN (conn (left w)) = true ->
  consecutive_retransmissions (_sender (conn (left w))) < MAX_RETX_ATTEMPTS ->
  ready Sl Sr cl cr il ir w.
Proof.
  intros w He Hs Hn. assert (good Sl Sr cl cr il ir w) as Hg.
  { apply (good_run Sl Sr cl cr il ir); try done; try lia. apply good_init; try done; lia. }
  split; try done. destruct Hg as ([(W & Hr & _) _ _ _ _] & _).
  destruct (reach_cinv Sl cl il ltac:(lia) Hil ltac:(lia) Hrl W _ Hr) as [Hw _ Hsy]. rewrite Hs in Hsy.
  destruct (working_inv Sl cl il ltac:(lia) ltac:(lia) W _ Hw) as (a & [_ Hsk] & _).
  rewrite (sk_next _ _ _ Hsk), <- Hsy. pose proof (ref_popped _ _ (sk_ref _ _ _ Hsk)).
  destruct (_fin _); cbn [b2i]; lia.
Qed.
End System.

(** C4. Delivery stays possible.  Take any state that two connections reach
    over a network that loses, repeats and reorders segments, in which the
    left one has opened, has not ended its stream and has not used up its
    retransmissions: whatever was lost, time, the network, the writer and the
    reader can still get the whole stream to the reader's application.  No
    run ends in a deadlock: a retransmission that arrives is answered by a
    higher acknowledgment (the reader first making room if the window is
    closed), which moves the sender on, until everything is acknowledged. *)
Theorem delivery_possible Sl Sr cl cr il ir evs :
  Zlen Sl < 2 ^ 31 - 2 -> Zlen Sr < 2 ^ 31 - 2 ->
  fixed_isn cl = Some il -> fixed_isn cr = Some ir -> valid il -> valid ir ->
  0 < send_capacity cl < 2 ^ 32 -> 0 <= recv_capacity cl < 2 ^ 32 ->
  0 <= send_capacity cr < 2 ^ 32 -> 0 < recv_capacity cr < 2 ^ 32 -> 0 <= rt_timeout cl < 2 ^ 32 ->
  let w := run (mkWorld (init cl Sl) (init cr Sr)) evs in
  ended_in (conn (left w)) = false -> _sent_SYN (conn (left w)) = true ->
  consecutive_retransmissions (_sender (conn (left w))) < MAX_RETX_ATTEMPTS ->
  exists evs', Forall cooperative evs' /\ got (right (run w evs')) = Sl.
Proof.
  intros HSl HSr Hil Hir Vil Vir Hsl Hrl Hsr Hrr Hrt w He Hs Hn.
  apply (finish_stream Sl Sr cl cr il ir); try done; try lia.
  by apply ready_reached.
Qed.

(** The data is lost after the handshake. *)
Definition ex_lost : list (bool * event) := ex_shake ++ [(true, EWrite 5); (true, ESend)].

Lemma delivery_possible_witness :
  got (right (run ex_world ex_lost)) = [] /\
  exists evs', Forall cooperative evs' /\ got (right (run (run ex_world ex_lost) evs')) = ex_stream.
Proof.
  split; [vm_compute; reflexivity|].
  apply (delivery_possible ex_stream [] (ex_cfg 4294967290) (ex_cfg 17) (mkWrappingInt32 4294967290)
    (mkWrappingInt32 17) ex_lost);
    [reflexivity | reflexivity | reflexivity | reflexivity
    | split; [discriminate | reflexivity] | split; [discriminate | reflexivity]
    | cbn; lia | cbn; lia | cbn; lia | cbn; lia | cbn; lia
    | vm_compute; reflexivity | vm_compute; reflexivity | vm_compute; reflexivity].
Defined.
