(* ===== verification/WireReady.v ===== *)
(** * From the sender's queue to datagrams and back

    Two facts that connect [TCPConnection] to the TUN adapter.  Every segment
    that a connection queues has header fields within their widths and a
    payload of at most [MAX_PAYLOAD_SIZE] bytes, so it can always be written
    as a datagram.  And whatever an adapter accepts among the datagrams of a
    stream, in whatever state it is, is a segment of that stream. *)
From stdpp Require Import base tactics list numbers option.
From Stdlib Require Import ZArith Lia.
From S2P Require Import Prelude WrappingIntegers ByteStream StreamReassembler Buffer Address TCPHeader.
From S2P Require Import TCPSegment IPv4Header IPv4Datagram NetParser FdAdapter SegmentStream TCPReceiver.
From S2P Require Import TCPSender TCPConnection EndToEnd BuiltSegments.

(** ** Segments fit *)

(** A segment as the sender and the connection fill it in. *)
Record fits (g : TCPSegment) : Prop := {
  fit_header : TCPHeader.header_ok (TCPSegment._header g);
  fit_doff : doff (TCPSegment._header g) = 5;
  fit_size : size (TCPSegment._payload g) <= MAX_PAYLOAD_SIZE
}.

Lemma default_fits : fits default_segment.
Proof. split; [exact default_header_ok|done|vm_compute; discriminate]. Qed.

(** Changes of header fields within their widths. *)
Lemma fits_set g h :
  fits g -> TCPHeader.header_ok h -> doff h = 5 -> fits (set_header g h).
Proof. intros [_ _ Hs] Hh Hd. by split. Qed.

Lemma fits_seqno g n : fits g -> valid n -> fits (set_header g (set_seqno (TCPSegment._header g) n)).
Proof. intros Hg Hn. apply fits_set; [done| |apply Hg]. destruct (fit_header g Hg). by split. Qed.
Lemma fits_fin g b : fits g -> fits (set_header g (set_fin (TCPSegment._header g) b)).
Proof. intros Hg. apply fits_set; [done| |apply Hg]. destruct (fit_header g Hg). by split. Qed.
Lemma fits_rst g b : fits g -> fits (set_header g (TCPHeader.set_rst (TCPSegment._header g) b)).
Proof. intros Hg. apply fits_set; [done| |apply Hg]. destruct (fit_header g Hg). by split. Qed.
Lemma fits_ack g b n : fits g -> valid n -> fits (set_header g (set_ack (TCPSegment._header g) b n)).
Proof. intros Hg Hn. apply fits_set; [done| |apply Hg]. destruct (fit_header g Hg). by split. Qed.
Lemma fits_win g z : fits g -> fits (set_header g (set_win (TCPSegment._header g) (Prelude.u16 z))).
Proof.
  intros Hg. apply fits_set; [done| |apply Hg]. destruct (fit_header g Hg).
  split; try done. apply Z.mod_pos_bound. lia.
Qed.

#[global] Instance fits_built : Built fits.
Proof.
  split.
  - exact default_fits.
  - intros g n Hn Hg. by apply fits_seqno.
  - intros g Hg. by apply fits_fin.
  - apply fits_set; [exact default_fits| |done]. destruct default_header_ok. by split.
  - intros d Hd. split; [exact default_header_ok|done|]. unfold size. cbn. rewrite zdrop_0. lia.
Qed.

(** *** The connection *)

Definition conn_fits (c : TCPConnection) : Prop :=
  Forall fits (TCPConnection._segments_out c) /\ sender_all fits (_sender c).

Lemma ackno_valid r a : TCPReceiver.ackno r = Some a -> valid a.
Proof. unfold TCPReceiver.ackno. destruct (recievedSYN r); [|done]. intros [= <-]. apply wi_add_valid. Qed.

Lemma stamp_fits r g : fits g -> fits (stamp r g).
Proof.
  intros Hg. unfold stamp. apply fits_win. destruct (TCPReceiver.ackno r) as [a|] eqn:E; [|done].
  apply fits_ack; [done|by eapply ackno_valid].
Qed.

Lemma drain_fits r b q : Forall fits q -> Forall fits (drain r b q).
Proof.
  induction 1 as [|g q Hg _ IH]; cbn [drain]; constructor; [|done].
  destruct (_ && _); [apply fits_rst|]; by apply stamp_fits.
Qed.

Lemma send_segments_fits c b :
  Forall fits (TCPConnection._segments_out c) -> sender_all fits (_sender c) -> conn_fits (_send_segments c b).
Proof.
  intros Ho Hs. apply fill_window_all in Hs as [Hso Hsf]. unfold conn_fits.
  destruct (send_segments_fields c b) as (Es & _ & Eo & _).
  rewrite Eo, Es. split.
  - apply Forall_app. split; [done|]. by apply drain_fits.
  - by split.
Qed.

Lemma kill_fits c : conn_fits c -> conn_fits (_kill_connection c).
Proof. by intros [Ho [? ?]]. Qed.

Lemma unclean_fits c : conn_fits c -> conn_fits (_unclean_shutdown c).
Proof.
  intros Hc. apply kill_fits in Hc as [Ho Hs]. unfold _unclean_shutdown.
  destruct (TCPSender.segments_out _); apply send_segments_fits; try done. by apply send_empty_all.
Qed.

Lemma reach_fits S cfg i W c : TCPConnection.reach S cfg i W c -> conn_fits c.
Proof.
  induction 1 as [|W c _ IH|W c d _ IH _|c _ IH|W c seg _ IH _|W c ms _ IH _|W c n _ IH _|W c _ IH].
  - split; [constructor|split; constructor].
  - unfold TCPConnection.connect. destruct IH. by apply send_segments_fits.
  - unfold TCPConnection.write. destruct (ByteStream.write _ _). cbn [fst]. destruct IH as [Ho [Hs Hf]]. apply send_segments_fits; [exact Ho|split; [exact Hs|exact Hf]].
  - unfold end_input_stream. destruct IH as [Ho [Hs Hf]]. apply send_segments_fits; [exact Ho|split; [exact Hs|exact Hf]].
  - unfold segment_received. destruct (rst _); [by apply (kill_fits c)|]. destruct (_ && _); [done|].
    destruct IH as [Ho Hs]. apply send_segments_fits; [by destruct (ack _), (_ || _)|].
    assert (forall s, sender_all fits s -> sender_all fits (ack_received s (TCPHeader.ackno (TCPSegment._header seg)) (win (TCPSegment._header seg)))) as Ha
      by (intros; by apply ack_received_all).
    destruct (ack _), (_ || _); cbn [set_sender _sender set_receiver set_time];
      try apply send_empty_all; try apply Ha; done.
  - unfold TCPConnection.tick. set (c1 := set_time _ _).
    assert (conn_fits c1) as H1 by (destruct IH; split; [done|by apply tick_all]). clearbody c1.
    assert (conn_fits (if consecutive_retransmissions (_sender c1) >? MAX_RETX_ATTEMPTS
      then _unclean_shutdown c1 else c1)) as H2 by (destruct (_ >? _); [by apply unclean_fits|done]).
    revert H2. generalize (if consecutive_retransmissions (_sender c1) >? MAX_RETX_ATTEMPTS
      then _unclean_shutdown c1 else c1) as c2. intros c2 [Ho Hs].
    destruct (_sent_SYN c2); [by apply send_segments_fits|done].
  - unfold read_inbound. by destruct (ByteStream.read _ _).
  - destruct IH as [Ho Hs]. split; [|done]. cbn. destruct Ho; [constructor|done].
Qed.

(** ** Datagrams of a stream *)

Definition addresses_ok (b : FdAdapterBase) : Prop :=
  address_valid (source (FdAdapter._cfg b)) /\ address_valid (destination (FdAdapter._cfg b)).

Lemma fits_sendable b g : addresses_ok b -> fits g -> sendable b g.
Proof.
  intros [Hs Hd] [Hh Ho Hz]. split; try done. rewrite Ho. unfold MAX_PAYLOAD_SIZE in Hz. lia.
Qed.

(** The bytes of a datagram that carries a segment of the stream [S]. *)
Definition datagram_of (S : list byte) (i : WrappingInt32) (bytes : list byte) : Prop :=
  exists a g bl g1, sendable a g /\ on_wire S i (Zlen S + 2) g /\ 0 <= win (TCPSegment._header g) < 2 ^ 16 /\
    tun_write g a = (a, [bl], Ok g1) /\ bytes = concatenate bl.

(** What a written datagram parses to, at both layers. *)
Lemma tun_datagram a g :
  sendable a g ->
  exists bl d buffer g',
    tun_write g a = (a, [bl], Ok (with_ports a g)) /\ Zlen (concatenate bl) <= 65535 /\
    IPv4Datagram.parse default_datagram (buf_of_string (concatenate bl)) = (d, NoError) /\
    IPv4Header.src (IPv4Datagram._header d) = ipv4_numeric (source (FdAdapter._cfg a)) /\
    IPv4Header.dst (IPv4Datagram._header d) = ipv4_numeric (destination (FdAdapter._cfg a)) /\
    IPv4Datagram._payload d = bl_of_buffer buffer /\
    TCPSegment.parse default_segment buffer (pseudo_cksum (IPv4Datagram._header d)) = (g', NoError) /\
    received_as a g g'.
Proof.
  intros Hs. destruct (wrap_spec a g Hs) as (payload & Ew & Hd & Hr).
  set (h := ip_header_for (with_ports a g) a) in *.
  destruct (IPv4Datagram.datagram_parse_serialize _ default_datagram Hd) as (bl & c & Es & Hl & Hparse).
  pose proof (ok_len _ (ok_header _ Hd)) as Hlen. cbn [IPv4Datagram._header] in Hl, Hlen.
  destruct (Hparse (buf_of_string (concatenate bl))) as (_ & d & Ep & Hh & Hc & buffer & Hb & Hwf);
    [apply buf_of_string_wf; rewrite Hl; lia | done |].
  cbn [IPv4Datagram._header IPv4Datagram._payload] in *.
  destruct (Hr buffer Hwf) as (g' & Eg & Hra).
  { rewrite <- Hc, Hb. unfold bl_of_buffer, concatenate. cbn. by rewrite app_nil_r. }
  exists bl, d, buffer, g'. unfold tun_write. rewrite Ew, Es. rewrite Hh.
  split_and!; try done. rewrite Hl; lia.
Qed.

(** An adapter, whatever its state, takes such a datagram for what it is, or
    not at all. *)
Lemma tun_read_genuine S i bytes b :
  datagram_of S i bytes ->
  exists b' r, tun_read bytes b = (b', [], Ok r) /\ (addresses_ok b -> addresses_ok b') /\
    forall g', r = Some g' -> on_wire S i (Zlen S + 2) g' /\ 0 <= win (TCPSegment._header g') < 2 ^ 16.
Proof.
  intros (a & g & bl & g1 & Hs & Hw & Hwin & Etun & ->).
  destruct (tun_datagram a g Hs) as (bl' & d & buffer & g' & Etun' & _ & Ep & Esrc & Edst & Epay & Eseg & (c & Eh) & Epl).
  assert (bl' = bl) as -> by congruence.
  assert (on_wire S i (Zlen S + 2) g' /\ 0 <= win (TCPSegment._header g') < 2 ^ 16) as Hg'.
  { rewrite Eh. split; [|done]. clear - Hw Eh Epl. destruct g' as [h' p']. cbn in *. subst h'.
    destruct Hw as [(H1 & H2 & H3 & H4)|(x & [H1 H2 H3 H4] & Hl)]; [left|right; exists x].
    - unfold vacant. cbn. by rewrite Epl.
    - unfold seg_len, stream_index, size in *. cbn in *. rewrite Epl in *. split; [|done].
      split; unfold stream_index, size; cbn; by rewrite ?Epl. }
  destruct (send_source _ _ Hs) as [Hs1 Hs2], (send_destination _ _ Hs) as [Hd1 Hd2].
  assert (sport (TCPSegment._header g') = port (source (FdAdapter._cfg a))) as Esp by by rewrite Eh.
  assert (exists b' r, unwrap_tcp_in_ip d b = (b', Ok r) /\ (r = None \/ r = Some g') /\
    (addresses_ok b -> addresses_ok b')) as (b' & r & Eu & Hr & Hok).
  { unfold unwrap_tcp_in_ip, unwrap_segment. rewrite Epay. cbn [bl_to_buffer bl_of_buffer].
    rewrite Eseg, Esrc, Edst, Esp. change (negb (bool_decide (NoError = NoError))) with false. cbn iota.
    repeat case_match; eexists _, _; (split; [reflexivity|]); (split; [auto|]); try done;
      unfold addresses_ok, address_valid;
      cbn [source destination set_source set_destination FdAdapter._cfg ipv4_numeric port]; tauto. }
  unfold tun_read. rewrite Ep. cbn [negb bool_decide]. rewrite Eu. exists b', r. split; [done|]. split; [done|].
  intros g'' ->. destruct Hr as [|[= ->]]; done.
Qed.

(** C21. Every segment that a connection has queued, in any state it can reach,
    is within the types of the wire format: the ports, numbers, window,
    checksum and urgent pointer are within the widths of their fields, the
    header has no options, the payload has at most [MAX_PAYLOAD_SIZE] bytes,
    and so does every segment it keeps for retransmission; hence each can be
    serialized into a datagram. *)
Theorem queued_segments_fit S cfg i W c b g :
  TCPConnection.reach S cfg i W c -> addresses_ok b -> g ∈ TCPConnection.segments_out c ->
  fits g /\ Forall (fun e => fits (_seg e)) (_segments_in_flight (_sender c)) /\
  exists bl, tun_write g b = (b, [bl], Ok (with_ports b g)) /\ Zlen (concatenate bl) <= 65535.
Proof.
  intros Hr Hb Hg. apply reach_fits in Hr as [Ho [_ Hf]].
  assert (fits g) as Hfit by by apply (proj1 (Forall_forall _ _) Ho g), list_elem_of_In.
  split; [done|]. split; [done|]. destruct (tun_datagram b g) as (bl & _ & _ & _ & E & Hl & _); [by apply fits_sendable|].
  by exists bl.
Qed.

Lemma queued_segments_fit_witness :
  exists g, segments_out (TCPConnection.connect (TCPConnection.new (ex_cfg 17) 0)) = [g] /\ fits g.
Proof.
  eexists. split; [vm_compute; reflexivity|].
  refine (proj1 (queued_segments_fit [] (ex_cfg 17) (mkWrappingInt32 17) []
    (TCPConnection.connect (TCPConnection.new (ex_cfg 17) 0)) Examples.client _ _ _ _)).
  - apply TCPConnection.reach_connect, TCPConnection.reach_new.
  - split; vm_compute; repeat split; (reflexivity || discriminate).
  - apply list_elem_of_In. vm_compute. left. reflexivity.
Defined.
