(* ===== verification/SpongeSocket.v ===== *)
(** * The socket that runs a TCP connection

    Models [src/libsponge/tcp_helpers/tcp_sponge_socket.hh] and
    [tcp_sponge_socket.cc]: a [TCPConnection] between a stream socket to its
    owner and a datagram adapter, driven by the four rules of an event loop.
    The socket is a template over its adapter: here a section over
    [FdAdapter], with [AdapterIO] for the device the adapter reads and
    writes.  The messages of the program to [cerr] are not modelled; the flag
    [_fully_acked] that guards one of them is. *)
From stdpp Require Import base tactics list numbers option gmap.
From Stdlib Require Import ZArith Lia.
From S2P Require Import Prelude WrappingIntegers ByteStream StreamReassembler Buffer Address TCPHeader.
From S2P Require Import TCPSegment IPv4Datagram Ethernet NetworkInterface FdAdapter SegmentStream TCPReceiver.
From S2P Require Import TCPSender TCPConnection TCPState EndToEnd WireReady.
From S2P Require Import Kernel FileDescriptor Socket EventLoop Confined.

(** How an adapter's inputs and outputs are read from and written to its descriptor. *)
Class AdapterIO (K I O : Type) := {
  dev_read : forall {U}, FileDescriptor -> ste (World K U) I;
  dev_write : forall {U}, FileDescriptor -> O -> ste (World K U) unit
}.

(** A TUN or TAP device: [_tun.read()] and [_tun.write(...)]. *)
#[global] Instance tun_io {K} `{Kernel K} : AdapterIO K (list byte) BufferList := {
  dev_read U l := read_all l;
  dev_write U l bl := _ ← FileDescriptor.write l (bvl_of_buffers bl) true; mret tt
}.

(** A UDP socket: [_sock.recv()] and [_sock.sendto(...)]. *)
#[global] Instance udp_io {K} `{Kernel K} `{SocketKernel K} : AdapterIO K (Address * list byte) (Address * BufferList) := {
  dev_read U l := Socket.recv l 65536;
  dev_write U l o := sendto l (fst o) (bvl_of_buffers (snd o))
}.

Definition TCP_TICK_MS : Z := 10.

(** The members of [TCPSpongeSocket] that are not descriptors. *)
Record Sponge (A : Type) := mkSponge {
  _datagram_adapter : A;
  _tcp : option TCPConnection;
  _abort : bool;
  _inbound_shutdown : bool;
  _outbound_shutdown : bool;
  _fully_acked : bool
}.
Arguments mkSponge {A}.
Arguments _datagram_adapter {A}.
Arguments _tcp {A}.
Arguments _abort {A}.
Arguments _inbound_shutdown {A}.
Arguments _outbound_shutdown {A}.
Arguments _fully_acked {A}.

Definition set_adapter {A} (a : A) (u : Sponge A) : Sponge A :=
  mkSponge a (_tcp u) (_abort u) (_inbound_shutdown u) (_outbound_shutdown u) (_fully_acked u).
Definition set_tcp {A} (c : option TCPConnection) (u : Sponge A) : Sponge A :=
  mkSponge (_datagram_adapter u) c (_abort u) (_inbound_shutdown u) (_outbound_shutdown u) (_fully_acked u).
Definition set_inbound_shutdown {A} (u : Sponge A) : Sponge A :=
  mkSponge (_datagram_adapter u) (_tcp u) (_abort u) true (_outbound_shutdown u) (_fully_acked u).
Definition set_outbound_shutdown {A} (u : Sponge A) : Sponge A :=
  mkSponge (_datagram_adapter u) (_tcp u) (_abort u) (_inbound_shutdown u) true (_fully_acked u).
Definition set_fully_acked {A} (u : Sponge A) : Sponge A :=
  mkSponge (_datagram_adapter u) (_tcp u) (_abort u) (_inbound_shutdown u) (_outbound_shutdown u) true.

Section Socket.
Context {K A I O : Type} `{Kernel K} `{FdAdapter A I O} `{AdapterIO K I O}.
Abbreviation W := (World K (Sponge A)).
(** The descriptors: the owner's end of the socket pair, the thread's end, and the adapter's. *)
Context (owner _thread_data device : FileDescriptor).

(** [*_tcp]: undefined when there is none. *)
Definition tcp : ste W TCPConnection := fun w =>
  match _tcp (app w) with Some c => (w, Ok c) | None => (w, Throw Undefined) end.
Definition on_tcp (f : TCPConnection -> TCPConnection) : ste W unit :=
  c ← tcp;
  modify (set_app (set_tcp (Some (f c)))).

(** Running an operation of the adapter: what it outputs is written to the
    device, then its result is returned. *)
Fixpoint write_outputs (outs : list O) : ste W unit :=
  match outs with
  | [] => mret tt
  | o :: outs' => _ ← dev_write device o; write_outputs outs'
  end.
Definition adapter_result {R} (res : A * list O * outcome R) : ste W R :=
  let '(a, outs, o) := res in
  _ ← modify (set_app (set_adapter a));
  _ ← write_outputs outs;
  lift o.
Definition adapter_read : ste W (option TCPSegment) :=
  i ← dev_read device;
  a ← gets (fun w => _datagram_adapter (app w));
  adapter_result (FdAdapter.read i a).
Definition adapter_write (seg : TCPSegment) : ste W unit :=
  a ← gets (fun w => _datagram_adapter (app w));
  _ ← adapter_result (FdAdapter.write seg a);
  mret tt.
Definition adapter_tick (ms : Z) : ste W unit :=
  a ← gets (fun w => _datagram_adapter (app w));
  adapter_result (FdAdapter.tick ms a, Ok tt).

(** *** Rule 1: a datagram has arrived *)

Definition rule1_callback : ste W unit :=
  seg ← adapter_read;
  _ ← match seg with
      | Some g => on_tcp (fun c => segment_received c g)
      | None => mret tt
      end;
  c ← tcp;
  acked ← gets (fun w => FileDescriptor.eof w _thread_data && (bytes_in_flight c =? 0) && negb (_fully_acked (app w)));
  when acked (modify (set_app set_fully_acked)).
Definition rule1_interest : ste W bool := c ← tcp; mret (active c).

(** *** Rule 2: the owner has written bytes *)

Definition rule2_callback : ste W unit :=
  c ← tcp;
  data ← FileDescriptor.read _thread_data (remaining_outbound_capacity c);
  let '(c', amount_written) := TCPConnection.write c data in
  _ ← modify (set_app (set_tcp (Some c')));
  if negb (amount_written =? Zlen data) then throw RuntimeError
  else
    at_end ← gets (fun w => FileDescriptor.eof w _thread_data);
    when at_end
      (_ ← on_tcp end_input_stream;
       modify (set_app set_outbound_shutdown)).
Definition rule2_interest : ste W bool :=
  c ← tcp;
  gets (fun w => active c && negb (_outbound_shutdown (app w)) && (remaining_outbound_capacity c >? 0)).
Definition rule2_cancel : ste W unit :=
  _ ← on_tcp end_input_stream;
  modify (set_app set_outbound_shutdown).

(** *** Rule 3: bytes for the owner *)

Definition rule3_callback : ste W unit :=
  c ← tcp;
  let amount_to_write := Z.min 65536 (buffer_size (inbound_stream c)) in
  bytes_written ← write_string _thread_data (peek_output (inbound_stream c) amount_to_write) false;
  _ ← on_tcp (fun c => on_inbound c (fun s => pop_output s bytes_written));
  c ← tcp;
  when (ByteStream.eof (inbound_stream c) || error (inbound_stream c))
    (_ ← shutdown _thread_data SHUT_WR;
     modify (set_app set_inbound_shutdown)).
Definition rule3_interest : ste W bool :=
  c ← tcp;
  gets (fun w => negb (buffer_empty (inbound_stream c)) ||
    ((ByteStream.eof (inbound_stream c) || error (inbound_stream c)) && negb (_inbound_shutdown (app w)))).

(** *** Rule 4: segments to send *)

(** The [while] loop; its fuel is the length of the queue, which only shrinks. *)
Fixpoint send_queued (fuel : nat) : ste W unit :=
  match fuel with
  | 0%nat => mret tt
  | Datatypes.S fuel' =>
      c ← tcp;
      match segments_out c with
      | [] => mret tt
      | seg :: _ =>
          _ ← adapter_write seg;
          _ ← on_tcp pop_out;
          send_queued fuel'
      end
  end.
Definition rule4_callback : ste W unit :=
  c ← tcp;
  send_queued (length (segments_out c)).
Definition rule4_interest : ste W bool :=
  c ← tcp;
  mret (negb (bool_decide (segments_out c = []))).

Definition socket_rules : list (Rule K (Sponge A)) :=
  add_rule device Out rule4_callback rule4_interest (mret tt)
    (add_rule _thread_data Out rule3_callback rule3_interest (mret tt)
      (add_rule _thread_data In rule2_callback rule2_interest rule2_cancel
        (add_rule device In rule1_callback rule1_interest (mret tt) []))).

(** [_initialize_TCP]: the connection, and the rules; [random] is the
    connection's random number. *)
Definition _initialize_TCP (config : TCPConfig) (random : Z) : ste W (list (Rule K (Sponge A))) :=
  _ ← modify (set_app (set_tcp (Some (TCPConnection.new config random))));
  mret socket_rules.

(** *** The loop *)

(** The end of an iteration: time passes for the connection and the adapter. *)
Definition pass_time (base_time : Z) : ste W Z :=
  c ← tcp;
  if active c then
    next_time ← syscall sys_clock;
    let ms := u64 (next_time - base_time) in
    _ ← on_tcp (fun c => TCPConnection.tick c ms);
    _ ← adapter_tick ms;
    mret next_time
  else mret base_time.

(** One iteration of [_tcp_loop] once its condition holds: [Some] of the new
    base time to go on, [None] to leave. *)
Definition tcp_iteration (base_time : Z) (rules : list (Rule K (Sponge A))) (w : W)
    : W * list (Rule K (Sponge A)) * outcome (option Z) :=
  match wait_next_event TCP_TICK_MS rules w with
  | (w, rules, Throw e) => (w, rules, Throw e)
  | (w, rules, Ok ret) =>
      if bool_decide (ret = Exit) || _abort (app w) then (w, rules, Ok None)
      else match pass_time base_time w with
           | (w, Throw e) => (w, rules, Throw e)
           | (w, Ok base_time) => (w, rules, Ok (Some base_time))
           end
  end.

(** [fuel] iterations; [Ok false] while the loop is still running. *)
Fixpoint loop_from (fuel : nat) (condition : ste W bool) (base_time : Z)
    (rules : list (Rule K (Sponge A))) (w : W) : W * list (Rule K (Sponge A)) * outcome bool :=
  match fuel with
  | 0%nat => (w, rules, Ok false)
  | Datatypes.S fuel' =>
      match condition w with
      | (w, Throw e) => (w, rules, Throw e)
      | (w, Ok false) => (w, rules, Ok true)
      | (w, Ok true) =>
          match tcp_iteration base_time rules w with
          | (w, rules, Throw e) => (w, rules, Throw e)
          | (w, rules, Ok None) => (w, rules, Ok true)
          | (w, rules, Ok (Some base_time)) => loop_from fuel' condition base_time rules w
          end
      end
  end.

Definition _tcp_loop (fuel : nat) (condition : ste W bool) (rules : list (Rule K (Sponge A))) (w : W)
    : W * list (Rule K (Sponge A)) * outcome bool :=
  match syscall sys_clock w with
  | (w, Throw e) => (w, rules, Throw e)
  | (w, Ok base_time) => loop_from fuel condition base_time rules w
  end.

(** The conditions of the loops of [connect] and [listen_and_accept]. *)
Definition in_state (states : list State) : ste W bool :=
  c ← tcp;
  mret (existsb (fun s => state_eqb (TCPState.state c) (of_state s)) states).

(** [connect] up to its loop, then the loop; the thread is started after it. *)
Definition connect_start (c_tcp : TCPConfig) (random : Z) (c_ad : FdAdapterConfig) : ste W (list (Rule K (Sponge A))) :=
  already ← gets (fun w : W => bool_decide (is_Some (_tcp (app w))));
  if (already : bool) then throw RuntimeError
  else
    rules ← _initialize_TCP c_tcp random;
    _ ← modify (set_app (fun u => set_adapter (set_config c_ad (_datagram_adapter u)) u));
    _ ← on_tcp TCPConnection.connect;
    c ← tcp;
    if negb (state_eqb (TCPState.state c) (of_state SYN_SENT)) then throw RuntimeError
    else mret rules.
Definition connect (fuel : nat) (c_tcp : TCPConfig) (random : Z) (c_ad : FdAdapterConfig) (w : W)
    : W * list (Rule K (Sponge A)) * outcome bool :=
  match connect_start c_tcp random c_ad w with
  | (w, Throw e) => (w, [], Throw e)
  | (w, Ok rules) => _tcp_loop fuel (in_state [SYN_SENT]) rules w
  end.

Definition listen_start (c_tcp : TCPConfig) (random : Z) (c_ad : FdAdapterConfig) : ste W (list (Rule K (Sponge A))) :=
  already ← gets (fun w : W => bool_decide (is_Some (_tcp (app w))));
  if (already : bool) then throw RuntimeError
  else
    rules ← _initialize_TCP c_tcp random;
    _ ← modify (set_app (fun u => set_adapter (set_config c_ad (_datagram_adapter u)) u));
    _ ← modify (set_app (fun u => set_adapter (set_listening true (_datagram_adapter u)) u));
    mret rules.
Definition listen_and_accept (fuel : nat) (c_tcp : TCPConfig) (random : Z) (c_ad : FdAdapterConfig) (w : W)
    : W * list (Rule K (Sponge A)) * outcome bool :=
  match listen_start c_tcp random c_ad w with
  | (w, Throw e) => (w, [], Throw e)
  | (w, Ok rules) => _tcp_loop fuel (in_state [LISTEN; SYN_RCVD; SYN_SENT]) rules w
  end.

(** The thread's last actions. *)
Definition finish : ste W unit :=
  _ ← shutdown owner SHUT_RDWR;
  modify (set_app (set_tcp None)).

(** The body of the thread: [Ok false] while its loop is running. *)
Definition _tcp_main (fuel : nat) (rules : list (Rule K (Sponge A))) (w : W)
    : W * list (Rule K (Sponge A)) * outcome bool :=
  match _tcp (app w) with
  | None => (w, rules, Throw RuntimeError)
  | Some _ =>
      match _tcp_loop fuel (mret true) rules w with
      | (w, rules, Ok true) =>
          match finish w with
          | (w, Throw e) => (w, rules, Throw e)
          | (w, Ok _) => (w, rules, Ok true)
          end
      | res => res
      end
  end.

(** [wait_until_closed], before it joins the thread. *)
Definition wait_until_closed : ste W unit := shutdown owner SHUT_RDWR.
End Socket.

(** *** Construction *)

(** A constructor that throws destroys what was built before. *)
Definition protect {K U R} `{Kernel K} (ls : list FileDescriptor) (m : ste (World K U) R) : ste (World K U) R := fun w =>
  match m w with
  | (w, Ok r) => (w, Ok r)
  | (w, Throw e) => (fold_left (fun w l => fst (destroy l w)) ls w, Throw e)
  end.

(** [TCPSpongeSocket(datagram_interface)]: the owner's and the thread's ends. *)
Definition new_socket {K U} `{Kernel K} `{SocketKernel K} : ste (World K U) (FileDescriptor * FileDescriptor) :=
  pair ← socket_pair_helper SOCK_STREAM;
  protect [fst pair; snd pair]
    (owner ← LocalStreamSocket (fst pair);
     _thread_data ← LocalStreamSocket (snd pair);
     _ ← set_blocking _thread_data false;
     mret (owner, _thread_data)).

(** [CS144TCPSocket::connect] and [FullStackSocket::connect]: their configurations. *)
Definition cs144_tcp_config : TCPConfig :=
  mkTCPConfig 100 (recv_capacity TCPConnection.default_config) (send_capacity TCPConnection.default_config) None.
Definition CS144_SOURCE : Z := 2852032521.            (** 169.254.144.9 *)
Definition LOCAL_TAP_IP_ADDRESS : Z := 2851998217.    (** 169.254.10.9 *)
Definition LOCAL_TAP_NEXT_HOP_ADDRESS : Z := 2851998209.  (** 169.254.10.1 *)
Definition multiplexer_config (source_ip random : Z) (address : Address) : FdAdapterConfig :=
  mkFdAdapterConfig (mkAddress source_ip (u16 random)) address 0 0.

Definition cs144_connect {K} `{Kernel K} (_thread_data device : FileDescriptor) (fuel : nat)
    (random isn_random : Z) (address : Address) (w : World K (Sponge FdAdapterBase)) :=
  connect _thread_data device fuel cs144_tcp_config isn_random (multiplexer_config CS144_SOURCE random address) w.
Definition full_stack_connect {K} `{Kernel K} (_thread_data device : FileDescriptor) (fuel : nat)
    (random isn_random : Z) (address : Address) (w : World K (Sponge EthernetAdapter)) :=
  connect _thread_data device fuel cs144_tcp_config isn_random (multiplexer_config LOCAL_TAP_IP_ADDRESS random address) w.

(** A byte from each call of the random device; then the private, unicast form. *)
Definition random_private_ethernet_address (random : nat -> Z) : EthernetAddress :=
  match map (fun n => u8 (random n)) (seq 0 6) with
  | b :: rest => Z.land (Z.lor b 2) 254 :: rest
  | [] => []
  end.

(** The adapter of [FullStackSocket]. *)
Definition full_stack_adapter (random : nat -> Z) : EthernetAdapter * list BufferList :=
  new_ethernet (random_private_ethernet_address random) (mkAddress LOCAL_TAP_IP_ADDRESS 0)
    (mkAddress LOCAL_TAP_NEXT_HOP_ADDRESS 0).

Lemma private_address_unicast random :
  random_private_ethernet_address random <> ETHERNET_BROADCAST /\
  exists b rest, random_private_ethernet_address random = b :: rest /\ length rest = 5%nat /\
    Z.testbit b 0 = false /\ Z.testbit b 1 = true.
Proof.
  unfold random_private_ethernet_address. cbn [seq map]. set (x := Z.land _ 254).
  assert (Z.testbit x 0 = false /\ Z.testbit x 1 = true) as [H0 H1].
  { unfold x. rewrite !Z.land_spec, !Z.lor_spec. split; [apply andb_false_r|]. by rewrite orb_true_r. }
  split; [|by eexists x, _]. intros E. injection E as E _. rewrite E in H0. done.
Qed.

(** ** One socket over a TUN device

    [S] is a beginning of the stream that the owner writes, which is as much
    of it as the thread reads in the run considered; the peer's thread reads
    [S'] from its owner.  The invariant says what holds between any two
    actions of the thread. *)
Section OneSocket.
Context {K : Type} {HK : Kernel K} {HO : Observe K} {HL : KernelLaws K} {HSK : SocketKernel K}.
Context {A : Type} {HFA : FdAdapter A (list byte) BufferList} {HA : OverTun A}.
Context (S S' : list byte) (cfg : TCPConfig) (i i' : WrappingInt32).
Context (HS : Zlen S < 2 ^ 31 - 2) (HS' : Zlen S' < 2 ^ 31 - 2).
Context (Hi : fixed_isn cfg = Some i) (Hi' : valid i').
Context (Hsend : 0 <= send_capacity cfg < 2 ^ 32) (Hrecv : 0 <= recv_capacity cfg < 2 ^ 32).
Context (td dev : FileDescriptor) (tdn devn : Z).
Context (Htd : packets tdn = false) (Hdev : packets devn = true).
Abbreviation W := (World K (Sponge A)).
Implicit Types w : W.

(** The endpoint that a world amounts to. *)
Definition side_of (c : TCPConnection) (todo : list byte) (k : K) : Side :=
  mkSide c todo (bytes_out k tdn) [].

Record sponge_ok w : Prop := {
  so_td : fd_num w td = tdn;
  so_dev : fd_num w dev = devn;
  so_open : FileDescriptor.closed w td = false;
  so_conn : exists c todo, _tcp (app w) = Some c /\ bytes_in (kernel w) tdn ++ todo = S /\
              side_ok S S' cfg i i' (side_of c todo (kernel w));
  so_stream : S `prefix_of` stream_of (kernel w) tdn;
  so_end : FileDescriptor.eof w td = true \/ _outbound_shutdown (app w) = true -> bytes_in (kernel w) tdn = S;
  so_net : forall d, network (kernel w) devn d -> datagram_of S' i' d;
  so_sent : Forall (datagram_of S i) (writes (kernel w) devn);
  so_cfg : addresses_ok (base (_datagram_adapter (app w)))
}.

(** The flags of the wrappers have not changed. *)
Definition same_flags w w' : Prop :=
  forall l, fd_num w' l = fd_num w l /\ FileDescriptor.eof w' l = FileDescriptor.eof w l /\
            FileDescriptor.closed w' l = FileDescriptor.closed w l.

Lemma sponge_same w w' :
  unchanged (kernel w) (kernel w') -> same_flags w w' ->
  _tcp (app w') = _tcp (app w) -> _outbound_shutdown (app w') = _outbound_shutdown (app w) ->
  _datagram_adapter (app w') = _datagram_adapter (app w) -> sponge_ok w -> sponge_ok w'.
Proof.
  intros (Hr & Hw & Hst & Hn) Hf Et Eo Ea [H1 H2 H3 (c & todo & Hc & Htodo & Hside) H5 H6 H7 H8 H9].
  destruct (Hf td) as (F1 & F2 & F3), (Hf dev) as (F4 & _).
  assert (bytes_in (kernel w') tdn = bytes_in (kernel w) tdn) as Ein by (unfold bytes_in; by rewrite Hr).
  split; rewrite ?F1, ?F2, ?F3, ?F4, ?Hst, ?Hw, ?Ein, ?Eo, ?Ea, ?Et; try done; [|by auto].
  exists c, todo. unfold side_of, bytes_out. rewrite Hw. done.
Qed.

Lemma set_app_flags f w : same_flags w (set_app f w).
Proof. by intros l. Qed.

(** A step of the program that touches neither the connection nor the adapter. *)
Lemma flag_steps f :
  (forall u, _tcp (f u) = _tcp u /\ _outbound_shutdown (f u) = _outbound_shutdown u /\
             _datagram_adapter (f u) = _datagram_adapter u) ->
  steps sponge_ok (modify (set_app f)).
Proof.
  intros Hf w w' o Hw [= <- <-]. split; [|apply set_app_evolves]. destruct (Hf (app w)) as (? & ? & ?).
  by apply (sponge_same w).
Qed.

Lemma tcp_steps : steps sponge_ok (K := K) tcp.
Proof. apply steps_pure. intros w. unfold tcp. by destruct (_tcp (app w)). Qed.

(** Changing the connection by an event that needs nothing of the device. *)
Lemma side_wire c todo k l : side_ok S S' cfg i i' (mkSide c todo (bytes_out k tdn) l) -> side_ok S S' cfg i i' (side_of c todo k).
Proof. intros [Hc _ _ Hr Hg]. split; cbn in *; try done; constructor. Qed.

Lemma conn_sponge w c' :
  sponge_ok w ->
  (forall c todo, side_ok S S' cfg i i' (side_of c todo (kernel w)) -> _tcp (app w) = Some c ->
     bytes_in (kernel w) tdn ++ todo = S -> side_ok S S' cfg i i' (side_of c' todo (kernel w))) ->
  sponge_ok (set_app (set_tcp (Some c')) w).
Proof.
  intros [H1 H2 H3 (c & todo & Hc & Htodo & Hside) H5 H6 H7 H8 H9] Hstep. split; try done.
  exists c', todo. split; [done|]. split; [done|]. by eapply Hstep.
Qed.

Lemma on_tcp_steps f :
  (forall me, side_ok S S' cfg i i' me -> side_ok S S' cfg i i' (set_conn me (f (conn me)))) ->
  steps sponge_ok (K := K) (on_tcp f).
Proof.
  intros Hf w w' o Hw. unfold on_tcp, mbind, ste_bind, tcp.
  destruct (_tcp (app w)) as [c|] eqn:Ec; [|by intros [= <- <-]]. intros [= <- <-].
  split; [|apply set_app_evolves]. apply conn_sponge; [done|]. intros c0 todo Hs E0 _.
  assert (c0 = c) as -> by congruence. exact (Hf _ Hs).
Qed.

Lemma tick_steps ms : 0 <= ms -> steps sponge_ok (K := K) (on_tcp (fun c => TCPConnection.tick c ms)).
Proof.
  intros Hms. apply on_tcp_steps. intros me Hme.
  pose proof (exec_ok S S' cfg i i' HS HS' Hi Hi' Hsend Hrecv (ETick (Z.to_nat ms)) me [] Hme
    ltac:(constructor) ltac:(constructor)) as He. cbn [exec] in He. by rewrite Z2Nat.id in He.
Qed.

Lemma deliver_steps g :
  on_wire S' i' (Zlen S' + 2) g -> 0 <= win (TCPSegment._header g) < 2 ^ 16 ->
  steps sponge_ok (K := K) (on_tcp (fun c => segment_received c g)).
Proof. intros Hg Hw. apply on_tcp_steps. intros me Hme. by apply deliver_ok. Qed.

Lemma connect_steps : steps sponge_ok (K := K) (on_tcp TCPConnection.connect).
Proof.
  apply on_tcp_steps. intros me Hme.
  exact (exec_ok S S' cfg i i' HS HS' Hi Hi' Hsend Hrecv EConnect me [] Hme ltac:(constructor) ltac:(constructor)).
Qed.

(** The end of the outbound stream, which may only be announced after its last byte. *)
Lemma end_steps w w' o :
  sponge_ok w -> bytes_in (kernel w) tdn = S -> rule2_cancel w = (w', o) -> sponge_ok w' /\ evolves w w'.
Proof.
  intros Hw Hall. unfold rule2_cancel, on_tcp, mbind, ste_bind, tcp.
  destruct (_tcp (app w)) as [c|] eqn:Ec; [|by intros [= <- <-]]. intros [= <- <-].
  split; [|etrans; apply set_app_evolves].
  assert (sponge_ok (set_app (set_tcp (Some (end_input_stream c))) w)) as [H1 H2 H3 H4 H5 H6 H7 H8 H9].
  { apply conn_sponge; [done|]. intros c0 todo Hs E0 Htodo. assert (c0 = c) as -> by congruence.
    rewrite Hall in Htodo. assert (todo = []) as -> by (apply (app_inv_head S); by rewrite app_nil_r).
    exact (exec_ok S S' cfg i i' HS HS' Hi Hi' Hsend Hrecv EEnd _ [] Hs ltac:(constructor) ltac:(constructor)). }
  by split.
Qed.

(** *** Rule 1 *)

Lemma datagram_small X j d : datagram_of X j d -> Zlen d <= 65535.
Proof.
  intros (a & g & bl & g1 & Hs & _ & _ & E & ->). destruct (tun_datagram a g Hs) as (bl' & _ & _ & _ & E' & Hl & _).
  by assert (bl' = bl) as -> by congruence.
Qed.

(** Flags after a read of the device. *)
Lemma rewraps_other l x w w' : rewraps l x w w' -> l <> td -> _fd x = fd_num w l ->
  (forall g, fd_num w' g = fd_num w g) /\ FileDescriptor.eof w' td = FileDescriptor.eof w td /\
  FileDescriptor.closed w' td = FileDescriptor.closed w td.
Proof.
  intros Hw Hl Hx. split; [by eapply rewraps_fd|]. destruct Hw as [_ Hw].
  unfold FileDescriptor.eof, FileDescriptor.closed. rewrite Hw, decide_False by congruence. done.
Qed.

Lemma device_apart w : sponge_ok w -> dev <> td.
Proof. intros Hw E. pose proof (so_td _ Hw). pose proof (so_dev _ Hw). congruence. Qed.

Lemma adapter_read_post w w' o :
  sponge_ok w -> adapter_read dev w = (w', o) ->
  sponge_ok w' /\ evolves w w' /\
  forall g, o = Ok (Some g) -> on_wire S' i' (Zlen S' + 2) g /\ 0 <= win (TCPSegment._header g) < 2 ^ 16.
Proof.
  intros Hw. unfold adapter_read, mbind, ste_bind. cbn [dev_read tun_io]. unfold read_all.
  destruct (FileDescriptor.read dev (2 ^ 64 - 1) w) as [w1 o1] eqn:E.
  pose proof (fd_read_evolves _ _ _ _ _ E ltac:(lia)) as Hev. pose proof (so_dev _ Hw) as Hd.
  apply fd_read_spec in E as [(e & -> & Hu & Ha & Hwr)|(d & -> & _ & Hh & Hwr & Hp)]; [| |lia].
  - intros [= <- <-]. split; [|by split]. apply (sponge_same w); try (by rewrite Ha); try done.
    intros l. unfold fd_num, FileDescriptor.eof, FileDescriptor.closed. by rewrite Hwr.
  - rewrite Hd, Hdev in *. destruct Hp as (p & Hp & Ed). pose proof (so_net _ Hw p Hp) as Hgen.
    pose proof (datagram_small _ _ _ Hgen). rewrite ztake_ge in Ed by (unfold BUFFER_SIZE; lia). subst d.
    destruct (tun_read_genuine S' i' p (base (_datagram_adapter (app w))) Hgen) as (b' & r & Er & Hok & Hg).
    apply over_read in Er as (a' & r' & Er & Eb & Hr').
    assert (exists q, r' = Ok q /\ (q = r \/ q = None)) as (q & -> & Hq) by (destruct Hr' as [->| ->]; eauto).
    pose proof Hwr as [Ha _]. cbn [gets]. rewrite Ha, Er.
    intros [= <- <-]. destruct (rewraps_other _ _ _ _ Hwr (device_apart w Hw) ltac:(done)) as (F1 & F2 & F3).
    split; [|split; [etrans; [exact Hev|apply set_app_evolves]|intros g [= ->]; apply Hg; by destruct Hq as [<-|?]]].
    destruct Hw as [H1 H2 H3 (c & todo & Hc & Htodo & Hside) H5 H6 H7 H8 H9].
    destruct Hh as (Hr & Hw & Hst & Hn). assert (tdn <> devn) as Hne' by congruence.
    assert (bytes_in (kernel w1) tdn = bytes_in (kernel w) tdn) as Ein
      by (unfold bytes_in; by rewrite Hr, decide_False).
    assert (bytes_out (kernel w1) tdn = bytes_out (kernel w) tdn) as Eout by (unfold bytes_out; by rewrite Hw).
    split; cbn [set_app kernel app set_adapter _tcp _outbound_shutdown _datagram_adapter].
    + exact (eq_trans (F1 td) H1).
    + exact (eq_trans (F1 dev) H2).
    + exact (eq_trans F3 H3).
    + rewrite Ha. exists c, todo. unfold side_of. by rewrite Ein, Eout.
    + by rewrite Hst.
    + rewrite Ein, Ha. intros [He|He]; apply H6; [left|by right]. by rewrite <- F2.
    + auto.
    + by rewrite Hw.
    + rewrite Eb. auto.
Qed.

Lemma rule1_steps : steps sponge_ok (K := K) (rule1_callback td dev).
Proof.
  intros w w' o Hw. unfold rule1_callback. unfold mbind at 1, ste_bind at 1.
  destruct (adapter_read dev w) as [w1 o1] eqn:E. apply adapter_read_post in E as (Hw1 & Hev1 & Hg); [|done].
  destruct o1 as [seg|e]; [|by intros [= <- <-]]. intros E'.
  match type of E' with ?m w1 = _ => assert (steps sponge_ok m) as Hm end.
  { apply steps_bind.
    - destruct seg as [g|]; [|apply steps_ret]. destruct (Hg g eq_refl). by apply deliver_steps.
    - intros _. apply steps_bind; [apply tcp_steps|]. intros c. apply steps_bind; [apply steps_gets|].
      intros []; [|apply steps_ret]. by apply flag_steps. }
  destruct (Hm _ _ _ Hw1 E') as [? ?]. split; [done|by etrans].
Qed.

(** *** Rule 2 *)

(** What was read when the stream is at its end is all of [S]. *)
Lemma drained_all w : sponge_ok w -> bytes_in (kernel w) tdn = stream_of (kernel w) tdn -> bytes_in (kernel w) tdn = S.
Proof.
  intros Hw Hd. pose proof (so_stream _ Hw) as Hs. rewrite <- Hd in Hs.
  destruct (so_conn _ Hw) as (c & todo & _ & Htodo & _). apply (anti_symm prefix); [by exists todo|done].
Qed.

(** A read from the owner, handed to the connection: all of it is accepted. *)
Lemma owner_data w w1 c d :
  sponge_ok w -> _tcp (app w) = Some c -> bytes_in (kernel w1) tdn `prefix_of` S ->
  FileDescriptor.read td (remaining_outbound_capacity c) w = (w1, Ok d) ->
  let '(c', n) := TCPConnection.write c d in
  n = Zlen d /\ sponge_ok (set_app (set_tcp (Some c')) w1).
Proof.
  intros Hw Ec Hpre E. assert (0 <= remaining_outbound_capacity c) as Hcap by (apply u64_bound).
  apply fd_read_spec in E as [(e & [=] & _)|(d' & [= <-] & Hlen & Hh & Hwr & Hp)]; [|done].
  pose proof (so_td _ Hw) as Htdn. rewrite Htdn, Htd in *. destruct Hp as [_ Hnil].
  pose proof (drained_all w Hw) as Hall. rewrite (has_read_in _ _ _ _ _ Hh), decide_True in Hpre by done.
  destruct Hw as [H1 H2 H3 (c0 & todo & Hc & Htodo & Hside) H5 H6 H7 H8 H9].
  assert (c0 = c) as -> by congruence.
  rewrite <- Htodo in Hpre. apply prefix_app_inv in Hpre as (todo' & ->).
  pose proof (exec_ok S S' cfg i i' HS HS' Hi Hi' Hsend Hrecv (EWrite (length d)) _ [] Hside
    ltac:(constructor) ltac:(constructor)) as He. cbn [exec side_of conn EndToEnd.todo got wire] in He.
  change (Z.of_nat (length d)) with (Zlen d) in He. rewrite ztake_app_len in He.
  assert (snd (TCPConnection.write c d) = Zlen d) as En.
  { unfold TCPConnection.write. rewrite write_eq. cbv zeta.
    destruct (write_loop ByteStream.plain (ztake _ d) _ _). cbn [snd].
    unfold remaining_outbound_capacity in *. lia. }
  destruct (TCPConnection.write c d) as [c' n]. cbn [snd] in En. subst n. split; [done|].
  replace (zdrop (Zlen d) (d ++ todo')) with todo' in He
    by (unfold zdrop, Zlen; by rewrite Nat2Z.id, drop_app_length).
  assert (bytes_in (kernel w1) tdn = bytes_in (kernel w) tdn ++ d) as Ein
    by (by rewrite (has_read_in _ _ _ _ _ Hh), decide_True).
  destruct Hwr as [Ha Hwr]. destruct Hh as (Hr & Hwo & Hst & Hn).
  assert (forall l, fd_num w1 l = fd_num w l) as F1 by (intros l; unfold fd_num; rewrite Hwr; by case_decide; subst).
  split; cbn [set_app kernel app set_tcp _tcp _outbound_shutdown _datagram_adapter].
  - exact (eq_trans (F1 td) H1).
  - exact (eq_trans (F1 dev) H2).
  - unfold FileDescriptor.closed, wrapper in *. cbn. by rewrite Hwr, decide_True.
  - exists c', todo'. split; [done|]. rewrite Ein, <- app_assoc. split; [done|].
    unfold side_of, bytes_out in *. by rewrite Hwo.
  - by rewrite Hst.
  - rewrite Ein, Ha. unfold FileDescriptor.eof, wrapper in *. cbn. rewrite Hwr, decide_True by done. cbn.
    assert (bytes_in (kernel w) tdn = S -> bytes_in (kernel w) tdn ++ d = S) as Hstay.
    { intros Eall. rewrite Eall in Htodo. assert (d ++ todo' = []) as En by (apply (app_inv_head S); by rewrite app_nil_r).
      apply app_eq_nil in En as [-> _]. by rewrite app_nil_r. }
    intros [He1|He1]; [|auto]. apply orb_true_iff in He1 as [He1|He1]; [auto|].
    apply andb_true_iff in He1 as [Hc0 Hd0]. apply bool_decide_eq_true in Hd0. bsplit. apply Hstay, Hall, Hnil; done.
  - auto.
  - by rewrite Hwo.
  - by rewrite Ha.
Qed.

(** After the read, the callback works on the connection only. *)
Lemma rule2_rest c d w1 w' o :
  (let '(c', amount_written) := TCPConnection.write c d in
   _ ← modify (set_app (set_tcp (Some c')));
   if negb (amount_written =? Zlen d) then throw RuntimeError
   else at_end ← gets (fun w => FileDescriptor.eof w td); when at_end (rule2_cancel (K := K) (A := A))) w1 = (w', o) ->
  kernel w' = kernel w1 /\ evolves w1 w'.
Proof.
  assert (forall f, steps (fun w : W => kernel w = kernel w1) (modify (set_app f))) as Hset
    by (intros f w w2 o2 Hw [= <- <-]; split; [done|apply set_app_evolves]).
  assert (forall X (f : TCPConnection -> ste W X), (forall c, steps (fun w => kernel w = kernel w1) (f c)) ->
    steps (fun w => kernel w = kernel w1) (c ← tcp; f c)) as Htcp.
  { intros X f Hf. apply steps_bind; [|done]. apply steps_pure. intros w. unfold tcp. by destruct (_tcp _). }
  destruct (TCPConnection.write c d) as [c' n]. intros E. match type of E with ?m w1 = _ =>
    assert (steps (fun w => kernel w = kernel w1) m) as Hm; [|by apply (Hm w1 w' o)] end.
  apply steps_bind; [done|]. intros _. destruct (negb _); [apply steps_throw|].
  apply steps_bind; [apply steps_gets|]. intros []; cbn [when]; [|apply steps_ret].
  apply steps_bind; [by apply Htcp|]. intros _. apply Hset.
Qed.

(** The callback keeps the invariant as long as no more than [S] is read, and
    throws only what the system calls throw. *)
Lemma rule2_post w w' o :
  sponge_ok w -> rule2_callback td w = (w', o) ->
  evolves w w' /\
  (bytes_in (kernel w') tdn `prefix_of` S ->
   sponge_ok w' /\ forall e, o = Throw e -> exists code, e = UnixError code).
Proof.
  intros Hw. unfold rule2_callback. unfold mbind at 1 2, ste_bind at 1 2.
  destruct (so_conn _ Hw) as (c & todo & Ec & _). unfold tcp at 1. rewrite Ec.
  destruct (FileDescriptor.read td (remaining_outbound_capacity c) w) as [w1 o1] eqn:E.
  assert (0 <= remaining_outbound_capacity c) as Hcap by (apply u64_bound).
  pose proof (fd_read_evolves _ _ _ _ _ E Hcap) as Hev.
  destruct o1 as [d|e].
  - intros E2. destruct (rule2_rest c d w1 w' o E2) as [Hk Hev2]. split; [by etrans|]. rewrite Hk. intros Hpre.
    pose proof (owner_data w w1 c d Hw Ec Hpre E) as Ho. revert E2. destruct (TCPConnection.write c d) as [c' n].
    destruct Ho as [-> Hok]. unfold mbind at 1, ste_bind at 1. cbn [modify]. rewrite Z.eqb_refl. cbn [negb].
    unfold mbind at 1, ste_bind at 1. cbn [gets].
    destruct (FileDescriptor.eof (set_app (set_tcp (Some c')) w1) td) eqn:Eeof; cbn [when].
    + intros E2. assert (rule2_cancel (set_app (set_tcp (Some c')) w1) = (w', o)) as E3 by exact E2.
      destruct (end_steps _ _ _ Hok (so_end _ Hok (or_introl Eeof)) E3) as [? ?]. split; [done|].
      intros e ->. revert E3. unfold rule2_cancel, on_tcp, mbind, ste_bind, tcp. cbn. done.
    + by intros [= <- <-].
  - intros [= <- <-]. apply fd_read_spec in E as [(e' & [= ->] & Hu & Ha & Hwr)|(d & [=] & _)]; [|done].
    split; [done|]. intros _. split; [|intros ? [= <-]; by eexists].
    apply (sponge_same w); try (by rewrite Ha); try done.
    intros l. unfold fd_num, FileDescriptor.eof, FileDescriptor.closed. by rewrite Hwr.
Qed.

(** *** Rule 3 *)

Lemma side_inbound_wf c todo k : side_ok S S' cfg i i' (side_of c todo k) -> ByteStream.wf (inbound_stream c).
Proof.
  intros Hs. pose proof (recv_settled S' cfg i' HS' Hi' Hrecv _ (sd_recv _ _ _ _ _ _ Hs)) as Hset. apply Hset.
Qed.

(** A write to the owner that took nothing. *)
Lemma refused_sponge w w1 ds :
  has_written tdn ds (kernel w) (kernel w1) -> concat ds = [] -> app w1 = app w ->
  (forall g, wrapper w1 g = wrapper w g) -> sponge_ok w -> sponge_ok w1.
Proof.
  intros Hh Hds Ha Hwr [H1 H2 H3 (c & todo & Hc & Htodo & Hside) H5 H6 H7 H8 H9].
  pose proof (has_written_out _ _ _ _ tdn Hh) as Eout. rewrite decide_True, Hds, app_nil_r in Eout by done.
  destruct Hh as (Hwo & Hr & Hst & Hn). assert (devn <> tdn) as Hne' by congruence.
  split; unfold fd_num, FileDescriptor.eof, FileDescriptor.closed, bytes_in in *; rewrite ?Hwr, ?Hr, ?Hst, ?Hwo, ?Ha, ?decide_False;
    try done; [|by auto]. exists c, todo. unfold side_of. by rewrite Eout.
Qed.

(** What was written is popped from the inbound stream. *)
Lemma popped_sponge w w1 c n :
  let s := inbound_stream c in
  sponge_ok w -> _tcp (app w) = Some c -> 0 <= n <= endOfBuffer s ->
  has_written tdn [ztake n (contents s)] (kernel w) (kernel w1) -> app w1 = app w ->
  (forall g, fd_num w1 g = fd_num w g) -> FileDescriptor.eof w1 td = FileDescriptor.eof w td ->
  FileDescriptor.closed w1 td = FileDescriptor.closed w td ->
  sponge_ok (set_app (set_tcp (Some (on_inbound c (fun s => pop_output s n)))) w1).
Proof.
  intros s [H1 H2 H3 (c0 & todo & Hc & Htodo & Hside) H5 H6 H7 H8 H9] Ec Hn Hh Ha F1 F2 F3.
  assert (c0 = c) as -> by congruence. pose proof (side_inbound_wf _ _ _ Hside) as Hwf. fold s in Hwf.
  pose proof (exec_ok S S' cfg i i' HS HS' Hi Hi' Hsend Hrecv (ERead (Z.to_nat n)) _ [] Hside
    ltac:(constructor) ltac:(constructor)) as He. cbn [exec side_of conn EndToEnd.todo got wire] in He.
  unfold read_inbound in He. rewrite read_eq in He. cbv zeta in He. rewrite Z2Nat.id in He by lia.
  assert ((if n <? endOfBuffer (inbound_stream c) then n else endOfBuffer (inbound_stream c)) = n) as En
    by (fold s; destruct (Z.ltb_spec n (endOfBuffer s)); lia).
  rewrite En, peek_output_spec in He by (fold s; lia).
  pose proof (has_written_out _ _ _ _ tdn Hh) as Eout. rewrite decide_True in Eout by done.
  cbn [concat] in Eout. rewrite app_nil_r in Eout.
  destruct Hh as (Hwo & Hr & Hst & Hnet). assert (devn <> tdn) as Hne' by congruence.
  assert (bytes_in (kernel w1) tdn = bytes_in (kernel w) tdn) as Ein by (unfold bytes_in; by rewrite Hr).
  split; cbn [set_app kernel app set_tcp _tcp _outbound_shutdown _datagram_adapter].
  - exact (eq_trans (F1 td) H1).
  - exact (eq_trans (F1 dev) H2).
  - exact (eq_trans F3 H3).
  - exists (on_inbound c (fun s => pop_output s n)), todo. split; [done|]. rewrite Ein. split; [done|].
    unfold side_of. rewrite Eout. exact He.
  - by rewrite Hst.
  - rewrite Ein, Ha. intros [Hf|Hf]; apply H6; [left|by right]. rewrite <- F2. exact Hf.
  - auto.
  - by rewrite Hwo, decide_False.
  - by rewrite Ha.
Qed.

Lemma rule3_steps : steps sponge_ok (K := K) (rule3_callback td).
Proof.
  intros w w' o Hw. unfold rule3_callback. unfold mbind at 1 2, ste_bind at 1 2.
  destruct (so_conn _ Hw) as (c & todo & Ec & _ & Hside). unfold tcp at 1. rewrite Ec.
  pose proof (side_inbound_wf _ _ _ Hside) as Hwf. pose proof (wf_end _ Hwf) as Hend. pose proof (ByteStream.wf_cap _ Hwf) as Hc32.
  set (s := inbound_stream c) in *. unfold buffer_size. rewrite peek_output_spec by lia.
  set (data := ztake (Z.min 65536 (endOfBuffer s)) (contents s)).
  assert (Zlen data = Z.min 65536 (endOfBuffer s)) as Hlen
    by (unfold data; rewrite Zlen_ztake, Zlen_contents by (done || lia); lia).
  destruct (write_string td data false w) as [w1 o1] eqn:E.
  assert (concat (bvl_of_string data) = data) as Ed by (cbn; apply app_nil_r).
  apply write_some_spec in E as [Ha Hres]; [|rewrite Ed; lia]. rewrite Ed, (so_td _ Hw) in Hres.
  destruct Hres as [(e & -> & _ & (ds & Hh & Hds) & Hwr)|(n & -> & Hn & _ & Hh & Hwr)].
  - intros [= <- <-]. split; [by eapply refused_sponge|]. eapply written_evolves; [exact Hh|].
    intros l. unfold fd_num. by rewrite Hwr.
  - assert (forall g, fd_num w1 g = fd_num w g) as F1 by by eapply rewraps_fd. destruct Hwr as [_ Hwr].
    assert (evolves w w1) as Hev by by eapply written_evolves.
    assert (ztake n data = ztake n (contents s)) as Et
      by (unfold data, ztake; rewrite take_take; f_equal; lia). rewrite Et in Hh.
    assert (FileDescriptor.eof w1 td = FileDescriptor.eof w td /\ FileDescriptor.closed w1 td = FileDescriptor.closed w td)
      as [F2 F3] by (unfold FileDescriptor.eof, FileDescriptor.closed; by rewrite Hwr, decide_True).
    pose proof (popped_sponge w w1 c n Hw Ec ltac:(fold s; lia) Hh Ha F1 F2 F3) as Hw2.
    unfold mbind at 1, ste_bind at 1. unfold on_tcp, mbind at 1, ste_bind at 1, tcp at 1. rewrite Ha, Ec.
    cbn [modify]. intros E'.
    match type of E' with ?m ?w2 = _ => assert (steps sponge_ok m) as Hm end.
    { apply steps_bind; [apply tcp_steps|]. intros c2. destruct (_ || _); cbn [when]; [|apply steps_ret].
      apply steps_bind; [|intros _; by apply flag_steps]. intros w2 w3 o3 Hok2 E3. pose proof E3 as E3'.
      apply shutdown_spec in E3 as (Hu & Ha3 & Hw3 & _). apply quiet_shutdown in E3'.
      split; [|by apply quietly_evolves]. apply (sponge_same w2); try (by rewrite Ha3); try done.
      intros l. unfold fd_num, FileDescriptor.eof, FileDescriptor.closed.
      by destruct (Hw3 l) as [->|(_ & -> & -> & ->)]. }
    destruct (Hm _ _ _ Hw2 E') as [? ?]. split; [done|]. etrans; [exact Hev|]. etrans; [apply set_app_evolves|done].
Qed.

(** *** Rule 4 *)

Lemma bvl_concat bl : concat (bvl_of_buffers bl) = concatenate bl.
Proof. done. Qed.

Lemma readapted w a : base a = base (_datagram_adapter (app w)) -> sponge_ok w -> sponge_ok (set_app (set_adapter a) w).
Proof.
  intros Ea [H1 H2 H3 H4 H5 H6 H7 H8 H9]. split; try done.
  cbn [set_app app set_adapter _datagram_adapter]. by rewrite Ea.
Qed.

(** A genuine segment leaves as a datagram of the stream, or not at all. *)
Lemma adapter_write_post w w' o g :
  sponge_ok w -> on_wire S i (Zlen S + 2) g -> 0 <= win (TCPSegment._header g) < 2 ^ 16 -> fits g ->
  adapter_write dev g w = (w', o) -> sponge_ok w' /\ evolves w w' /\ _tcp (app w') = _tcp (app w).
Proof.
  intros Hw Hg Hwin Hfit. unfold adapter_write, mbind, ste_bind. cbn [gets].
  set (a := _datagram_adapter (app w)). pose proof (fits_sendable (base a) g (so_cfg _ Hw) Hfit) as Hs.
  destruct (tun_datagram (base a) g Hs) as (bl & _ & _ & _ & Et & Hl & _).
  assert (datagram_of S i (concatenate bl)) as Hd by (by eexists (base a), g, bl, _).
  apply over_write in Et as (a1 & outs & r & -> & Hcase).
  unfold adapter_result, mbind, ste_bind. cbn [modify].
  assert (sponge_ok (set_app (set_adapter a1) w)) as Hw0 by (apply readapted; [by destruct Hcase as [[? _]|[? _]]|done]).
  destruct Hcase as [(_ & -> & ->)|(_ & -> & ->)]; [|intros [= <- <-]; split; [done|]; split; [apply set_app_evolves|done]].
  set (w0 := set_app (set_adapter a1) w) in *. cbn [write_outputs].
  unfold mbind, ste_bind. cbn [dev_write tun_io]. unfold mbind, ste_bind.
  destruct (FileDescriptor.write dev (bvl_of_buffers bl) true w0) as [w1 o1] eqn:E.
  apply write_iter_spec in E as [[Ha Hc] (ds & Hh & Ho)]; [|lia|rewrite bvl_concat; lia|apply Nat.lt_succ_diag_r].
  change (fd_num w0 dev) with (fd_num w dev) in *. rewrite (so_dev _ Hw), bvl_concat in *.
  assert (forall l, fd_num w1 l = fd_num w l) as F1 by (intros l; apply (Hc l)).
  assert (FileDescriptor.eof w1 td = FileDescriptor.eof w td /\ FileDescriptor.closed w1 td = FileDescriptor.closed w td)
    as [F2 F3] by (destruct (Hc td) as (_ & _ & ? & ? & _); by split).
  assert (evolves w w1) as Hev by by eapply written_evolves.
  assert (Forall (datagram_of S i) ds) as Hds.
  { destruct o1 as [n|e]; [destruct Ho as (_ & _ & Hp)|destruct Ho as (_ & _ & _ & Hp)]; rewrite (Hp Hdev); by repeat constructor. }
  assert (sponge_ok w1) as Hw1.
  { destruct Hw0 as [H1 H2 H3 (c & todo & Hcn & Htodo & Hside) H5 H6 H7 H8 H9].
    destruct Hh as (Hwo & Hr & Hst & Hnet). change (kernel w0) with (kernel w) in *.
    assert (tdn <> devn) as Hne' by congruence.
    assert (bytes_in (kernel w1) tdn = bytes_in (kernel w) tdn) as Ein by (unfold bytes_in; by rewrite Hr).
    assert (bytes_out (kernel w1) tdn = bytes_out (kernel w) tdn) as Eout
      by (unfold bytes_out; by rewrite Hwo, decide_False).
    split; rewrite ?F1, ?F2, ?F3, ?Ein, ?Ha; try done.
    - exists c, todo. unfold side_of. by rewrite Eout.
    - by rewrite Hst.
    - auto.
    - rewrite Hwo, decide_True by done. by apply Forall_app. }
  destruct o1 as [n|e]; intros [= <- <-]; (split; [done|]; split; [done|]; by rewrite Ha).
Qed.

Lemma pop_steps : steps sponge_ok (K := K) (on_tcp pop_out).
Proof.
  apply on_tcp_steps. intros me Hme.
  pose proof (exec_ok S S' cfg i i' HS HS' Hi Hi' Hsend Hrecv ESend me [] Hme ltac:(constructor) ltac:(constructor)) as He.
  cbn [exec] in He. destruct (segments_out (conn me)) as [|g q] eqn:E.
  - replace (pop_out (conn me)) with (conn me); [by destruct me|]. unfold pop_out, segments_out in *. rewrite E.
    destruct (conn me). cbn in *. by rewrite E.
  - destruct He as [Hc Hwire Hwins Hr Hg]. apply Forall_app in Hwire as [? _]. apply Forall_app in Hwins as [? _].
    by split.
Qed.

Lemma send_queued_steps fuel : steps sponge_ok (K := K) (send_queued dev fuel).
Proof.
  induction fuel as [|fuel IH]; cbn [send_queued]; [apply steps_ret|].
  intros w w' o Hw. unfold mbind at 1, ste_bind at 1. destruct (so_conn _ Hw) as (c & todo & Ec & _ & Hside).
  unfold tcp at 1. rewrite Ec. destruct (segments_out c) as [|g q] eqn:Eq; [by intros [= <- <-]|].
  destruct (sd_conn _ _ _ _ _ _ Hside) as (V & Hreach & _). cbn [side_of conn] in Hreach.
  pose proof (connection_source S cfg i ltac:(lia) Hi Hsend Hrecv c (ex_intro _ V Hreach)) as Hgen.
  pose proof (reach_wins _ _ _ _ _ Hreach) as Hwin. destruct (reach_fits _ _ _ _ _ Hreach) as [Hfit _].
  unfold segments_out in *. rewrite Eq in *. inversion Hgen; inversion Hwin; inversion Hfit; subst.
  unfold mbind at 1, ste_bind at 1. destruct (adapter_write dev g w) as [w1 o1] eqn:E.
  apply adapter_write_post in E as (Hw1 & Hev1 & _); try done.
  destruct o1 as [u|e]; [|by intros [= <- <-]]. intros E'.
  destruct (steps_bind _ _ _ pop_steps (fun _ => IH) w1 w' o Hw1 E') as [? ?]. split; [done|by etrans].
Qed.

(** *** The rules together, and time *)

Lemma syscall_steps {X} (f : st K X) :
  (forall k k' a, f k = (k', a) -> unchanged k k') -> steps sponge_ok (syscall f).
Proof.
  intros Hf w w' o Hw. unfold syscall. destruct (f (kernel w)) as [k a] eqn:E. apply Hf in E.
  intros [= <- <-]. split; [by apply (sponge_same w)|by apply unchanged_evolves].
Qed.

Lemma adapter_tick_steps ms : steps sponge_ok (K := K) (adapter_tick dev ms).
Proof.
  intros w w' o Hw. unfold adapter_tick, mbind, ste_bind. cbn [gets].
  pose proof (over_tick ms (_datagram_adapter (app w))) as [Ho Hb].
  destruct (FdAdapter.tick ms (_datagram_adapter (app w))) as [a outs]. cbn in Ho, Hb. subst outs.
  intros [= <- <-]. split; [by apply readapted|apply set_app_evolves].
Qed.

Lemma pass_time_steps base : steps sponge_ok (K := K) (pass_time dev base).
Proof.
  apply steps_bind; [apply tcp_steps|]. intros c. destruct (active c); [|apply steps_ret].
  apply steps_bind; [apply syscall_steps; intros k k' a; apply clock_law|]. intros t.
  apply steps_bind; [apply tick_steps, u64_bound|]. intros _. apply steps_bind; [|intros _; apply steps_ret].
  apply adapter_tick_steps.
Qed.

End OneSocket.

(** ** How much is read

    The invariant above holds of a thread for every stream [S] between what
    has been read from the owner and all that the owner will ever write, so
    that what the connection does depends on no byte that it has not read. *)
Lemma part_len (S T : list byte) n : Zlen S < n -> T `prefix_of` S -> Zlen T < n.
Proof. intros HS H%prefix_length. unfold Zlen in *. lia. Qed.

Section Causal.
Context {K : Type} {HK : Kernel K} {HO : Observe K} {HL : KernelLaws K} {HSK : SocketKernel K}.
Context {A : Type} {HFA : FdAdapter A (list byte) BufferList} {HA : OverTun A}.
Context (Sf S' : list byte) (cfg : TCPConfig) (i i' : WrappingInt32).
Context (HSf : Zlen Sf < 2 ^ 31 - 2) (HS' : Zlen S' < 2 ^ 31 - 2).
Context (Hi : fixed_isn cfg = Some i) (Hi' : valid i').
Context (Hsend : 0 <= send_capacity cfg < 2 ^ 32) (Hrecv : 0 <= recv_capacity cfg < 2 ^ 32).
Context (td dev : FileDescriptor) (tdn devn : Z).
Context (Htd : packets tdn = false) (Hdev : packets devn = true).
Implicit Types w : World K (Sponge A).
Abbreviation ok T := (sponge_ok T S' cfg i i' td dev tdn devn).

Definition between w (T : list byte) : Prop := bytes_in (kernel w) tdn `prefix_of` T /\ T `prefix_of` Sf.

Record thread_inv w : Prop := {
  ti_stream : stream_of (kernel w) tdn = Sf;
  ti_read : bytes_in (kernel w) tdn `prefix_of` Sf;
  ti_ok : forall T, between w T -> ok T w
}.

Lemma between_whole w : thread_inv w -> between w Sf.
Proof. intros [_ H _]. by split. Qed.

Lemma evolves_read w w' : evolves w w' -> stream_of (kernel w) tdn = Sf -> bytes_in (kernel w) tdn `prefix_of` Sf ->
  bytes_in (kernel w) tdn `prefix_of` bytes_in (kernel w') tdn /\ bytes_in (kernel w') tdn `prefix_of` Sf.
Proof.
  intros Hev Hs Hr. destruct (ev_reads _ _ Hev tdn Htd) as [->|[H1 H2]]; [done|]. by rewrite Hs in H2.
Qed.

(** A step that keeps the invariant for every stream that has what it reads. *)
Lemma reads_inv w w' :
  thread_inv w -> (forall T, T `prefix_of` Sf -> ok T w -> evolves w w' /\ (bytes_in (kernel w') tdn `prefix_of` T -> ok T w')) ->
  thread_inv w' /\ evolves w w'.
Proof.
  intros Hw Hstep. pose proof (between_whole w Hw) as [Hpre _].
  destruct (Hstep Sf (reflexivity _) (ti_ok _ Hw Sf (between_whole w Hw))) as [Hev _].
  destruct (evolves_read w w' Hev (ti_stream _ Hw) Hpre) as [H1 H2]. split; [|done].
  split; [by rewrite (proj1 (ev_peers _ _ Hev)), (ti_stream _ Hw)|done|].
  intros T [HT1 HT2]. apply Hstep; [done| |done]. apply (ti_ok _ Hw). split; [by etrans|done].
Qed.

Lemma inv_steps {X} (m : ste (World K (Sponge A)) X) :
  (forall T, T `prefix_of` Sf -> steps (ok T) m) -> steps thread_inv m.
Proof.
  intros Hm w w' o Hw E. apply reads_inv; [done|]. intros T HT Hok.
  destruct (Hm T HT _ _ _ Hok E) as [? ?]. by split.
Qed.

(** At the end of the stream there is only one [S] left. *)
Lemma inv_cancel w w' o :
  thread_inv w -> (forall T, between w T -> bytes_in (kernel w) tdn = T) -> rule2_cancel w = (w', o) ->
  thread_inv w' /\ evolves w w'.
Proof.
  intros Hw Hall E. apply reads_inv; [done|]. intros T HT Hok.
  destruct (so_conn _ _ _ _ _ _ _ _ _ _ Hok) as (c & todo & _ & Htodo & _).
  eapply (end_steps T) in E as [Hw' Hev]; [by split|try eassumption; try by apply (part_len Sf)..].
  apply Hall. split; [by exists todo|done].
Qed.

Lemma socket_rules_ok : Forall (rule_ok (K := K) thread_inv) (socket_rules td dev).
Proof.
  assert (forall {X} (m : TCPConnection -> ste (World K (Sponge A)) X), (forall c, steps thread_inv (m c)) ->
    steps thread_inv (c ← tcp; m c)) as Ht
    by (intros X m Hm; apply steps_bind; [apply inv_steps; intros; apply tcp_steps|done]).
  assert (forall fd d cb it, steps thread_inv cb -> steps thread_inv it -> rule_ok thread_inv (mkRule fd d cb it (mret tt))) as Hrule.
  { intros fd d cb it Hcb Hit. split; cbn [interest callback cancel]; try done; by intros w w' o Hw _ [= <- <-]. }
  unfold socket_rules, add_rule, duplicate. cbn [List.app].
  apply Forall_cons_2; [|apply Forall_cons_2; [|apply Forall_cons_2; [|apply Forall_cons_2; [|constructor]]]].
  - apply Hrule; [|apply Ht; intros c; apply steps_ret].
    apply inv_steps. intros T HT. eapply rule1_steps; (done || by apply (part_len Sf)).
  - split; cbn [interest callback cancel direction rfd].
    + apply Ht. intros c. apply steps_gets.
    + intros w w' o Hw E. apply reads_inv; [done|]. intros T HT Hok.
      eapply rule2_post in E as [Hev H]; [|by apply (part_len Sf)|eassumption..].
      split; [done|]. intros Hp. by destruct (H Hp).
    + intros w w' o Hw He. apply inv_cancel; [done|]. intros T HT. pose proof (ti_ok _ Hw T HT) as Hok.
      destruct He as [[_ He]|Hc]; [|by rewrite (so_open _ _ _ _ _ _ _ _ _ _ Hok) in Hc].
      apply (so_end _ _ _ _ _ _ _ _ _ _ Hok). by left.
    + intros w w' o Hw Hdr. apply inv_cancel; [done|]. intros T HT. pose proof (ti_ok _ Hw T HT) as Hok.
      rewrite (so_td _ _ _ _ _ _ _ _ _ _ Hok) in Hdr. by eapply drained_all, Hdr.
  - apply Hrule; [|apply Ht; intros c; apply steps_gets].
    apply inv_steps. intros T HT. eapply rule3_steps; (done || by apply (part_len Sf)).
  - apply Hrule; [|apply Ht; intros c; apply steps_ret].
    apply Ht. intros c. apply inv_steps. intros T HT. eapply send_queued_steps; (done || by apply (part_len Sf)).
Qed.

Lemma inv_kernel w k : thread_inv w -> unchanged (kernel w) k -> thread_inv (mkWorld k (wrappers w) (app w)).
Proof.
  intros Hw Hu. apply (reads_inv w); [done|]. intros T HT Hok. split; [by apply unchanged_evolves|].
  intros _. by apply (sponge_same _ _ _ _ _ _ _ _ _ w).
Qed.

Lemma tcp_iteration_ok base rules w w' rules' o :
  thread_inv w -> Forall (rule_ok thread_inv) rules -> tcp_iteration dev base rules w = (w', rules', o) ->
  thread_inv w' /\ evolves w w' /\ Forall (rule_ok thread_inv) rules'.
Proof.
  intros Hw Hr. unfold tcp_iteration. destruct (wait_next_event TCP_TICK_MS rules w) as [[w1 rules1] o1] eqn:E.
  destruct (wait_next_event_keeps thread_inv TCP_TICK_MS rules w w1 rules1 o1 inv_kernel) as (Hw1 & Hev1 & Hsub); try done.
  assert (Forall (rule_ok thread_inv) rules1) as Hr1 by by eapply sublist_Forall.
  destruct o1 as [r|e]; [|by intros [= <- <- <-]].
  destruct (_ || _); [by intros [= <- <- <-]|]. destruct (pass_time dev base w1) as [w2 o2] eqn:E2.
  assert (steps thread_inv (K := K) (pass_time dev base)) as Hp
    by (apply inv_steps; intros T HT; eapply pass_time_steps; (done || by apply (part_len Sf))).
  destruct (Hp _ _ _ Hw1 E2) as [Hw2 Hev2].
  destruct o2; intros [= <- <- <-]; (split; [done|]; split; [by etrans|done]).
Qed.
End Causal.

(** ** Two sockets and a network of datagrams *)

(** A thread between two iterations of its loop. *)
Record Thread (K A : Type) := mkThread {
  world : World K (Sponge A);
  rules : list (Rule K (Sponge A));
  base_time : Z
}.
Arguments mkThread {K A}.
Arguments world {K A}.
Arguments rules {K A}.
Arguments base_time {K A}.

Section OneThread.
Context {K : Type} {HK : Kernel K} {HO : Observe K} {HSK : SocketKernel K}.
Context {A : Type} {HFA : FdAdapter A (list byte) BufferList}.
Context (td dev : FileDescriptor) (tdn devn : Z).

(** One iteration of the loop of a thread, whether it goes on or not. *)
Definition iterate (t : Thread K A) : Thread K A :=
  match tcp_iteration dev (base_time t) (rules t) (world t) with
  | (w, rs, Ok (Some b)) => mkThread w rs b
  | (w, rs, _) => mkThread w rs (base_time t)
  end.

(** What other code may do to the thread's world: it leaves the thread's
    descriptors, its end of the pair and its connection alone; datagrams that
    were [sent] may arrive, in any order and any number of times, and none are
    made up. *)
Record undisturbed (sent : list (list byte)) (w w' : World K (Sponge A)) : Prop := {
  un_fd : fd_num w' td = fd_num w td /\ fd_num w' dev = fd_num w dev;
  un_flags : FileDescriptor.eof w' td = FileDescriptor.eof w td /\ FileDescriptor.closed w' td = FileDescriptor.closed w td;
  un_reads : reads (kernel w') tdn = reads (kernel w) tdn;
  un_writes : writes (kernel w') tdn = writes (kernel w) tdn /\ writes (kernel w') devn = writes (kernel w) devn;
  un_stream : stream_of (kernel w') tdn = stream_of (kernel w) tdn;
  un_net : forall d, network (kernel w') devn d -> network (kernel w) devn d \/ d ∈ sent;
  un_tcp : _tcp (app w') = _tcp (app w);
  un_shutdown : _outbound_shutdown (app w') = _outbound_shutdown (app w);
  un_adapter : _datagram_adapter (app w') = _datagram_adapter (app w)
}.

(** What happens outside the thread: its owner may ask it to abort, and the
    network may lose datagrams and bring, in any order and any number of
    times, datagrams that the peer has [sent]; it makes none up. *)
Definition outside (sent : list (list byte)) (t t' : Thread K A) : Prop :=
  exists k abort, t' = mkThread
    (mkWorld k (wrappers (world t))
       (mkSponge (_datagram_adapter (app (world t))) (_tcp (app (world t))) abort
          (_inbound_shutdown (app (world t))) (_outbound_shutdown (app (world t))) (_fully_acked (app (world t)))))
    (rules t) (base_time t) /\
  (forall f, reads k f = reads (kernel (world t)) f) /\ (forall f, writes k f = writes (kernel (world t)) f) /\
  (forall f, stream_of k f = stream_of (kernel (world t)) f) /\
  (forall d, network k devn d -> network (kernel (world t)) devn d \/ d ∈ sent).

Lemma outside_undisturbed sent t t' :
  outside sent t t' -> undisturbed sent (world t) (world t') /\ rules t' = rules t.
Proof. intros (k & abort & -> & Hr & Hw & Hs & Hn). split; [by split|done]. Qed.

(** A configuration and a stream for which delivery is proved. *)
Record supported (S : list byte) (cfg : TCPConfig) (i : WrappingInt32) : Prop := {
  sup_len : Zlen S < 2 ^ 31 - 2;
  sup_isn : fixed_isn cfg = Some i;
  sup_valid : valid i;
  sup_send : 0 <= send_capacity cfg < 2 ^ 32;
  sup_recv : 0 <= recv_capacity cfg < 2 ^ 32
}.

(** A socket that has just been constructed, whose owner will write [S]. *)
Record fresh_socket (S : list byte) (w : World K (Sponge A)) : Prop := {
  fs_td : fd_num w td = tdn;
  fs_dev : fd_num w dev = devn;
  fs_flags : FileDescriptor.eof w td = false /\ FileDescriptor.closed w td = false /\ _outbound_shutdown (app w) = false;
  fs_stream : stream_of (kernel w) tdn = S;
  fs_reads : reads (kernel w) tdn = [];
  fs_writes : writes (kernel w) tdn = [] /\ writes (kernel w) devn = [];
  fs_net : forall d, ~ network (kernel w) devn d
}.

Definition config_valid (c : FdAdapterConfig) : Prop := address_valid (source c) /\ address_valid (destination c).

Section Start.
Context {HL : KernelLaws K} {HA : OverTun A}.
Context (Sf S S' : list byte) (cfg : TCPConfig) (i i' : WrappingInt32).
Context (Hsup : supported Sf cfg i) (Hpart : S `prefix_of` Sf) (Hsup' : Zlen S' < 2 ^ 31 - 2) (Hi' : valid i').

Lemma initialized_ok w random a :
  fresh_socket Sf w -> addresses_ok (base a) ->
  sponge_ok S S' cfg i i' td dev tdn devn
    (set_app (set_adapter a) (set_app (set_tcp (Some (TCPConnection.new cfg random))) w)).
Proof.
  intros [H1 H2 (H3 & H4 & H5) H6 H7 [H8 H9] H10] Ha. destruct Hsup as [_ Hi _ _ _].
  split; cbn [set_app set_adapter set_tcp kernel app _tcp _outbound_shutdown _datagram_adapter]; try done.
  - exists (TCPConnection.new cfg random), S. split; [done|]. unfold bytes_in, side_of, bytes_out. rewrite H7, H8.
    split; [done|]. replace (TCPConnection.new cfg random) with (TCPConnection.new cfg 0); [apply init_ok|].
    unfold TCPConnection.new, TCPSender.new. by rewrite Hi.
  - by rewrite H6.
  - intros [He|He]; [change (FileDescriptor.eof w td = true) in He|]; congruence.
  - intros d Hd. by destruct (H10 d).
  - rewrite H9. constructor.
Qed.

Lemma connect_start_ok w random ad w' rs :
  fresh_socket Sf w -> config_valid ad -> connect_start td dev cfg random ad w = (w', Ok rs) ->
  sponge_ok S S' cfg i i' td dev tdn devn w' /\ rs = socket_rules td dev.
Proof.
  intros Hw Had. unfold connect_start. unfold mbind at 1, ste_bind at 1. cbn [gets].
  destruct (bool_decide _); [done|]. unfold _initialize_TCP, mbind, ste_bind. cbn [modify mret ste_ret].
  assert (addresses_ok (base (set_config ad (_datagram_adapter (app w))))) as Ha
    by (unfold set_config; by rewrite over_set_base).
  pose proof (initialized_ok w random _ Hw Ha) as Hok.
  destruct Hsup as [Hlen Hisn _ Hs Hr]. pose proof (part_len Sf S _ Hlen Hpart) as HlenS.
  match goal with |- (let (_, _) := on_tcp _ ?w0 in _) = _ -> _ => change w0 with
    (set_app (set_adapter (set_config ad (_datagram_adapter (app w)))) (set_app (set_tcp (Some (new cfg random))) w));
    destruct (on_tcp TCPConnection.connect
      (set_app (set_adapter (set_config ad (_datagram_adapter (app w)))) (set_app (set_tcp (Some (new cfg random))) w)))
      as [w1 o1] eqn:E end.
  destruct (connect_steps S S' cfg i i' HlenS Hsup' Hisn Hi' Hs Hr td dev tdn devn _ _ _ Hok E) as [Hw1 _].
  destruct o1 as [u|e]; [|done]. unfold tcp. destruct (_tcp (app w1)) as [c|]; [|done].
  destruct (negb (state_eqb _ _)); [done|]. by intros [= <- <-].
Qed.

Lemma listen_start_ok w random ad w' rs :
  fresh_socket Sf w -> config_valid ad -> listen_start td dev cfg random ad w = (w', Ok rs) ->
  sponge_ok S S' cfg i i' td dev tdn devn w' /\ rs = socket_rules td dev.
Proof.
  intros Hw Had. unfold listen_start. unfold mbind at 1, ste_bind at 1. cbn [gets].
  destruct (bool_decide _); [done|]. unfold _initialize_TCP, mbind, ste_bind. cbn [modify mret ste_ret].
  intros [= <- <-]. split; [|done].
  apply (initialized_ok w random (set_listening true (set_config ad (_datagram_adapter (app w)))) Hw).
  unfold set_listening, set_config. by rewrite !over_set_base.
Qed.
End Start.

(** Both succeed on a socket without a connection. *)
Lemma connect_start_eq cfg random ad (w : World K (Sponge A)) :
  _tcp (app w) = None ->
  state_eqb (TCPState.state (TCPConnection.connect (TCPConnection.new cfg random))) (of_state SYN_SENT) = true ->
  connect_start td dev cfg random ad w =
    (fst (connect_start td dev cfg random ad w), Ok (socket_rules td dev)).
Proof.
  intros Ht Hst. unfold connect_start. unfold mbind at 1 6, ste_bind at 1 6. cbn [gets]. rewrite Ht.
  change (bool_decide (is_Some None)) with false. cbn iota. unfold _initialize_TCP, mbind, ste_bind.
  cbn [modify mret ste_ret]. unfold on_tcp, mbind, ste_bind, tcp. cbn [set_app app set_adapter set_tcp _tcp modify].
  by rewrite Hst.
Qed.

Lemma listen_start_eq cfg random ad (w : World K (Sponge A)) :
  _tcp (app w) = None ->
  listen_start td dev cfg random ad w =
    (fst (listen_start td dev cfg random ad w), Ok (socket_rules td dev)).
Proof.
  intros Ht. unfold listen_start, mbind, ste_bind. cbn [gets]. rewrite Ht.
  change (bool_decide (is_Some None)) with false. cbn iota. unfold _initialize_TCP, mbind, ste_bind. done.
Qed.

(** *** The thread keeps to its descriptors *)

Section Confined.
Context {HL : KernelLaws K}.
Abbreviation mine := [td; dev].

Lemma confined_tcp {X} (f : TCPConnection -> ste (World K (Sponge A)) X) :
  (forall c, confined mine (f c)) -> confined mine (c ← tcp; f c).
Proof. intros Hf. apply confined_bind; [|done]. apply confined_pure. intros w. unfold tcp. by destruct (_tcp _). Qed.

Lemma confined_on_tcp f : confined mine (K := K) (U := Sponge A) (on_tcp f).
Proof. apply confined_tcp. intros c. apply confined_app. Qed.

Lemma confined_outputs outs : confined mine (K := K) (U := Sponge A) (write_outputs (O := BufferList) dev outs).
Proof.
  induction outs as [|o outs IH]; cbn [write_outputs]; [apply confined_ret|].
  apply confined_bind; [|done]. apply confined_bind; [|intros; apply confined_ret]. apply confined_write. set_solver.
Qed.

Lemma confined_result {R} (res : A * list BufferList * outcome R) : confined mine (K := K) (adapter_result dev res).
Proof.
  destruct res as [[a outs] o]. apply confined_bind; [apply confined_app|]. intros _.
  apply confined_bind; [apply confined_outputs|]. intros _. apply confined_lift.
Qed.

Lemma confined_rules : Forall (rule_confined mine (K := K) (U := Sponge A)) (socket_rules td dev).
Proof.
  assert (confined mine (K := K) (U := Sponge A) rule2_cancel) as Hcancel
    by (apply confined_bind; [apply confined_on_tcp|intros _; apply confined_app]).
  unfold socket_rules, add_rule, duplicate. cbn [List.app].
  apply Forall_cons_2; [|apply Forall_cons_2; [|apply Forall_cons_2; [|apply Forall_cons_2; [|constructor]]]];
    (split; [|split]); cbn [callback interest cancel]; try apply confined_ret; try done;
    try (apply confined_tcp; intros c; (apply confined_ret || apply confined_gets)).
  - apply confined_bind.
    + apply confined_bind; [apply confined_read; [set_solver|done]|]. intros d.
      apply confined_bind; [apply confined_gets|]. intros a. apply confined_result.
    + intros seg. apply confined_bind; [destruct seg; [apply confined_on_tcp|apply confined_ret]|]. intros _.
      apply confined_tcp. intros c. apply confined_bind; [apply confined_gets|]. intros b. apply confined_when, confined_app.
  - apply confined_tcp. intros c. apply confined_bind; [apply confined_read; [set_solver|apply u64_bound]|]. intros d.
    destruct (TCPConnection.write c d) as [c' n]. apply confined_bind; [apply confined_app|]. intros _.
    destruct (negb _); [apply confined_throw|]. apply confined_bind; [apply confined_gets|]. intros b. by apply confined_when.
  - apply confined_tcp. intros c. apply confined_bind; [apply confined_write; set_solver|]. intros n.
    apply confined_bind; [apply confined_on_tcp|]. intros _. apply confined_tcp. intros c2. apply confined_when.
    apply confined_bind; [apply confined_shutdown; set_solver|]. intros _. apply confined_app.
  - apply confined_tcp. intros c. generalize (length (segments_out c)) as fuel. induction fuel as [|fuel IH];
      cbn [send_queued]; [apply confined_ret|]. apply confined_tcp. intros c2. destruct (segments_out c2); [apply confined_ret|].
    apply confined_bind; [|intros _; apply confined_bind; [apply confined_on_tcp|intros _; exact IH]].
    apply confined_bind; [apply confined_gets|]. intros a. apply confined_bind; [apply confined_result|]. intros g. apply confined_ret.
Qed.

Lemma confined_iteration base rules w w' rules' o :
  Forall (rule_confined mine) rules -> tcp_iteration (A := A) dev base rules w = (w', rules', o) ->
  touches mine w w' /\ Forall (rule_confined mine) rules'.
Proof.
  intros Hr. unfold tcp_iteration. destruct (wait_next_event TCP_TICK_MS rules w) as [[w1 rules1] o1] eqn:E.
  apply (confined_wait [td; dev]) in E as [Ht Hr1]; [|done]. destruct o1 as [r|e]; [|by intros [= <- <- <-]].
  destruct (_ || _); [by intros [= <- <- <-]|]. destruct (pass_time dev base w1) as [w2 o2] eqn:E2.
  assert (confined mine (K := K) (U := Sponge A) (pass_time dev base)) as Hp.
  { apply confined_tcp. intros c. destruct (active c); [|apply confined_ret].
    apply confined_bind; [apply confined_unchanged; intros k k' a; apply clock_law|]. intros t.
    apply confined_bind; [apply confined_on_tcp|]. intros _. apply confined_bind; [|intros _; apply confined_ret].
    apply confined_bind; [apply confined_gets|]. intros a. apply confined_result. }
  apply Hp in E2. destruct o2; intros [= <- <- <-]; (split; [by etrans|done]).
Qed.
End Confined.

(** *** Threads *)

Section Threads.
Context {HL : KernelLaws K} {HA : OverTun A}.
Context (Sf S' : list byte) (cfg : TCPConfig) (i i' : WrappingInt32).
Context (Hsup : supported Sf cfg i) (HS' : Zlen S' < 2 ^ 31 - 2) (Hi' : valid i').
Context (Htd : packets tdn = false) (Hdev : packets devn = true).

Definition thread_ok (t : Thread K A) : Prop :=
  thread_inv Sf S' cfg i i' td dev tdn devn (world t) /\
  Forall (rule_ok (thread_inv Sf S' cfg i i' td dev tdn devn)) (rules t).

Lemma iterate_ok t : thread_ok t -> thread_ok (iterate t) /\ evolves (world t) (world (iterate t)).
Proof.
  destruct Hsup as [Hlen Hisn _ Hs Hrc]. intros [Hw Hrs]. unfold iterate.
  destruct (tcp_iteration dev (base_time t) (rules t) (world t)) as [[w rs] o] eqn:E.
  eapply (tcp_iteration_ok Sf S' cfg i i') in E as (Hw' & Hev & Hrs'); [|eassumption..].
  destruct o as [[b|]|e]; by split.
Qed.

Lemma undisturbed_inv sent w w' :
  Forall (datagram_of S' i') sent -> undisturbed sent w w' -> thread_inv Sf S' cfg i i' td dev tdn devn w ->
  thread_inv Sf S' cfg i i' td dev tdn devn w'.
Proof.
  intros Hsent [[U1 U2] [U3 U4] Hrd [Hw1 Hw2] Hst Hnet U5 U6 U7] [H1 H2 H3].
  assert (bytes_in (kernel w') tdn = bytes_in (kernel w) tdn) as Ein by (unfold bytes_in; by rewrite Hrd).
  split; rewrite ?Hst, ?Ein; try done. unfold between. rewrite Ein. intros T HT.
  destruct (H3 T HT) as [J1 J2 J3 (c & todo & Hc & Htodo & Hside) J5 J6 J7 J8 J9].
  split; rewrite ?U1, ?U2, ?U3, ?U4, ?U5, ?U6, ?U7, ?Hst, ?Hw2, ?Ein; try done.
  - exists c, todo. unfold side_of, bytes_out in *. by rewrite Hw1.
  - intros d Hd. destruct (Hnet d Hd) as [|Hin]; [auto|]. rewrite Forall_forall in Hsent. by apply Hsent.
Qed.

Lemma outside_ok sent t t' :
  Forall (datagram_of S' i') sent -> outside sent t t' -> thread_ok t ->
  thread_ok t' /\ bytes_in (kernel (world t')) tdn = bytes_in (kernel (world t)) tdn.
Proof.
  intros Hsent [Hu Er]%outside_undisturbed [Hw Hrs]. split; [split; [by eapply undisturbed_inv|by rewrite Er]|].
  unfold bytes_in. by rewrite (un_reads _ _ _ Hu).
Qed.

Lemma thread_delivers t : thread_ok t -> bytes_out (kernel (world t)) tdn `prefix_of` S'.
Proof.
  intros [Hw _]. destruct (ti_ok _ _ _ _ _ _ _ _ _ _ Hw Sf) as [_ _ _ (c & todo & _ & _ & Hside) _ _ _ _ _];
    [by eapply between_whole|].
  pose proof (sd_got _ _ _ _ _ _ Hside) as Hg. cbn in Hg. rewrite Hg. eexists. symmetry. apply ztake_zdrop.
Qed.

Lemma start_same w random ad w' rs :
  connect_start td dev cfg random ad w = (w', Ok rs) \/ listen_start td dev cfg random ad w = (w', Ok rs) ->
  kernel w' = kernel w /\ wrappers w' = wrappers w /\ rs = socket_rules td dev.
Proof.
  unfold connect_start, listen_start, _initialize_TCP, on_tcp, tcp, mbind, ste_bind. cbn [gets modify].
  intros [E|E]; destruct (bool_decide _); try done; revert E; cbn; [|by intros [= <- <-]].
  destruct (negb _); [done|]. by intros [= <- <-].
Qed.

Lemma started_ok w random ad w' rs b :
  fresh_socket Sf w -> config_valid ad ->
  connect_start td dev cfg random ad w = (w', Ok rs) \/ listen_start td dev cfg random ad w = (w', Ok rs) ->
  thread_ok (mkThread w' rs b).
Proof.
  intros Hw Had E. pose proof Hsup as [Hlen Hisn _ Hs Hrc].
  assert (forall T, T `prefix_of` Sf -> sponge_ok T S' cfg i i' td dev tdn devn w' /\ rs = socket_rules td dev) as Hok.
  { intros T HT. destruct E as [E|E]; [eapply connect_start_ok in E|eapply listen_start_ok in E]; done. }
  assert (thread_inv Sf S' cfg i i' td dev tdn devn w') as Hinv.
  { assert (kernel w' = kernel w) as Ek by by eapply start_same.
    split; rewrite ?Ek; [apply Hw| |intros T [_ HT]; by apply Hok].
    unfold bytes_in. rewrite (fs_reads _ _ Hw). apply prefix_nil. }
  split; [done|]. cbn [rules]. destruct (Hok Sf (reflexivity _)) as [_ ->]. by apply socket_rules_ok.
Qed.
End Threads.
End OneThread.

(** *** The system *)

Section TwoSockets.
Context {K : Type} {HK : Kernel K} {HO : Observe K} {HL : KernelLaws K} {HSK : SocketKernel K}.
Context {Al Ar : Type} {Hfl : FdAdapter Al (list byte) BufferList} {Hol : OverTun Al}.
Context {Hfr : FdAdapter Ar (list byte) BufferList} {Hor : OverTun Ar}.
Context (td dev : FileDescriptor) (tdn devn : Z).
Context (Htd : packets tdn = false) (Hdev : packets devn = true).
Abbreviation System := (Thread K Al * Thread K Ar)%type.

Definition sent {A} (t : Thread K A) : list (list byte) := writes (kernel (world t)) devn.
Definition from_owner {A} (t : Thread K A) : list byte := bytes_in (kernel (world t)) tdn.
Definition to_owner {A} (t : Thread K A) : list byte := bytes_out (kernel (world t)) tdn.

Inductive net_step : System -> System -> Prop :=
  | step_left l r : net_step (l, r) (iterate dev l, r)
  | step_right l r : net_step (l, r) (l, iterate dev r)
  | outside_left l r l' : outside devn (sent r) l l' -> net_step (l, r) (l', r)
  | outside_right l r r' : outside devn (sent l) r r' -> net_step (l, r) (l, r').

Context (Sl Sr : list byte) (cl cr : TCPConfig) (il ir : WrappingInt32).
Context (Hl : supported Sl cl il) (Hr : supported Sr cr ir).

(** Each thread keeps its invariant, whatever the other has yet to read: for
    every stream between what the other has read and what it will read. *)
Record system_ok (s : System) : Prop := {
  sys_left_read : from_owner (fst s) `prefix_of` Sl;
  sys_right_read : from_owner (snd s) `prefix_of` Sr;
  sys_left : forall T, from_owner (snd s) `prefix_of` T -> T `prefix_of` Sr ->
    thread_ok td dev tdn devn Sl T cl il ir (fst s);
  sys_right : forall T, from_owner (fst s) `prefix_of` T -> T `prefix_of` Sl ->
    thread_ok td dev tdn devn Sr T cr ir il (snd s)
}.

(** What a thread has sent carries the stream that it has read. *)
Lemma thread_sent {A} `{FdAdapter A (list byte) BufferList} `{!OverTun A} S T S' cfg i i' (t : Thread K A) :
  from_owner t `prefix_of` T -> T `prefix_of` S -> thread_ok td dev tdn devn S S' cfg i i' t ->
  Forall (datagram_of T i) (sent t).
Proof. intros H1 H2 [Hw _]. by apply (so_sent _ _ _ _ _ _ _ _ _ _ (ti_ok _ _ _ _ _ _ _ _ _ _ Hw T (conj H1 H2))). Qed.

Lemma read_further {A} `{FdAdapter A (list byte) BufferList} `{!OverTun A} S S' cfg i i' (t : Thread K A) :
  supported S cfg i -> Zlen S' < 2 ^ 31 - 2 -> valid i' -> thread_ok td dev tdn devn S S' cfg i i' t ->
  from_owner t `prefix_of` from_owner (iterate dev t) /\ from_owner (iterate dev t) `prefix_of` S.
Proof.
  intros Hs HS' Hi' Ht. destruct (iterate_ok td dev tdn devn S S' cfg i i' Hs HS' Hi' Htd t Ht) as [_ Hev].
  destruct Ht as [[H1 H2 _] _]. by eapply evolves_read.
Qed.

Lemma net_step_ok s s' : net_step s s' -> system_ok s -> system_ok s'.
Proof.
  destruct Hl as [HSl _ Vil _ _], Hr as [HSr _ Vir _ _].
  intros Hs [HL1 HR1 HL2 HR2]. destruct Hs as [l r|l r|l r l' Ho|l r r' Ho]; cbn [fst snd] in *.
  - pose proof (HL2 Sr HR1 (reflexivity _)) as Ht. destruct (read_further Sl Sr cl il ir l) as [H1 H2]; try done.
    split; cbn [fst snd]; [done|done| |].
    + intros T HT1 HT2. apply (iterate_ok td dev tdn devn Sl T cl il ir); [done|exact (part_len Sr T _ HSr HT2)|done..|by apply HL2].
    + intros T HT1 HT2. apply HR2; [by etrans|done].
  - pose proof (HR2 Sl HL1 (reflexivity _)) as Ht. destruct (read_further Sr Sl cr ir il r) as [H1 H2]; try done.
    split; cbn [fst snd]; [done|done| |].
    + intros T HT1 HT2. apply HL2; [by etrans|done].
    + intros T HT1 HT2. apply (iterate_ok td dev tdn devn Sr T cr ir il); [done|exact (part_len Sl T _ HSl HT2)|done..|by apply HR2].
  - assert (forall T, from_owner r `prefix_of` T -> T `prefix_of` Sr ->
      thread_ok td dev tdn devn Sl T cl il ir l' /\ from_owner l' = from_owner l) as Hl'.
    { intros T HT1 HT2. eapply (outside_ok td dev tdn devn Sl T cl il ir); [|exact Ho|by apply HL2].
      eapply (thread_sent Sr T Sl cr); [done|done|]. by apply HR2. }
    destruct (Hl' Sr HR1 (reflexivity _)) as [_ E].
    split; cbn [fst snd]; rewrite ?E; [done|done| |done]. intros T HT1 HT2. by apply Hl'.
  - assert (forall T, from_owner l `prefix_of` T -> T `prefix_of` Sl ->
      thread_ok td dev tdn devn Sr T cr ir il r' /\ from_owner r' = from_owner r) as Hr'.
    { intros T HT1 HT2. eapply (outside_ok td dev tdn devn Sr T cr ir il); [|exact Ho|by apply HR2].
      eapply (thread_sent Sl T Sr cl); [done|done|]. by apply HL2. }
    destruct (Hr' Sl HL1 (reflexivity _)) as [_ E].
    split; cbn [fst snd]; rewrite ?E; [done|done|done|]. intros T HT1 HT2. by apply Hr'.
Qed.

Lemma fresh_reads {A} S (w : World K (Sponge A)) : fresh_socket td dev tdn devn S w -> bytes_in (kernel w) tdn = [].
Proof. intros Hw. unfold bytes_in. by rewrite (fs_reads _ _ _ _ _ _ Hw). Qed.

(** How a thread comes to its loop, on a socket whose owner will write [S]. *)
Definition begun {A} `{FdAdapter A (list byte) BufferList} (S : list byte) (cfg : TCPConfig) (t : Thread K A) : Prop :=
  exists w random ad rs, fresh_socket td dev tdn devn S w /\ config_valid ad /\ rs = rules t /\
    (connect_start td dev cfg random ad w = (world t, Ok rs) \/ listen_start td dev cfg random ad w = (world t, Ok rs)).

Lemma begun_ok {A} `{FdAdapter A (list byte) BufferList} `{!OverTun A} S S' cfg i i' (t : Thread K A) :
  supported S cfg i -> Zlen S' < 2 ^ 31 - 2 -> valid i' -> begun S cfg t ->
  thread_ok td dev tdn devn S S' cfg i i' t /\ from_owner t = [].
Proof.
  intros Hs HS' Hi' (w & random & ad & rs & Hw & Had & -> & E). destruct t as [w' rs b]. cbn [world rules] in *. split.
  - by eapply (started_ok td dev tdn devn S S' cfg i i').
  - unfold from_owner. cbn [world]. apply start_same in E as [-> _]. by eapply fresh_reads.
Qed.

Lemma system_delivers l0 r0 l r :
  begun Sl cl l0 -> begun Sr cr r0 -> rtc net_step (l0, r0) (l, r) ->
  to_owner r `prefix_of` from_owner l /\ to_owner l `prefix_of` from_owner r /\
  from_owner l `prefix_of` Sl /\ from_owner r `prefix_of` Sr.
Proof.
  intros Hl0 Hr0 Hrun. pose proof Hl as [HSl _ Vil _ _]. pose proof Hr as [HSr _ Vir _ _].
  assert (system_ok (l0, r0)) as H0.
  { destruct (begun_ok Sl Sr cl il ir l0) as [_ El]; try done. destruct (begun_ok Sr Sl cr ir il r0) as [_ Er]; try done.
    split; cbn [fst snd]; rewrite ?El, ?Er; try apply prefix_nil; intros T _ HT.
    - by apply begun_ok; [|exact (part_len Sr T _ HSr HT)|..].
    - by apply begun_ok; [|exact (part_len Sl T _ HSl HT)|..]. }
  assert (system_ok (l, r)) as [H1 H2 H3 H4].
  { revert H0. induction Hrun as [|s1 s2 s3 Hs _ IH]; [done|]. intros Hs1. apply IH. by eapply net_step_ok. }
  cbn [fst snd] in *. split_and!; [| |done|done].
  - by eapply (thread_delivers td dev tdn devn Sr _ cr ir il), H4.
  - by eapply (thread_delivers td dev tdn devn Sl _ cl il ir), H3.
Qed.

(** C2. Reliable delivery by the whole program, from the bytes one owner writes
    to its socket to the bytes the other owner reads.  Two sockets over TUN
    devices, with the adapter as it is or with random loss, have begun to
    connect or to listen; their threads run their event loops, each over a
    kernel that keeps its promises but is otherwise free (readiness, partial
    reads and writes, errors, the clock), and the devices are joined by a
    network of datagrams that loses, duplicates and reorders them; each owner
    may abort its thread.  After any number of steps in any order, what each
    thread has written to its owner is a prefix of what the other thread has
    read so far from its own, which is a prefix of what that owner writes. *)
Theorem sockets_deliver l0 r0 l r :
  begun Sl cl l0 -> begun Sr cr r0 -> rtc net_step (l0, r0) (l, r) ->
  to_owner r `prefix_of` from_owner l /\ to_owner l `prefix_of` from_owner r /\
  from_owner l `prefix_of` Sl /\ from_owner r `prefix_of` Sr.
Proof. apply system_delivers. Qed.
End TwoSockets.

(** ** A run *)

Module Examples.
Definition td : FileDescriptor := 0%nat.
Definition dev : FileDescriptor := 1%nat.

(** A machine whose owner writes [d], with a TUN device. *)
Definition machine (d : list byte) : World SimKernel (Sponge FdAdapterBase) :=
  mkWorld (mkSimKernel (<[10 := mkSimfile [d] [] [] 3 0]> {[ 100 := mkSimfile [] [] [] 0 0 ]}) 0)
    (<[td := mkFDWrapper 10 false false 0 0]> {[ dev := mkFDWrapper 100 false false 0 0 ]})
    (mkSponge (mkFdAdapterBase FdAdapter.default_config false) None false false false false).

(** The network brings everything the peer has ever written. *)
Definition deliver (peer t : Thread SimKernel FdAdapterBase) : Thread SimKernel FdAdapterBase :=
  let w := world t in
  let k := kernel w in
  let x := file k 100 in
  let ds := writes (kernel (world peer)) 100 in
  mkThread (mkWorld (set_file k 100 (mkSimfile (incoming x ++ ds) (past_reads x) (past_writes x) (quota x) (flags x)))
              (wrappers w) (app w)) (rules t) (base_time t).

Inductive act : Type := LeftRuns | RightRuns | ToLeft | ToRight.
Definition play (s : Thread SimKernel FdAdapterBase * Thread SimKernel FdAdapterBase) (a : act) : Thread SimKernel FdAdapterBase * Thread SimKernel FdAdapterBase :=
  let '(l, r) := s in
  match a with
  | LeftRuns => (iterate dev l, r)
  | RightRuns => (l, iterate dev r)
  | ToLeft => (deliver r l, r)
  | ToRight => (l, deliver l r)
  end.

Definition stream : list byte := [x61; x62; x63; x64; x65].
Definition reply : list byte := [x79; x7a].
Definition cfg (n : Z) : TCPConfig := mkTCPConfig 1000 20 20 (Some (mkWrappingInt32 n)).
Definition client_config : FdAdapterConfig := mkFdAdapterConfig (mkAddress 167772161 4000) (mkAddress 167772162 80) 0 0.
Definition server_config : FdAdapterConfig := mkFdAdapterConfig (mkAddress 0 80) (mkAddress 0 0) 0 0.

Definition client_start := connect_start td dev (cfg 4294967290) 0 client_config (machine stream).
Definition server_start := listen_start td dev (cfg 17) 0 server_config (machine reply).
Definition start : Thread SimKernel FdAdapterBase * Thread SimKernel FdAdapterBase :=
  (mkThread (fst client_start) (socket_rules td dev) 0, mkThread (fst server_start) (socket_rules td dev) 0).

Definition schedule : list act :=
  [LeftRuns; ToRight; RightRuns; RightRuns; ToLeft; LeftRuns; LeftRuns; ToRight;
   RightRuns; RightRuns; RightRuns; RightRuns].
Definition final : Thread SimKernel FdAdapterBase * Thread SimKernel FdAdapterBase := fold_left play schedule start.
End Examples.

Lemma sim_deliver_outside (peer t : Thread SimKernel FdAdapterBase) : outside 100 (sent 100 peer) t (Examples.deliver peer t).
Proof.
  exists (kernel (world (Examples.deliver peer t))), (_abort (app (world t))).
  split; [by destruct t as [[k ws []] rs b]|]. unfold Examples.deliver. cbn [world kernel].
  split; [|split; [|split]]; cbn [reads writes stream_of sim_observe].
  - intros f. rewrite file_set. by case_decide; subst.
  - intros f. rewrite file_set. by case_decide; subst.
  - intros f. rewrite file_set. case_decide; [by subst|done].
  - intros d [_ Hin]. rewrite file_set, decide_True in Hin by done. cbn [incoming] in Hin.
    apply elem_of_app in Hin as [?|?]; [left; by split|by right].
Qed.

Lemma play_steps acts s : rtc (net_step Examples.dev 100) s (fold_left Examples.play acts s).
Proof.
  revert s. induction acts as [|a acts IH]; intros [l r]; [done|]. cbn [fold_left].
  eapply rtc_l; [|apply IH]. destruct a; cbn [Examples.play].
  - apply step_left.
  - apply step_right.
  - apply outside_left, sim_deliver_outside.
  - apply outside_right, sim_deliver_outside.
Qed.

Lemma client_starts :
  connect_start Examples.td Examples.dev (Examples.cfg 4294967290) 0 Examples.client_config
    (Examples.machine Examples.stream) = (fst Examples.client_start, Ok (socket_rules Examples.td Examples.dev)).
Proof. unfold Examples.client_start. apply connect_start_eq; [reflexivity | vm_compute; reflexivity]. Qed.

Lemma server_starts :
  listen_start Examples.td Examples.dev (Examples.cfg 17) 0 Examples.server_config
    (Examples.machine Examples.reply) = (fst Examples.server_start, Ok (socket_rules Examples.td Examples.dev)).
Proof. unfold Examples.server_start. apply listen_start_eq. reflexivity. Qed.

(** The client's five bytes reach the other owner. *)
Lemma fresh_machine d : fresh_socket Examples.td Examples.dev 10 100 d (Examples.machine d).
Proof.
  split; try (vm_compute; repeat split; reflexivity).
  - exact (app_nil_r d).
  - intros x [_ Hd]. vm_compute in Hd. by apply elem_of_nil in Hd.
Qed.

Lemma sockets_deliver_witness :
  to_owner 10 (snd Examples.final) = Examples.stream /\
  to_owner 10 (snd Examples.final) `prefix_of` from_owner 10 (fst Examples.final) /\
  to_owner 10 (fst Examples.final) `prefix_of` from_owner 10 (snd Examples.final).
Proof.
  split; [vm_compute; reflexivity|].
  destruct (sockets_deliver (HO := sim_observe) (Al := FdAdapterBase) (Ar := FdAdapterBase) Examples.td Examples.dev 10 100
    eq_refl eq_refl Examples.stream Examples.reply
    (Examples.cfg 4294967290) (Examples.cfg 17) (mkWrappingInt32 4294967290) (mkWrappingInt32 17)) with
    (l0 := fst Examples.start) (r0 := snd Examples.start) (l := fst Examples.final) (r := snd Examples.final)
    as (H1 & H2 & _).
  - split; (reflexivity || (split; (discriminate || reflexivity))).
  - split; (reflexivity || (split; (discriminate || reflexivity))).
  - exists (Examples.machine Examples.stream), 0, Examples.client_config, (socket_rules Examples.td Examples.dev).
    split; [apply fresh_machine|]. split; [split; split; vm_compute; split; (reflexivity || discriminate)|].
    split; [reflexivity|]. left. exact client_starts.
  - exists (Examples.machine Examples.reply), 0, Examples.server_config, (socket_rules Examples.td Examples.dev).
    split; [apply fresh_machine|]. split; [split; split; vm_compute; split; (reflexivity || discriminate)|].
    split; [reflexivity|]. right. exact server_starts.
  - rewrite <- surjective_pairing. exact (play_steps Examples.schedule Examples.start).
  - split; [exact H1|exact H2].
Defined.
