(* ===== verification/Simulator.v ===== *)
(** * The network simulator

    Models [src/apps/network_simulator.cc]: hosts with one interface each, a
    router with seven, the wires between them, and the scenario that sends
    datagrams and checks where they arrive.  The random generator is a stream
    of numbers, of which a network has used the first [_drawn]; the messages
    to the terminal are not modelled. *)
From stdpp Require Import base tactics list numbers option gmap strings pretty.
From Stdlib Require Import ZArith Lia.
From Stdlib Require String.
From S2P Require Import NetworkInterface Prelude Buffer Address Ethernet IPv4Header IPv4Datagram Router.

#[local] Open Scope string_scope.

(** A dotted quad, and [ip] of one. *)
Definition quad (a b c d : Z) : Address := mkAddress (((a * 256 + b) * 256 + c) * 256 + d) 0.
Definition ip (a b c d : Z) : Z := ipv4_numeric (quad a b c d).

(** *** Hosts *)

Record Host := mkHost {
  _name : string;
  _my_address : Address;
  _interface : AsyncNetworkInterface;
  _next_hop : Address;
  _expecting_to_receive : list IPv4Datagram
}.

Definition set_interface (i : AsyncNetworkInterface) (h : Host) : Host :=
  mkHost (_name h) (_my_address h) i (_next_hop h) (_expecting_to_receive h).
Definition set_expecting (l : list IPv4Datagram) (h : Host) : Host :=
  mkHost (_name h) (_my_address h) (_interface h) (_next_hop h) l.

(** [x.serialize().concatenate() == y.serialize().concatenate()]. *)
Definition same_bytes (x y : IPv4Datagram) : outcome bool :=
  bx ← IPv4Datagram.serialize x;
  bY ← IPv4Datagram.serialize y;
  Ok (bool_decide (concatenate bx = concatenate bY)).

Fixpoint expecting_in (l : list IPv4Datagram) (expected : IPv4Datagram) : outcome bool :=
  match l with
  | [] => Ok false
  | x :: l' => b ← same_bytes x expected; if (b : bool) then Ok true else expecting_in l' expected
  end.
Definition expecting (h : Host) (expected : IPv4Datagram) : outcome bool :=
  expecting_in (_expecting_to_receive h) expected.

Fixpoint remove_first (l : list IPv4Datagram) (expected : IPv4Datagram) : outcome (list IPv4Datagram) :=
  match l with
  | [] => Ok []
  | x :: l' =>
      b ← same_bytes x expected;
      if (b : bool) then Ok l' else l'' ← remove_first l' expected; Ok (x :: l'')
  end.
Definition remove_expectation (h : Host) (expected : IPv4Datagram) : outcome Host :=
  l ← remove_first (_expecting_to_receive h) expected;
  Ok (set_expecting l h).

Definition expect (expected : IPv4Datagram) (h : Host) : Host :=
  set_expecting (_expecting_to_receive h ++ [expected]) h.

Definition pop_datagram (h : Host) : Host :=
  set_interface (mkAsync (base_interface (_interface h)) (tail (_datagrams_out (_interface h)))) h.

(** The [while] loop of [check]; its fuel is the length of the queue. *)
Fixpoint check_loop (fuel : nat) (h : Host) : Host * outcome unit :=
  match fuel, _datagrams_out (_interface h) with
  | Datatypes.S fuel', dgram_received :: _ =>
      match expecting h dgram_received with
      | Throw e => (h, Throw e)
      | Ok false => (h, Throw RuntimeError)
      | Ok true =>
          match remove_expectation h dgram_received with
          | Throw e => (h, Throw e)
          | Ok h => check_loop fuel' (pop_datagram h)
          end
      end
  | _, _ => (h, Ok tt)
  end.
Definition check (h : Host) : Host * outcome unit :=
  match check_loop (length (_datagrams_out (_interface h))) h with
  | (h, Throw e) => (h, Throw e)
  | (h, Ok _) =>
      match _expecting_to_receive h with
      | [] => (h, Ok tt)
      | _ => (h, Throw RuntimeError)
      end
  end.

(** The datagram of [send_to], with the decimal form of a random number. *)
Definition to_bytes (s : string) : list byte := String.list_byte_of_string s.
Definition random_payload (r : Z) : list byte :=
  to_bytes "random payload: {" ++ to_bytes (pretty (Z.to_N r)) ++ to_bytes "}".
Definition new_datagram (src dst ttl r : Z) : IPv4Datagram :=
  let payload := bl_of_string (random_payload r) in
  let h := set_addrs IPv4Header.default_header src dst in
  let h := set_len h (u16 (hlen h * 4 + bl_size payload)) in
  mkIPv4Datagram (set_ttl h ttl) payload.

(** *** The wires *)

(** [deliver]: every frame, its payload made contiguous, to one interface. *)
Fixpoint deliver (frames : list EthernetFrame) : ste AsyncNetworkInterface unit :=
  match frames with
  | [] => mret tt
  | f :: frames' =>
      _ ← async_recv_frame (mkEthernetFrame (Ethernet._header f) (bl_of_string (concatenate (Ethernet._payload f))));
      deliver frames'
  end.

Definition frames_out (x : AsyncNetworkInterface) : list EthernetFrame :=
  NetworkInterface._frames_out (base_interface x).

(** [clear]: as many pops as there are frames in the copy. *)
Fixpoint clear (copy : list EthernetFrame) (x : AsyncNetworkInterface) : AsyncNetworkInterface :=
  match copy with
  | [] => x
  | _ :: copy' => clear copy' (mkAsync (NetworkInterface.pop_frame (base_interface x)) (_datagrams_out x))
  end.

(** [exchange_frames] between two interfaces, and between three. *)
Definition exchange_frames (x y : AsyncNetworkInterface)
    : (AsyncNetworkInterface * AsyncNetworkInterface) * outcome unit :=
  let x_frames := frames_out x in
  let y_frames := frames_out y in
  match deliver x_frames y with
  | (y, Throw e) => ((x, y), Throw e)
  | (y, Ok _) =>
      match deliver y_frames x with
      | (x, Throw e) => ((x, y), Throw e)
      | (x, Ok _) => ((clear x_frames x, clear y_frames y), Ok tt)
      end
  end.

(** The six deliveries, as a program over the three interfaces. *)
Definition Three : Type := AsyncNetworkInterface * AsyncNetworkInterface * AsyncNetworkInterface.
Definition on_x (m : ste AsyncNetworkInterface unit) : ste Three unit := fun '(x, y, z) =>
  let '(x, o) := m x in ((x, y, z), o).
Definition on_y (m : ste AsyncNetworkInterface unit) : ste Three unit := fun '(x, y, z) =>
  let '(y, o) := m y in ((x, y, z), o).
Definition on_z (m : ste AsyncNetworkInterface unit) : ste Three unit := fun '(x, y, z) =>
  let '(z, o) := m z in ((x, y, z), o).
Definition clear_three (xf yf zf : list EthernetFrame) : ste Three unit := fun '(x, y, z) =>
  ((clear xf x, clear yf y, clear zf z), Ok tt).
Definition exchange_program (xf yf zf : list EthernetFrame) : ste Three unit :=
  _ ← on_y (deliver xf); _ ← on_z (deliver xf);
  _ ← on_x (deliver yf); _ ← on_z (deliver yf);
  _ ← on_x (deliver zf); _ ← on_y (deliver zf);
  clear_three xf yf zf.
Definition exchange_frames3 : ste Three unit := fun '(x, y, z) =>
  exchange_program (frames_out x) (frames_out y) (frames_out z) (x, y, z).

(** *** The network *)

Record Network := mkNetwork {
  _router : Router;
  _hosts : gmap string Host;
  _drawn : nat
}.
Definition set_router (r : Router) (n : Network) : Network := mkNetwork r (_hosts n) (_drawn n).
Definition set_host (name : string) (h : Host) (n : Network) : Network :=
  mkNetwork (_router n) (<[name := h]> (_hosts n)) (_drawn n).

(** The members [default_id] to [mit5_id]. *)
Definition default_id : nat := 0.
Definition eth0_id : nat := 1.
Definition eth1_id : nat := 2.
Definition eth2_id : nat := 3.
Definition uun3_id : nat := 4.
Definition hs4_id : nat := 5.
Definition mit5_id : nat := 6.

(** [host(name)]. *)
Definition host (name : string) : ste Network Host := fun n =>
  match _hosts n !! name with
  | None => (n, Throw RuntimeError)
  | Some h => if bool_decide (_name h = name) then (n, Ok h) else (n, Throw RuntimeError)
  end.
(** [_router.interface(num)]. *)
Definition interface (num : nat) : ste Network AsyncNetworkInterface := fun n =>
  match _interfaces (_router n) !! num with
  | None => (n, Throw OutOfRange)
  | Some a => (n, Ok a)
  end.
Definition store_interface (num : nat) (a : AsyncNetworkInterface) (n : Network) : Network :=
  set_router (mkRouter (<[num := a]> (_interfaces (_router n))) (_routing_table (_router n))) n.
Definition store_host_interface (name : string) (a : AsyncNetworkInterface) (n : Network) : Network :=
  mkNetwork (_router n) (alter (set_interface a) name (_hosts n)) (_drawn n).

Definition routed : ste Network unit := fun n =>
  let '(r, o) := route (_router n) in (set_router r n, o).

(** A wire between an interface of the router and a host, and one with two hosts. *)
Definition connect (num : nat) (name : string) : ste Network unit :=
  x ← interface num;
  h ← host name;
  let '((x, y), o) := exchange_frames x (_interface h) in
  _ ← modify (store_interface num x);
  _ ← modify (store_host_interface name y);
  lift o.
Definition connect2 (num : nat) (name1 name2 : string) : ste Network unit :=
  x ← interface num;
  h1 ← host name1;
  h2 ← host name2;
  let '((x, y, z), o) := exchange_frames3 (x, _interface h1, _interface h2) in
  _ ← modify (store_interface num x);
  _ ← modify (store_host_interface name1 y);
  _ ← modify (store_host_interface name2 z);
  lift o.

Definition simulate_physical_connections : ste Network unit :=
  _ ← connect default_id "default_router";
  _ ← connect eth0_id "applesauce";
  _ ← connect eth2_id "cherrypie";
  _ ← connect hs4_id "hs_router";
  connect2 uun3_id "dm42" "dm43".

Fixpoint rounds (k : nat) : ste Network unit :=
  match k with
  | O => mret tt
  | Datatypes.S k' => _ ← routed; _ ← simulate_physical_connections; rounds k'
  end.

(** The loop over the hosts; the order of an [unordered_map] does not matter
    to which of them pass. *)
Fixpoint check_hosts (names : list string) : ste Network unit :=
  match names with
  | [] => mret tt
  | name :: names' =>
      h ← host name;
      let '(h', o) := check h in
      _ ← modify (set_host name h');
      _ ← lift o;
      check_hosts names'
  end.
Definition simulate : ste Network unit :=
  _ ← rounds 256;
  names ← gets (fun n => (map_to_list (_hosts n)).*1);
  check_hosts names.

Section Scenario.
(** The outputs of the random generator. *)
Context (rd : nat -> Z).

Definition draw : ste Network Z := fun n =>
  (mkNetwork (_router n) (_hosts n) (Datatypes.S (_drawn n)), Ok (rd (_drawn n))).

(** [random_host_ethernet_address] and [random_router_ethernet_address], from the [k]-th number on. *)
Definition random_bytes (k : nat) : list Z := map (fun j => u8 (rd (k + j)%nat)) (seq 0 6).
Definition random_host_ethernet_address (k : nat) : EthernetAddress :=
  match random_bytes k with
  | b :: rest => Z.land (Z.lor b 2) 254 :: rest
  | [] => []
  end.
Definition random_router_ethernet_address (k : nat) : EthernetAddress :=
  match random_bytes k with
  | _ :: _ :: _ :: rest => 2 :: 0 :: 0 :: rest
  | l => l
  end.

(** [Host(name, my_address, next_hop)] and the interfaces of the router. *)
Definition new_host (k : nat) (name : string) (my_address next_hop : Address) : Host :=
  mkHost name my_address (mkAsync (NetworkInterface.new (random_host_ethernet_address k) my_address) [])
    next_hop [].
Definition router_interface (k : nat) (address : Address) : AsyncNetworkInterface :=
  mkAsync (NetworkInterface.new (random_router_ethernet_address k) address) [].

(** The constructor of [Network]: seven interfaces, six hosts, nine routes,
    in that order, six random numbers for each interface. *)
Definition new_router : Router :=
  let r := Router.new in
  let '(r, _) := add_interface (router_interface 0 (quad 171 67 76 46)) r in
  let '(r, _) := add_interface (router_interface 6 (quad 10 0 0 1)) r in
  let '(r, _) := add_interface (router_interface 12 (quad 172 16 0 1)) r in
  let '(r, _) := add_interface (router_interface 18 (quad 192 168 0 1)) r in
  let '(r, _) := add_interface (router_interface 24 (quad 198 178 229 1)) r in
  let '(r, _) := add_interface (router_interface 30 (quad 143 195 0 2)) r in
  let '(r, _) := add_interface (router_interface 36 (quad 128 30 76 255)) r in
  let r := add_route (ip 0 0 0 0) 0 (Some (quad 171 67 76 1)) default_id r in
  let r := add_route (ip 10 0 0 0) 8 None eth0_id r in
  let r := add_route (ip 172 16 0 0) 16 None eth1_id r in
  let r := add_route (ip 192 168 0 0) 24 None eth2_id r in
  let r := add_route (ip 198 178 229 0) 24 None uun3_id r in
  let r := add_route (ip 143 195 0 0) 17 (Some (quad 143 195 0 1)) hs4_id r in
  let r := add_route (ip 143 195 128 0) 18 (Some (quad 143 195 0 1)) hs4_id r in
  let r := add_route (ip 143 195 192 0) 19 (Some (quad 143 195 0 1)) hs4_id r in
  add_route (ip 128 30 76 255) 16 (Some (quad 128 30 0 1)) mit5_id r.
Definition new_hosts : gmap string Host :=
  <["dm43" := new_host 72 "dm43" (quad 198 178 229 43) (quad 198 178 229 1)]>
  (<["dm42" := new_host 66 "dm42" (quad 198 178 229 42) (quad 198 178 229 1)]>
  (<["hs_router" := new_host 60 "hs_router" (quad 143 195 0 1) (quad 0 0 0 0)]>
  (<["cherrypie" := new_host 54 "cherrypie" (quad 192 168 0 2) (quad 192 168 0 1)]>
  (<["default_router" := new_host 48 "default_router" (quad 171 67 76 1) (quad 0 0 0 0)]>
  (<["applesauce" := new_host 42 "applesauce" (quad 10 0 0 2) (quad 10 0 0 1)]> ∅))))).
Definition new_network : Network := mkNetwork new_router new_hosts 78.

(** [host(name).send_to(destination, ttl)]; what the interface did stays when it throws. *)
Definition send_to (name : string) (destination : Address) (ttl : Z) : ste Network IPv4Datagram :=
  h ← host name;
  r ← draw;
  let dgram := new_datagram (ipv4_numeric (_my_address h)) (ipv4_numeric destination) ttl r in
  let '(ni, o) := NetworkInterface.send_datagram dgram (_next_hop h) (base_interface (_interface h)) in
  _ ← modify (store_host_interface name (mkAsync ni (_datagrams_out (_interface h))));
  _ ← lift o;
  mret dgram.

Definition address_of (name : string) : ste Network Address := h ← host name; mret (_my_address h).

(** A datagram sent, expected with its time to live decremented, and the simulation. *)
Definition send_and_expect (from : string) (destination : Address) (receiver : string) : ste Network unit :=
  dgram_sent ← send_to from destination 64;
  h ← host receiver;
  _ ← modify (set_host receiver (expect (decrement_ttl dgram_sent) h));
  simulate.

Definition between (from to : string) : ste Network unit :=
  a ← address_of to;
  send_and_expect from a to.

(** The scenario of [network_simulator]. *)
Definition scenario : ste Network unit :=
  _ ← between "applesauce" "cherrypie";
  _ ← between "cherrypie" "applesauce";
  _ ← send_and_expect "applesauce" (quad 1 2 3 4) "default_router";
  _ ← send_and_expect "applesauce" (quad 143 195 131 17) "hs_router";
  _ ← send_and_expect "cherrypie" (quad 143 195 193 52) "hs_router";
  _ ← send_and_expect "cherrypie" (quad 143 195 223 255) "hs_router";
  _ ← send_and_expect "cherrypie" (quad 143 195 224 0) "default_router";
  _ ← between "dm42" "dm43";
  _ ← send_to "applesauce" (quad 1 2 3 4) 1;
  _ ← simulate;
  _ ← send_to "applesauce" (quad 1 2 3 4) 0;
  simulate.
Definition network_simulator : Network * outcome unit := scenario new_network.
End Scenario.

(** ** What the check of a host decides *)

(** The bytes of a datagram on the wire, if it can be serialized. *)
Definition wire (d : IPv4Datagram) : option (list byte) :=
  match IPv4Datagram.serialize d with
  | Ok b => Some (concatenate b)
  | Throw _ => None
  end.
Definition has_wire (d : IPv4Datagram) : Prop := is_Some (wire d).

Lemma same_bytes_spec x y : has_wire x -> has_wire y ->
  same_bytes x y = Ok (bool_decide (wire x = wire y)).
Proof.
  unfold has_wire, wire, same_bytes. cbn.
  destruct (IPv4Datagram.serialize x) as [bx|], (IPv4Datagram.serialize y) as [bY|]; cbn;
    intros [? Hx] [? Hy]; try discriminate.
  f_equal. apply bool_decide_ext. split; congruence.
Qed.

Lemma expecting_in_spec l d : Forall has_wire l -> has_wire d ->
  expecting_in l d = Ok (bool_decide (wire d ∈ wire <$> l)).
Proof.
  intros Hl Hd. induction Hl as [|x l Hx Hl IH]; cbn;
    [by rewrite bool_decide_eq_false_2 by apply not_elem_of_nil|].
  rewrite same_bytes_spec by done. destruct (decide (wire x = wire d)) as [E|E].
  - rewrite !bool_decide_eq_true_2; [done| |done]. rewrite E. constructor.
  - rewrite (bool_decide_eq_false_2 _ E). cbn. rewrite IH. f_equal.
    apply bool_decide_ext. rewrite elem_of_cons. intuition congruence.
Qed.

Lemma remove_first_spec l d : Forall has_wire l -> has_wire d -> wire d ∈ wire <$> l ->
  exists l', remove_first l d = Ok l' /\ Forall has_wire l' /\ wire <$> l ≡ₚ wire d :: (wire <$> l').
Proof.
  intros Hl Hd. induction Hl as [|x l Hx Hl IH]; cbn; [by intros ?%elem_of_nil|].
  intros Hin. rewrite same_bytes_spec by done. destruct (decide (wire x = wire d)) as [E|E].
  - rewrite (bool_decide_eq_true_2 _ E). exists l. cbn. by rewrite E.
  - rewrite (bool_decide_eq_false_2 _ E). cbn. apply elem_of_cons in Hin as [?|Hin]; [congruence|].
    destruct (IH Hin) as (l' & -> & Hl' & Hp). exists (x :: l'). cbn.
    repeat split; [by constructor|]. rewrite Hp. by rewrite perm_swap.
Qed.

(** The host with all its queue read and all its expectations met. *)
Definition satisfied (h : Host) : Host :=
  set_expecting [] (set_interface (mkAsync (base_interface (_interface h)) []) h).

Lemma check_loop_spec q h :
  _datagrams_out (_interface h) = q ->
  Forall has_wire q -> Forall has_wire (_expecting_to_receive h) ->
  (exists rest, wire <$> _expecting_to_receive h ≡ₚ (wire <$> q) ++ (wire <$> rest) /\
    check_loop (length q) h =
      (set_expecting rest (set_interface (mkAsync (base_interface (_interface h)) []) h), Ok tt)) \/
  ((forall rest, ~ wire <$> _expecting_to_receive h ≡ₚ (wire <$> q) ++ rest) /\
    exists h', check_loop (length q) h = (h', Throw RuntimeError)).
Proof.
  revert h. induction q as [|d q IH]; intros h Hq Fq Fe.
  { left. exists (_expecting_to_receive h). split; [done|].
    destruct h as [nm a [b dg] nh ex]. cbn in *. by subst. }
  apply Forall_cons in Fq as [Hd Fq]. cbn. rewrite Hq.
  unfold expecting. rewrite expecting_in_spec by done. case_bool_decide as Hin.
  - unfold remove_expectation.
    destruct (remove_first_spec _ _ Fe Hd Hin) as (l & -> & Fl & Hp). cbn.
    destruct (IH (pop_datagram (set_expecting l h))) as [(rest & Hr & E)|[Hr E]];
      [cbn; by rewrite Hq|done|done| |]; cbn in *.
    + left. exists rest. split; [by rewrite Hp, Hr|]. by rewrite E.
    + right. split; [|done]. intros rest. rewrite Hp. intros HP.
      apply Permutation_cons_inv in HP. by eapply Hr.
  - right. split; [|by eexists]. intros rest HP. apply Hin. rewrite HP. constructor.
Qed.

(** [Host::check] accepts exactly the hosts that received what they were
    told to expect: when the datagrams can be serialized, it returns normally
    if and only if the received ones are, as bytes, a permutation of the
    expected ones (each as often as expected), and then leaves the queue and
    the list of expectations empty and the rest of the host as it was; in
    every other case it throws. *)
Theorem check_exact h :
  Forall has_wire (_datagrams_out (_interface h)) -> Forall has_wire (_expecting_to_receive h) ->
  (wire <$> _expecting_to_receive h ≡ₚ wire <$> _datagrams_out (_interface h) /\
     check h = (satisfied h, Ok tt)) \/
  (~ wire <$> _expecting_to_receive h ≡ₚ wire <$> _datagrams_out (_interface h) /\
     (check h).2 = Throw RuntimeError).
Proof.
  intros Fq Fe. unfold check.
  destruct (check_loop_spec _ h eq_refl Fq Fe) as [(rest & HP & ->)|[HN (h' & ->)]].
  - destruct rest as [|r rest]; cbn.
    + left. rewrite app_nil_r in HP. done.
    + right. split; [|done]. intros HQ. rewrite HQ in HP. apply Permutation_length in HP.
      rewrite length_app in HP. cbn in HP. lia.
  - right. split; [|done]. intros HQ. apply (HN []). by rewrite app_nil_r.
Qed.

(** A host that expects two datagrams and received them in the other order. *)
Definition sample_host (received : list IPv4Datagram) : Host :=
  let d1 := new_datagram 1 2 64 7 in
  let d2 := new_datagram 1 2 64 8 in
  set_expecting [d1; d2] (set_interface (mkAsync (base_interface (router_interface (fun _ => 0) 0 (quad 0 0 0 2)))
    received) (new_host (fun _ => 0) 0 "h" (quad 0 0 0 2) (quad 0 0 0 1))).

Ltac has_wires := repeat constructor; eexists; vm_compute; reflexivity.

Lemma check_exact_witness :
  check (sample_host [new_datagram 1 2 64 8; new_datagram 1 2 64 7]) =
    (satisfied (sample_host []), Ok tt) /\
  (check (sample_host [new_datagram 1 2 64 8; new_datagram 1 2 64 8])).2 = Throw RuntimeError.
Proof.
  split.
  - destruct (check_exact (sample_host [new_datagram 1 2 64 8; new_datagram 1 2 64 7]))
      as [[_ E]|[N _]]; [has_wires|has_wires|exact E|].
    exfalso. apply N. apply perm_swap.
  - destruct (check_exact (sample_host [new_datagram 1 2 64 8; new_datagram 1 2 64 8]))
      as [[P _]|[_ E]]; [has_wires|has_wires| |exact E].
    exfalso. assert (wire (new_datagram 1 2 64 7) = wire (new_datagram 1 2 64 8)) as E;
      [|vm_compute in E; discriminate E].
    assert (wire (new_datagram 1 2 64 7) ∈ [wire (new_datagram 1 2 64 8); wire (new_datagram 1 2 64 8)]) as I.
    { change [wire (new_datagram 1 2 64 8); wire (new_datagram 1 2 64 8)] with
        (wire <$> _datagrams_out (_interface (sample_host [new_datagram 1 2 64 8; new_datagram 1 2 64 8]))).
      rewrite <- P. constructor. }
    rewrite !elem_of_cons, elem_of_nil in I. tauto.
Defined.

(** A linear congruential sequence in place of the random device. *)
Definition lcg (n : nat) : Z := (Z.of_nat n * 2654435761 + 12345) mod 2 ^ 32.

(** The whole program run on concrete random numbers: the eight datagrams
    expected somewhere arrive there, through address resolution, routing and
    the wires, and the two with a spent time to live nowhere; when the generator gives every host the same
    Ethernet address, the program reports a failure. *)
Lemma network_simulator_passes :
  (network_simulator lcg).2 = Ok tt /\ (network_simulator (fun _ => 0)).2 = Throw RuntimeError.
Proof. split; vm_compute; reflexivity. Qed.
