(* ===== verification/Lossless.v ===== *)
(** * Two connections that lose nothing

    When two connections hand each other every segment they queue, once and
    in order, each reads the other's stream without holes: what one has queued
    takes the other exactly to the number it will send next, and what the
    other answers takes its acknowledged position exactly there.  The
    invariant of such a pair, and what one hand-over does to it. *)
From stdpp Require Import base tactics list numbers option.
From Stdlib Require Import ZArith Lia.
From S2P Require Import Prelude WrappingIntegers ByteStream StreamReassembler Buffer TCPHeader.
From S2P Require Import TCPSegment SegmentStream TCPReceiver TCPSender TCPConnection EndToEnd BuiltSegments Progress.

(** ** A receiver without holes *)

(** The number a receiver has come to: SYN, the bytes it has assembled, FIN. *)
Definition place (r : TCPReceiver) : Z :=
  if recievedSYN r then 1 + bytes_written (TCPReceiver.stream_out r) + b2i (recievedFIN r) else 0.

Section Receiver.
Context (S : list byte) (i : WrappingInt32).
Context (HS : Zlen S < 2 ^ 31 - 2) (Hi : valid i).

(** The receiver, of capacity [c], has the beginning of [S] and nothing beyond. *)
Record inorder (c : Z) (r : TCPReceiver) (a : Stream) : Prop := {
  io_tracks : tracks S (_reassembler r) a;
  io_whole : _num_unassembled_bytes (_reassembler r) = 0;
  io_isn : recievedSYN r = true -> isn r = i;
  io_none : recievedSYN r = false -> hist a = [] /\ recievedFIN r = false;
  io_fin : ended a = recievedFIN r;
  io_eof : _received_EOF (_reassembler r) = recievedFIN r;
  io_cap : StreamReassembler._capacity (_reassembler r) = c;
  io_sound : failed a = false
}.

Lemma io_settled c r a : inorder c r a -> settled (_reassembler r).
Proof. intros H. apply (st_settled _ _ _ (tr_stores _ _ _ (io_tracks _ _ _ H))). Qed.

Lemma io_error c r a : inorder c r a -> error (TCPReceiver.stream_out r) = false.
Proof.
  intros H. rewrite <- (io_sound _ _ _ H).
  apply (ref_failed _ _ (st_ref _ _ _ (tr_stores _ _ _ (io_tracks _ _ _ H)))).
Qed.

Lemma io_written c r a : inorder c r a -> bytes_written (TCPReceiver.stream_out r) = Zlen (hist a).
Proof.
  intros H. unfold bytes_written, TCPReceiver.stream_out, StreamReassembler.stream_out.
  apply (stores_written S); [lia|apply (io_tracks _ _ _ H)].
Qed.

Lemma io_bound c r a : inorder c r a -> 0 <= popped a <= Zlen (hist a) /\ Zlen (hist a) <= Zlen S.
Proof.
  intros H. pose proof (tr_stores _ _ _ (io_tracks _ _ _ H)) as Hs. split.
  - apply (ref_popped _ _ (st_ref _ _ _ Hs)).
  - apply (stores_hist_le _ _ _ Hs).
Qed.

Lemma io_full c r a : inorder c r a -> recievedFIN r = true -> hist a = S.
Proof. intros H Hf. apply (tr_ended _ _ _ (io_tracks _ _ _ H)). by rewrite (io_fin _ _ _ H). Qed.

Lemma io_place c r a : inorder c r a ->
  place r = if recievedSYN r then 1 + Zlen (hist a) + b2i (recievedFIN r) else 0.
Proof. intros H. unfold place. by rewrite (io_written _ _ _ H). Qed.

Lemma place_bound c r a : inorder c r a -> 0 <= place r <= Zlen S + 2.
Proof.
  intros H. rewrite (io_place _ _ _ H). pose proof (io_bound _ _ _ H).
  destruct (recievedSYN r), (recievedFIN r); cbn [b2i]; lia.
Qed.

Lemma io_window_end c r a : inorder c r a -> window_end (_reassembler r) (Zlen (hist a)) = popped a + c.
Proof.
  intros H. unfold window_end. rewrite (io_cap _ _ _ H).
  rewrite (stream_buffered _ _ (st_ref _ _ _ (tr_stores _ _ _ (io_tracks _ _ _ H)))). lia.
Qed.

Lemma io_ackno c r a : inorder c r a ->
  TCPReceiver.ackno r = if recievedSYN r then Some (wrap (place r) i) else None.
Proof.
  intros H. destruct (recievedSYN r) eqn:E; [|unfold TCPReceiver.ackno; by rewrite E].
  rewrite (ackno_wrap i) by (done || by apply (io_isn _ _ _ H)). unfold place. rewrite E.
  unfold empty. rewrite (io_whole _ _ _ H), andb_true_r. done.
Qed.

Lemma inorder_new c : 0 <= c < 2 ^ 32 -> inorder c (TCPReceiver.new c) (mkStream c [] 0 false false).
Proof. intros Hc. split; try done. by apply tracks_new. Qed.

(** A push in order leaves no hole. *)
Lemma inorder_push c r a d x (f : bool) :
  inorder c r a -> slice S x d -> x + Zlen d < 2 ^ 64 ->
  x <= Zlen (hist a) \/ (d = [] /\ f = false) -> (d <> [] -> x + Zlen d <= popped a + c) ->
  (f = true -> x + Zlen d = Zlen S) ->
  let r' := mkTCPReceiver (push_substring (_reassembler r) d x f) (_capacity r) i true (recievedFIN r || f) in
  exists a', inorder c r' a' /\ popped a' = popped a /\
    Zlen (hist a') = Z.max (Zlen (hist a)) (if decide (d = []) then 0 else x + Zlen d).
Proof.
  intros H Hd Hmax Hx Hroom Hf r'. pose proof (io_settled _ _ _ H) as Hset.
  pose proof (io_bound _ _ _ H) as Hb. pose proof (io_window_end _ _ _ H) as Hwe.
  assert (0 <= x) as Hx0 by apply Hd. pose proof (Zlen_nonneg d) as Hd0.
  destruct (push_tracks S (_reassembler r) a d x f ltac:(lia) (io_tracks _ _ _ H) Hd Hmax)
    as (a' & Ht & [e He] & Hpop & Hsound & Hrec).
  { intros Hff. split; [auto|]. destruct Hx as [Hx|[-> ->]]; [by right|done]. }
  rewrite Hwe in Hrec. set (re := push_substring (_reassembler r) d x f) in *.
  assert (Zlen (hist a) <= Zlen (hist a')) as Hle by (rewrite He, Zlen_app; pose proof (Zlen_nonneg e); lia).
  assert (forall p, Zlen (hist a) <= p -> ~ received (_reassembler r) (Zlen (hist a)) p) as Hnone.
  { intros p Hp [?|[_ Hm]]; [lia|]. revert Hm. apply count_written_zero_inv.
    rewrite <- (io_whole _ _ _ H). symmetry. apply (wf_num (_reassembler r)), Hset. }
  set (t := Z.max (Zlen (hist a)) (if decide (d = []) then 0 else x + Zlen d)).
  assert (forall p, Zlen (hist a) <= p -> received re (Zlen (hist a')) p <-> p < t) as Ht'.
  { intros p Hp. rewrite Hrec. unfold t. destruct (decide (d = [])) as [E|E].
    - rewrite E, (@Zlen_nil byte). split; [|lia]. intros [?%Hnone|?]; [done|done|].
      destruct Hx as [Hx|_]; lia.
    - destruct Hx as [Hx|[? _]]; [|done]. specialize (Hroom E). split.
      + intros [?%Hnone|?]; [done|done|lia].
      + intros ?. right. lia. }
  assert (settled re) as Hset' by apply (st_settled _ _ _ (tr_stores _ _ _ Ht)).
  assert (Zlen (hist a') = t) as El.
  { destruct (Z.lt_trichotomy (Zlen (hist a')) t) as [Hlt|[?|Hgt]]; [|done|].
    - exfalso. apply (Ht' (Zlen (hist a')) Hle) in Hlt. destruct Hlt as [?|[_ Hm]]; [lia|].
      rewrite Z.sub_diag in Hm. by destruct Hset' as [_ []].
    - assert (t - 1 < t) as Hc by lia. assert (Zlen (hist a) <= t) as Hat by (unfold t; lia).
      exfalso. assert (received re (Zlen (hist a')) t) as Hr by (left; pose proof (Zlen_nonneg (hist a)); lia).
      apply (Ht' t Hat) in Hr. lia. }
  assert (_num_unassembled_bytes re = 0) as Hnum.
  { rewrite (wf_num re) by apply Hset'. apply count_written_zero. intros k Hk.
    assert (received re (Zlen (hist a')) (Zlen (hist a') + Z.of_nat k)) as Hr.
    { right. split; [lia|]. by rewrite Z.add_simpl_l, Nat2Z.id. }
    apply Ht' in Hr; lia. }
  assert (_received_EOF re = _received_EOF (_reassembler r) || f) as Heof.
  { unfold re. rewrite push_received_EOF, u64_small by (done || lia). f_equal.
    destruct f; [|done]. cbn [andb]. apply Z.eqb_eq.
    change (bytesWritten (_output (_reassembler r))) with (bytes_written (TCPReceiver.stream_out r)).
    rewrite (io_written _ _ _ H), Hwe. apply Z.min_r. destruct (decide (d = [])) as [E|E]; [|auto].
    destruct Hx as [Hx|[_ ?]]; [|done]. rewrite E, (@Zlen_nil byte). 
    pose proof (ByteStream.wf_end _ (wf_output _ (proj1 Hset))) as Ho.
    rewrite (StreamReassembler.wf_cap _ (proj1 Hset)) in Ho. rewrite <- Hwe. unfold window_end. lia. }
  assert (input_ended (_output re) = ended a') as Ee
    by apply (ref_ended _ _ (st_ref _ _ _ (tr_stores _ _ _ Ht))).
  assert (input_ended (_output (_reassembler r)) = ended a) as Ea
    by apply (ref_ended _ _ (st_ref _ _ _ (tr_stores _ _ _ (io_tracks _ _ _ H)))).
  exists a'. split; [|done]. split; cbn [_reassembler recievedSYN recievedFIN isn]; try done.
  - rewrite (io_eof _ _ _ H) in Heof. destruct (recievedFIN r || f) eqn:Eo.
    + by apply (tr_closed _ _ _ Ht).
    + apply orb_false_iff in Eo as [Er ->]. rewrite <- Ee. unfold re.
      destruct (push_open (_reassembler r) d x Hset Hx0) as [-> _]; [by rewrite (io_eof _ _ _ H)|].
      by rewrite Ea, (io_fin _ _ _ H).
  - change (_received_EOF re = recievedFIN r || f). by rewrite Heof, (io_eof _ _ _ H).
  - change (StreamReassembler._capacity re = c). unfold re. rewrite push_capacity. apply H.
  - rewrite Hsound. apply H.
Qed.

(** The segment carries an excerpt that begins at or before the receiver's
    place and ends within its window: the place moves to its end. *)
Lemma inorder_segment c r a g x n :
  inorder c r a -> conveys S i x g -> x <= place r -> x + seg_len g <= n ->
  n <= 1 + popped a + c \/ recievedFIN r = true ->
  exists a', inorder c (TCPReceiver.segment_received r g) a' /\ popped a' = popped a /\
    place (TCPReceiver.segment_received r g) = Z.max (place r) (x + seg_len g).
Proof.
  intros H Hc Hx Hn Hroom. pose proof (io_settled _ _ _ H) as Hset.
  pose proof (io_bound _ _ _ H) as Hb. pose proof (place_bound _ _ _ H) as Hpb.
  pose proof (cv_pos _ _ _ _ Hc) as Hpos. pose proof (conveys_index _ _ _ _ Hc) as Hix.
  assert (near r x) as Hnear by (unfold near; rewrite (io_written _ _ _ H); lia).
  assert (recievedSYN r || syn (_header g) = true) as Hsyn.
  { unfold place in Hx. destruct (recievedSYN r); [done|]. by destruct (syn (_header g)); [|lia]. }
  rewrite (segment_received_synced S i x) by (done || apply (io_isn _ _ _ H)).
  assert (x <= Zlen S + 2) as Hxs by lia.
  rewrite (io_place _ _ _ H) in Hx. pose proof (cv_data _ _ _ _ Hc) as Hd.
  pose proof (cv_fin _ _ _ _ Hc) as Hfin. unfold size in Hfin.
  set (d := str (_payload g)) in *. set (y := stream_index g x) in *.
  assert (d <> [] -> y + Zlen d <= Zlen S) as Hend by (by intros; apply slice_end).
  assert (recievedFIN r = true -> Zlen (hist a) = Zlen S) as Hfull
    by (intros; by rewrite (io_full _ _ _ H)).
  assert (x + seg_len g = y + 1 + Zlen d + b2i (fin (_header g))) as Elen.
  { unfold seg_len, y, stream_index. fold d. destruct (syn (_header g)); cbn [b2i]; lia. }
  pose proof (Zlen_nonneg d) as Hd0.
  assert (y = Z.max 0 (x - 1) /\ 0 <= x) as [Ey Hx0].
  { unfold y, stream_index. destruct (syn (_header g)); lia. }
  assert (y <= Zlen (hist a) \/ (d = [] /\ fin (_header g) = false)) as Hy.
  { destruct (recievedSYN r) eqn:Er; [|left; lia].
    destruct (recievedFIN r) eqn:Ef; cbn [b2i] in Hx; [|left; lia].
    specialize (Hfull eq_refl). destruct (fin (_header g)) eqn:Eg; [left; specialize (Hfin eq_refl); lia|].
    destruct (decide (d = [])) as [Ed|Ed]; [by right|left]. specialize (Hend Ed).
    enough (0 < Zlen d) by lia. destruct d; [done|]. rewrite Zlen_cons. pose proof (Zlen_nonneg d). lia. }
  destruct (inorder_push c r a d y (fin (_header g)) H Hd) as (a' & H' & Hp & El); [|exact Hy| |exact Hfin|].
  - destruct (decide (d = [])) as [E|E]; [rewrite E, (@Zlen_nil byte); lia|]. specialize (Hend E). lia.
  - intros E. destruct Hroom as [Hroom|Hroom]; [destruct (fin (_header g)); cbn [b2i] in Elen; lia|].
    specialize (Hend E). specialize (Hfull Hroom). pose proof (io_window_end _ _ _ H) as Hwe.
    pose proof (ByteStream.wf_end _ (wf_output _ (proj1 Hset))) as Ho.
    rewrite (StreamReassembler.wf_cap _ (proj1 Hset)) in Ho. unfold window_end in Hwe. lia.
  - exists a'. split; [done|]. split; [done|]. rewrite (io_place _ _ _ H'), (io_place _ _ _ H).
    cbn [recievedSYN recievedFIN]. rewrite El, Elen. destruct (decide (d = [])) as [E|E].
    + rewrite E, (@Zlen_nil byte) in *. destruct (recievedSYN r) eqn:Er.
      * destruct (recievedFIN r) eqn:Ef, (fin (_header g)) eqn:Eg; cbn [b2i orb] in *;
          try specialize (Hfull eq_refl); try specialize (Hfin eq_refl); lia.
      * destruct (io_none _ _ _ H Er) as [Eh Ef]. rewrite Ef, Eh, (@Zlen_nil byte) in *.
        cbn [orb b2i] in *. destruct (fin _); cbn [b2i]; lia.
    + specialize (Hend E). destruct (recievedSYN r) eqn:Er.
      * destruct (recievedFIN r) eqn:Ef, (fin (_header g)) eqn:Eg; cbn [b2i orb] in *;
          try specialize (Hfull eq_refl); try specialize (Hfin eq_refl); lia.
      * destruct (io_none _ _ _ H Er) as [Eh Ef]. rewrite Ef, Eh, (@Zlen_nil byte) in *.
        cbn [orb b2i] in *. destruct (fin _); cbn [b2i]; lia.
Qed.

(** The first number beyond the window that the receiver announces. *)
Definition edge (r : TCPReceiver) : Z := place r + window_size r.

Lemma io_edge c r a : inorder c r a ->
  window_size r = popped a + c - Zlen (hist a) /\
  edge r = (if recievedSYN r then 1 else 0) + popped a + c + b2i (recievedFIN r) /\ place r <= edge r.
Proof.
  intros H. pose proof (io_settled _ _ _ H) as Hset. pose proof (io_window_end _ _ _ H) as Hwe.
  pose proof (ByteStream.wf_end _ (wf_output _ (proj1 Hset))) as Ho.
  rewrite (StreamReassembler.wf_cap _ (proj1 Hset)) in Ho.
  assert (Ew : window_size r = popped a + c - Zlen (hist a)).
  { pose proof (window_size_eq r Hset) as E. rewrite (io_written _ _ _ H), Hwe in E. lia. }
  unfold edge. rewrite Ew, (io_place _ _ _ H). unfold window_end in Hwe.
  destruct (recievedSYN r) eqn:Er; [lia|]. destruct (io_none _ _ _ H Er) as [Eh ->].
  rewrite Eh, (@Zlen_nil byte) in *. cbn [b2i]. lia.
Qed.

(** The reader takes everything that is there. *)
Lemma inorder_read c r a n :
  inorder c r a -> buffer_size (TCPReceiver.stream_out r) <= n ->
  let '(s, d) := ByteStream.read (TCPReceiver.stream_out r) n in
  let r' := set_stream_out r s in
  exists a', inorder c r' a' /\ popped a' = Zlen (hist a') /\ place r' = place r /\
    d = zdrop (popped a) (hist a) /\ hist a' = hist a.
Proof.
  intros H Hn. pose proof (io_tracks _ _ _ H) as Ht. pose proof (st_ref _ _ _ (tr_stores _ _ _ Ht)) as Href.
  pose proof (io_bound _ _ _ H) as Hb. unfold TCPReceiver.stream_out, StreamReassembler.stream_out, buffer_size in *.
  pose proof (stream_buffered _ _ Href) as Hs.
  destruct (stream_read _ a n Href ltac:(lia)) as (s' & E & Hr). rewrite E.
  rewrite Z.min_r in E, Hr by lia. exists (advance a (Zlen (hist a) - popped a)).
  destruct (read_tracks S _ a n Ht ltac:(lia)) as (a2 & Ht2 & _). rewrite E in Ht2. cbn [fst] in Ht2.
  split; [split; cbn; try done; try apply H|].
  - destruct Ht as [Hst Hen Hcl]. split; [split|..]; cbn; try done; try apply Hst. apply Ht2.
  - assert (bytesWritten s' = bytesWritten (_output (_reassembler r))) as Ew
      by (symmetry; exact (f_equal (fun x => bytesWritten (fst x)) E)).
    split_and!; [cbn; lia| | |reflexivity].
    { unfold place, bytes_written, TCPReceiver.stream_out, StreamReassembler.stream_out.
      cbn [set_stream_out _reassembler recievedSYN recievedFIN set_output _output]. by rewrite Ew. }
    rewrite Z.min_r by lia. unfold pending.
    apply ztake_ge. rewrite Zlen_zdrop by lia. lia.
Qed.
End Receiver.

(** ** What a sender queues *)

Section Sender.
Context (S : list byte) (i : WrappingInt32).
Context (HS : Zlen S < 2 ^ 31 - 2).

(** The segments [q], taken in order, lead a receiver from [p] to [n]: each
    begins at or before what the ones before it have reached. *)
Fixpoint chain (p : Z) (q : list TCPSegment) (n : Z) : Prop :=
  match q with
  | [] => p = n
  | g :: q' => exists x, conveys S i x g /\ x <= p /\ x + seg_len g <= n /\
      chain (Z.max p (x + seg_len g)) q' n
  end.

Lemma chain_le p q n : chain p q n -> p <= n.
Proof.
  revert p. induction q as [|g q IH]; intros p; cbn [chain]; [lia|].
  intros (x & _ & _ & _ & H%IH). lia.
Qed.

Lemma chain_app p q n q' n' : chain p q n -> chain n q' n' -> chain p (q ++ q') n'.
Proof.
  revert p. induction q as [|g q IH]; intros p; cbn [chain app]; [by intros ->|].
  intros (x & Hc & Hx & Hn & H) H'. pose proof (chain_le _ _ _ H'). exists x.
  split_and!; [done|done|lia|]. by apply IH.
Qed.

Lemma chain_header p q n f :
  (forall g, seqno (f g) = seqno (_header g) /\ syn (f g) = syn (_header g) /\ fin (f g) = fin (_header g)) ->
  chain p q n -> chain p (map (fun g => set_header g (f g)) q) n.
Proof.
  intros Hf. revert p. induction q as [|g q IH]; intros p; cbn [chain map]; [done|].
  intros (x & Hc & Hx & Hn & H). destruct (Hf g) as (E1 & E2 & E3). exists x.
  assert (seg_len (set_header g (f g)) = seg_len g) as -> by (unfold seg_len; cbn; by rewrite E2, E3).
  split_and!; [by apply conveys_header|done|done|by apply IH].
Qed.

Lemma drain_false r q : drain r false q = map (stamp r) q.
Proof. induction q as [|g q IH]; cbn; by rewrite ?IH. Qed.

Lemma chain_drain r p q n : chain p q n -> chain p (drain r false q) n.
Proof.
  rewrite drain_false. revert p. induction q as [|g q IH]; intros p; cbn [chain map]; [done|].
  intros (x & Hc & Hx & Hn & H). destruct (stamp_conveys S i r g x Hc) as [Hc' El]. exists x.
  rewrite El. split_and!; [done|done|done|by apply IH].
Qed.

Lemma tiles_chain f q n : tiles S i f q n -> chain f (map _seg q) n.
Proof.
  revert f. induction q as [|e q IH]; intros f; cbn [tiles chain map]; [done|].
  intros (_ & Hl & Hc & Ht). pose proof (tiles_le S i _ _ _ Ht). exists f.
  split_and!; [done|lia|done|]. rewrite Z.max_r by lia. by apply IH.
Qed.

Lemma tiles_app_inv f q q' n :
  tiles S i f (q ++ q') n -> exists m, tiles S i f q m /\ tiles S i m q' n.
Proof.
  revert f. induction q as [|e q IH]; intros f; cbn [tiles app].
  - intros H. by exists f.
  - intros (? & ? & ? & (m & H1 & H2)%IH). by exists m.
Qed.

Lemma tiles_end f q m n : tiles S i f q m -> tiles S i f q n -> m = n.
Proof.
  revert f. induction q as [|e q IH]; intros f; cbn [tiles]; [congruence|].
  intros (_ & _ & _ & H1) (_ & _ & _ & H2). by eapply IH.
Qed.

(** The sender adds to both queues, from its next number on. *)
Definition leads (s s' : TCPSender) : Prop :=
  exists sent, _segments_in_flight s' = _segments_in_flight s ++ sent /\
    TCPSender._segments_out s' = TCPSender._segments_out s ++ map _seg sent /\
    match sent with [] => _next_seqno s' = _next_seqno s | e :: _ => _abs_seqno e = _next_seqno s end.

#[global] Instance leads_preorder : PreOrder leads.
Proof.
  split.
  - intros s. exists []. by rewrite !app_nil_r.
  - intros s1 s2 s3 (l & E1 & E2 & E3) (k & E4 & E5 & E6). exists (l ++ k).
    rewrite E4, E5, E1, E2, map_app, <- !app_assoc. split_and!; [done..|].
    destruct l as [|e l]; [|done]. cbn [app]. by rewrite <- E3.
Qed.

Lemma send_segment_leads s g : leads s (_send_segment s g).
Proof.
  destruct (send_segment_fields s g) as (Eo & Ef & _).
  by exists [mkOrderedSegment (_next_seqno s) (stamped s g)].
Qed.

Lemma set_stream_leads s st : leads s (set_stream s st).
Proof. exists []. by rewrite !app_nil_r. Qed.
Lemma set_fin_leads s : leads s (set_fin_sent s).
Proof. exists []. by rewrite !app_nil_r. Qed.

Lemma fill_loop_leads fuel s n s' : fill_loop fuel s n = Some s' -> leads s s'.
Proof.
  revert s n. induction fuel as [|fuel IH]; intros s n; cbn [fill_loop]; [done|].
  destruct (_ && _); [|by intros [= <-]]. destruct (_ && _); [by intros [= <-]|].
  assert (leads s (fst (fill_step s n))) as H.
  { unfold fill_step. destruct (ByteStream.read _ _) as [st d]. cbn [set_stream _stream].
    destruct (_ && _); cbn [fst]; (etransitivity; [apply set_stream_leads|]); [|apply send_segment_leads].
    etransitivity; [apply set_fin_leads|apply send_segment_leads]. }
  destruct (fill_step s n) as [s1 n1]. intros E. etransitivity; [exact H|]. by eapply IH.
Qed.

Lemma fill_window_leads s : leads s (fill_window s).
Proof.
  unfold fill_window. destruct (negb (_syn s)).
  - etransitivity; [apply send_segment_leads|]. exists []. by rewrite !app_nil_r.
  - destruct (fill_loop _ _ _) as [s'|] eqn:E; cbn; [by eapply fill_loop_leads|done].
Qed.

(** What [fill_window] queues leads from the old next number to the new one. *)
Lemma fill_chain s a :
  inv S s a -> _isn s = i ->
  exists q, TCPSender._segments_out (fill_window s) = TCPSender._segments_out s ++ q /\
    chain (_next_seqno s) q (_next_seqno (fill_window s)).
Proof.
  intros Hinv Hisn. pose proof Hinv as [Hfl _].
  destruct (fill_window_inv S ltac:(lia) s a Hinv) as (k & [Hfl' _] & Hi' & _).
  destruct (fill_window_leads s) as (sent & Ef & Eo & Ek). exists (map _seg sent). split; [done|].
  pose proof (fl_tiles _ _ Hfl') as Ht'. rewrite Hi', Hisn in Ht'.
  pose proof (fl_tiles _ _ Hfl) as Ht. rewrite Hisn in Ht. apply tiles_chain.
  destruct (_segments_in_flight s) as [|e q] eqn:E.
  - cbn [app] in Ef. rewrite Ef in Ht'. unfold first_outstanding in Ht'. rewrite Ef in Ht'.
    destruct sent as [|e sent]; [by rewrite Ek|]. by rewrite Ek in Ht'.
  - unfold first_outstanding in Ht, Ht'. rewrite Ef, E in *. cbn [app] in Ht'.
    apply (tiles_app_inv _ (e :: q)) in Ht' as (m & H1 & H2). by rewrite (tiles_end _ _ _ _ Ht H1).
Qed.

(** *** The window *)

Definition within (s : TCPSender) : Prop := _next_seqno s <= _checkpoint s + Z.max 1 (_rwnd s).

(** Nothing more can be sent: the window is full, or everything is sent. *)
Definition sated (s : TCPSender) : Prop :=
  _checkpoint s + Z.max 1 (_rwnd s) <= _next_seqno s \/ offered s = 0.

Lemma fill_within s a :
  inv S s a -> _syn s = true -> 0 <= _rwnd s < 2 ^ 16 -> within s ->
  let s' := fill_window s in
  within s' /\ sated s' /\ _syn s' = true /\ _checkpoint s' = _checkpoint s /\ _rwnd s' = _rwnd s /\
  consecutive_retransmissions s' = consecutive_retransmissions s.
Proof.
  intros Hinv Hsyn Hw Hin. pose proof Hinv as [Hfl Hsk].
  destruct (fill_window_synced S ltac:(lia) s a Hinv Hsyn)
    as (s' & k & _ & -> & Hinv' & Hsyn' & (_ & Hr & Hc & _ & Hn & _) & Ek & En & Ef).
  pose proof (fl_chk_le S s Hfl). pose proof (fl_next _ _ Hfl). unfold within in *.
  rewrite (window_budget_eq S s Hfl Hw), u64_small in * by lia.
  destruct (sk_bound S ltac:(lia) s a Hsk) as [Hb _].
  assert (0 <= available s a) by (unfold available; destruct (ended a), (_fin s); cbn [andb negb b2i]; lia).
  split_and!; [lia| |done|done|done|exact Hn]. unfold sated. rewrite Hc, Hr.
  destruct (Z.le_gt_cases (_checkpoint s + Z.max 1 (_rwnd s) - _next_seqno s) (available s a)) as [Hle|Hgt].
  - left. lia.
  - right. rewrite <- (available_offered S s' (advance a k)) by apply Hinv'.
    unfold available in *. cbn [advance hist popped ended]. rewrite Ef, Ek.
    destruct (ended a), (_fin s); cbn [andb negb b2i orb] in *; try lia.
    destruct (Z.ltb_spec (Zlen (hist a) - popped a) (_checkpoint s + Z.max 1 (_rwnd s) - _next_seqno s));
      cbn [negb b2i]; lia.
Qed.
End Sender.

(** ** Acknowledgments and replies *)

(** The acknowledgments in [q], taken in order, move the acknowledged position
    from [k] to [p] and the announced edge from [e] to at most [e']; neither
    ever moves back. *)
Fixpoint acks (i : WrappingInt32) (e k : Z) (q : list TCPSegment) (p e' : Z) : Prop :=
  match q with
  | [] => k = p /\ e <= e'
  | g :: q' =>
      if ack (_header g) then
        exists x, TCPHeader.ackno (_header g) = wrap x i /\ k <= x <= p /\ e <= x + win (_header g) /\
          acks i (x + win (_header g)) x q' p e'
      else acks i e k q' p e'
  end.

Lemma acks_le i e k q p e' : acks i e k q p e' -> k <= p /\ e <= e'.
Proof.
  revert e k. induction q as [|g q IH]; intros e k; cbn [acks]; [lia|].
  destruct (ack _); [|apply IH]. intros (x & _ & ? & ? & H%IH). lia.
Qed.

Lemma acks_mono_edge i e k q p e1 e2 : acks i e k q p e1 -> e1 <= e2 -> acks i e k q p e2.
Proof.
  intros H Hle. revert e k H. induction q as [|g q IH]; intros e k; cbn [acks]; [lia|].
  destruct (ack _); [|apply IH]. intros (x & Ex & Hx & He & H). exists x. eauto.
Qed.

(** Before the peer's SYN nothing is acknowledged. *)
Lemma acks_none i e k q p e' : Forall (fun g => ack (_header g) = false) q -> k = p -> e <= e' -> acks i e k q p e'.
Proof. intros Hq Hk He. induction Hq as [|g q Hg _ IH]; cbn [acks]; [done|by rewrite Hg]. Qed.

(** A segment that acknowledges what the receiver [r] has come to. *)
Definition reply_of (r : TCPReceiver) (g : TCPSegment) : Prop :=
  rst (_header g) = false /\ win (_header g) = u16 (window_size r) /\
  match TCPReceiver.ackno r with
  | Some a => ack (_header g) = true /\ TCPHeader.ackno (_header g) = a
  | None => ack (_header g) = false
  end.

Lemma stamp_reply r g : plain g -> reply_of r (stamp r g).
Proof.
  intros [Ha Hr]. unfold reply_of, stamp. by destruct (TCPReceiver.ackno r).
Qed.

Lemma replies_acks S i c r a q :
  inorder S i c r a -> 0 <= window_size r < 2 ^ 16 -> Forall (reply_of r) q ->
  recievedSYN r = true -> acks i (edge r) (place r) q (place r) (edge r).
Proof.
  intros H Hw Hq Hs. unfold edge. induction Hq as [|g q (_ & Hwin & Hack) Hq IH]; cbn [acks]; [lia|].
  rewrite (io_ackno S i c r a H), Hs in Hack. destruct Hack as [-> E]. exists (place r).
  rewrite Hwin. unfold u16. rewrite Z.mod_small by done. split_and!; [done|lia|lia|lia|exact IH].
Qed.

(** Replies queued after the acknowledgments of an earlier state of the receiver. *)
Lemma acks_replies S i c r a e k q p e' q' :
  acks i e k q p e' -> inorder S i c r a -> 0 <= window_size r < 2 ^ 16 -> Forall (reply_of r) q' ->
  p <= place r -> e' <= edge r -> (q' = [] -> p = place r) -> (recievedSYN r = false -> p = place r) ->
  acks i e k (q ++ q') (place r) (edge r).
Proof.
  intros Ha H Hw Hq Hp He Hnil Hno. revert e k Ha.
  induction q as [|g q IH]; intros e k; cbn [acks app].
  - intros [-> Hee]. destruct (recievedSYN r) eqn:Er.
    + pose proof (replies_acks S i c r a q' H Hw Hq Er) as Hr.
      destruct q' as [|g q']; cbn [acks] in *; [rewrite Hnil by done; lia|].
      inversion Hq as [|? ? (_ & _ & Hack) _]; subst.
      rewrite (io_ackno S i c r a H), Er in Hack. destruct Hack as [Eg _]. rewrite Eg in *.
      destruct Hr as (x & Ex & Hx & Hxe & Hrest). exists x. split_and!; [done|lia|lia|lia|done].
    + rewrite Hno by done. clear Hnil. induction Hq as [|g q' (_ & _ & Hack) Hq' IH]; cbn [acks]; [lia|].
      unfold TCPReceiver.ackno in Hack. rewrite Er in Hack. by rewrite Hack.
  - destruct (ack (_header g)); [|apply IH]. intros (x & Ex & Hx & Hxe & Hrest).
    exists x. split_and!; [done|lia|lia|lia|by apply IH].
Qed.

(** ** Steps of a connection *)

(** No reset, and a window that its field holds. *)
Definition calm (g : TCPSegment) : Prop := rst (_header g) = false /\ 0 <= win (_header g) < 2 ^ 16.

Section Steps.
Context (S : list byte) (cfg : TCPConfig) (i : WrappingInt32).
Context (HS : Zlen S < 2 ^ 31 - 2) (Hsend : 0 <= send_capacity cfg < 2 ^ 32).

(** A connection that has sent SYN and, of the stream [S], has been given [W]. *)
Record live (W : list byte) (c : TCPConnection) : Prop := {
  lv_cinv : cinv S cfg i W c;
  lv_syn : _syn (_sender c) = true;
  lv_within : within (_sender c);
  lv_sated : sated (_sender c);
  lv_plain : sender_all plain (_sender c);
  lv_calm : Forall calm (_segments_out c)
}.

Abbreviation next c := (_next_seqno (_sender c)).
Abbreviation chk c := (_checkpoint (_sender c)).

Lemma live_sent W c : live W c -> _sent_SYN c = true.
Proof. intros H. rewrite (ci_syn _ _ _ _ _ (lv_cinv _ _ H)). apply H. Qed.

Lemma live_inv W c : live W c -> exists a, inv S (_sender c) a /\ hist a = W /\ _isn (_sender c) = i /\
  0 <= _rwnd (_sender c) < 2 ^ 16 /\ 1 <= next c <= Zlen S + 2 /\ 0 <= chk c <= next c.
Proof.
  intros H. destruct (working_inv S cfg i ltac:(lia) Hsend W c (ci_working _ _ _ _ _ (lv_cinv _ _ H)))
    as (a & Hinv & Hh & Hr). exists a. split_and!; try done; try lia.
  - destruct (TCPSender.reach_params S (send_capacity cfg) (rt_timeout cfg) i ltac:(lia) Hsend W (_sender c)) as [-> _]; [|done].
    apply (wk_sender _ _ _ _ _ (ci_working _ _ _ _ _ (lv_cinv _ _ H))).
  - pose proof (sk_next _ _ _ (proj2 Hinv)) as E. rewrite (lv_syn _ _ H) in E.
    pose proof (sk_bound S ltac:(lia) _ _ (proj2 Hinv)). destruct (_fin _); cbn [b2i] in E; lia.
  - assert (Zlen S < 2 ^ 32) by lia. by apply (inv_next_le S _ a).
  - apply (fl_chk_le S (_sender c)), Hinv.
  - apply (fl_chk_le S (_sender c)), Hinv.
Qed.

(** The end of every operation: [_send_segments]. *)
Lemma send_live W c q0 n0 :
  working S cfg i W c -> _syn (_sender c) = true -> within (_sender c) -> sender_all plain (_sender c) ->
  Forall calm (_segments_out c) ->
  TCPSender._segments_out (_sender c) = q0 -> chain S i n0 q0 (next c) ->
  let c' := _send_segments c false in
  live W c' /\ chk c' = chk c /\ _rwnd (_sender c') = _rwnd (_sender c) /\
  consecutive_retransmissions (_sender c') = consecutive_retransmissions (_sender c) /\
  _receiver c' = _receiver c /\
  exists q, _segments_out c' = _segments_out c ++ q /\ chain S i n0 q (next c') /\
    Forall (reply_of (_receiver c)) q /\ (q0 <> [] -> q <> []).
Proof.
  intros Hw Hsyn Hin Hp Hcalm Hq0 Hch c'.
  destruct (working_inv S cfg i ltac:(lia) Hsend W c Hw) as (a & Hinv & _ & Hr).
  destruct (TCPSender.reach_params S (send_capacity cfg) (rt_timeout cfg) i ltac:(lia) Hsend W (_sender c) (wk_sender _ _ _ _ _ Hw)) as [Hisn _].
  destruct (fill_within S HS _ a Hinv Hsyn Hr Hin) as (Hin' & Hsat' & Hsyn' & Hc' & Hr' & Hn').
  destruct (fill_chain S i HS _ a Hinv Hisn) as (q1 & Eo & Hch1).
  destruct (send_segments_fields c false) as (Es & Er & Eout & _). fold c' in Es, Er, Eout.
  pose proof (fill_window_all _ Hp) as [Hpo Hpf].
  assert (Forall (reply_of (_receiver c))
    (drain (_receiver c) false (TCPSender.segments_out (fill_window (_sender c))))) as Hrep.
  { rewrite drain_false. apply Forall_map. eapply List.Forall_impl; [|exact Hpo].
    intros g Hg. by apply stamp_reply. }
  split; [split|].
  - by apply send_segments_cinv; [lia|..].
  - by rewrite Es.
  - by rewrite Es.
  - by rewrite Es.
  - rewrite Es. by split.
  - rewrite Eout. apply Forall_app. split; [done|]. eapply List.Forall_impl; [|exact Hrep].
    intros g (Hg & Hwin & _). split; [done|]. rewrite Hwin. apply Z.mod_pos_bound. lia.
  - rewrite Es. split_and!; try done. eexists. split; [exact Eout|].
    cbn [set_segments_out _next_seqno]. split; [|split; [done|]].
    + apply chain_drain. unfold TCPSender.segments_out. rewrite Eo, Hq0. by eapply chain_app.
    + unfold TCPSender.segments_out. rewrite Eo, Hq0, drain_false. by destruct q0.
Qed.

Lemma ack_step s a x w :
  inv S s a -> _isn s = i -> _syn s = true -> within s -> 0 <= w < 2 ^ 16 ->
  _checkpoint s <= x <= _next_seqno s -> _checkpoint s + _rwnd s <= x + w ->
  let s' := ack_received s (wrap x i) w in
  (exists q, TCPSender._segments_out s' = TCPSender._segments_out s ++ q /\
     chain S i (_next_seqno s) q (_next_seqno s')) /\
  within s' /\ _syn s' = true /\ _checkpoint s' = x /\ _rwnd s' = w /\
  consecutive_retransmissions s' = (if _checkpoint s <? x then 0 else consecutive_retransmissions s).
Proof.
  intros Hinv Hisn Hsyn Hin Hw Hx He. pose proof Hinv as [Hfl Hsk]. pose proof (fl_chk_le S s Hfl) as Hck.
  assert (_next_seqno s <= Zlen S + 2) as Hn by (apply (inv_next_le S s a); [lia|done]).
  unfold within in Hin. cbv zeta.
  rewrite (ack_received_eq S ltac:(lia) s (wrap x i) w Hfl), Hisn, unwrap_near
    by (unfold checkpoint_ok; lia).
  assert ((x <=? _next_seqno s) = true) as -> by (apply Z.leb_le; lia). rewrite andb_true_r.
  destruct (Z.ltb_spec (_checkpoint s) x) as [Hlt|Hge].
  - pose proof (acked_inv S ltac:(lia) s a x w Hinv ltac:(lia)) as Ha.
    assert (_next_seqno (acked s x w) = _next_seqno s /\ _checkpoint (acked s x w) = x /\
      _rwnd (acked s x w) = w /\ _syn (acked s x w) = true /\ _isn (acked s x w) = i /\
      TCPSender._segments_out (acked s x w) = TCPSender._segments_out s /\
      consecutive_retransmissions (acked s x w) = 0) as (E1 & E2 & E3 & E4 & E5 & E6 & E7)
      by (unfold acked; by destruct (uncovered _ _)).
    destruct (fill_chain S i HS _ a Ha E5) as (q & Eq & Hq). rewrite E6, E1 in *.
    destruct (fill_within S HS _ a Ha E4 ltac:(by rewrite E3)) as (? & _ & ? & Ec & Er & En).
    { unfold within. rewrite E1, E2, E3. lia. }
    rewrite Ec, Er, En, E2, E3, E7. split_and!; try done. by exists q.
  - cbn. split_and!; try done; [exists []; by rewrite app_nil_r|unfold within; cbn; lia|lia].
Qed.

Lemma empty_conveys s a : inv S s a -> _isn s = i -> _syn s = true ->
  chain S i (_next_seqno s)
    [set_header default_segment (set_seqno (_header default_segment) (next_seqno s))] (_next_seqno s).
Proof.
  intros [_ Hsk] Hisn Hsyn. pose proof (sk_next _ _ _ Hsk) as En. rewrite Hsyn in En.
  pose proof (sk_bound S ltac:(lia) s a Hsk). assert (1 <= _next_seqno s) by (destruct (_fin s); cbn [b2i] in En; lia).
  cbn [chain]. exists (_next_seqno s). change (seg_len _) with 0. rewrite Z.add_0_r, Z.max_id.
  split_and!; [|lia|lia|done]. split; cbn; try done.
  - unfold next_seqno. by rewrite Hisn.
  - apply slice_nil. unfold stream_index. cbn. lia.
Qed.

(** What the arrival of [g] must promise: it acknowledges up to [x], something
    sent, and no window edge moves back. *)
Definition acceptable (c : TCPConnection) (g : TCPSegment) (x : Z) : Prop :=
  calm g /\
  (ack (_header g) = true -> TCPHeader.ackno (_header g) = wrap x i /\ chk c <= x <= next c /\
     chk c + _rwnd (_sender c) <= x + win (_header g)).

Lemma segment_live W c g x :
  live W c -> acceptable c g x ->
  let c' := segment_received c g in
  live W c' /\ _receiver c' = TCPReceiver.segment_received (_receiver c) g /\
  (if ack (_header g) then chk c' = x /\ _rwnd (_sender c') = win (_header g)
   else chk c' = chk c /\ _rwnd (_sender c') = _rwnd (_sender c)) /\
  consecutive_retransmissions (_sender c') =
    (if chk c <? chk c' then 0 else consecutive_retransmissions (_sender c)) /\
  exists q, _segments_out c' = _segments_out c ++ q /\ chain S i (next c) q (next c') /\
    Forall (reply_of (_receiver c')) q /\ (0 < seg_len g -> q <> []).
Proof.
  intros H ((Hrst & Hwin) & Hack) c'. pose proof (lv_cinv _ _ H) as Hci. pose proof (ci_working _ _ _ _ _ Hci) as Hw.
  unfold c'. rewrite segment_answer by (eauto using live_sent).
  destruct (live_inv W c H) as (a & Hinv & _ & Hisn & Hr & Hn & Hck).
  set (c1 := set_receiver (set_time c 0) (TCPReceiver.segment_received (_receiver c) g)).
  assert (working S cfg i W c1) as Hw1 by (apply (segment_working S cfg i W (set_time c 0)); by apply working_time).
  set (c2 := if ack (_header g) then
    set_sender c1 (ack_received (_sender c1) (TCPHeader.ackno (_header g)) (win (_header g))) else c1).
  assert (working S cfg i W c2) as Hw2 by (unfold c2; destruct (ack _); [by apply ack_working; [lia|..]|done]).
  assert (_sent_SYN c2 = true /\ _segments_out c2 = _segments_out c /\
    _receiver c2 = TCPReceiver.segment_received (_receiver c) g) as (Es2 & Eo2 & Er2)
    by (pose proof (live_sent _ _ H); unfold c2; by destruct (ack _)).
  assert (sender_all plain (_sender c2)) as Hp2 by (unfold c2; destruct (ack _); [apply ack_received_all|]; apply H).
  assert ((exists q, TCPSender._segments_out (_sender c2) = q /\ chain S i (next c) q (next c2)) /\
    within (_sender c2) /\ _syn (_sender c2) = true /\
    (if ack (_header g) then chk c2 = x /\ _rwnd (_sender c2) = win (_header g)
     else chk c2 = chk c /\ _rwnd (_sender c2) = _rwnd (_sender c)) /\
    consecutive_retransmissions (_sender c2) =
      (if chk c <? chk c2 then 0 else consecutive_retransmissions (_sender c)))
    as ((q2 & Eq2 & Hq2) & Hin2 & Hsyn2 & Hck2 & Hn2).
  { unfold c2. destruct (ack (_header g)) eqn:Ea.
    - destruct (Hack eq_refl) as (Ex & Hx & Hxe). rewrite Ex.
      destruct (ack_step (_sender c) a x (win (_header g)) Hinv Hisn (lv_syn _ _ H) (lv_within _ _ H) Hwin Hx Hxe)
        as ((q & Eq & Hq) & ? & ? & Ec & Er & En). cbn [set_sender _sender]. change (_sender c1) with (_sender c).
      rewrite (ci_queue _ _ _ _ _ Hci) in Eq. cbn [app] in Eq. rewrite Ec, Er, En.
      split_and!; try done; try lia. by exists q.
    - change (_sender c1) with (_sender c). rewrite Z.ltb_irrefl. split_and!; try done; try apply H.
      exists []. split; [apply Hci|done]. }
  assert (_segments_out (answer c g) = _segments_out c /\ _receiver (answer c g) = _receiver c2 /\
    working S cfg i W (answer c g) /\ sender_all plain (_sender (answer c g)) /\
    within (_sender (answer c g)) /\ _syn (_sender (answer c g)) = true /\
    chk (answer c g) = chk c2 /\ _rwnd (_sender (answer c g)) = _rwnd (_sender c2) /\
    consecutive_retransmissions (_sender (answer c g)) = consecutive_retransmissions (_sender c2) /\
    exists q, TCPSender._segments_out (_sender (answer c g)) = q /\ chain S i (next c) q (next (answer c g)) /\
      (0 < seg_len g -> q <> [])) as (Eo3 & Er3 & Hw3 & Hp3 & Hin3 & Hsyn3 & Ec3 & Erw3 & En3 & q3 & Eq3 & Hq3 & Hne3).
  { unfold answer. fold c1. fold c2. rewrite Es2, andb_true_r.
    destruct ((syn (_header g) || fin (_header g)) || negb (Zlen (str (_payload g)) =? 0)) eqn:Eb.
    - destruct (working_inv S cfg i ltac:(lia) Hsend W c2 Hw2) as (a2 & Hinv2 & _ & _).
      destruct (TCPSender.reach_params S (send_capacity cfg) (rt_timeout cfg) i ltac:(lia) Hsend W (_sender c2)
        (wk_sender _ _ _ _ _ Hw2)) as [Hisn2 _].
      pose proof (empty_conveys (_sender c2) a2 Hinv2 Hisn2 Hsyn2) as He.
      split_and!; try done; [by apply (empty_working S cfg i)|by apply send_empty_all|].
      eexists. split; [reflexivity|]. cbn [set_sender _sender send_empty_segment set_segments_out
        TCPSender._segments_out _next_seqno]. rewrite Eq2.
      split; [by eapply chain_app|]. by destruct q2.
    - split_and!; try done. exists q2. split_and!; [done|done|]. intros Hl. exfalso.
      apply orb_false_iff in Eb as [[E1 E2]%orb_false_iff E3%negb_false_iff%Z.eqb_eq].
      unfold seg_len in Hl. rewrite E1, E2, E3 in Hl. cbn [b2i] in Hl. lia. }
  destruct (send_live W (answer c g) q3 (next c) Hw3 Hsyn3 Hin3 Hp3) as (Hl & -> & -> & -> & -> & q & Eq & Hq & Hrep & Hne);
    [by rewrite Eo3; apply H|done|done|].
  rewrite Ec3, Erw3, En3, Er3, Er2, Eo3 in *. split_and!; try done. exists q. split_and!; try done.
  intros Hlen. by apply Hne, Hne3.
Qed.

Lemma segment_ended W c g :
  live W c -> calm g ->
  ended_in (segment_received c g) = ended_in c /\
  _time_since_last_segment_received (segment_received c g) = 0.
Proof.
  intros H [Hrst Hwin]. rewrite segment_answer by (eauto using live_sent).
  destruct (answer_grows S cfg i HS Hsend (fun _ => False) W c g (ci_working _ _ _ _ _ (lv_cinv _ _ H)) Hwin)
    as [Hw [_ _ <-]]; [done|].
  rewrite (gr_ended _ _ _ (send_segments_grows S cfg i HS Hsend (fun _ => False) W _ false Hw)). split; [done|].
  destruct (send_segments_fields (answer c g) false) as (_ & _ & _ & _ & _ & -> & _).
  unfold answer. by destruct (ack _), (_ || _).
Qed.

(** An operation without a new acknowledgment: the connection queues what leads
    on from its next number, each segment with what its receiver has come to. *)
Record moved (c c' : TCPConnection) : Prop := {
  mv_chk : chk c' = chk c;
  mv_rwnd : _rwnd (_sender c') = _rwnd (_sender c);
  mv_recv : _receiver c' = _receiver c;
  mv_out : exists q, _segments_out c' = _segments_out c ++ q /\ chain S i (next c) q (next c') /\
    Forall (reply_of (_receiver c)) q
}.

#[global] Instance moved_preorder : PreOrder moved.
Proof.
  split.
  - intros c. split; try done. exists []. by rewrite app_nil_r.
  - intros c1 c2 c3 [H1 H2 H3 (q & H4 & H5 & H6)] [H1' H2' H3' (q' & H4' & H5' & H6')].
    split; try congruence. exists (q ++ q'). rewrite H4', H4, app_assoc. split_and!; [done|by eapply chain_app|].
    rewrite H3 in H6'. by apply Forall_app.
Qed.

Lemma send_moved W c0 c :
  _sender c = set_stream (_sender c0) (_stream (_sender c)) -> _receiver c = _receiver c0 ->
  _segments_out c = _segments_out c0 ->
  working S cfg i W c -> _syn (_sender c) = true -> within (_sender c) -> sender_all plain (_sender c) ->
  Forall calm (_segments_out c) -> TCPSender._segments_out (_sender c) = [] ->
  let c' := _send_segments c false in
  live W c' /\ moved c0 c' /\
  consecutive_retransmissions (_sender c') = consecutive_retransmissions (_sender c0).
Proof.
  intros Es Er Eo Hw Hsyn Hin Hp Hcalm Hq0.
  destruct (send_live W c [] (next c)) as (Hl & E1 & E2 & E3 & E4 & q & Eq & Hq & Hr & _); try done.
  assert (next c = next c0 /\ chk c = chk c0 /\ _rwnd (_sender c) = _rwnd (_sender c0) /\
    consecutive_retransmissions (_sender c) = consecutive_retransmissions (_sender c0)) as (F1 & F2 & F3 & F4)
    by (by rewrite Es).
  rewrite F1, F2, F3, F4, Er, Eo in *. split_and!; [done|split; try done; by exists q|done].
Qed.

Lemma write_live W c d :
  live W c -> W ++ ztake (snd (TCPConnection.write c d)) d `prefix_of` S ->
  let c' := fst (TCPConnection.write c d) in
  live (W ++ ztake (snd (TCPConnection.write c d)) d) c' /\ moved c c' /\
  consecutive_retransmissions (_sender c') = consecutive_retransmissions (_sender c) /\
  ended_in c' = ended_in c.
Proof.
  intros H Hpre. pose proof (ci_working _ _ _ _ _ (lv_cinv _ _ H)) as Hw.
  pose proof (TCPSender.reach_write _ _ _ _ W _ d (wk_sender _ _ _ _ _ Hw)) as Hr.
  pose proof (write_error (_stream (_sender c)) d) as He.
  pose proof (write_ended (_stream (_sender c)) d) as Hin. unfold TCPConnection.write, stream_in in *.
  destruct (ByteStream.write (_stream (_sender c)) d) as [st m]. cbn [fst snd] in *.
  assert (working S cfg i (W ++ ztake m d) (on_stream_in c (fun _ => st))) as Hw1
    by (apply (working_sender S cfg i W); try done; by apply Hr).
  destruct (send_moved _ c (on_stream_in c (fun _ => st)) eq_refl eq_refl eq_refl Hw1) as (? & ? & ?); try apply H.
  split_and!; try done.
  rewrite (gr_ended _ _ _ (send_segments_grows S cfg i HS Hsend (fun _ => False) _ _ false Hw1)).
  unfold ended_in, stream_in. by rewrite <- Hin.
Qed.

Lemma end_live c :
  live S c ->
  let c' := end_input_stream c in
  live S c' /\ moved c c' /\
  consecutive_retransmissions (_sender c') = consecutive_retransmissions (_sender c) /\
  ended_in c' = true.
Proof.
  intros H. pose proof (ci_working _ _ _ _ _ (lv_cinv _ _ H)) as Hw.
  assert (working S cfg i S (on_stream_in c end_input)) as Hw1
    by (apply (working_sender S cfg i S); try done; apply TCPSender.reach_end, Hw).
  destruct (send_moved S c (on_stream_in c end_input) eq_refl eq_refl eq_refl Hw1) as (? & ? & ?); try apply H.
  split_and!; try done. change (ended_in (_send_segments (on_stream_in c end_input) false) = true).
  by rewrite (gr_ended _ _ _ (send_segments_grows S cfg i HS Hsend (fun _ => False) _ _ false Hw1)).
Qed.

Lemma tick_count s ms :
  consecutive_retransmissions s = 0 ->
  0 <= consecutive_retransmissions (TCPSender.tick s ms) <= 1 /\
  (_segments_in_flight s = [] -> consecutive_retransmissions (TCPSender.tick s ms) = 0).
Proof.
  unfold TCPSender.tick, consecutive_retransmissions. intros E.
  destruct (pq_top _) as [t|] eqn:Et; cbn [set_timer _segments_in_flight] in *.
  - destruct (_segments_in_flight s) as [|e q]; [done|].
    repeat case_match; cbn [set_timer _n_consecutive_retransmissions]; rewrite ?E; done.
  - destruct (_segments_in_flight s); cbn; by rewrite E.
Qed.

(** The clock, when no retransmission is pending. *)
Lemma tick_live W c ms :
  live W c -> 0 <= ms -> consecutive_retransmissions (_sender c) = 0 ->
  let c' := TCPConnection.tick c ms in
  live W c' /\ moved c c' /\ 0 <= consecutive_retransmissions (_sender c') <= 1 /\
  (chk c = next c -> consecutive_retransmissions (_sender c') = 0) /\
  ended_in c' = ended_in c /\
  _time_since_last_segment_received c' = u64 (_time_since_last_segment_received c + ms).
Proof.
  intros H Hms En c'. pose proof (lv_cinv _ _ H) as Hci. pose proof (ci_working _ _ _ _ _ Hci) as Hw.
  destruct (live_inv W c H) as (a & Hinv & _ & Hisn & _). pose proof Hinv as [Hfl _].
  destruct (tick_count (_sender c) ms En) as [Hc1 Hc0].
  destruct (tick_fields (_sender c) ms) as (E1 & E2 & _ & _ & _ & E6 & E7 & _ & E9 & Eo).
  set (c1 := set_time (set_sender c (TCPSender.tick (_sender c) ms))
    (u64 (_time_since_last_segment_received c + ms))).
  assert (c' = _send_segments c1 false) as ->.
  { unfold c', TCPConnection.tick. fold c1. cbn [set_sender set_time _sender] in *.
    change (_sender c1) with (TCPSender.tick (_sender c) ms).
    assert ((consecutive_retransmissions (TCPSender.tick (_sender c) ms) >? MAX_RETX_ATTEMPTS) = false) as ->
      by (rewrite Z.gtb_ltb; apply Z.ltb_ge; unfold MAX_RETX_ATTEMPTS; lia).
    change ((if _sent_SYN c then _send_segments c1 false else c1) = _send_segments c1 false).
    by rewrite (live_sent _ _ H). }
  assert (chain S i (next c) (TCPSender._segments_out (_sender c1)) (next c1)) as Hch.
  { cbn. rewrite E6. destruct Eo as [-> |(t & Et & ->)]; rewrite (ci_queue _ _ _ _ _ Hci); [done|].
    destruct (flight_top S (_sender c) t Hfl Et) as (q & Eq & _ & Hk). pose proof (fl_tiles _ _ Hfl) as Ht.
    rewrite Hisn, Eq in Ht. unfold first_outstanding in Ht. rewrite Eq in Ht. destruct Ht as (_ & Hl & Hcv & Ht).
    apply tiles_le in Ht. cbn [app chain]. exists (_abs_seqno t). split_and!; [done|lia|lia|lia]. }
  assert (working S cfg i W c1) as Hw1 by (apply working_time; by apply (tick_working S cfg i)).
  destruct (send_live W c1 (TCPSender._segments_out (_sender c1)) (next c)) as (Hl & F1 & F2 & F3 & F4 & q & Eq & Hq & Hr & _); try done; try apply H.
  - cbn. rewrite E2. apply H.
  - unfold within. cbn. rewrite E6, E7, E9. apply H.
  - cbn. apply tick_all, H.
  - split; [done|]. split; [split|].
    + rewrite F1. exact E7.
    + rewrite F2. exact E9.
    + exact F4.
    + by exists q.
    + rewrite F3. split; [exact Hc1|]. split; [intros Hk; apply Hc0, (acknowledged_flight S (_sender c) Hfl Hk)|].
      split; [|apply (send_segments_fields c1 false)].
      rewrite (gr_ended _ _ _ (send_segments_grows S cfg i HS Hsend (fun _ => False) W _ false Hw1)).
      unfold ended_in, stream_in. cbn. by rewrite E1.
Qed.

(** Taking a segment from the queue and reading leave the sender alone. *)
Lemma pop_live W c g q : live W c -> _segments_out c = g :: q -> live W (pop_out c).
Proof.
  intros [[[] ? ?] ? ? ? ? Hc] E. rewrite E in Hc. split; try done.
  - split; [split|..]; try done. cbn. rewrite E in *. by inversion wk_out.
  - cbn. rewrite E. by inversion Hc.
Qed.

Lemma read_live W c n : 0 <= n -> live W c -> live W (fst (read_inbound c n)).
Proof.
  intros Hn [[Hw Hq Hs] ? ? ? ? ?]. unfold read_inbound.
  assert (settled (_reassembler (_receiver c))) as Hset by apply Hw.
  pose proof (read_output_settled _ n Hset Hn) as Hset'.
  destruct (read_spec (inbound_stream c) n) as (_ & _ & _ & _ & _ & _ & _ & E1 & E2); [apply Hset|done|].
  change (_output (_reassembler (_receiver c))) with (inbound_stream c) in Hset'.
  destruct (ByteStream.read (inbound_stream c) n) as [st d]. cbn [fst] in *.
  split; try done. split; [|done|done]. apply working_receiver; try done; unfold input_ended; cbn; [congruence|].
  rewrite E1. apply (wk_synced _ _ _ _ _ Hw).
Qed.
End Steps.

(** ** The pair *)

(** What holds from [A], which sends [S] from the number [i], to [B], whose
    receiver has capacity [c]. *)
Record toward (S : list byte) (i : WrappingInt32) (c : Z) (A B : TCPConnection) : Prop := {
  tw_inorder : exists a, inorder S i c (_receiver B) a;
  tw_chain : chain S i (place (_receiver B)) (_segments_out A) (_next_seqno (_sender A));
  tw_acks : acks i (_checkpoint (_sender A) + _rwnd (_sender A)) (_checkpoint (_sender A))
              (_segments_out B) (place (_receiver B)) (edge (_receiver B))
}.

(** The receiver can take all that has been sent. *)
Definition room (S : list byte) (c : Z) (A B : TCPConnection) : Prop :=
  _next_seqno (_sender A) <= 1 + bytes_read (inbound_stream B) + c \/ place (_receiver B) = Zlen S + 2.

Section Pair.
Context (S S' : list byte) (cA cB : TCPConfig) (i i' : WrappingInt32).
Context (HS : Zlen S < 2 ^ 31 - 2) (HS' : Zlen S' < 2 ^ 31 - 2) (Vi : valid i) (Vi' : valid i').
Context (HsA : 0 <= send_capacity cA < 2 ^ 32) (HsB : 0 <= send_capacity cB < 2 ^ 32).
Context (HrA : 1 <= recv_capacity cA < 2 ^ 16) (HrB : 1 <= recv_capacity cB < 2 ^ 16).

Record joined (W W' : list byte) (A B : TCPConnection) : Prop := {
  jn_left : live S cA i W A;
  jn_right : live S' cB i' W' B;
  jn_to : toward S i (recv_capacity cB) A B;
  jn_from : toward S' i' (recv_capacity cA) B A
}.

Lemma io_read c r a : inorder S i c r a -> bytes_read (TCPReceiver.stream_out r) = popped a.
Proof.
  intros H. pose proof (io_bound S i c r a H).
  unfold bytes_read, TCPReceiver.stream_out, StreamReassembler.stream_out.
  rewrite (ref_read _ _ (st_ref _ _ _ (tr_stores _ _ _ (io_tracks _ _ _ _ _ H)))). apply u32_small. lia.
Qed.

Lemma io_window c r a : inorder S i c r a -> 1 <= c < 2 ^ 16 -> 0 <= window_size r < 2 ^ 16.
Proof.
  intros H Hc. destruct (io_edge S i HS c r a H) as (E & _ & Hp). pose proof (io_bound S i c r a H).
  unfold edge in Hp. lia.
Qed.

Lemma edge_mono c r r' a a' :
  inorder S i c r a -> inorder S i c r' a' -> popped a' = popped a -> place r <= place r' -> edge r <= edge r'.
Proof.
  intros H H' Ep Hp. destruct (io_edge S i HS c r a H) as (_ & -> & _).
  destruct (io_edge S i HS c r' a' H') as (_ & -> & _). rewrite Ep.
  pose proof (io_bound S i c r' a' H'). rewrite (io_place S i HS c r a H), (io_place S i HS c r' a' H') in Hp.
  pose proof (io_full S i c r a H) as Hf. destruct (recievedSYN r) eqn:Er.
  - pose proof (Zlen_nonneg (hist a)). destruct (recievedFIN r).
    + rewrite (Hf eq_refl) in *. destruct (recievedSYN r'), (recievedFIN r'); cbn [b2i] in *; lia.
    + destruct (recievedSYN r'), (recievedFIN r'); cbn [b2i] in *; lia.
  - destruct (io_none S i c r a H Er) as [_ ->]. destruct (recievedSYN r'), (recievedFIN r'); cbn [b2i]; lia.
Qed.

(** [A] hands over its first segment. *)
Lemma hand_one W W' A B g q :
  joined W W' A B -> room S (recv_capacity cB) A B -> _segments_out A = g :: q ->
  let B' := segment_received B g in
  joined W W' (pop_out A) B' /\ room S (recv_capacity cB) (pop_out A) B' /\
  bytes_read (inbound_stream B') = bytes_read (inbound_stream B) /\
  place (_receiver B) <= place (_receiver B') /\
  _checkpoint (_sender B) <= _checkpoint (_sender B') /\
  consecutive_retransmissions (_sender B') =
    (if _checkpoint (_sender B) <? _checkpoint (_sender B') then 0
     else consecutive_retransmissions (_sender B)) /\
  ended_in B' = ended_in B /\ _time_since_last_segment_received B' = 0 /\
  _next_seqno (_sender B) <= _next_seqno (_sender B').
Proof.
  intros [HA HB [(a & Ha) Hch Hac] [(b & Hb) Hch' Hac']] Hroom EA B'.
  rewrite EA in Hch, Hac'. destruct Hch as (x & Hc & Hx & Hn & Hch).
  pose proof (chain_le _ _ _ _ _ Hch') as Hle.
  assert (Hacc : exists y, acceptable i' B g y /\
    acks i' ((if ack (_header g) then y + win (_header g) else _checkpoint (_sender B) + _rwnd (_sender B)))
      (if ack (_header g) then y else _checkpoint (_sender B)) q (place (_receiver A)) (edge (_receiver A))).
  { assert (calm g) as Hg by (pose proof (lv_calm _ _ _ _ _ HA) as Hcalm; rewrite EA in Hcalm; by inversion Hcalm).
    cbn [acks] in Hac'. destruct (ack (_header g)) eqn:Eg.
    - destruct Hac' as (y & Ey & Hy & Hye & Hrest). exists y. split; [|done]. split; [done|]. intros _. lia || (split_and!; [done|lia|lia|lia]).
    - exists 0. split; [|done]. split; [done|]. by rewrite Eg. }
  destruct Hacc as (y & Hacc & Hac2).
  destruct (segment_live S' cB i' HS' HsB W' B g y HB Hacc) as (HB' & Er & Hnum & Hcnt & q' & Eq & Hq' & Hrep & Hne).
  fold B' in HB', Er, Hnum, Hcnt, Eq, Hq', Hrep.
  destruct (inorder_segment S i HS Vi _ _ a g x (_next_seqno (_sender A)) Ha Hc Hx Hn) as (a' & Ha' & Ep & Epl).
  { unfold room, inbound_stream in Hroom. rewrite (io_read _ _ a Ha) in Hroom. destruct Hroom as [?|E]; [by left|right].
    rewrite (io_place S i HS _ _ _ Ha) in E. pose proof (io_bound S i _ _ _ Ha).
    pose proof (Zlen_nonneg S). destruct (recievedSYN _), (recievedFIN _); cbn [b2i] in E; lia || done. }
  rewrite <- Er in Ha', Epl. pose proof (edge_mono _ _ _ _ _ Ha Ha' Ep ltac:(lia)) as Hedge.
  pose proof (seg_len_nonneg g) as Hl0.
  assert (HA' : live S cA i W (pop_out A)) by (by eapply pop_live).
  assert (Hck : _checkpoint (_sender B) <= _checkpoint (_sender B')).
  { destruct Hacc as [_ Hy]. destruct (ack (_header g)); destruct Hnum as [-> _]; [|lia].
    destruct (Hy eq_refl) as (_ & ? & _). lia. }
  destruct (segment_ended S' cB i' HS' HsB W' B g HB (proj1 Hacc)) as [Hen Htm].
  split_and!; [split; [exact HA'|exact HB'| |]| | |lia|exact Hck|exact Hcnt|exact Hen|exact Htm|
    by apply (chain_le S' i' _ q')].
  - split; [by exists a'| |].
    + cbn. rewrite EA, Epl. exact Hch.
    + rewrite Eq. eapply (acks_replies S i); [exact Hac|exact Ha'| |exact Hrep|lia|exact Hedge| |].
      * by apply (io_window (recv_capacity cB) _ a').
      * intros ->. rewrite Epl. destruct (Z.le_gt_cases (seg_len g) 0); [lia|]. by destruct Hne.
      * intros Es. pose proof (io_place S i HS _ _ _ Ha') as E. rewrite Es in E.
        pose proof (place_bound S i HS _ _ _ Ha). lia.
  - split; [by exists b| |].
    + rewrite Eq. by eapply chain_app.
    + cbn [pop_out set_out _segments_out _receiver]. rewrite EA. cbn [tail].
      destruct (ack (_header g)); destruct Hnum as [-> ->]; exact Hac2.
  - unfold room, inbound_stream in *. rewrite (io_read _ _ a Ha) in Hroom. rewrite (io_read _ _ a' Ha'), Ep.
    destruct Hroom as [?|E]; [by left|right]. pose proof (place_bound S i HS _ _ _ Ha'). lia.
  - unfold inbound_stream. by rewrite (io_read _ _ a' Ha'), (io_read _ _ a Ha), Ep.
Qed.

(** [A] hands over all it has queued: [B] comes to the end of it, and has been
    told all that [A] has come to. *)
Lemma hand_all W W' A B :
  joined W W' A B -> room S (recv_capacity cB) A B ->
  let A' := set_out A [] in
  let B' := fold_left segment_received (_segments_out A) B in
  joined W W' A' B' /\
  bytes_read (inbound_stream B') = bytes_read (inbound_stream B) /\
  place (_receiver B') = _next_seqno (_sender A) /\
  _checkpoint (_sender B') = place (_receiver A) /\ _checkpoint (_sender B) <= _checkpoint (_sender B') /\
  consecutive_retransmissions (_sender B') =
    (if _checkpoint (_sender B) <? _checkpoint (_sender B') then 0
     else consecutive_retransmissions (_sender B)) /\
  ended_in B' = ended_in B /\
  _time_since_last_segment_received B' =
    (if decide (_segments_out A = []) then _time_since_last_segment_received B else 0) /\
  _next_seqno (_sender B) <= _next_seqno (_sender B').
Proof.
  remember (_segments_out A) as q eqn:Eq. symmetry in Eq. revert A B Eq.
  induction q as [|g q IH]; intros A B Eq J Hroom; cbn [fold_left].
  - assert (set_out A [] = A) as -> by (destruct A; cbn in *; by rewrite Eq).
    pose proof (tw_chain _ _ _ _ _ (jn_to _ _ _ _ J)) as Hch.
    pose proof (tw_acks _ _ _ _ _ (jn_from _ _ _ _ J)) as Hac. rewrite Eq in Hch, Hac.
    cbn [chain acks] in Hch, Hac. rewrite Z.ltb_irrefl. split_and!; try done; lia.
  - destruct (hand_one W W' A B g q J Hroom Eq) as (J1 & Hr1 & E1 & Hp1 & Hc1 & En1 & Ee1 & Et1 & Hx1).
    destruct (IH (pop_out A) (segment_received B g)) as (J2 & E2 & Hp2 & Hk2 & Hc2 & En2 & Ee2 & Et2 & Hx2); try done.
    { cbn. by rewrite Eq. }
    split_and!; try done; try lia; [|by rewrite Ee2|rewrite Et2, Et1; by destruct (decide _)].
    rewrite En2, En1. destruct (Z.ltb_spec (_checkpoint (_sender B)) (_checkpoint (_sender (segment_received B g)))),
      (Z.ltb_spec (_checkpoint (_sender (segment_received B g)))
        (_checkpoint (_sender (fold_left segment_received q (segment_received B g))))),
      (Z.ltb_spec (_checkpoint (_sender B))
        (_checkpoint (_sender (fold_left segment_received q (segment_received B g))))); done || lia.
Qed.

(** [B]'s reader takes all there is. *)
Lemma joined_read W W' A B n :
  joined W W' A B -> 0 <= n -> buffer_size (inbound_stream B) <= n ->
  let '(B', d) := read_inbound B n in
  joined W W' A B' /\ place (_receiver B') = place (_receiver B) /\
  forall a, inorder S i (recv_capacity cB) (_receiver B) a ->
  exists a', inorder S i (recv_capacity cB) (_receiver B') a' /\ popped a' = Zlen (hist a') /\
    hist a' = hist a /\ d = zdrop (popped a) (hist a).
Proof.
  intros J Hn Hb. pose proof J as [HA HB [(a & Ha) Hch Hac] [Ha' Hch' Hac']].
  pose proof (read_live S' cB i' W' B n Hn HB) as HB'. unfold read_inbound in *.
  unfold inbound_stream in *.
  pose proof (fun a0 (H0 : inorder S i (recv_capacity cB) (_receiver B) a0) =>
    inorder_read S i (recv_capacity cB) (_receiver B) a0 n H0 Hb) as Hr.
  destruct (ByteStream.read (TCPReceiver.stream_out (_receiver B)) n) as [s d].
  cbn [fst] in HB'. destruct (Hr a Ha) as (a1 & Ha1 & _ & Ep & _ & Eh). split_and!.
  - split; [done|done| |by split].
    split; change (_receiver (on_inbound B (fun _ => s))) with (set_stream_out (_receiver B) s);
      [by exists a1|by rewrite Ep|]. rewrite Ep.
    eapply acks_mono_edge; [exact Hac|]. destruct (io_edge S i HS _ _ _ Ha) as (_ & -> & _).
    destruct (io_edge S i HS _ _ _ Ha1) as (_ & -> & _). cbn [recievedSYN recievedFIN set_stream_out].
    destruct (Hr a Ha) as (a2 & Ha2 & E2 & _ & _ & E3). pose proof (io_bound S i _ _ _ Ha).
    assert (popped a1 = popped a2) as -> by (by rewrite <- (io_read _ _ _ Ha1), <- (io_read _ _ _ Ha2)).
    rewrite E2, E3. lia.
  - exact Ep.
  - intros a0 H0. destruct (Hr a0 H0) as (a2 & H2 & E2 & _ & E4 & E5). by exists a2.
Qed.

(** An operation of [A] that receives nothing. *)
Lemma joined_moved W W1 W' A A' B :
  joined W W' A B -> live S cA i W1 A' -> moved S i A A' -> joined W1 W' A' B.
Proof.
  intros [HA HB [Ha Hch Hac] [(b & Hb) Hch' Hac']] HA' [Ek Ew Er (q & Eq & Hq & Hrep)].
  split; [done|done| |].
  - split; [done| |by rewrite Ek, Ew]. rewrite Eq. by eapply chain_app.
  - rewrite <- Er in Hb. split; [by exists b|by rewrite Er|]. rewrite Eq, Er in *.
    eapply (acks_replies S' i'); [exact Hac'|exact Hb| |exact Hrep|lia|lia|done|done].
    destruct (io_edge S' i' HS' _ _ _ Hb) as (E & _ & Hp). pose proof (io_bound S' i' _ _ _ Hb). unfold edge in Hp. lia.
Qed.
End Pair.

Lemma joined_sym S S' cA cB i i' W W' A B :
  joined S S' cA cB i i' W W' A B -> joined S' S cB cA i' i W' W B A.
Proof. intros []. by split. Qed.

(** ** When everything is acknowledged *)

(** A segment that carries nothing. *)
Definition hollow (g : TCPSegment) : Prop := seg_len g = 0.

Lemma hollow_flags g : hollow g ->
  syn (_header g) = false /\ fin (_header g) = false /\ Zlen (str (_payload g)) = 0.
Proof.
  unfold hollow, seg_len. pose proof (Zlen_nonneg (str (_payload g))).
  destruct (syn _), (fin _); cbn [b2i]; (split_and!; done || lia) || lia.
Qed.

Section Finished.
Context (S : list byte) (cfg : TCPConfig) (i : WrappingInt32).
Context (HS : Zlen S < 2 ^ 31 - 2) (Hsend : 0 <= send_capacity cfg < 2 ^ 32).

(** The acknowledged position is the last there is. *)
Lemma live_closed W c : live S cfg i W c -> _checkpoint (_sender c) = Zlen S + 2 -> closed (_sender c).
Proof.
  intros H Hk. destruct (live_inv S cfg i HS Hsend W c H) as (a & [Hfl Hsk] & _ & _ & _ & Hn & Hc).
  split; [apply H|]. split; [|apply (acknowledged_flight S _ Hfl); lia].
  pose proof (sk_next _ _ _ Hsk) as E. rewrite (lv_syn _ _ _ _ _ H) in E.
  pose proof (sk_bound S ltac:(lia) _ a Hsk). destruct (_fin _); [done|]. cbn [b2i] in E. lia.
Qed.

Lemma closed_send c b :
  closed (_sender c) ->
  closed (_sender (_send_segments c b)) /\
  _segments_out (_send_segments c b) = _segments_out c ++ drain (_receiver c) b (TCPSender._segments_out (_sender c)).
Proof.
  intros Hcl. destruct (send_segments_fields c b) as (-> & _ & -> & _). by rewrite (closed_fill _ Hcl).
Qed.

(** A finished sender answers what carries something with an empty segment. *)
Lemma closed_segment W c g :
  cinv S cfg i W c -> _sent_SYN c = true -> closed (_sender c) -> calm g ->
  let c' := segment_received c g in
  cinv S cfg i W c' /\ _sent_SYN c' = true /\ closed (_sender c') /\
  exists q, _segments_out c' = _segments_out c ++ q /\ Forall hollow q /\ (hollow g -> q = []).
Proof.
  intros H Hs Hcl [Hrst Hwin] c'. split; [by apply segment_cinv; [lia|..]|].
  unfold c'. rewrite segment_answer by auto. split; [by destruct (send_segments_fields (answer c g) false) as (_ & _ & _ & -> & _)|].
  destruct (working_inv S cfg i ltac:(lia) Hsend W c (ci_working _ _ _ _ _ H)) as (a & Hinv & _).
  pose proof (closed_ack S (_sender c) a (TCPHeader.ackno (_header g)) (win (_header g)) ltac:(lia) Hinv Hcl) as Ea.
  assert (closed (_sender (answer c g)) /\ _segments_out (answer c g) = _segments_out c /\
    Forall hollow (TCPSender._segments_out (_sender (answer c g))) /\
    (hollow g -> TCPSender._segments_out (_sender (answer c g)) = [])) as (Hcl' & Eo & Hh & Hno).
  { pose proof (ci_queue _ _ _ _ _ H) as Hq. unfold answer.
    set (c1 := if ack (_header g) then _ else _).
    assert (closed (_sender c1) /\ _segments_out c1 = _segments_out c /\ TCPSender._segments_out (_sender c1) = [] /\
      _sent_SYN c1 = true) as (H1 & H2 & H3 & H4).
    { unfold c1. destruct (ack _); [|done]. cbn [set_sender _sender]. change (_sender (set_receiver _ _)) with (_sender c).
      by rewrite Ea. }
    clearbody c1. rewrite H4, andb_true_r.
    destruct ((syn (_header g) || fin (_header g)) || negb (Zlen (str (_payload g)) =? 0)) eqn:E.
    - split_and!; [done|done| |].
      + cbn. rewrite H3. by repeat constructor.
      + intros (E1 & E2 & E3)%hollow_flags. by rewrite E1, E2, E3 in E.
    - rewrite H3. split_and!; done. }
  destruct (closed_send (answer c g) false Hcl') as [Hcl2 ->]. split; [done|]. rewrite Eo.
  eexists. split; [reflexivity|]. rewrite drain_false. split.
  - apply Forall_map. eapply List.Forall_impl; [|exact Hh]. intros x Hx. unfold stamp.
    by destruct (TCPReceiver.ackno _).
  - intros Hg. by rewrite (Hno Hg).
Qed.

Lemma closed_hand W c q :
  cinv S cfg i W c -> _sent_SYN c = true -> closed (_sender c) -> Forall calm q ->
  exists q', _segments_out (fold_left segment_received q c) = _segments_out c ++ q' /\
    Forall hollow q' /\ (Forall hollow q -> q' = []).
Proof.
  intros H Hs Hcl Hq. revert c H Hs Hcl. induction Hq as [|g q Hg _ IH]; intros c H Hs Hcl; cbn [fold_left].
  - exists []. by rewrite app_nil_r.
  - destruct (closed_segment W c g H Hs Hcl Hg) as (H1 & Hs1 & Hcl1 & q1 & E1 & Hh1 & Hn1).
    destruct (IH _ H1 Hs1 Hcl1) as (q2 & E2 & Hh2 & Hn2). exists (q1 ++ q2).
    rewrite E2, E1, app_assoc. split_and!; [done|by apply Forall_app|].
    intros Hh. inversion Hh; subst. by rewrite Hn1, Hn2.
Qed.

(** The clock of a finished connection: nothing is sent, and it stays active
    only while it lingers. *)
Lemma closed_clock c ms :
  closed (_sender c) -> _sent_SYN c = true -> TCPSender._segments_out (_sender c) = [] ->
  consecutive_retransmissions (_sender c) <= MAX_RETX_ATTEMPTS ->
  _segments_out (TCPConnection.tick c ms) = _segments_out c.
Proof.
  intros Hcl Hs Hq Hn. unfold TCPConnection.tick. set (c1 := set_time _ _).
  assert (closed (_sender c1)) as Hcl1 by (by apply closed_tick).
  assert (TCPSender._segments_out (_sender c1) = []) as Hq1.
  { destruct Hcl as (_ & _ & Hf). unfold c1, TCPSender.tick. cbn [set_time set_sender _sender].
    cbn [set_timer _segments_in_flight]. rewrite Hf. cbn. by rewrite Hf. }
  assert (consecutive_retransmissions (_sender c1) <= MAX_RETX_ATTEMPTS) as Hn1
    by (unfold c1; cbn [set_time set_sender _sender]; by rewrite closed_tick_count).
  rewrite Z.gtb_ltb. destruct (Z.ltb_spec MAX_RETX_ATTEMPTS (consecutive_retransmissions (_sender c1))); [lia|].
  change (_sent_SYN c1) with (_sent_SYN c). rewrite Hs.
  destruct (closed_send c1 false Hcl1) as [_ ->]. rewrite Hq1. by rewrite app_nil_r.
Qed.

Lemma closed_expires W c a ms c0 S0 i0 :
  live S cfg i W c -> closed (_sender c) -> consecutive_retransmissions (_sender c) <= MAX_RETX_ATTEMPTS ->
  inorder S0 i0 c0 (_receiver c) a -> recievedFIN (_receiver c) = true ->
  10 * rt_timeout cfg <= u64 (_time_since_last_segment_received c + ms) ->
  active (TCPConnection.tick c ms) = false.
Proof.
  intros H Hcl Hn Hr Hfin Ht. pose proof (live_sent S cfg i W c H) as Hs.
  destruct (tick_closed c ms Hcl Hs Hn) as (s & Hcl' & Est & Eb & ->).
  destruct (live_inv S cfg i HS Hsend W c H) as (b & Hinv & _ & _ & _ & _ & _).
  destruct (closed_numbers S _ b Hinv Hcl) as (_ & _ & _ & Hb).
  pose proof (proj2 Hinv) as Hsk. destruct (sk_fin _ _ _ Hsk (proj1 (proj2 Hcl))) as [He Hp].
  rewrite clean_shutdown_active.
  - cbn [set_time set_sender _cfg time_since_last_segment_received _time_since_last_segment_received].
    rewrite (wk_cfg _ _ _ _ _ (ci_working _ _ _ _ _ (lv_cinv _ _ _ _ _ H))).
    destruct (Z.ltb_spec (u64 (time_since_last_segment_received c + ms)) (10 * rt_timeout cfg)) as [Hlt|];
      [unfold time_since_last_segment_received in Hlt; lia|by rewrite andb_false_r].
  - pose proof (st_ref _ _ _ (tr_stores _ _ _ (io_tracks _ _ _ _ _ Hr))) as Href.
    change (input_ended (_output (_reassembler (_receiver c))) = true).
    unfold input_ended. by rewrite (ref_ended _ _ Href), (io_fin _ _ _ _ _ Hr).
  - cbn [set_time set_sender _sender]. unfold stream_in. rewrite Est, (stream_eof _ b (sk_ref _ _ _ Hsk)), He, Hp.
    by rewrite Z.sub_diag.
  - exact (io_whole _ _ _ _ _ Hr).
  - unfold TCPConnection.bytes_in_flight. cbn [set_time set_sender _sender]. rewrite Eb. exact Hb.
Qed.
End Finished.
