(* ===== verification/Benchmark.v ===== *)
(** * The throughput benchmark

    Models [src/apps/tcp_benchmark.cc]: two connections in one process hand
    each other their segments, in order or the other way round, while one
    sends a long string to the other.  The clock and the printed throughput
    are left out.  The loops of the program run with fuel; the theorem of this
    file says how much is enough. *)
From stdpp Require Import base tactics list numbers option.
From Stdlib Require Import ZArith Lia.
From S2P Require Import Prelude WrappingIntegers ByteStream StreamReassembler Buffer TCPHeader.
From S2P Require Import TCPSegment SegmentStream TCPReceiver TCPSender TCPConnection BuiltSegments Progress Lossless.

Definition len : Z := 100 * 1024 * 1024.

(** The first loop of [move_segments], for at most [n] segments. *)
Fixpoint take_segments (n : nat) (x : TCPConnection) (segments : list TCPSegment)
  : TCPConnection * list TCPSegment :=
  match n, segments_out x with
  | S n', g :: _ => take_segments n' (pop_out x) (segments ++ [g])
  | _, _ => (x, segments)
  end.

Definition move_segments (x y : TCPConnection) (reorder : bool) : TCPConnection * TCPConnection :=
  let '(x, segments) := take_segments (length (segments_out x)) x [] in
  (x, fold_left segment_received (if reorder then rev segments else segments) y).

(** The local variables of [main_loop] that the loops change. *)
Record Bench := mkBench {
  conn_x : TCPConnection;
  conn_y : TCPConnection;
  bytes_to_send : Buffer;
  x_closed : bool;
  string_received : list byte
}.

(** The outcome of code that may also not end: [None] when the fuel runs out. *)
Definition running (A : Type) : Type := option (outcome A).
#[global] Instance running_ret : MRet running := fun A a => Some (Ok a).
#[global] Instance running_bind : MBind running := fun A B f m =>
  match m with
  | None => None
  | Some (Throw e) => Some (Throw e)
  | Some (Ok a) => f a
  end.
Definition raise {A} (e : exn) : running A := Some (Throw e).
Definition of_outcome {A} (o : outcome A) : running A := Some o.

(** [while (bytes_to_send.size() and x.remaining_outbound_capacity())] *)
Fixpoint write_loop (fuel : nat) (x : TCPConnection) (bytes : Buffer) : running (TCPConnection * Buffer) :=
  match fuel with
  | O => None
  | S fuel' =>
      if negb (size bytes =? 0) && negb (remaining_outbound_capacity x =? 0) then
        let want := Z.min (remaining_outbound_capacity x) (size bytes) in
        let '(x, written) := TCPConnection.write x (ztake want (str bytes)) in
        if negb (want =? written) then raise RuntimeError
        else
          bytes ← of_outcome (remove_prefix bytes written);
          write_loop fuel' x bytes
      else mret (x, bytes)
  end.

(** The lambda [loop]. *)
Definition loop (reorder : bool) (b : Bench) : running Bench :=
  r ← write_loop (S (Z.to_nat (size (bytes_to_send b)))) (conn_x b) (bytes_to_send b);
  let '(x, bytes) := r in
  let close := (size bytes =? 0) && negb (x_closed b) in
  let x := if close then end_input_stream x else x in
  let closed := x_closed b || close in
  let '(x, y) := move_segments x (conn_y b) reorder in
  let '(y, x) := move_segments y x false in
  let available_output := buffer_size (inbound_stream y) in
  let '(y, received) :=
    if available_output >? 0 then read_inbound y available_output else (y, []) in
  let x := TCPConnection.tick x 1000 in
  let y := TCPConnection.tick y 1000 in
  mret (mkBench x y bytes closed (string_received b ++ received)).

(** A [while] loop around [loop]. *)
Fixpoint while_loop (fuel : nat) (reorder : bool) (guard : Bench -> bool) (b : Bench) : running Bench :=
  match fuel with
  | O => None
  | S fuel' =>
      if guard b then b ← loop reorder b; while_loop fuel' reorder guard b else mret b
  end.

(** Up to the first loop: [random_x] and [random_y] are the initial sequence
    numbers that the senders draw. *)
Definition start (config : TCPConfig) (random_x random_y : Z) (string_to_send : list byte) : Bench :=
  mkBench (connect (TCPConnection.new config random_x))
    (end_input_stream (TCPConnection.new config random_y))
    (buf_of_string string_to_send) false [].

Definition y_reading (b : Bench) : bool := negb (eof (inbound_stream (conn_y b))).
Definition some_active (b : Bench) : bool := active (conn_x b) || active (conn_y b).

Definition main_loop (fuel : nat) (reorder : bool) (config : TCPConfig) (random_x random_y : Z)
    (string_to_send : list byte) : running Bench :=
  b ← while_loop fuel reorder y_reading (start config random_x random_y string_to_send);
  if negb (bool_decide (string_received b = string_to_send)) then raise RuntimeError
  else while_loop fuel reorder some_active b.

(** [main]: both runs, with [TCPConfig config], on the strings that they draw. *)
Definition main (fuel : nat) (random : Z * Z * (Z * Z)) (string1 string2 : list byte) : running (Bench * Bench) :=
  b1 ← main_loop fuel false default_config (fst (fst random)) (snd (fst random)) string1;
  b2 ← main_loop fuel true default_config (fst (snd random)) (snd (snd random)) string2;
  mret (b1, b2).

(** ** The program in order *)

Lemma take_segments_all x segments :
  take_segments (length (TCPConnection._segments_out x)) x segments =
    (set_out x [], segments ++ TCPConnection._segments_out x).
Proof.
  remember (TCPConnection._segments_out x) as q eqn:E. symmetry in E. revert x segments E.
  induction q as [|g q IH]; intros x segments E; cbn [take_segments length].
  - rewrite app_nil_r. destruct x; cbn in *. by rewrite E.
  - unfold segments_out. rewrite E, IH by (cbn; by rewrite E). by rewrite <- app_assoc.
Qed.

Lemma move_in_order x y :
  move_segments x y false = (set_out x [], fold_left segment_received (TCPConnection._segments_out x) y).
Proof. unfold move_segments, segments_out. by rewrite take_segments_all. Qed.

Section Run.
Context (S : list byte) (cfg : TCPConfig) (rx ry : Z).
Context (HS : Zlen S < 2 ^ 31 - 2) (Hsend : 1 <= send_capacity cfg < 2 ^ 32).
Context (Hrecv : 1 <= recv_capacity cfg < 2 ^ 16) (Hrt : 0 <= rt_timeout cfg < 2 ^ 16).

Let ix : WrappingInt32 := default (mkWrappingInt32 rx) (fixed_isn cfg).
Let iy : WrappingInt32 := default (mkWrappingInt32 ry) (fixed_isn cfg).
Context (Vx : valid ix) (Vy : valid iy).

Lemma HT : Zlen (@nil byte) < 2 ^ 31 - 2.
Proof. done. Qed.
Lemma Hsend0 : 0 <= send_capacity cfg < 2 ^ 32.
Proof. lia. Qed.

Abbreviation chk c := (_checkpoint (TCPConnection._sender c)).
Abbreviation next c := (_next_seqno (TCPConnection._sender c)).
Abbreviation count c := (consecutive_retransmissions (TCPConnection._sender c)).
Abbreviation at_ c := (place (TCPConnection._receiver c)).
Abbreviation time c := (_time_since_last_segment_received c).
Abbreviation pair W := (joined S [] cfg cfg ix iy W []).

(** *** Opening *)

Lemma new_working T i rnd :
  default (mkWrappingInt32 rnd) (fixed_isn cfg) = i -> working T cfg i [] (TCPConnection.new cfg rnd).
Proof.
  intros <-. split; try done.
  - exact (TCPSender.reach_new T (send_capacity cfg) (rt_timeout cfg) _).
  - apply StreamReassembler.new_settled. cbn. lia.
Qed.

(** The first [_send_segments] of a connection sends SYN. *)
Lemma open_live T i W c :
  Zlen T < 2 ^ 31 - 2 -> working T cfg i W c -> _syn (TCPConnection._sender c) = false ->
  chk c = 0 -> _rwnd (TCPConnection._sender c) = 1 -> count c = 0 ->
  sender_all plain (TCPConnection._sender c) -> TCPConnection._segments_out c = [] ->
  TCPSender._segments_out (TCPConnection._sender c) = [] -> TCPReceiver.ackno (TCPConnection._receiver c) = None ->
  let c' := _send_segments c false in
  live T cfg i W c' /\ chk c' = 0 /\ _rwnd (TCPConnection._sender c') = 1 /\ next c' = 1 /\ count c' = 0 /\
  TCPConnection._receiver c' = TCPConnection._receiver c /\
  chain T i 0 (TCPConnection._segments_out c') 1 /\
  Forall (fun g => ack (_header g) = false) (TCPConnection._segments_out c') /\
  ended_in c' = ended_in c /\ time c' = time c.
Proof.
  intros HT Hw Hsyn Hk Hr Hn Hp Ho Hq Hack c'.
  destruct (working_inv T cfg i ltac:(lia) Hsend0 W c Hw) as (a & Hinv & _ & _).
  destruct (TCPSender.reach_params T (send_capacity cfg) (rt_timeout cfg) i ltac:(lia) Hsend0 W _ (wk_sender _ _ _ _ _ Hw)) as [Hisn _].
  destruct (syn_segment_inv T ltac:(lia) _ a Hinv Hsyn) as (Hinv' & Hsyn' & Hn' & (_ & Er & Ek & _ & En & _)).
  destruct (fill_chain T i HT _ a Hinv Hisn) as (q & Eq & Hch).
  pose proof (sk_next _ _ _ (proj2 Hinv)) as E0. rewrite Hsyn in E0. rewrite E0, Hn' in Hch. rewrite Hq in Eq. cbn [app] in Eq.
  destruct (send_segments_fields c false) as (Es & Erc & Eo & _). fold c' in Es, Erc, Eo.
  rewrite Ho in Eo. cbn [app] in Eo. unfold TCPSender.segments_out in Eo. rewrite Eq, drain_false in Eo.
  pose proof (fill_window_all _ Hp) as [Hpo Hpf]. rewrite Eq in Hpo.
  assert (Forall (reply_of (TCPConnection._receiver c)) (TCPConnection._segments_out c')) as Hrep.
  { rewrite Eo. apply Forall_map. eapply List.Forall_impl; [|exact Hpo]. intros g. apply stamp_reply. }
  assert (next c' = 1 /\ chk c' = 0 /\ _rwnd (TCPConnection._sender c') = 1 /\ count c' = 0) as (E1 & E2 & E3 & E4).
  { rewrite Es. cbn. by rewrite Hn', Ek, Er, Hk, Hr, En. }
  split; [split|split_and!; try done].
  - apply send_segments_cinv; [lia|exact Hsend0|done].
  - by rewrite Es.
  - unfold within. rewrite E1, E2, E3. lia.
  - left. rewrite E1, E2, E3. lia.
  - rewrite Es. by split.
  - eapply List.Forall_impl; [|exact Hrep]. intros g (Hg & Hwin & _). split; [done|]. rewrite Hwin.
    apply Z.mod_pos_bound. lia.
  - rewrite Eo, <- drain_false. by apply chain_drain.
  - eapply List.Forall_impl; [|exact Hrep]. intros g (_ & _ & Hg). by rewrite Hack in Hg.
  - apply (send_segments_grows T cfg i HT Hsend0 (fun _ => False) W c false Hw).
  - apply (send_segments_fields c false).
Qed.

(** *** Feeding the sender *)

Lemma write_time c d : time (fst (TCPConnection.write c d)) = time c.
Proof.
  unfold TCPConnection.write. destruct (ByteStream.write _ _) as [st m]. cbn [fst].
  by destruct (send_segments_fields (on_stream_in c (fun _ => st)) false) as (_ & _ & _ & _ & _ & -> & _).
Qed.

Lemma live_capacity W c : live S cfg ix W c ->
  remaining_outbound_capacity c = send_capacity cfg - buffer_size (stream_in (TCPConnection._sender c)) /\
  0 <= buffer_size (stream_in (TCPConnection._sender c)) <= send_capacity cfg /\
  ByteStream.wf (stream_in (TCPConnection._sender c)).
Proof.
  intros H. pose proof (wk_sender _ _ _ _ _ (ci_working _ _ _ _ _ (lv_cinv _ _ _ _ _ H))) as Hr.
  destruct (reach_timer (rt_timeout cfg) (send_capacity cfg) ltac:(lia) S ix W _ Hr) as (_ & _ & _ & _ & Ec).
  destruct (live_inv S cfg ix HS Hsend0 W c H) as (a & Hinv & _).
  pose proof (ref_wf _ _ (sk_ref _ _ _ (proj2 Hinv))) as Hwf. unfold remaining_outbound_capacity, stream_in, buffer_size.
  rewrite remaining_capacity_eq by done. rewrite Ec. pose proof (ByteStream.wf_end _ Hwf). by rewrite Ec in *.
Qed.

Lemma write_loop_feeds fuel W x bytes :
  live S cfg ix W x -> W ++ str bytes = S -> buf_wf bytes -> size bytes < Z.of_nat fuel ->
  exists W' x' bytes', write_loop fuel x bytes = Some (Ok (x', bytes')) /\ live S cfg ix W' x' /\
    W' ++ str bytes' = S /\ buf_wf bytes' /\ moved S ix x x' /\ count x' = count x /\
    ended_in x' = ended_in x /\ time x' = time x /\
    (str bytes' = [] \/ remaining_outbound_capacity x' = 0) /\ (str bytes = [] -> str bytes' = []).
Proof.
  revert W x bytes. induction fuel as [|fuel IH]; intros W x bytes Hx HW Hbuf Hfuel;
    [unfold size in Hfuel; pose proof (Zlen_nonneg (str bytes)); lia|].
  cbn [write_loop]. destruct (negb (size bytes =? 0) && negb (remaining_outbound_capacity x =? 0)) eqn:E.
  - bsplit. destruct (live_capacity W x Hx) as (Ec & Hb & Hwf).
    unfold size in *. set (want := Z.min (remaining_outbound_capacity x) (Zlen (str bytes))).
    assert (0 < want <= Zlen (str bytes)) as Hwant by (pose proof (Zlen_nonneg (str bytes)); lia).
    assert (Em : snd (TCPConnection.write x (ztake want (str bytes))) = want).
    { destruct (write_spec _ (ztake want (str bytes)) Hwf) as (Em & _). unfold TCPConnection.write.
      destruct (ByteStream.write _ _) as [st m]. cbn [fst snd] in *. rewrite Em, Zlen_ztake by lia.
      pose proof (remaining_capacity_eq _ Hwf) as Er. unfold remaining_outbound_capacity in *. lia. }
    assert (ztake want (ztake want (str bytes)) = ztake want (str bytes)) as Ett.
    { apply ztake_ge. rewrite Zlen_ztake by lia. lia. }
    destruct (write_live S cfg ix HS Hsend0 W x (ztake want (str bytes)) Hx) as (Hx1 & Hm & En & Ee).
    { rewrite Em, Ett, <- HW. apply prefix_app. exists (zdrop want (str bytes)). symmetry. apply ztake_zdrop. }
    pose proof (write_time x (ztake want (str bytes))) as Et. rewrite Em, Ett in Hx1.
    destruct (TCPConnection.write x (ztake want (str bytes))) as [x1 m]. cbn [fst snd] in *. subst m.
    rewrite Z.eqb_refl. cbn [negb].
    destruct (remove_prefix_spec bytes want Hbuf ltac:(unfold size; lia)) as (bytes1 & -> & Hbuf1 & Es).
    cbn [of_outcome mbind running_bind].
    destruct (IH (W ++ ztake want (str bytes)) x1 bytes1) as (W' & x' & bytes' & F1 & F2 & F3 & F4 & F5 & F6 & F7 & F8 & F9 & F10); try done.
    { by rewrite Es, <- app_assoc, ztake_zdrop. }
    { rewrite Es, Zlen_zdrop by lia. lia. }
    exists W', x', bytes'. split_and!; try done; try congruence; [by transitivity x1|].
    intros E0. rewrite E0, (@Zlen_nil byte) in Hwant. lia.
  - exists W, x, bytes. split_and!; try done. apply andb_false_iff in E as [E|E]; bsplit; [left|by right].
    unfold size in E. by apply Zlen_0_inv.
Qed.

(** A connection with data to send, or whose stream has ended, has something in
    flight or has sent the end of its stream. *)
Lemma sated_sends T i W c :
  Zlen T < 2 ^ 31 - 2 -> live T cfg i W c ->
  (ended_in c = false -> 0 < buffer_size (stream_in (TCPConnection._sender c))) ->
  chk c < next c \/ next c = Zlen T + 2.
Proof.
  intros HT H Hbuf. destruct (live_inv T cfg i HT Hsend0 W c H) as (a & [_ Hsk] & _ & _ & Hr & _).
  destruct (lv_sated _ _ _ _ _ H) as [Hs|Hs]; [left; lia|right]. unfold offered in Hs.
  pose proof (ref_wf _ _ (sk_ref _ _ _ Hsk)) as Hwf. pose proof (ByteStream.wf_end _ Hwf) as Hb.
  pose proof (ref_ended _ _ (sk_ref _ _ _ Hsk)) as Ee. unfold ended_in, stream_in, input_ended, buffer_size in *.
  destruct (isInputEnded _) eqn:E; [|specialize (Hbuf eq_refl); cbn [andb b2i] in Hs; lia].
  destruct (_fin (TCPConnection._sender c)) eqn:Ef; cbn [andb negb b2i] in Hs; [|lia].
  destruct (sk_fin _ _ _ Hsk Ef) as [He Hp]. pose proof (sk_next _ _ _ Hsk) as En.
  rewrite (lv_syn _ _ _ _ _ H), Ef, Hp, (sk_ended _ _ _ Hsk He) in En. cbn [b2i] in En. lia.
Qed.

(** So has the sender after the first half of [loop]. *)
Lemma fed_sends W c :
  live S cfg ix W c -> (ended_in c = false -> remaining_outbound_capacity c = 0) ->
  chk c < next c \/ next c = Zlen S + 2.
Proof.
  intros H Hrem. apply (sated_sends S ix W); [done|done|]. intros E. specialize (Hrem E).
  destruct (live_capacity W c H) as (Ec & Hb & _). lia.
Qed.

(** *** One round *)

(** The state at the head of the loops after at most [n] rounds: [x] has been
    given [W], and [y]'s reader has everything that has arrived. *)
Record bench_ok (n : Z) (W : list byte) (a : Stream) (b : Bench) : Prop := {
  bo_pair : pair W (conn_x b) (conn_y b);
  bo_todo : W ++ str (bytes_to_send b) = S;
  bo_buf : buf_wf (bytes_to_send b);
  bo_closed : ended_in (conn_x b) = x_closed b;
  bo_none : x_closed b = true -> str (bytes_to_send b) = [];
  bo_ended : ended_in (conn_y b) = true;
  bo_acked : chk (conn_x b) = at_ (conn_y b);
  bo_reader : inorder S ix (recv_capacity cfg) (TCPConnection._receiver (conn_y b)) a;
  bo_read : popped a = Zlen (hist a);
  bo_got : string_received b = hist a;
  bo_count_x : 0 <= count (conn_x b) <= 1 /\ (count (conn_x b) = 0 \/ chk (conn_x b) < next (conn_x b));
  bo_count_y : 0 <= count (conn_y b) <= 1 /\ (count (conn_y b) = 0 \/ chk (conn_y b) < at_ (conn_x b));
  bo_time : 0 <= time (conn_x b) <= 1000 * n /\ 0 <= time (conn_y b) <= 1000 * n
}.

(** After the first half of [loop]: everything [x] can take has been written. *)
Lemma feed n W a b :
  bench_ok n W a b ->
  exists W' x1 bytes,
    write_loop (Datatypes.S (Z.to_nat (size (bytes_to_send b)))) (conn_x b) (bytes_to_send b) = Some (Ok (x1, bytes)) /\
    let close := (size bytes =? 0) && negb (x_closed b) in
    let x := if close then end_input_stream x1 else x1 in
    pair W' x (conn_y b) /\ W' ++ str bytes = S /\ buf_wf bytes /\
    ended_in x = x_closed b || close /\ (x_closed b || close = true -> str bytes = []) /\
    chk x = chk (conn_x b) /\ next (conn_x b) <= next x /\ at_ x = at_ (conn_x b) /\
    count x = count (conn_x b) /\ time x = time (conn_x b) /\
    (chk x < next x \/ next x = Zlen S + 2).
Proof.
  intros [Hp Hd Hb Hc Hnn _ _ _ _ _ _ _ _]. pose proof Hp as [Hx _ _ _].
  destruct (write_loop_feeds (Datatypes.S (Z.to_nat (size (bytes_to_send b)))) W (conn_x b) (bytes_to_send b) Hx Hd Hb)
    as (W' & x1 & bytes & -> & Hx1 & Hd1 & Hb1 & Hm1 & En1 & Ee1 & Et1 & Hor & Hnil); [unfold size; lia|].
  exists W', x1, bytes. split; [done|]. cbv zeta.
  assert ((size bytes =? 0) = true -> W' = S) as HW'.
  { intros E. bsplit. unfold size in E. apply Zlen_0_inv in E. rewrite <- Hd1, E. by rewrite app_nil_r. }
  destruct ((size bytes =? 0) && negb (x_closed b)) eqn:E.
  - apply andb_true_iff in E as [E1 E2]. specialize (HW' E1). subst W'.
    destruct (end_live S cfg ix HS Hsend0 x1 Hx1) as (Hx2 & Hm2 & En2 & Ee2).
    assert (moved S ix (conn_x b) (end_input_stream x1)) as Hm by (by transitivity x1).
    pose proof (joined_moved S [] cfg cfg ix iy HT Hrecv W S [] _ _ _ Hp Hx2 Hm) as Hp2.
    destruct Hm as [Ek _ Er (q & _ & Hq & _)]. apply chain_le in Hq. rewrite orb_true_r, Ek, Er.
    split_and!; try done; [|congruence|..].
    + intros _. bsplit. by apply Zlen_0_inv.
    + rewrite <- Et1. exact (proj1 (proj2 (proj2 (proj2 (proj2 (proj2
        (send_segments_fields (on_stream_in x1 end_input) false))))))).
    + rewrite <- Ek. apply (fed_sends S); [done|congruence].
  - pose proof (joined_moved S [] cfg cfg ix iy HT Hrecv W W' [] _ _ _ Hp Hx1 Hm1) as Hp2.
    destruct Hm1 as [Ek _ Er (q & _ & Hq & _)]. apply chain_le in Hq. rewrite orb_false_r, Er.
    split_and!; try done; try congruence; [intros Hcl; by apply Hnil, Hnn|].
    apply (fed_sends W'); [done|]. rewrite Ee1, Hc. intros Hx0.
    rewrite Hx0, andb_true_r in E. destruct Hor as [E0|?]; [|done].
    unfold size in E. by rewrite E0, (@Zlen_nil byte) in E.
Qed.

(** The second half: [x] hands over what it has queued, then [y]. *)
Lemma room_y W x y a :
  pair W x y -> inorder S ix (recv_capacity cfg) (TCPConnection._receiver y) a -> popped a = Zlen (hist a) ->
  room S (recv_capacity cfg) x y.
Proof.
  intros [Hx _ [_ Hch Hac] _] Ha Hpop. apply acks_le in Hac as [Hk He].
  pose proof (lv_within _ _ _ _ _ Hx) as Hin. unfold within in Hin. unfold room, inbound_stream.
  destruct (live_inv S cfg ix HS Hsend0 W x Hx) as (_ & _ & _ & _ & Hr & _).
  rewrite (io_read S ix HS (recv_capacity cfg) _ a Ha).
  destruct (io_edge S ix HS _ _ a Ha) as (_ & Ee & _). rewrite Ee in He.
  rewrite (io_place S ix HS _ _ a Ha) in *. pose proof (io_full S ix _ _ a Ha) as Hf.
  destruct (recievedSYN _) eqn:Es; [|destruct (io_none _ _ _ _ _ Ha Es) as [Eh Ef]; rewrite Ef in *;
    rewrite Hpop, Eh, (@Zlen_nil byte) in *; cbn [b2i] in *; left; lia].
  destruct (recievedFIN _); cbn [b2i] in *; [right; rewrite Hf by done; lia|left; lia].
Qed.

Lemma exchange W x y a :
  pair W x y -> inorder S ix (recv_capacity cfg) (TCPConnection._receiver y) a -> popped a = Zlen (hist a) ->
  let y1 := fold_left segment_received (TCPConnection._segments_out x) y in
  let x2 := fold_left segment_received (TCPConnection._segments_out y1) (set_out x []) in
  let y2 := set_out y1 [] in
  pair W (set_out x []) y1 /\ pair W x2 y2 /\ (at_ y2 = next x /\ chk x2 = next x /\ chk y2 = at_ x /\ at_ x2 = next y2) /\
  (next x <= next x2 /\ next y <= next y2 /\ chk y <= chk y2) /\
  (count x2 = (if chk x <? next x then 0 else count x) /\ count y2 = if chk y <? at_ x then 0 else count y) /\
  (ended_in x2 = ended_in x /\ ended_in y2 = ended_in y) /\
  bytes_read (inbound_stream y2) = bytes_read (inbound_stream y) /\
  (time x2 = (if decide (TCPConnection._segments_out y1 = []) then time x else 0)) /\
  (time y2 = if decide (TCPConnection._segments_out x = []) then time y else 0).
Proof.
  intros Hp Ha Hpop y1 x2 y2. pose proof (room_y W x y a Hp Ha Hpop) as Hroom.
  destruct (hand_all S [] cfg cfg ix iy HS HT Vx Hsend0 Hrecv W [] x y Hp Hroom)
    as (Hp0 & Hr1 & Hat1 & Hk1 & Hle1 & Hn1 & He1 & Ht1 & Hx1). fold y1 in Hp0, Hr1, Hat1, Hk1, Hle1, Hn1, He1, Ht1, Hx1.
  pose proof (joined_sym _ _ _ _ _ _ _ _ _ _ Hp0) as Hp1.
  assert (room [] (recv_capacity cfg) y1 (set_out x [])) as Hroom2.
  { left. destruct (live_inv [] cfg iy HT Hsend0 [] y1 (jn_left _ _ _ _ _ _ _ _ _ _ Hp1)) as (_ & _ & _ & _ & _ & Hn & _).
    destruct (jn_to _ _ _ _ _ _ _ _ _ _ Hp1) as [(b & Hb) _ _]. unfold inbound_stream.
    rewrite (io_read [] iy HT (recv_capacity cfg) _ b Hb). pose proof (io_bound [] iy _ _ b Hb).
    rewrite (@Zlen_nil byte) in Hn. lia. }
  destruct (hand_all [] S cfg cfg iy ix HT HS Vy Hsend0 Hrecv [] W y1 (set_out x []) Hp1 Hroom2)
    as (Hp2 & Hr2 & Hat2 & Hk2 & Hle2 & Hn2 & He2 & Ht2 & Hx2). fold x2 in Hp2, Hr2, Hat2, Hk2, Hle2, Hn2, He2, Ht2, Hx2.
  apply joined_sym in Hp2. change (chk (set_out x [])) with (chk x) in *.
  rewrite Hk2, Hat1 in Hn2. rewrite Hk1 in Hn1.
  split; [exact Hp0|]. split; [exact Hp2|]. split_and!; try done. by rewrite Hk2.
Qed.

(** [y]'s reader takes what has arrived. *)
Definition take_output (y : TCPConnection) : TCPConnection * list byte :=
  let available_output := buffer_size (inbound_stream y) in
  if available_output >? 0 then read_inbound y available_output else (y, []).

Lemma take_output_spec W x y a :
  pair W x y -> inorder S ix (recv_capacity cfg) (TCPConnection._receiver y) a ->
  let '(y', d) := take_output y in
  pair W x y' /\ at_ y' = at_ y /\ TCPConnection._sender y' = TCPConnection._sender y /\ time y' = time y /\
  TCPConnection._segments_out y' = TCPConnection._segments_out y /\ d = zdrop (popped a) (hist a) /\
  exists a', inorder S ix (recv_capacity cfg) (TCPConnection._receiver y') a' /\
    popped a' = Zlen (hist a') /\ hist a' = hist a.
Proof.
  intros Hp Ha. unfold take_output. pose proof (io_bound S ix _ _ a Ha) as Hb.
  pose proof (stream_buffered _ _ (st_ref _ _ _ (tr_stores _ _ _ (io_tracks _ _ _ _ _ Ha)))) as Hs.
  change (buffer_size (inbound_stream y) = Zlen (hist a) - popped a) in Hs. rewrite Hs.
  rewrite Z.gtb_ltb. destruct (Z.ltb_spec 0 (Zlen (hist a) - popped a)) as [Hlt|Hge].
  - pose proof (joined_read S [] cfg cfg ix iy HS W [] x y (Zlen (hist a) - popped a) Hp ltac:(lia) ltac:(lia)) as H.
    unfold read_inbound in *. destruct (ByteStream.read _ _) as [st d]. destruct H as (Hp' & Hat & Hr).
    destruct (Hr a Ha) as (a' & Ha' & Hp1 & Hh & Hd). split_and!; try done. by exists a'.
  - split_and!; try done; [symmetry; apply zdrop_ge; lia|]. exists a. split_and!; [done|lia|done].
Qed.

Lemma in_order_got c r r' a a' :
  inorder S ix c r a -> inorder S ix c r' a' -> popped a' = Zlen (hist a) ->
  hist a ++ zdrop (popped a') (hist a') = hist a'.
Proof.
  intros H H' E. pose proof (io_bound _ _ _ _ _ H) as Hb. pose proof (io_bound _ _ _ _ _ H') as Hb'.
  pose proof (st_prefix _ _ _ (tr_stores _ _ _ (io_tracks _ _ _ _ _ H))) as P.
  pose proof (st_prefix _ _ _ (tr_stores _ _ _ (io_tracks _ _ _ _ _ H'))) as P'.
  transitivity (ztake (Zlen (hist a)) (hist a') ++ zdrop (Zlen (hist a)) (hist a')); [|apply ztake_zdrop].
  rewrite E. f_equal. rewrite P at 1. rewrite P'. unfold ztake. rewrite take_take. f_equal. lia.
Qed.

Lemma bench_round n W a b :
  bench_ok n W a b -> 0 <= n < 2 ^ 40 ->
  exists W' a' b', loop false b = Some (Ok b') /\ bench_ok (n + 1) W' a' b' /\
    next (conn_x b) <= chk (conn_x b') /\
    (chk (conn_x b) < chk (conn_x b') \/ chk (conn_x b') = Zlen S + 2) /\
    chk (conn_y b') = at_ (conn_x b) /\ next (conn_y b) <= at_ (conn_x b').
Proof.
  intros H Hn. destruct (feed n W a b H) as (W' & x1 & bytes & Hloop & Hfeed). unfold loop.
  rewrite Hloop. cbn [mbind running_bind]. cbv zeta in Hfeed. revert Hfeed.
  set (closed := x_closed b || _). set (x := if _ && _ then _ else _).
  intros (Hp & Hd & Hbuf & Hcl & Hnil & Ek & Enx & Eat & Ect & Etm & Hsend').
  destruct H as [_ _ _ _ _ Hen Hak Hrd Hpop Hgot [Hcx Hcx'] [Hcy Hcy'] [Htx Hty]].
  pose proof (exchange W' x (conn_y b) a Hp Hrd Hpop) as Hex. cbv zeta in Hex. rewrite !move_in_order. cbv zeta. revert Hex.
  set (y1 := fold_left segment_received (TCPConnection._segments_out x) (conn_y b)).
  set (x2 := fold_left segment_received (TCPConnection._segments_out y1) (set_out x [])).
  set (y2 := set_out y1 []).
  intros (_ & Hp2 & (Ha1 & Ha2 & Ha3 & Ha4) & (Hm1 & Hm2 & Hm3) & (Hc1 & Hc2) & (He1 & He2) & Hrd2 & Ht1 & Ht2).
  destruct (jn_to _ _ _ _ _ _ _ _ _ _ Hp2) as [(a2 & Hin2) _ _].
  pose proof (take_output_spec W' x2 y2 a2 Hp2 Hin2) as Hout. fold (take_output y2).
  destruct (take_output y2) as [y3 received]. destruct Hout as (Hp3 & Hat3 & Es3 & Et3 & _ & Erec & a3 & Hin3 & Hpop3 & Hh3).
  assert (popped a2 = Zlen (hist a)) as Epop.
  { rewrite <- (io_read S ix HS (recv_capacity cfg) _ a2 Hin2), <- Hpop,
      <- (io_read S ix HS (recv_capacity cfg) _ a Hrd). exact Hrd2. }
  (* the counters are zero when the clock ticks *)
  assert (count x2 = 0) as Cx by (rewrite Hc1, Ek, Ect; destruct (Z.ltb_spec (chk (conn_x b)) (next x)); [done|]; destruct Hcx'; lia).
  assert (count y3 = 0) as Cy by (rewrite Es3, Hc2, Eat; destruct (Z.ltb_spec (chk (conn_y b)) (at_ (conn_x b))); [done|]; destruct Hcy'; lia).
  destruct (tick_live S cfg ix HS Hsend0 W' x2 1000 (jn_left _ _ _ _ _ _ _ _ _ _ Hp3) ltac:(lia) Cx)
    as (Hlx & Hmx & Hcx4 & Hkx & Hex4 & Htx4).
  pose proof (joined_moved S [] cfg cfg ix iy HT Hrecv W' W' [] _ _ _ Hp3 Hlx Hmx) as Hp4.
  apply joined_sym in Hp4.
  destruct (tick_live [] cfg iy HT Hsend0 [] y3 1000 (jn_left _ _ _ _ _ _ _ _ _ _ Hp4) ltac:(lia) Cy)
    as (Hly & Hmy & Hcy4 & Hky & Hey4 & Hty4).
  pose proof (joined_moved [] S cfg cfg iy ix HS Hrecv [] [] W' _ _ _ Hp4 Hly Hmy) as Hp5. apply joined_sym in Hp5.
  destruct Hmx as [Ekx _ Erx (qx & _ & Hqx & _)]. apply chain_le in Hqx.
  destruct Hmy as [Eky _ Ery _]. rewrite Es3 in Eky, Hky.
  assert (ended_in y3 = ended_in y2) as Ee3 by (unfold ended_in; by rewrite Es3). rewrite Ee3 in Hey4.
  exists W', a3. eexists. split; [reflexivity|].
  assert (0 <= time x2 <= 1000 * n /\ 0 <= time y3 <= 1000 * n) as [Hbx Hby]
    by (rewrite Et3, Ht1, Ht2, Etm; destruct (decide _), (decide _); lia).
  split; [split; cbn [conn_x conn_y bytes_to_send x_closed string_received]; try done|].
  - rewrite Hex4, He1, Hcl. done.
  - rewrite Hey4. by rewrite <- He2 in Hen.
  - rewrite Ekx, Ery, Hat3, Ha1. done.
  - by rewrite Ery.
  - rewrite Hgot, Erec, Hh3. by apply (in_order_got (recv_capacity cfg) (TCPConnection._receiver (conn_y b)) (TCPConnection._receiver y2)).
  - split; [done|]. destruct (decide (chk x2 = next x2)) as [E|E]; [left; by apply Hkx|right].
    destruct (live_inv S cfg ix HS Hsend0 W' x2 (jn_left _ _ _ _ _ _ _ _ _ _ Hp2)) as (_ & _ & _ & _ & _ & _ & Hk2). lia.
  - split; [done|]. destruct (decide (chk y2 = next y2)) as [E|E]; [left; by apply Hky|right]. rewrite Eky, Erx, Ha4.
    destruct (live_inv [] cfg iy HT Hsend0 [] y2 (jn_right _ _ _ _ _ _ _ _ _ _ Hp2)) as (_ & _ & _ & _ & _ & _ & Hk2). lia.
  - rewrite Htx4, Hty4, !u64_small by lia. lia.
  - cbn [conn_x conn_y]. rewrite Ekx, Eky, Erx, Ha2, Ha4, <- Ek.
    change (next y2) with (next y1) in *. change (chk y2) with (chk y1) in *. rewrite <- Eat. lia.
Qed.

(** *** The start *)

Lemma start_ok : bench_ok 0 [] (mkStream (recv_capacity cfg) [] 0 false false) (start cfg rx ry S).
Proof.
  unfold start, connect, end_input_stream.
  set (x0 := TCPConnection.new cfg rx). set (y0 := on_stream_in (TCPConnection.new cfg ry) end_input).
  pose proof (new_working S ix rx eq_refl) as Hwx. pose proof (new_working [] iy ry eq_refl) as Hwy0.
  assert (working [] cfg iy [] y0) as Hwy.
  { apply (working_sender [] cfg iy []); try done. apply TCPSender.reach_end, Hwy0. }
  assert (sender_all plain (TCPConnection._sender x0) /\ sender_all plain (TCPConnection._sender y0)) as [Hpx Hpy]
    by (split; split; constructor).
  destruct (open_live S ix [] x0 HS Hwx) as (Hx & Kx & Rx & Nx & Cx & Ex & Hcx & Hax & Hex & Htx); try done.
  destruct (open_live [] iy [] y0 HT Hwy) as (Hy & Ky & Ry & Ny & Cy & Ey & Hcy & Hay & Hey & Hty); try done.
  assert (0 <= recv_capacity cfg < 2 ^ 32) as Hr0 by lia.
  pose proof (inorder_new S ix (recv_capacity cfg) Hr0) as Hiy.
  pose proof (inorder_new [] iy (recv_capacity cfg) Hr0) as Hix.
  destruct (io_edge S ix HS _ _ _ Hiy) as (_ & Eey & _). destruct (io_edge [] iy HT _ _ _ Hix) as (_ & Eex & _).
  cbn in Eex, Eey.
  split; cbn [conn_x conn_y bytes_to_send x_closed string_received]; try done.
  - split; [exact Hx|exact Hy| |].
    + split; [rewrite Ey; by eexists|rewrite Nx, Ey; exact Hcx|].
      apply acks_none; rewrite ?Ey, ?Kx, ?Rx; [exact Hay|done|]. cbn. rewrite Eey. lia.
    + split; [rewrite Ex; by eexists|rewrite Ny, Ex; exact Hcy|].
      apply acks_none; rewrite ?Ex, ?Ky, ?Ry; [exact Hax|done|]. cbn. rewrite Eex. lia.
  - apply buf_of_string_wf. lia.
  - rewrite Cx. split; [lia|by left].
  - rewrite Cy. split; [lia|by left].
Qed.

(** *** The first loop *)

Lemma done_eof n W a b : bench_ok n W a b -> chk (conn_x b) = Zlen S + 2 <-> y_reading b = false.
Proof.
  intros H. pose proof (bo_reader _ _ _ _ H) as Hr. pose proof (bo_read _ _ _ _ H) as Hp.
  rewrite (bo_acked _ _ _ _ H), (io_place S ix HS _ _ a Hr).
  pose proof (st_ref _ _ _ (tr_stores _ _ _ (io_tracks _ _ _ _ _ Hr))) as Href.
  unfold y_reading. change (inbound_stream (conn_y b)) with (_output (_reassembler (TCPConnection._receiver (conn_y b)))).
  rewrite (stream_eof _ a Href), (io_fin _ _ _ _ _ Hr), Hp, Z.sub_diag, andb_true_r, negb_false_iff.
  pose proof (io_bound S ix _ _ a Hr). pose proof (io_full S ix _ _ a Hr) as Hf.
  pose proof (io_none S ix _ _ a Hr) as Hno.
  pose proof (Zlen_nonneg S). destruct (recievedSYN _), (recievedFIN _); cbn [b2i].
  - rewrite Hf by done. split; [done|lia].
  - split; [lia|done].
  - by destruct Hno.
  - split; [lia|done].
Qed.

Lemma first_loop fuel n W a b :
  bench_ok n W a b -> 0 <= n -> n + Z.of_nat fuel <= 2 ^ 40 ->
  Zlen S + 2 - chk (conn_x b) < Z.of_nat fuel ->
  exists n' W' a' b', while_loop fuel false y_reading b = Some (Ok b') /\ bench_ok n' W' a' b' /\
    0 <= n' <= n + Z.of_nat fuel /\ chk (conn_x b') = Zlen S + 2.
Proof.
  revert n W a b. induction fuel as [|fuel IH]; intros n W a b H Hn Hnf Hm; cbn [while_loop].
  - destruct (live_inv S cfg ix HS Hsend0 W _ (jn_left _ _ _ _ _ _ _ _ _ _ (bo_pair _ _ _ _ H)))
      as (_ & _ & _ & _ & _ & Hnx & Hk). lia.
  - destruct (y_reading b) eqn:E.
    + destruct (bench_round n W a b H ltac:(lia)) as (W' & a' & b' & -> & H' & _ & Hor & _). cbn [mbind running_bind].
      destruct (IH (n + 1) W' a' b' H') as (n2 & W2 & a2 & b2 & E2 & H2 & Hn2 & Hk2); [lia|lia| |].
      * destruct Hor as [?|Hk]; [lia|]. rewrite Hk.
        assert (chk (conn_x b) <> Zlen S + 2) as Hne by (intros Hc; apply (done_eof n W a b H) in Hc; congruence).
        destruct (live_inv S cfg ix HS Hsend0 W _ (jn_left _ _ _ _ _ _ _ _ _ _ (bo_pair _ _ _ _ H)))
          as (_ & _ & _ & _ & _ & Hnx & Hkx). lia.
      * exists n2, W2, a2, b2. split_and!; done || lia.
    + exists n, W, a, b. split_and!; [done|done|lia|lia|]. by apply (done_eof n W a b H).
Qed.

(** *** The second loop *)

(** [loop] when [x] has closed its stream. *)
Lemma loop_closed b :
  x_closed b = true -> str (bytes_to_send b) = [] ->
  let x := conn_x b in
  let y1 := fold_left segment_received (TCPConnection._segments_out x) (conn_y b) in
  let x2 := fold_left segment_received (TCPConnection._segments_out y1) (set_out x []) in
  let r := take_output (set_out y1 []) in
  loop false b = Some (Ok (mkBench (TCPConnection.tick x2 1000) (TCPConnection.tick (fst r) 1000)
    (bytes_to_send b) true (string_received b ++ snd r))).
Proof.
  intros Hc Hb. cbv zeta. unfold loop. cbn [write_loop]. unfold size. rewrite Hb, (@Zlen_nil byte). cbn [Z.eqb negb andb].
  cbn [mret running_ret mbind running_bind]. rewrite Hc, Hb. cbn [negb andb orb].
  rewrite andb_false_r.
  rewrite !move_in_order. fold (take_output (set_out (fold_left segment_received (TCPConnection._segments_out (conn_x b)) (conn_y b)) [])).
  by destruct (take_output _).
Qed.

(** Both senders have finished. *)
Record settled_down (b : Bench) : Prop := {
  sd_x : chk (conn_x b) = Zlen S + 2;
  sd_y : chk (conn_y b) = 2
}.

Lemma settled_closed n W a b : bench_ok n W a b -> settled_down b ->
  closed (TCPConnection._sender (conn_x b)) /\ closed (TCPConnection._sender (conn_y b)).
Proof.
  intros H [Hx Hy]. destruct (bo_pair _ _ _ _ H) as [Hlx Hly _ _]. split.
  - by apply (live_closed S cfg ix HS Hsend0 W).
  - by apply (live_closed [] cfg iy HT Hsend0 []).
Qed.

Lemma finished_input n W a b : bench_ok n W a b -> chk (conn_x b) = Zlen S + 2 ->
  x_closed b = true /\ str (bytes_to_send b) = [].
Proof.
  intros H Hk. destruct (bo_pair _ _ _ _ H) as [Hlx _ _ _].
  destruct (live_inv S cfg ix HS Hsend0 W _ Hlx) as (s & [_ Hsk] & _).
  destruct (live_closed S cfg ix HS Hsend0 W _ Hlx Hk) as (_ & Hf & _).
  destruct (sk_fin _ _ _ Hsk Hf) as [He _].
  assert (x_closed b = true) as Hc
    by (rewrite <- (bo_closed _ _ _ _ H); unfold ended_in, stream_in, input_ended; by rewrite (ref_ended _ _ (sk_ref _ _ _ Hsk))).
  split; [done|]. by apply (bo_none _ _ _ _ H).
Qed.

(** The clock of a finished connection leaves its queue as it is. *)
Lemma settled_tick T i W c :
  Zlen T < 2 ^ 31 - 2 -> live T cfg i W c -> chk c = Zlen T + 2 -> 0 <= count c <= 1 ->
  TCPConnection._segments_out (TCPConnection.tick c 1000) = TCPConnection._segments_out c.
Proof.
  intros HT Hl Hk Hn. apply closed_clock; [by apply (live_closed T cfg i HT Hsend0 W)|by apply (live_sent T cfg i W)|apply Hl|].
  unfold MAX_RETX_ATTEMPTS. lia.
Qed.

Lemma set_out_same c : TCPConnection._segments_out c = [] -> set_out c [] = c.
Proof. intros E. destruct c. cbn in *. by rewrite E. Qed.

Lemma take_nothing W x y a :
  pair W x y -> inorder S ix (recv_capacity cfg) (TCPConnection._receiver y) a -> popped a = Zlen (hist a) ->
  take_output y = (y, []).
Proof.
  intros Hp Ha E. unfold take_output.
  pose proof (stream_buffered _ _ (st_ref _ _ _ (tr_stores _ _ _ (io_tracks _ _ _ _ _ Ha)))) as Hs.
  change (buffer_size (inbound_stream y) = Zlen (hist a) - popped a) in Hs. by rewrite Hs, E, Z.sub_diag.
Qed.

(** One round when both senders have finished: [y] answers nothing, [x] at
    most with empty segments, and nothing at all once the queues are empty. *)
Lemma quiet_round n W a b :
  bench_ok n W a b -> 0 <= n < 2 ^ 40 -> settled_down b ->
  exists W' a' b', loop false b = Some (Ok b') /\ bench_ok (n + 1) W' a' b' /\ settled_down b' /\
    TCPConnection._segments_out (conn_y b') = [] /\ Forall hollow (TCPConnection._segments_out (conn_x b')) /\
    (Forall hollow (TCPConnection._segments_out (conn_x b)) -> TCPConnection._segments_out (conn_y b) = [] ->
      TCPConnection._segments_out (conn_x b') = []) /\
    (TCPConnection._segments_out (conn_x b) = [] -> TCPConnection._segments_out (conn_y b) = [] ->
      conn_x b' = TCPConnection.tick (conn_x b) 1000 /\ conn_y b' = TCPConnection.tick (conn_y b) 1000).
Proof.
  intros H Hn Hsd. destruct (settled_closed n W a b H Hsd) as [Hcx Hcy]. destruct Hsd as [Kx Ky].
  destruct (bench_round n W a b H Hn) as (W' & a' & b' & E & H' & Hkx & _ & Hky & _).
  destruct (finished_input n W a b H Kx) as [Hcl Hb].
  destruct (bo_pair _ _ _ _ H) as [Hlx Hly Htx Hty]. destruct (bo_pair _ _ _ _ H') as [Hlx' Hly' _ _].
  exists W', a', b'. split; [done|]. split; [done|]. split.
  { destruct (live_inv S cfg ix HS Hsend0 W _ Hlx) as (_ & _ & _ & _ & _ & _ & Hk).
    destruct (live_inv S cfg ix HS Hsend0 W' _ Hlx') as (_ & _ & _ & _ & _ & Hnx & Hk').
    destruct (live_inv [] cfg iy HT Hsend0 [] _ Hly') as (_ & _ & _ & _ & _ & Hny & Hk'').
    destruct Hty as [_ _ Hac]. apply acks_le in Hac as [Hac _]. rewrite (@Zlen_nil byte) in Hny. split; lia. }
  rewrite (loop_closed b Hcl Hb) in E. injection E as <-. cbn [conn_x conn_y].
  pose proof (exchange W (conn_x b) (conn_y b) a (bo_pair _ _ _ _ H) (bo_reader _ _ _ _ H) (bo_read _ _ _ _ H)) as Hex.
  cbv zeta in Hex. revert Hex.
  set (y1 := fold_left segment_received (TCPConnection._segments_out (conn_x b)) (conn_y b)).
  set (x2 := fold_left segment_received (TCPConnection._segments_out y1) (set_out (conn_x b) [])).
  set (y2 := set_out y1 []).
  intros (Hp1 & Hp2 & (Ha1 & Ha2 & Ha3 & Ha4) & (Hm1 & Hm2 & Hm3) & (Hc1 & Hc2) & _ & Hrd2 & Ht1 & Ht2).
  assert (0 <= count x2 <= 1 /\ 0 <= count y2 <= 1) as [Cx Cy].
  { pose proof (bo_count_x _ _ _ _ H). pose proof (bo_count_y _ _ _ _ H).
    rewrite Hc1, Hc2. destruct (_ <? _), (_ <? _); lia. }
  destruct (jn_to _ _ _ _ _ _ _ _ _ _ Hp2) as [(a2 & Hin2) _ _].
  pose proof (take_output_spec W x2 y2 a2 Hp2 Hin2) as Hout.
  destruct (take_output y2) as [y3 d] eqn:Eout. cbn [fst snd]. destruct Hout as (Hp3 & _ & Es3 & _ & Eo3 & _ & _).
  assert (chk x2 = Zlen S + 2 /\ chk y3 = Zlen (@nil byte) + 2) as [Kx2 Ky3].
  { destruct (live_inv S cfg ix HS Hsend0 W _ Hlx) as (_ & _ & _ & _ & _ & Hnx & Hk).
    destruct (live_inv [] cfg iy HT Hsend0 [] _ (jn_right _ _ _ _ _ _ _ _ _ _ Hp2)) as (_ & _ & _ & _ & _ & Hny & Hk').
    rewrite Es3. rewrite (@Zlen_nil byte) in *. lia. }
  rewrite (settled_tick [] iy [] y3), (settled_tick S ix W x2);
    [|done|apply Hp2|done|lia|done|apply Hp3|done|rewrite Es3; lia].
  destruct (closed_hand [] cfg iy HT Hsend0 [] (conn_y b) (TCPConnection._segments_out (conn_x b)))
    as (q1 & E1 & Hh1 & Hn1); [apply Hly|by apply (live_sent [] cfg iy [])|done|apply Hlx|]. fold y1 in E1.
  destruct (closed_hand S cfg ix HS Hsend0 W (set_out (conn_x b) []) (TCPConnection._segments_out y1))
    as (q2 & E2 & Hh2 & Hn2); [apply Hp1|apply (live_sent S cfg ix W), Hp1|done|apply Hp1|]. fold x2 in E2.
  cbn [set_out TCPConnection._segments_out app] in E2. rewrite E2. split; [by rewrite Eo3|]. split; [done|]. split.
  - intros Hx Hy. apply Hn2. by rewrite E1, Hy, Hn1.
  - intros Hx Hy. assert (y1 = conn_y b) as Ey by (unfold y1; by rewrite Hx).
    unfold x2. rewrite Ey, Hy. cbn [fold_left]. rewrite (set_out_same _ Hx). split; [done|].
    unfold y2 in Eout. rewrite Ey, (set_out_same _ Hy) in Eout.
    rewrite (take_nothing W (conn_x b) (conn_y b) a (bo_pair _ _ _ _ H) (bo_reader _ _ _ _ H) (bo_read _ _ _ _ H)) in Eout.
    by injection Eout as <- _.
Qed.

(** The second loop ends from [b] within [fuel] rounds, everything acknowledged. *)
Definition ends (fuel : nat) (b : Bench) : Prop :=
  exists n W a b', while_loop fuel false some_active b = Some (Ok b') /\ bench_ok n W a b' /\
    chk (conn_x b') = Zlen S + 2 /\ some_active b' = false.

Lemma ends_here n W a b fuel :
  bench_ok n W a b -> chk (conn_x b) = Zlen S + 2 -> some_active b = false -> ends (Datatypes.S fuel) b.
Proof. intros H Hk E. exists n, W, a, b. cbn [while_loop]. by rewrite E. Qed.

Lemma ends_step n W a b b1 fuel :
  bench_ok n W a b -> chk (conn_x b) = Zlen S + 2 -> loop false b = Some (Ok b1) -> ends fuel b1 ->
  ends (Datatypes.S fuel) b.
Proof.
  intros H Hk E (n' & W' & a' & b' & Hl & Hend). destruct (some_active b) eqn:Ea; [|by apply (ends_here n W a)].
  exists n', W', a', b'. cbn [while_loop]. rewrite Ea, E. by split.
Qed.

Lemma at_end T i r a :
  Zlen T < 2 ^ 31 - 2 -> inorder T i (recv_capacity cfg) r a -> place r = Zlen T + 2 -> recievedFIN r = true.
Proof.
  intros HT H E. rewrite (io_place T i HT _ _ a H) in E. pose proof (Zlen_nonneg T).
  pose proof (io_bound T i _ _ a H). destruct (recievedSYN _), (recievedFIN _); cbn [b2i] in E; done || lia.
Qed.

(** Neither has a retransmission to make, and both have received the end. *)
Lemma settled_facts n W a b : bench_ok n W a b -> settled_down b ->
  count (conn_x b) = 0 /\ count (conn_y b) = 0 /\
  recievedFIN (TCPConnection._receiver (conn_x b)) = true /\
  recievedFIN (TCPConnection._receiver (conn_y b)) = true.
Proof.
  intros H [Kx Ky]. destruct (bo_pair _ _ _ _ H) as [Hlx Hly [_ Hchx Hacx] [(ax & Hax) Hchy Hacy]].
  destruct (bo_count_x _ _ _ _ H) as [_ Cx]. destruct (bo_count_y _ _ _ _ H) as [_ Cy].
  destruct (live_inv S cfg ix HS Hsend0 W _ Hlx) as (_ & _ & _ & _ & _ & Hnx & Hk).
  destruct (live_inv [] cfg iy HT Hsend0 [] _ Hly) as (_ & _ & _ & _ & _ & Hny & Hk').
  apply acks_le in Hacx as [Hacx _]. apply acks_le in Hacy as [Hacy _]. apply chain_le in Hchx. apply chain_le in Hchy.
  rewrite (@Zlen_nil byte) in Hny. split; [lia|]. split; [lia|]. split.
  - apply (at_end [] iy _ ax HT Hax). rewrite (@Zlen_nil byte). lia.
  - apply (at_end S ix _ a HS (bo_reader _ _ _ _ H)). rewrite <- Kx. symmetry. apply H.
Qed.

(** While the connections linger, only the clocks move. *)
Lemma linger_ends m fuel n W a b :
  bench_ok n W a b -> 0 <= n -> n + Z.of_nat m < 2 ^ 40 -> settled_down b ->
  TCPConnection._segments_out (conn_x b) = [] -> TCPConnection._segments_out (conn_y b) = [] ->
  10 * rt_timeout cfg <= time (conn_x b) + 1000 * Z.of_nat m ->
  10 * rt_timeout cfg <= time (conn_y b) + 1000 * Z.of_nat m ->
  (0 < m < fuel)%nat -> ends fuel b.
Proof.
  revert fuel n W a b. induction m as [|m IH]; intros fuel n W a b H Hn Hm Hsd Hqx Hqy Htx Hty Hf; [lia|].
  destruct fuel as [|[|fuel]]; [lia|lia|].
  destruct (quiet_round n W a b H ltac:(lia) Hsd) as (W' & a' & b' & E & H' & Hsd' & Hqy' & _ & Hqx' & Hsame).
  specialize (Hqx' ltac:(rewrite Hqx; constructor) Hqy). destruct (Hsame Hqx Hqy) as [Ex Ey].
  apply (ends_step n W a b b'); [done|apply Hsd|done|].
  destruct (bo_pair _ _ _ _ H) as [Hlx Hly Hto Hfrom]. destruct (settled_closed n W a b H Hsd) as [Hcx Hcy].
  destruct (settled_facts n W a b H Hsd) as (Cx & Cy & Fx & Fy). destruct (bo_time _ _ _ _ H) as [Tx Ty].
  destruct (decide (m = 0%nat)) as [->|Hm0].
  - apply (ends_here (n + 1) W' a'); [done|apply Hsd'|]. unfold some_active. rewrite Ex, Ey.
    destruct (tw_inorder _ _ _ _ _ Hfrom) as (ax & Hax).
    rewrite (closed_expires S cfg ix HS Hsend0 W (conn_x b) ax 1000 (recv_capacity cfg) [] iy Hlx Hcx);
      [|unfold MAX_RETX_ATTEMPTS; lia|done|done|rewrite u64_small; lia].
    rewrite (closed_expires [] cfg iy HT Hsend0 [] (conn_y b) a 1000 (recv_capacity cfg) S ix Hly Hcy);
      [done|unfold MAX_RETX_ATTEMPTS; lia|apply H|done|rewrite u64_small; lia].
  - destruct (tick_live S cfg ix HS Hsend0 W (conn_x b) 1000 Hlx ltac:(lia) Cx) as (_ & _ & _ & _ & _ & Ex').
    destruct (tick_live [] cfg iy HT Hsend0 [] (conn_y b) 1000 Hly ltac:(lia) Cy) as (_ & _ & _ & _ & _ & Ey').
    apply (IH _ (n + 1) W' a'); try done; try lia; [rewrite Ex, Ex'|rewrite Ey, Ey']; rewrite u64_small; lia.
Qed.

(** Two rounds empty the queues. *)
Lemma settled_ends m fuel n W a b :
  bench_ok n W a b -> 0 <= n -> n + Z.of_nat fuel < 2 ^ 40 -> settled_down b ->
  10 * rt_timeout cfg <= 1000 * Z.of_nat m -> (0 < m)%nat -> (m + 2 < fuel)%nat -> ends fuel b.
Proof.
  intros H Hn Hf Hsd Hm Hm0 Hmf. destruct fuel as [|[|fuel]]; [lia|lia|].
  destruct (quiet_round n W a b H ltac:(lia) Hsd) as (W1 & a1 & b1 & E1 & H1 & Hsd1 & Hy1 & Hx1 & _).
  destruct (quiet_round (n + 1) W1 a1 b1 H1 ltac:(lia) Hsd1) as (W2 & a2 & b2 & E2 & H2 & Hsd2 & Hy2 & _ & Hx2 & _).
  apply (ends_step n W a b b1); [done|apply Hsd|done|]. apply (ends_step (n + 1) W1 a1 b1 b2); [done|apply Hsd1|done|].
  destruct (bo_time _ _ _ _ H2). apply (linger_ends m _ (n + 1 + 1) W2 a2); try done; try lia. by apply Hx2.
Qed.

(** [y]'s end of stream is acknowledged after four rounds at most. *)
Lemma acked_round n W a b :
  bench_ok n W a b -> 0 <= n < 2 ^ 40 -> chk (conn_x b) = Zlen S + 2 ->
  exists W' a' b', loop false b = Some (Ok b') /\ bench_ok (n + 1) W' a' b' /\ chk (conn_x b') = Zlen S + 2 /\
    chk (conn_y b') = at_ (conn_x b) /\ Z.min 2 (chk (conn_y b) + 1) <= at_ (conn_x b') /\
    0 <= chk (conn_y b) <= at_ (conn_x b) /\ at_ (conn_x b) <= 2.
Proof.
  intros H Hn Kx. destruct (bench_round n W a b H Hn) as (W' & a' & b' & E & H' & Hkx & _ & Hky & Hat).
  exists W', a', b'. split; [done|]. split; [done|].
  destruct (bo_pair _ _ _ _ H) as [Hlx Hly _ [(ax & Hax) Hchy Hacy]]. destruct (bo_pair _ _ _ _ H') as [Hlx' _ _ _].
  destruct (live_inv S cfg ix HS Hsend0 W _ Hlx) as (_ & _ & _ & _ & _ & _ & Hk).
  destruct (live_inv S cfg ix HS Hsend0 W' _ Hlx') as (_ & _ & _ & _ & _ & Hnx & Hk').
  destruct (live_inv [] cfg iy HT Hsend0 [] _ Hly) as (_ & _ & _ & _ & _ & Hny & Hky').
  apply acks_le in Hacy as [Hacy _]. apply chain_le in Hchy. rewrite (@Zlen_nil byte) in Hny.
  assert (chk (conn_y b) < next (conn_y b) \/ next (conn_y b) = Zlen (@nil byte) + 2) as Hor.
  { apply (sated_sends [] iy []); [done|done|]. rewrite (bo_ended _ _ _ _ H). done. }
  rewrite (@Zlen_nil byte) in Hor. split_and!; try done; lia.
Qed.

Lemma second_loop m fuel n W a b :
  bench_ok n W a b -> 0 <= n -> n + Z.of_nat fuel < 2 ^ 40 -> chk (conn_x b) = Zlen S + 2 ->
  10 * rt_timeout cfg <= 1000 * Z.of_nat m -> (0 < m)%nat -> (m + 6 < fuel)%nat -> ends fuel b.
Proof.
  intros H Hn Hf K Hm Hm0 Hmf. destruct fuel as [|[|[|[|fuel]]]]; try lia.
  destruct (acked_round n W a b H ltac:(lia) K) as (W1 & a1 & b1 & E1 & H1 & K1 & C1 & P1 & D1).
  destruct (acked_round _ W1 a1 b1 H1 ltac:(lia) K1) as (W2 & a2 & b2 & E2 & H2 & K2 & C2 & P2 & D2).
  destruct (acked_round _ W2 a2 b2 H2 ltac:(lia) K2) as (W3 & a3 & b3 & E3 & H3 & K3 & C3 & P3 & D3).
  destruct (acked_round _ W3 a3 b3 H3 ltac:(lia) K3) as (W4 & a4 & b4 & E4 & H4 & K4 & C4 & P4 & D4).
  eapply ends_step; [exact H|done|exact E1|]. eapply ends_step; [exact H1|done|exact E2|].
  eapply ends_step; [exact H2|done|exact E3|]. eapply ends_step; [exact H3|done|exact E4|].
  eapply (settled_ends m); [exact H4|lia|lia| |done|done|lia]. split; [done|lia].
Qed.

(** A connection that was not reset ends with everything it sent acknowledged. *)
Lemma inactive_flight T i0 W c S0 i1 c0 a :
  Zlen T < 2 ^ 31 - 2 -> live T cfg i0 W c -> inorder S0 i1 c0 (TCPConnection._receiver c) a -> active c = false ->
  bytes_in_flight c = 0.
Proof.
  intros HT' Hl Ha Hact.
  destruct (wk_done _ _ _ _ _ (ci_working _ _ _ _ _ (lv_cinv _ _ _ _ _ Hl)) Hact) as [[Ek _]|[Hcl _]].
  - discriminate (eq_trans (eq_sym Ek) (io_error _ _ _ _ _ Ha)).
  - destruct (live_inv T cfg i0 HT' Hsend0 W c Hl) as (s & Hinv & _). by apply (closed_numbers T _ s Hinv).
Qed.

(** *** The whole program *)

Lemma while_loop_more fuel fuel' reorder guard b r :
  while_loop fuel reorder guard b = Some r -> (fuel <= fuel')%nat ->
  while_loop fuel' reorder guard b = Some r.
Proof.
  revert fuel' b. induction fuel as [|fuel IH]; intros fuel' b E Hle; [done|].
  destruct fuel' as [|fuel']; [lia|]. cbn [while_loop] in *. destruct (guard b); [|done].
  destruct (loop reorder b) as [[b1|e]|]; cbn [mbind running_bind] in *; [|done..].
  apply IH; [done|lia].
Qed.

Lemma main_loop_spec m fuel :
  10 * rt_timeout cfg <= 1000 * Z.of_nat m -> (0 < m)%nat -> Z.of_nat m < 2 ^ 20 ->
  Zlen S + 3 <= Z.of_nat fuel -> Z.of_nat m + 7 <= Z.of_nat fuel ->
  exists b, main_loop fuel false cfg rx ry S = Some (Ok b) /\ string_received b = S /\
    some_active b = false /\ bytes_in_flight (conn_x b) = 0 /\ bytes_in_flight (conn_y b) = 0.
Proof.
  intros Hm Hm0 Hm1 Hf1 Hf2. unfold main_loop. pose proof (Zlen_nonneg S).
  pose proof start_ok as H0.
  assert (0 <= chk (conn_x (start cfg rx ry S))) as Hk0
    by (rewrite (bo_acked _ _ _ _ H0); apply (place_bound S ix HS (recv_capacity cfg) _ _ (bo_reader _ _ _ _ H0))).
  destruct (first_loop (Z.to_nat (Zlen S + 3)) 0 [] _ (start cfg rx ry S) H0)
    as (n & W & a & b & E & H1 & Hn & K); [lia|lia|lia|].
  rewrite (while_loop_more _ fuel _ _ _ _ E) by lia. cbn [mbind running_bind].
  assert (string_received b = S) as Hs.
  { rewrite (bo_got _ _ _ _ H1). apply (io_full S ix (recv_capacity cfg) _ a (bo_reader _ _ _ _ H1)).
    apply (at_end S ix _ a HS (bo_reader _ _ _ _ H1)). rewrite <- K. symmetry. apply H1. }
  rewrite bool_decide_true by done. cbn [negb].
  destruct (second_loop m (m + 7) n W a b H1) as (n2 & W2 & a2 & b2 & E2 & H2 & K2 & Ha2); try done; try lia.
  exists b2. rewrite (while_loop_more _ fuel _ _ _ _ E2) by lia. split; [done|]. split; [|split; [done|split]].
  - rewrite (bo_got _ _ _ _ H2). apply (io_full S ix (recv_capacity cfg) _ a2 (bo_reader _ _ _ _ H2)).
    apply (at_end S ix _ a2 HS (bo_reader _ _ _ _ H2)). rewrite <- K2. symmetry. apply H2.
  - destruct (bo_pair _ _ _ _ H2) as [Hlx _ _ [(ax & Hax) _ _]]. apply orb_false_iff in Ha2 as [Ha2 _].
    by apply (inactive_flight S ix W2 _ [] iy _ ax HS Hlx Hax).
  - destruct (bo_pair _ _ _ _ H2) as [_ Hly _ _]. apply orb_false_iff in Ha2 as [_ Ha2].
    by apply (inactive_flight [] iy [] _ S ix _ a2 HT Hly (bo_reader _ _ _ _ H2)).
Qed.
End Run.

(** C5. The benchmark's first run ends, within [Zlen S + 30] rounds of each loop,
    without throwing: for every content [S] of the string and every pair of
    initial sequence numbers, the bytes that [y]'s reader gets are the string,
    both connections become inactive, and neither has anything left
    unacknowledged. *)
Theorem benchmark_completes (S : list byte) (random_x random_y : Z) (fuel : nat) :
  Zlen S < 2 ^ 31 - 2 -> 0 <= random_x < 2 ^ 32 -> 0 <= random_y < 2 ^ 32 -> Zlen S + 30 <= Z.of_nat fuel ->
  exists b, main_loop fuel false default_config random_x random_y S = Some (Ok b) /\
    string_received b = S /\ some_active b = false /\ bytes_in_flight (conn_x b) = 0 /\ bytes_in_flight (conn_y b) = 0.
Proof.
  intros HS Hx Hy Hf. pose proof (Zlen_nonneg S).
  apply (main_loop_spec S default_config random_x random_y HS) with (m := 10%nat);
    cbn; unfold valid, DEFAULT_CAPACITY, TIMEOUT_DFLT; cbn [raw_value]; lia.
Qed.

Lemma benchmark_completes_witness :
  exists b, main_loop 40 false default_config 7 11 [x61; x62; x63] = Some (Ok b) /\
    string_received b = [x61; x62; x63] /\ some_active b = false /\ bytes_in_flight (conn_x b) = 0 /\ bytes_in_flight (conn_y b) = 0.
Proof. apply benchmark_completes; [reflexivity|lia|lia|vm_compute; congruence]. Defined.

(** The second run, where the segments of each burst arrive last first, on one input. *)
Example reordered_run :
  option_map (fun r => match r with Ok b => (string_received b, some_active b) | Throw _ => ([], true) end)
    (main_loop 40 true default_config 5 77 [x61; x62; x63; x64]) = Some ([x61; x62; x63; x64], false).
Proof. by vm_compute. Qed.
