(* ===== verification/Text.v ===== *)
(** * Formatted text

    What [src/] uses of the C++ output streams and of the conversions between
    numbers and strings: an [ostream] with the formatting state that the
    manipulators of the source change, [std::to_string], [strtol] and
    [std::stoi].  Strings are byte strings; [lit] turns a literal into one. *)
From stdpp Require Import base tactics list numbers option.
From Stdlib Require Import ZArith Lia.
From Stdlib Require Import (notations) String.
From S2P Require Import Prelude.

Definition lit (s : String.string) : list byte := String.list_byte_of_string s.
Declare Scope text_scope.
Delimit Scope text_scope with text.
Notation "'str!' s" := (lit s%string) (at level 1, s at level 0, format "str!  s") : text_scope.
#[global] Open Scope text_scope.

(** ** Numerals *)

(** The digit characters: [0]-[9], [a]-[z]. *)
Definition digit_char (d : Z) : byte := if d <? 10 then z2b (48 + d) else z2b (87 + d).
Definition char_digit (c : byte) : option Z :=
  let z := b2z c in
  if (48 <=? z) && (z <=? 57) then Some (z - 48)
  else if (97 <=? z) && (z <=? 122) then Some (z - 87)
  else if (65 <=? z) && (z <=? 90) then Some (z - 55)
  else None.

Fixpoint digits (fuel : nat) (base n : Z) : list byte :=
  match fuel with
  | O => []
  | S fuel' => (if n <? base then [] else digits fuel' base (n / base)) ++ [digit_char (n mod base)]
  end.

(** The numeral of [n >= 0]; it has at most [log2 n + 1] digits in every base. *)
Definition numeral (base n : Z) : list byte := digits (S (Z.to_nat (Z.log2 n))) base n.

(** The value of a string of digits, most significant first. *)
Definition value_from (base acc : Z) (s : list byte) : Z :=
  fold_left (fun acc c => acc * base + default 0 (char_digit c)) s acc.
Definition value (base : Z) (s : list byte) : Z := value_from base 0 s.

Definition is_digit (base : Z) (c : byte) : bool :=
  match char_digit c with Some d => d <? base | None => false end.

(** [std::to_string] of an unsigned integer. *)
Definition to_string (n : Z) : list byte := numeral 10 n.

(** The characters that [isspace] accepts in the C locale. *)
Definition isspace (c : byte) : bool := let z := b2z c in (z =? 32) || ((9 <=? z) && (z <=? 13)).

Fixpoint take_while (f : byte -> bool) (s : list byte) : list byte :=
  match s with c :: s' => if f c then c :: take_while f s' else [] | [] => [] end.
Fixpoint drop_while (f : byte -> bool) (s : list byte) : list byte :=
  match s with c :: s' => if f c then drop_while f s' else s | [] => [] end.

(** The sign of a number, and what follows it. *)
Definition read_sign (s : list byte) : bool * list byte :=
  match s with
  | c :: s' => if b2z c =? 45 then (true, s') else if b2z c =? 43 then (false, s') else (false, s)
  | [] => (false, [])
  end.

(** The prefix [0x], when a hexadecimal digit follows it. *)
Definition hex_prefix (s : list byte) : bool :=
  match s with
  | a :: b :: c :: _ => (b2z a =? 48) && ((b2z b =? 120) || (b2z b =? 88)) && is_digit 16 c
  | _ => false
  end.

Definition LONG_MAX : Z := 2 ^ 63 - 1.
Definition LONG_MIN : Z := - 2 ^ 63.

(** [strtol(s, nullptr, base)] for the bases 0 and 10: the value, and whether
    any digit was read. *)
Definition strtol_full (s : list byte) (base : Z) : Z * bool :=
  let '(negative, s) := read_sign (drop_while isspace s) in
  let '(b, s) :=
    if base =? 0 then
      if hex_prefix s then (16, drop 2 s)
      else match s with c :: _ => if b2z c =? 48 then (8, s) else (10, s) | [] => (10, s) end
    else (base, s) in
  let ds := take_while (is_digit b) s in
  let v := value b ds in
  (Z.max LONG_MIN (Z.min LONG_MAX (if negative then - v else v)), negb (bool_decide (ds = []))).
Definition strtol (s : list byte) (base : Z) : Z := fst (strtol_full s base).

(** [std::stoi]. *)
Definition stoi (s : list byte) : outcome Z :=
  let '(v, any) := strtol_full s 10 in
  if negb any then Throw InvalidArgument
  else if (v <? - 2 ^ 31) || (2 ^ 31 <=? v) then Throw OutOfRange else Ok v.

(** ** Output streams *)

(** The base, [boolalpha], the fill character, the width of the next item,
    and what has been written. *)
Record ostream := mkOstream {
  base16 : bool;
  alpha : bool;
  fill : byte;
  width : Z;
  text : list byte
}.
Definition stringstream : ostream := mkOstream false false x20 0 [].

(** Formatted output pads on the left and resets the width. *)
Definition put (s : list byte) (os : ostream) : ostream :=
  mkOstream (base16 os) (alpha os) (fill os) 0
    (text os ++ replicate (Z.to_nat (width os - Zlen s)) (fill os) ++ s).

(** An [int] or a narrower unsigned type; a negative [int] in hexadecimal is
    printed as the unsigned integer with its bits. *)
Definition put_int (n : Z) (os : ostream) : ostream :=
  put (if base16 os then numeral 16 (u32 n) else if n <? 0 then x2d :: numeral 10 (- n) else numeral 10 n) os.
Definition put_bool (b : bool) (os : ostream) : ostream :=
  put (if alpha os then if b then str! "true" else str! "false" else to_string (b2i b)) os.

Definition hex (os : ostream) : ostream := mkOstream true (alpha os) (fill os) (width os) (text os).
Definition dec (os : ostream) : ostream := mkOstream false (alpha os) (fill os) (width os) (text os).
Definition boolalpha (os : ostream) : ostream := mkOstream (base16 os) true (fill os) (width os) (text os).
Definition setfill (c : byte) (os : ostream) : ostream := mkOstream (base16 os) (alpha os) c (width os) (text os).
Definition setw (n : Z) (os : ostream) : ostream := mkOstream (base16 os) (alpha os) (fill os) n (text os).

(** [os << x]. *)
Class Printable (A : Type) := print : A -> ostream -> ostream.
#[global] Instance print_string : Printable (list byte) := put.
#[global] Instance print_char : Printable byte := fun c => put [c].
#[global] Instance print_int : Printable Z := put_int.
#[global] Instance print_bool : Printable bool := put_bool.
#[global] Instance print_manip : Printable (ostream -> ostream) := fun m os => m os.
Notation "os <<< x" := (print x os) (at level 67, left associativity) : text_scope.

(** ** Laws of the numerals *)

Lemma char_digit_char d : 0 <= d < 36 -> char_digit (digit_char d) = Some d.
Proof.
  intros Hd. unfold char_digit, digit_char.
  destruct (Z.ltb_spec d 10); rewrite b2z_z2b, u8_small by lia.
  - rewrite (proj2 (Z.leb_le _ _)), (proj2 (Z.leb_le _ _)) by lia. cbn [andb]. f_equal. lia.
  - rewrite (proj2 (Z.leb_le 48 _)), (proj2 (Z.leb_gt _ 57)) by lia. cbn [andb].
    rewrite (proj2 (Z.leb_le 97 _)), (proj2 (Z.leb_le _ 122)) by lia. cbn [andb]. f_equal. lia.
Qed.

Lemma digit_char_digit b d : 2 <= b <= 36 -> 0 <= d < b -> is_digit b (digit_char d) = true.
Proof. intros Hb Hd. unfold is_digit. rewrite char_digit_char by lia. apply Z.ltb_lt; lia. Qed.

Lemma value_from_app b acc s t : value_from b acc (s ++ t) = value_from b (value_from b acc s) t.
Proof. apply fold_left_app. Qed.

Lemma value_snoc b s d : 0 <= d < 36 -> value b (s ++ [digit_char d]) = value b s * b + d.
Proof. intros Hd. unfold value. rewrite value_from_app. cbn. by rewrite char_digit_char. Qed.

Lemma digits_spec fuel b n :
  2 <= b <= 36 -> 0 <= n -> Z.log2 n < Z.of_nat fuel ->
  value b (digits fuel b n) = n /\ Forall (fun c => is_digit b c = true) (digits fuel b n) /\
  digits fuel b n <> [] /\ forall k, 0 < k -> n < b ^ k -> Zlen (digits fuel b n) <= k.
Proof.
  intros Hb. revert n. induction fuel as [|fuel IH]; intros n Hn Hf; [pose proof (Z.log2_nonneg n); lia|].
  cbn [digits]. pose proof (Z.mod_pos_bound n b ltac:(lia)) as Hm. pose proof (Z.div_mod n b ltac:(lia)) as Hdm.
  assert (Forall (fun c => is_digit b c = true) [digit_char (n mod b)]) as Hd1
    by (repeat constructor; by apply digit_char_digit).
  destruct (Z.ltb_spec n b) as [Hlt|Hge].
  - rewrite app_nil_l. split_and!; [|done|done|intros k Hk _; zlen].
    change [digit_char (n mod b)] with ([] ++ [digit_char (n mod b)]).
    rewrite value_snoc by lia. cbn. apply Z.mod_small. lia.
  - assert (0 <= n / b) as Hq by (apply Z.div_pos; lia).
    assert (Z.log2 (n / b) < Z.of_nat fuel) as Hf'.
    { assert (Z.log2 (n / b) < Z.log2 n); [|lia]. apply (Z.le_lt_trans _ (Z.log2 (n / 2))).
      - apply Z.log2_le_mono, Z.div_le_compat_l; lia.
      - rewrite <- Z.div2_div, Z.div2_spec, Z.log2_shiftr by lia.
        pose proof (Z.log2_pos n ltac:(lia)). lia. }
    destruct (IH (n / b) Hq Hf') as (Hv & Hall & Hne & Hlen). split_and!.
    + rewrite value_snoc, Hv by lia. lia.
    + by apply Forall_app.
    + intros E%app_nil; by destruct E.
    + intros k Hk Hbound. assert (1 < k) as Hk1.
      { destruct (decide (k = 1)) as [E|]; [rewrite E, Z.pow_1_r in Hbound; lia|lia]. }
      assert (n / b < b ^ (k - 1)) as Hq'.
      { apply Z.div_lt_upper_bound; [lia|]. rewrite <- Z.pow_succ_r by lia. by replace (Z.succ (k - 1)) with k by lia. }
      specialize (Hlen (k - 1) ltac:(lia) Hq'). zlen.
Qed.

Lemma numeral_spec b n :
  2 <= b <= 36 -> 0 <= n ->
  value b (numeral b n) = n /\ Forall (fun c => is_digit b c = true) (numeral b n) /\
  numeral b n <> [] /\ forall k, 0 < k -> n < b ^ k -> Zlen (numeral b n) <= k.
Proof. intros Hb Hn. apply digits_spec; [done|done|]. pose proof (Z.log2_nonneg n). lia. Qed.

(** Leading zeros do not change the value. *)
Lemma value_zeros b k s : value b (replicate k x30 ++ s) = value b s.
Proof.
  unfold value. rewrite value_from_app. f_equal. induction k as [|k IH]; [done|]. cbn.
  by replace (0 * b + 0) with 0 by lia.
Qed.

(** The first digit of a positive number is not zero. *)
Lemma digits_head fuel b n :
  2 <= b -> 0 < n -> Z.log2 n < Z.of_nat fuel ->
  exists d s, digits fuel b n = digit_char d :: s /\ 0 < d < b.
Proof.
  intros Hb. revert n. induction fuel as [|fuel IH]; intros n Hn Hf; [pose proof (Z.log2_nonneg n); lia|].
  cbn [digits]. destruct (Z.ltb_spec n b) as [Hlt|Hge].
  - exists n, []. rewrite Z.mod_small by lia. split; [done|lia].
  - destruct (IH (n / b)) as (d & s & -> & Hd).
    + apply Z.div_str_pos. lia.
    + assert (Z.log2 (n / b) < Z.log2 n); [|lia]. apply (Z.le_lt_trans _ (Z.log2 (n / 2))).
      * apply Z.log2_le_mono, Z.div_le_compat_l; lia.
      * rewrite <- Z.div2_div, Z.div2_spec, Z.log2_shiftr by lia. pose proof (Z.log2_pos n ltac:(lia)). lia.
    + by exists d, (s ++ [digit_char (n mod b)]).
Qed.

Lemma take_while_all f s : Forall (fun c => f c = true) s -> take_while f s = s.
Proof. induction 1 as [|c s Hc _ IH]; [done|]. cbn. by rewrite Hc, IH. Qed.

Lemma digit10_plain c : is_digit 10 c = true -> 48 <= b2z c <= 57.
Proof.
  unfold is_digit, char_digit.
  destruct ((48 <=? b2z c) && (b2z c <=? 57)) eqn:E1; [bsplit; lia|].
  destruct ((97 <=? b2z c) && (b2z c <=? 122)) eqn:E2; [bsplit; intros E; bsplit; lia|].
  destruct ((65 <=? b2z c) && (b2z c <=? 90)) eqn:E3; [bsplit; intros E; bsplit; lia|done].
Qed.

Lemma digits_decimal n : 0 <= n -> exists c s, to_string n = c :: s /\
  Forall (fun c => is_digit 10 c = true) (c :: s) /\ value 10 (c :: s) = n /\ (b2z c = 48 -> n = 0 /\ s = []).
Proof.
  intros Hn. destruct (numeral_spec 10 n ltac:(lia) Hn) as (Hv & Hd & Hne & _).
  unfold to_string. destruct (decide (n = 0)) as [->|Hn0].
  - by exists x30, [].
  - destruct (digits_head (S (Z.to_nat (Z.log2 n))) 10 n) as (d & s & E & Hd0); [lia|lia|pose proof (Z.log2_nonneg n); lia|].
    fold (numeral 10 n) in E. rewrite E in *. exists (digit_char d), s. split_and!; try done.
    unfold digit_char. rewrite (proj2 (Z.ltb_lt d 10)), b2z_z2b, u8_small by lia. lia.
Qed.

(** What [to_string] writes, [strtol] and [stoi] read. *)
Lemma strtol_to_string n base :
  0 <= n < 2 ^ 63 -> base = 0 \/ base = 10 -> strtol_full (to_string n) base = (n, true).
Proof.
  intros Hn Hb. destruct (digits_decimal n ltac:(lia)) as (c & s & -> & Hd & Hv & H0).
  pose proof (Forall_inv Hd) as Hc. apply digit10_plain in Hc. unfold strtol_full. cbn [drop_while].
  assert (isspace c = false) as ->
    by (unfold isspace; apply orb_false_iff; split; [lia|apply andb_false_iff; right; lia]).
  unfold read_sign. rewrite (proj2 (Z.eqb_neq (b2z c) 45)), (proj2 (Z.eqb_neq (b2z c) 43)) by lia.
  assert (hex_prefix (c :: s) = false) as Hx.
  { destruct s as [|c1 [|c2 s]]; [done|done|]. cbn. pose proof (Forall_inv (Forall_inv_tail Hd)) as Hc1.
    apply digit10_plain in Hc1. rewrite (proj2 (Z.eqb_neq (b2z c1) 120)), (proj2 (Z.eqb_neq (b2z c1) 88)) by lia.
    by rewrite andb_false_r. }
  assert (Z.max LONG_MIN (Z.min LONG_MAX n) = n) as Hr by (unfold LONG_MIN, LONG_MAX; lia).
  rewrite Hx. destruct Hb as [-> | ->]; cbn [Z.eqb].
  - destruct (Z.eqb_spec (b2z c) 48) as [E|E].
    + destruct (H0 E) as [-> ->]. assert (c = x30) as -> by (apply b2z_inj; by rewrite E). reflexivity.
    + rewrite (take_while_all _ _ Hd), Hv, Hr. done.
  - rewrite (take_while_all _ _ Hd), Hv, Hr. done.
Qed.

Lemma stoi_to_string n : 0 <= n < 2 ^ 31 -> stoi (to_string n) = Ok n.
Proof.
  intros Hn. unfold stoi. rewrite strtol_to_string by lia. cbn [negb].
  rewrite (proj2 (Z.ltb_ge n _)), (proj2 (Z.leb_gt _ n)) by lia. done.
Qed.
