(* ===== verification/Printed.v ===== *)
(** * Printed forms

    Models the [to_string] and [summary] members of the headers and messages
    ([ethernet_header.cc], [ipv4_header.cc], [tcp_header.cc],
    [arp_message.cc]), [hexdump] of [util/util.cc], and the [summary] of a
    frame in [network_simulator.cc] and [lab7.cc]. *)
From stdpp Require Import base tactics list numbers option.
From Stdlib Require Import ZArith Lia.
From Stdlib Require Import (notations) String.
From S2P Require Import Prelude WrappingIntegers Text Buffer NetParser.
From S2P Require Ethernet ARP IPv4Header IPv4Datagram TCPHeader TCPSegment.

(** [inet_ntoa({htobe32(ip)})]: the dotted quad. *)
Definition inet_ntoa (ip : Z) : list byte :=
  to_string (Z.shiftr ip 24) ++ str! "." ++ to_string (Z.land (Z.shiftr ip 16) 255) ++ str! "."
  ++ to_string (Z.land (Z.shiftr ip 8) 255) ++ str! "." ++ to_string (Z.land ip 255).

(** *** Headers *)

(** The loop of [to_string(EthernetAddress)]. *)
Fixpoint put_address (address : list Z) (ss : ostream) : ostream :=
  match address with
  | [] => ss
  | b :: rest =>
      let ss := ss <<< setw 2 <<< setfill x30 <<< hex <<< b in
      let ss := match rest with [] => ss | _ => ss <<< str! ":" end in
      put_address rest ss
  end.
Definition ethernet_to_string (address : Ethernet.EthernetAddress) : list byte :=
  text (put_address address stringstream).

Definition EthernetHeader_to_string (h : Ethernet.EthernetHeader) : list byte :=
  let ss := stringstream <<< str! "dst=" <<< ethernet_to_string (Ethernet.dst h) in
  let ss := ss <<< str! ", src=" <<< ethernet_to_string (Ethernet.src h) <<< str! ", type=" in
  text (if Ethernet.type h =? Ethernet.TYPE_IPv4 then ss <<< str! "IPv4"
        else if Ethernet.type h =? Ethernet.TYPE_ARP then ss <<< str! "ARP"
        else ss <<< str! "[unknown type " <<< hex <<< Ethernet.type h <<< str! "!]").

Definition newline : byte := x0a.

Definition IPv4Header_to_string (h : IPv4Header.IPv4Header) : list byte :=
  let ss := stringstream <<< hex <<< boolalpha <<< str! "IP version: " <<< IPv4Header.ver h <<< newline in
  let ss := ss <<< str! "IP hdr len: " <<< IPv4Header.hlen h <<< newline in
  let ss := ss <<< str! "IP tos: " <<< IPv4Header.tos h <<< newline in
  let ss := ss <<< str! "IP dgram len: " <<< IPv4Header.len h <<< newline in
  let ss := ss <<< str! "IP id: " <<< IPv4Header.id h <<< newline in
  let ss := ss <<< str! "Flags: df: " <<< IPv4Header.df h <<< str! " mf: " <<< IPv4Header.mf h <<< newline in
  let ss := ss <<< str! "Offset: " <<< IPv4Header.offset h <<< newline in
  let ss := ss <<< str! "TTL: " <<< IPv4Header.ttl h <<< newline in
  let ss := ss <<< str! "Protocol: " <<< IPv4Header.proto h <<< newline in
  let ss := ss <<< str! "Checksum: " <<< IPv4Header.cksum h <<< newline in
  let ss := ss <<< str! "Src addr: " <<< IPv4Header.src h <<< newline in
  text (ss <<< str! "Dst addr: " <<< IPv4Header.dst h <<< newline).

Definition IPv4Header_summary (h : IPv4Header.IPv4Header) : list byte :=
  let ss := stringstream <<< hex <<< boolalpha <<< str! "IPv" <<< IPv4Header.ver h <<< str! ", " in
  let ss := ss <<< str! "len=" <<< IPv4Header.len h <<< str! ", " in
  let ss := ss <<< str! "protocol=" <<< IPv4Header.proto h <<< str! ", " in
  let ss := ss <<< (if 10 <=? IPv4Header.ttl h then str! ""
                    else str! "ttl=" ++ to_string (IPv4Header.ttl h) ++ str! ", ") in
  let ss := ss <<< str! "src=" <<< inet_ntoa (IPv4Header.src h) <<< str! ", " in
  text (ss <<< str! "dst=" <<< inet_ntoa (IPv4Header.dst h)).

(** [operator<<] of a [WrappingInt32]. *)
#[global] Instance print_wrapping : Printable WrappingInt32 := fun a => put_int (raw_value a).

Definition TCPHeader_to_string (h : TCPHeader.TCPHeader) : list byte :=
  let ss := stringstream <<< hex <<< boolalpha <<< str! "TCP source port: " <<< TCPHeader.sport h <<< newline in
  let ss := ss <<< str! "TCP dest port: " <<< TCPHeader.dport h <<< newline in
  let ss := ss <<< str! "TCP seqno: " <<< TCPHeader.seqno h <<< newline in
  let ss := ss <<< str! "TCP ackno: " <<< TCPHeader.ackno h <<< newline in
  let ss := ss <<< str! "TCP doff: " <<< TCPHeader.doff h <<< newline in
  let ss := ss <<< str! "Flags: urg: " <<< TCPHeader.urg h <<< str! " ack: " <<< TCPHeader.ack h in
  let ss := ss <<< str! " psh: " <<< TCPHeader.psh h <<< str! " rst: " <<< TCPHeader.rst h in
  let ss := ss <<< str! " syn: " <<< TCPHeader.syn h <<< str! " fin: " <<< TCPHeader.fin h <<< newline in
  let ss := ss <<< str! "TCP winsize: " <<< TCPHeader.win h <<< newline in
  let ss := ss <<< str! "TCP cksum: " <<< TCPHeader.cksum h <<< newline in
  text (ss <<< str! "TCP uptr: " <<< TCPHeader.uptr h <<< newline).

Definition flag (b : bool) (name : list byte) : list byte := if b then name else [].

Definition TCPHeader_summary (h : TCPHeader.TCPHeader) : list byte :=
  let ss := stringstream <<< str! "Header(flags=" <<< flag (TCPHeader.syn h) (str! "S")
    <<< flag (TCPHeader.ack h) (str! "A") <<< flag (TCPHeader.rst h) (str! "R") <<< flag (TCPHeader.fin h) (str! "F") in
  text (ss <<< str! ",seqno=" <<< TCPHeader.seqno h <<< str! ",ack=" <<< TCPHeader.ackno h
    <<< str! ",win=" <<< TCPHeader.win h <<< str! ")").

Definition ARPMessage_to_string (m : ARP.ARPMessage) : list byte :=
  let opcode_str := str! "(unknown type)" in
  let opcode_str := if ARP.opcode m =? ARP.OPCODE_REQUEST then str! "REQUEST" else opcode_str in
  let opcode_str := if ARP.opcode m =? ARP.OPCODE_REPLY then str! "REPLY" else opcode_str in
  text (stringstream <<< str! "opcode=" <<< opcode_str <<< str! ", sender="
    <<< ethernet_to_string (ARP.sender_ethernet_address m) <<< str! "/" <<< inet_ntoa (ARP.sender_ip_address m)
    <<< str! ", target=" <<< ethernet_to_string (ARP.target_ethernet_address m) <<< str! "/"
    <<< inet_ntoa (ARP.target_ip_address m)).

Example ex_ipv4_summary :
  IPv4Header_summary (IPv4Header.set_addrs (IPv4Header.set_len IPv4Header.default_header 40) 3232235522 2852032521)
  = str! "IPv4, len=28, protocol=6, src=192.168.0.2, dst=169.254.144.9".
Proof. reflexivity. Qed.

Example ex_ethernet_header :
  EthernetHeader_to_string (Ethernet.mkEthernetHeader Ethernet.ETHERNET_BROADCAST [2; 0; 0; 171; 205; 9] 34525)
  = str! "dst=ff:ff:ff:ff:ff:ff, src=02:00:00:ab:cd:09, type=[unknown type 86dd!]".
Proof. reflexivity. Qed.

(** *** Frames *)

(** [summary(frame)] of [lab7.cc]. *)
Definition lab7_summary (frame : Ethernet.EthernetFrame) : outcome (list byte) :=
  let ret := EthernetHeader_to_string (Ethernet._header frame) in
  let type := Ethernet.type (Ethernet._header frame) in
  if type =? Ethernet.TYPE_IPv4 then
    let '(dgram, r) := IPv4Datagram.parse IPv4Datagram.default_datagram
                         (buf_of_string (concatenate (Ethernet._payload frame))) in
    let header := IPv4Datagram._header dgram in
    if bool_decide (r = NoError) then
      let ret := ret ++ str! " " ++ IPv4Header_summary header in
      if IPv4Header.proto header =? IPv4Header.PROTO_TCP then
        let '(tcp_seg, r) := TCPSegment.parse TCPSegment.default_segment
                               (buf_of_string (concatenate (IPv4Datagram._payload dgram)))
                               (IPv4Header.pseudo_cksum header) in
        if bool_decide (r = NoError) then Ok (ret ++ str! " " ++ TCPHeader_summary (TCPSegment._header tcp_seg))
        else Ok ret
      else Ok ret
    else Ok (ret ++ str! " (bad IPv4)")
  else if type =? Ethernet.TYPE_ARP then
    payload ← bl_to_buffer (Ethernet._payload frame);
    let '(arp, r) := ARP.parse ARP.default_message payload in
    if bool_decide (r = NoError) then Ok (ret ++ str! " " ++ ARPMessage_to_string arp)
    else Ok (ret ++ str! " (bad ARP)")
  else Ok ret.

Definition quote : list byte := [x22].

(** [summary(frame)] of [network_simulator.cc]. *)
Definition simulator_summary (frame : Ethernet.EthernetFrame) : outcome (list byte) :=
  let ret := EthernetHeader_to_string (Ethernet._header frame) in
  let type := Ethernet.type (Ethernet._header frame) in
  if type =? Ethernet.TYPE_IPv4 then
    payload ← bl_to_buffer (Ethernet._payload frame);
    let '(dgram, r) := IPv4Datagram.parse IPv4Datagram.default_datagram payload in
    if bool_decide (r = NoError) then
      Ok (ret ++ str! " " ++ IPv4Header_summary (IPv4Datagram._header dgram)
          ++ str! " payload=" ++ quote ++ concatenate (IPv4Datagram._payload dgram) ++ quote)
    else Ok (ret ++ str! " (bad IPv4)")
  else if type =? Ethernet.TYPE_ARP then
    payload ← bl_to_buffer (Ethernet._payload frame);
    let '(arp, r) := ARP.parse ARP.default_message payload in
    if bool_decide (r = NoError) then Ok (ret ++ str! " " ++ ARPMessage_to_string arp)
    else Ok (ret ++ str! " (bad ARP)")
  else Ok ret.

(** *** Hexadecimal dumps *)

(** [isprint] in the C locale. *)
Definition isprint (c : byte) : bool := (32 <=? b2z c) && (b2z c <=? 126).
Definition shown (c : byte) : byte := if isprint c then c else x2e.

(** A [stringstream] with the content that its constructor, or [str(s)], gives
    it: writing starts at the beginning and overwrites. *)
Record overwriting := mkOverwriting { content : list byte; position : nat }.
Definition put_over (c : byte) (p : overwriting) : overwriting :=
  mkOverwriting (take (position p) (content p) ++ [c] ++ drop (S (position p)) (content p)) (S (position p)).

(** The loop of [hexdump] after [printed] bytes: the terminal and the
    characters of the row.  A dump is of less than [2^31] bytes, which the
    counter [printed] can count. *)
Fixpoint dump_loop (indent_string : list byte) (data : list byte) (printed : Z) (cout : ostream)
    (pchars : overwriting) : Z * ostream * overwriting :=
  match data with
  | [] => (printed, cout, pchars)
  | c :: data =>
      let '(cout, pchars) :=
        if Z.land printed 15 =? 0 then
          let '(cout, pchars) :=
            if negb (printed =? 0) then
              (cout <<< str! "    " <<< content pchars <<< newline, mkOverwriting (str! " ") 0)
            else (cout, pchars) in
          (cout <<< indent_string <<< setw 8 <<< printed <<< str! ":    ", pchars)
        else if Z.land printed 1 =? 0 then (cout <<< x20, pchars) else (cout, pchars) in
      let cout := cout <<< setw 2 <<< b2z c in
      dump_loop indent_string data (printed + 1) cout (put_over (shown c) pchars)
  end.

(** [hexdump(data, len, indent)] on the terminal [cout]: the flags are put
    back at the end, the fill character is not. *)
Definition hexdump (data : list byte) (indent : Z) (cout : ostream) : ostream :=
  let '(base16_before, alpha_before) := (base16 cout, alpha cout) in
  let indent_string := replicate (Z.to_nat indent) x20 in
  let cout := cout <<< hex <<< setfill x30 in
  let '(printed, cout, pchars) := dump_loop indent_string data 0 cout (mkOverwriting (str! " ") 0) in
  let print_rem := (16 - Z.land printed 15) mod 16 in
  let cout := cout <<< replicate (Z.to_nat (2 * print_rem + print_rem / 2 + 4)) x20 <<< content pchars in
  let cout := cout <<< newline <<< newline in
  mkOstream base16_before alpha_before (fill cout) (width cout) (text cout).

Example ex_dump :
  text (hexdump (str! "GET / HTTP/1.1" ++ [x0d; x0a; x00; xff]) 2 stringstream) =
  str! "  00000000:    4745 5420 2f20 4854 5450 2f31 2e31 0d0a    GET / HTTP/1.1.." ++ [newline] ++
  str! "  00000010:    00ff                                       .." ++ [newline; newline].
Proof. by vm_compute. Qed.

(** ** What a dump looks like *)

(** One row: its offset, its bytes in pairs, and its characters, which start
    in the same column whatever the number of bytes. *)
Definition hex2 (c : byte) : list byte := [digit_char (b2z c / 16); digit_char (b2z c mod 16)].
Definition hex_at (j : nat) (c : byte) : list byte :=
  (if bool_decide (j <> 0%nat) && Nat.even j then [x20] else []) ++ hex2 c.
Definition hex_field (bs : list byte) : list byte := concat (imap hex_at bs).
Definition offset_field (n : Z) : list byte :=
  replicate (Z.to_nat (8 - Zlen (numeral 16 n))) x30 ++ numeral 16 n.

Definition dump_row (indent k : Z) (bs : list byte) : list byte :=
  replicate (Z.to_nat indent) x20 ++ offset_field (16 * k) ++ str! ":    " ++ hex_field bs
  ++ replicate (Z.to_nat (43 - Zlen (hex_field bs))) x20 ++ map shown bs ++ [newline].

Fixpoint dump_rows (fuel : nat) (indent k : Z) (d : list byte) : list byte :=
  match fuel, d with
  | S fuel', _ :: _ => dump_row indent k (take 16 d) ++ dump_rows fuel' indent (k + 1) (drop 16 d)
  | _, _ => []
  end.
Definition dump_layout (indent : Z) (d : list byte) : list byte :=
  dump_rows (length d) indent 0 d ++ [newline].

(** A terminal in the state that [hexdump] prints in. *)
Abbreviation hexout al T := (mkOstream true al x30 0 T).

Lemma put_plain b al f T s : put s (mkOstream b al f 0 T) = mkOstream b al f 0 (T ++ s).
Proof. unfold put. cbn [base16 alpha fill width text]. pose proof (Zlen_nonneg s). by replace (Z.to_nat (0 - Zlen s)) with O by lia. Qed.

Lemma put_str al T (s : list byte) : hexout al T <<< s = hexout al (T ++ s).
Proof. apply put_plain. Qed.
Lemma put_chr al T (c : byte) : hexout al T <<< c = hexout al (T ++ [c]).
Proof. apply put_plain. Qed.

Lemma put_byte al T c : hexout al T <<< setw 2 <<< b2z c = hexout al (T ++ hex2 c).
Proof. unfold print, print_manip, print_int, put_int, put, setw. cbn [base16 alpha fill width text]. by destruct c. Qed.

Lemma put_offset al T n : 0 <= n < 2 ^ 32 -> hexout al T <<< setw 8 <<< n = hexout al (T ++ offset_field n).
Proof.
  intros Hn. unfold print, print_manip, print_int, put_int, put, setw. cbn [base16 alpha fill width text].
  by rewrite u32_small.
Qed.

Lemma put_over_end c s : put_over c (mkOverwriting s (length s)) = mkOverwriting (s ++ [c]) (length (s ++ [c])).
Proof.
  unfold put_over. cbn [position content]. rewrite take_ge, drop_ge by lia. rewrite length_app. f_equal. cbn. lia.
Qed.

Lemma land_15 k j : 0 <= j < 16 -> Z.land (16 * k + j) 15 = j.
Proof. intros Hj. change 15 with (Z.ones 4). rewrite Z.land_ones by lia. change (2 ^ 4) with 16. rewrite Z.mul_comm, Z.add_comm, Z.mod_add by lia. by apply Z.mod_small. Qed.
Lemma land_1 k j : Z.land (16 * k + Z.of_nat j) 1 = b2i (negb (Nat.even j)).
Proof.
  change 1 with (Z.ones 1). rewrite Z.land_ones by lia. change (2 ^ 1) with 2.
  replace (16 * k + Z.of_nat j) with (Z.of_nat j + 8 * k * 2) by lia. rewrite Z.mod_add by lia.
  destruct (Nat.even j) eqn:E; cbn.
  - apply Nat.even_spec in E as [m ->]. rewrite Nat2Z.inj_mul, Z.mul_comm. apply Z.mod_mul. lia.
  - assert (Nat.odd j = true) as Ho by (unfold Nat.odd; by rewrite E). apply Nat.odd_spec in Ho as [m ->].
    rewrite Nat2Z.inj_add, Nat2Z.inj_mul, Z.mul_comm, Z.add_comm, Z.mod_add by lia. done.
Qed.

(** A byte that is not the first of its row, and one that is. *)
Lemma dump_loop_later ind data al k j T s c :
  (0 < j < 16)%nat ->
  dump_loop ind (c :: data) (16 * k + Z.of_nat j) (hexout al T) (mkOverwriting s (length s)) =
  dump_loop ind data (16 * k + Z.of_nat (S j)) (hexout al (T ++ hex_at j c))
    (mkOverwriting (s ++ [shown c]) (length (s ++ [shown c]))).
Proof.
  intros Hj. cbn [dump_loop]. rewrite land_15, land_1 by lia. destruct (Z.eqb_spec (Z.of_nat j) 0); [lia|].
  unfold hex_at. rewrite bool_decide_true by lia.
  replace (16 * k + Z.of_nat j + 1) with (16 * k + Z.of_nat (S j)) by lia.
  destruct (Nat.even j); cbn [b2i negb Z.eqb andb app].
  - by rewrite put_chr, put_byte, <- app_assoc, put_over_end.
  - by rewrite put_byte, put_over_end.
Qed.

Lemma dump_loop_first ind data al k T p c :
  0 <= k -> 16 * k < 2 ^ 32 ->
  dump_loop ind (c :: data) (16 * k) (hexout al T) p =
  dump_loop ind data (16 * k + Z.of_nat 1)
    (hexout al (T ++ (if decide (k = 0) then [] else str! "    " ++ content p ++ [newline]) ++ ind
      ++ offset_field (16 * k) ++ str! ":    " ++ hex_at 0 c))
    (put_over (shown c) (if decide (k = 0) then p else mkOverwriting (str! " ") 0)).
Proof.
  intros Hk Hk2. cbn [dump_loop]. replace (16 * k) with (16 * k + 0) at 1 by lia. rewrite land_15 by lia.
  cbn [Z.eqb]. change (hex_at 0 c) with (hex2 c).
  assert (forall T0, hexout al T0 <<< ind <<< setw 8 <<< 16 * k <<< str! ":    " <<< setw 2 <<< b2z c =
    hexout al (T0 ++ ind ++ offset_field (16 * k) ++ str! ":    " ++ hex2 c)) as Hrow.
  { intros T0. rewrite put_str, put_offset, put_str, put_byte by lia. by rewrite <- !app_assoc. }
  destruct (decide (k = 0)) as [->|Hk0].
  - change (16 * 0) with 0 in *. cbn [Z.eqb negb]. rewrite Hrow. done.
  - destruct (Z.eqb_spec (16 * k) 0); [lia|]. cbn [negb].
    rewrite !put_str, put_chr, put_str, put_offset, put_str, put_byte by lia. by rewrite <- !app_assoc.
Qed.

(** The bytes of a row after its first. *)
Lemma dump_row_rest ind rest al k bs : forall j T s,
  (0 < j)%nat -> (j + length bs <= 16)%nat ->
  dump_loop ind (bs ++ rest) (16 * k + Z.of_nat j) (hexout al T) (mkOverwriting s (length s)) =
  dump_loop ind rest (16 * k + Z.of_nat (j + length bs))
    (hexout al (T ++ concat (imap (fun i => hex_at (j + i)) bs)))
    (mkOverwriting (s ++ map shown bs) (length (s ++ map shown bs))).
Proof.
  induction bs as [|c bs IH]; intros j T s Hj Hl.
  - cbn. by rewrite Nat.add_0_r, !app_nil_r.
  - cbn [length] in Hl. change ((c :: bs) ++ rest) with (c :: bs ++ rest).
    rewrite dump_loop_later, IH by lia. cbn [imap concat map length]. f_equal; [f_equal; lia| |].
    + rewrite <- app_assoc, Nat.add_0_r. do 3 f_equal. f_equal. apply imap_ext. intros i x _. unfold compose. f_equal. lia.
    + by rewrite <- app_assoc.
Qed.

(** The characters of the last row, and the spaces before them. *)
Definition dump_end (printed : Z) (p : overwriting) : list byte :=
  let print_rem := (16 - Z.land printed 15) mod 16 in
  replicate (Z.to_nat (2 * print_rem + print_rem / 2 + 4)) x20 ++ content p ++ [newline].

Lemma dump_end_spaces k bs s :
  bs <> [] -> (length bs <= 16)%nat ->
  dump_end (16 * k + Zlen bs) (mkOverwriting s (length s)) =
  replicate (Z.to_nat (43 - Zlen (hex_field bs))) x20 ++ s ++ [newline].
Proof.
  intros Hne Hl. unfold dump_end. cbn [content]. f_equal. f_equal. f_equal.
  destruct (decide (length bs = 16)%nat) as [E|E].
  - replace (16 * k + Zlen bs) with (16 * (k + 1) + 0) by (unfold Zlen; lia). rewrite land_15 by lia.
    clear -E. do 16 (destruct bs as [|? bs]; [done|]). by destruct bs.
  - rewrite land_15 by (unfold Zlen; lia). clear -E Hl Hne.
    destruct bs as [|? bs]; [done|]. do 15 (destruct bs as [|? bs]; [reflexivity|]). cbn [length] in *. lia.
Qed.

(** A row that starts with its first byte. *)
Lemma dump_one_row ind rest al k bs T p :
  0 <= k -> 16 * k < 2 ^ 32 -> bs <> [] -> (length bs <= 16)%nat -> (k = 0 -> p = mkOverwriting (str! " ") 0) ->
  dump_loop ind (bs ++ rest) (16 * k) (hexout al T) p =
  dump_loop ind rest (16 * k + Zlen bs)
    (hexout al (T ++ (if decide (k = 0) then [] else str! "    " ++ content p ++ [newline]) ++ ind
      ++ offset_field (16 * k) ++ str! ":    " ++ hex_field bs))
    (mkOverwriting (map shown bs) (length bs)).
Proof.
  intros Hk Hk2 Hne Hl Hp. destruct bs as [|c bs]; [done|]. change ((c :: bs) ++ rest) with (c :: bs ++ rest).
  rewrite dump_loop_first by done.
  assert (put_over (shown c) (if decide (k = 0) then p else mkOverwriting (str! " ") 0) =
    mkOverwriting [shown c] (length [shown c])) as -> by (case_decide; [rewrite Hp by done|]; reflexivity).
  cbn [length] in Hl. rewrite dump_row_rest by lia. unfold hex_field. cbn [imap concat map app length].
  rewrite length_map. f_equal. by rewrite <- !app_assoc.
Qed.

Lemma dump_rows_spec fuel ind indent al : forall d k T p,
  ind = replicate (Z.to_nat indent) x20 -> 0 <= k -> 16 * k + Zlen d < 2 ^ 32 -> d <> [] -> (length d <= fuel)%nat ->
  (k = 0 -> p = mkOverwriting (str! " ") 0) ->
  let '(printed, cout, p') := dump_loop ind d (16 * k) (hexout al T) p in
  exists T', cout = hexout al T' /\ T' ++ dump_end printed p' =
    T ++ (if decide (k = 0) then [] else str! "    " ++ content p ++ [newline]) ++ dump_rows fuel indent k d.
Proof.
  induction fuel as [|fuel IH]; intros d k T p Hind Hk Hsz Hne Hf Hp; [destruct d; [done|cbn in Hf; lia]|].
  pose proof (Zlen_nonneg d).
  assert (d = take 16 d ++ drop 16 d) as Ed by (by rewrite take_drop).
  assert (take 16 d <> []) as Hne1 by (by destruct d). pose proof (length_take d 16) as Hl1.
  assert (dump_rows (S fuel) indent k d = dump_row indent k (take 16 d) ++ dump_rows fuel indent (k + 1) (drop 16 d)) as ->
    by (by destruct d).
  pose proof (dump_one_row ind (drop 16 d) al k (take 16 d) T p Hk ltac:(lia) Hne1 ltac:(lia) Hp) as Eloop.
  rewrite <- Ed in Eloop. rewrite Eloop. clear Eloop. set (T1 := T ++ _). destruct (decide (drop 16 d = [])) as [E|E].
  - rewrite E. cbn [dump_loop]. exists T1. split; [done|].
    assert (dump_rows fuel indent (k + 1) [] = []) as -> by (by destruct fuel).
    assert (length (take 16 d) = length (map shown (take 16 d))) as Em by (by rewrite length_map).
    rewrite Em, dump_end_spaces by (done || lia). subst T1. unfold dump_row. rewrite <- Hind.
    by rewrite app_nil_r, <- !app_assoc.
  - assert (16 < length d)%nat as Hlong by (destruct (decide (16 < length d)%nat); [done|]; rewrite drop_ge in E by lia; done).
    assert (length (take 16 d) = 16)%nat as Hl2 by lia.
    replace (16 * k + Zlen (take 16 d)) with (16 * (k + 1)) by (unfold Zlen; lia).
    specialize (IH (drop 16 d) (k + 1) T1 (mkOverwriting (map shown (take 16 d)) (length (take 16 d))) Hind ltac:(lia)).
    destruct (dump_loop _ _ _ _ _) as [[printed cout] p'].
    destruct IH as (T' & -> & E'); [unfold Zlen in *; rewrite length_drop; lia|done|rewrite length_drop; lia|lia|].
    exists T'. split; [done|]. rewrite E'. rewrite decide_False by lia. subst T1. unfold dump_row. rewrite <- Hind.
    assert (Zlen (hex_field (take 16 d)) = 39) as ->.
    { clear -Hl2. do 16 (destruct d as [|? d]; [done|]). by destruct d. }
    rewrite <- !app_assoc. done.
Qed.

(** Reading a dump back: from the column of the bytes, pairs of digits up to
    the end of the field; then the rest of the line is skipped. *)
Fixpoint undump_field (fuel j : nat) (s : list byte) : list byte :=
  match fuel with
  | O => []
  | S fuel' =>
      let s := if bool_decide (j <> 0%nat) && Nat.even j then tail s else s in
      match s with
      | a :: b :: s' =>
          match char_digit a, char_digit b with
          | Some x, Some y => z2b (16 * x + y) :: undump_field fuel' (S j) s'
          | _, _ => []
          end
      | _ => []
      end
  end.
Fixpoint undump (fuel : nat) (indent : Z) (s : list byte) : list byte :=
  match fuel with
  | O => []
  | S fuel' =>
      match undump_field 16 0 (ztake 39 (zdrop (indent + 13) s)) with
      | [] => []
      | bs => bs ++ undump fuel' indent (zdrop (indent + 57 + Zlen bs) s)
      end
  end.

Lemma undump_hex c : exists x y, hex2 c = [digit_char x; digit_char y] /\
  0 <= x < 16 /\ 0 <= y < 16 /\ z2b (16 * x + y) = c.
Proof.
  exists (b2z c / 16), (b2z c mod 16). pose proof (b2z_bound c). pose proof (Z.div_mod (b2z c) 16 ltac:(lia)) as E.
  pose proof (Z.mod_pos_bound (b2z c) 16 ltac:(lia)). split; [done|]. split; [|split; [done|]].
  - split; [apply Z.div_pos; lia|apply Z.div_lt_upper_bound; lia].
  - rewrite <- E. apply z2b_b2z.
Qed.

Lemma undump_field_spec fuel j bs n :
  (length bs <= fuel)%nat -> (n <> 0%nat \/ length bs = fuel) ->
  undump_field fuel j (concat (imap (fun i => hex_at (j + i)) bs) ++ replicate n x20) = bs.
Proof.
  revert j bs. induction fuel as [|fuel IH]; intros j bs Hl Hn; [destruct bs; [done|cbn in Hl; lia]|].
  destruct bs as [|c bs].
  - cbn [undump_field imap concat app]. destruct Hn as [Hn|Hn]; [|done].
    destruct n as [|[|[|n]]]; [done|..]; destruct (_ && _); done.
  - cbn [imap concat undump_field]. destruct (undump_hex c) as (x & y & Ec & Hx & Hy & Exy).
    rewrite <- app_assoc. set (rest := concat _ ++ _).
    assert (undump_field fuel (S j) rest = bs) as Hrest.
    { unfold rest. rewrite <- (IH (S j) bs) at 2; [|cbn in Hl; lia|cbn in Hn; lia]. do 3 f_equal.
      apply imap_ext. intros i b _. unfold compose. f_equal. lia. }
    clearbody rest. unfold hex_at. rewrite Nat.add_0_r, Ec.
    destruct (bool_decide _ && _); cbn [app tail]; by rewrite !char_digit_char, Exy, Hrest by lia.
Qed.

Lemma Zlen_offset n : 0 <= n < 2 ^ 32 -> Zlen (offset_field n) = 8.
Proof.
  intros Hn. unfold offset_field. destruct (numeral_spec 16 n ltac:(lia) ltac:(lia)) as (_ & _ & _ & Hl).
  specialize (Hl 8 ltac:(lia) ltac:(lia)). zlen.
Qed.

Lemma Zlen_field bs : (length bs <= 16)%nat -> Zlen (hex_field bs) = 2 * Zlen bs + (Zlen bs - 1) / 2 \/ bs = [].
Proof.
  intros Hl. destruct bs as [|? bs]; [by right|left]. do 16 (destruct bs as [|? bs]; [reflexivity|]). cbn in Hl. lia.
Qed.

Lemma undump_row indent k bs rest :
  0 <= indent -> 0 <= k -> 16 * k < 2 ^ 32 -> bs <> [] -> (length bs <= 16)%nat ->
  undump_field 16 0 (ztake 39 (zdrop (indent + 13) (dump_row indent k bs ++ rest))) = bs /\
  zdrop (indent + 57 + Zlen bs) (dump_row indent k bs ++ rest) = rest.
Proof.
  intros Hi Hk Hk2 Hne Hl. pose proof (Zlen_offset (16 * k) ltac:(lia)) as Ho.
  destruct (Zlen_field bs Hl) as [Ef|]; [|done]. pose proof (Zlen_nonneg bs).
  assert (0 <= (Zlen bs - 1) / 2 <= 7) as Hq.
  { assert (0 < Zlen bs <= 16) by (unfold Zlen in *; destruct bs; [done|cbn [length] in *; lia]).
    split; [apply Z.div_pos; lia|]. assert ((Zlen bs - 1) / 2 < 8); [|lia]. apply Z.div_lt_upper_bound; lia. }
  assert (Zlen bs <= 16) as Hb by (unfold Zlen; lia).
  set (pre := replicate (Z.to_nat indent) x20 ++ offset_field (16 * k) ++ str! ":    ").
  set (sp := replicate (Z.to_nat (43 - Zlen (hex_field bs))) x20).
  set (post := map shown bs ++ [newline]).
  assert (Zlen pre = indent + 13) as Hpre by (unfold pre; rewrite !Zlen_app, Zlen_replicate, Ho; change (Zlen (str! ":    ")) with 5; lia).
  assert (Zlen sp = 43 - Zlen (hex_field bs)) as Hsp by (unfold sp; rewrite Zlen_replicate; lia).
  assert (Zlen post = Zlen bs + 1) as Hpost by (unfold post; rewrite Zlen_app, Zlen_map; change (Zlen [newline]) with 1; lia).
  assert (dump_row indent k bs ++ rest = pre ++ (hex_field bs ++ sp) ++ post ++ rest) as ->
    by (unfold dump_row, pre, sp, post; by rewrite <- !app_assoc).
  split.
  - rewrite <- Hpre, zdrop_app_len.
    set (gap := replicate (Z.to_nat (39 - Zlen (hex_field bs))) x20).
    assert (sp = gap ++ replicate 4 x20) as Esp
      by (unfold sp, gap; rewrite <- replicate_add; f_equal; lia).
    assert (Zlen (hex_field bs ++ gap) = 39) as Hlen by (unfold gap; rewrite Zlen_app, Zlen_replicate; lia).
    rewrite Esp, !app_assoc, <- (app_assoc (hex_field bs ++ gap)), <- (app_assoc (hex_field bs ++ gap)), <- Hlen.
    rewrite ztake_app_len. unfold gap, hex_field. apply undump_field_spec; [done|].
    destruct (decide (length bs = 16%nat)) as [|Hn16]; [by right|left].
    assert (Zlen bs <= 15) by (unfold Zlen in *; lia).
    assert ((Zlen bs - 1) / 2 <= 7) by lia. unfold hex_field in Ef. lia.
  - assert (indent + 57 + Zlen bs = Zlen (pre ++ (hex_field bs ++ sp) ++ post)) as ->
      by (rewrite !Zlen_app; lia).
    by rewrite !app_assoc, <- (app_assoc (pre ++ _)), <- app_assoc, zdrop_app_len.
Qed.

Lemma undump_rows fuel indent d : forall k,
  0 <= indent -> 0 <= k -> 16 * k + Zlen d < 2 ^ 32 -> (length d <= fuel)%nat ->
  undump (S fuel) indent (dump_rows fuel indent k d ++ [newline]) = d.
Proof.
  assert (forall f, 0 <= indent -> undump (S f) indent [newline] = []) as Hend.
  { intros f Hi. cbn [undump]. rewrite zdrop_ge by (change (Zlen [newline]) with 1; lia). reflexivity. }
  revert d. induction fuel as [|fuel IH]; intros d k Hi Hk Hsz Hf.
  - destruct d; [|cbn in Hf; lia]. by apply Hend.
  - destruct d as [|c d']; [by apply Hend|]. set (d := c :: d') in *.
    assert (take 16 d <> [] /\ length (take 16 d) <= 16)%nat as [Hne Hl] by (rewrite length_take; split; [done|lia]).
    assert (dump_rows (S fuel) indent k d = dump_row indent k (take 16 d) ++ dump_rows fuel indent (k + 1) (drop 16 d)) as -> by done.
    rewrite <- app_assoc. destruct (undump_row indent k (take 16 d) (dump_rows fuel indent (k + 1) (drop 16 d) ++ [newline]))
      as [E1 E2]; [done|done|pose proof (Zlen_nonneg d); lia|done|done|].
    remember (S fuel) as f eqn:Ef. cbn [undump]. rewrite E1. destruct (take 16 d) as [|b0 bs0] eqn:Eb; [done|].
    rewrite E2, Ef. transitivity ((b0 :: bs0) ++ drop 16 d); [|rewrite <- Eb; apply take_drop]. f_equal.
    destruct (decide (drop 16 d = [])) as [->|Hd].
    + assert (dump_rows fuel indent (k + 1) [] = []) as -> by (by destruct fuel). by apply Hend.
    + assert (16 < length d)%nat as Hlong by (destruct (decide (16 < length d)%nat); [done|]; rewrite drop_ge in Hd by lia; done).
      rewrite <- Ef. apply IH; try lia; [|rewrite length_drop; lia]. unfold Zlen in *. rewrite length_drop. lia.
Qed.

(** A hex dump shows its data and nothing else matters: for every non-empty
    string of bytes shorter than [2^31] and every indentation, [hexdump] prints
    rows of sixteen bytes in a fixed layout (the offset in eight digits, the
    bytes in pairs, the printable characters always in the same column), leaves
    the base and [boolalpha] as they were, and the data can be read back from
    the printed text. *)
Theorem hexdump_roundtrip (d : list byte) (indent : Z) (cout : ostream) :
  0 <= indent -> 0 < Zlen d < 2 ^ 31 -> width cout = 0 ->
  let out := hexdump d indent cout in
  text out = text cout ++ dump_layout indent d /\ base16 out = base16 cout /\ alpha out = alpha cout /\
  undump (S (length d)) indent (dump_layout indent d) = d.
Proof.
  intros Hi Hd Hw. destruct cout as [b16 al f w T]. cbn in Hw. subst w.
  unfold hexdump. cbn [base16 alpha].
  change (mkOstream b16 al f 0 T <<< hex <<< setfill x30) with (hexout al T).
  pose proof (dump_rows_spec (length d) _ indent al d 0 T (mkOverwriting (str! " ") 0) eq_refl ltac:(lia) ltac:(lia)) as H.
  specialize (H ltac:(intros ->; rewrite (@Zlen_nil byte) in Hd; lia) ltac:(lia) ltac:(done)).
  change (16 * 0) with 0 in H. destruct (dump_loop _ _ _ _ _) as [[printed cout] p].
  destruct H as (T' & -> & E). rewrite decide_True in E by done. rewrite app_nil_l in E.
  rewrite !put_str, !put_chr. cbn [fill width text base16 alpha]. split_and!; try done.
  - unfold dump_layout. rewrite app_assoc, <- E. unfold dump_end. by rewrite <- !app_assoc.
  - apply undump_rows; lia.
Qed.

Lemma hexdump_roundtrip_witness :
  text (hexdump [x61; x00; x62] 4 stringstream) =
    str! "    00000000:    6100 62                                    a.b" ++ [newline; newline] /\
  undump 4 4 (dump_layout 4 [x61; x00; x62]) = [x61; x00; x62].
Proof.
  destruct (hexdump_roundtrip [x61; x00; x62] 4 stringstream) as (E & _ & _ & H);
    [lia|split; reflexivity|reflexivity|].
  split; [rewrite E; reflexivity|exact H].
Defined.
