(* ===== verification/CommandLine.v ===== *)
(** * Command lines

    What the programs of [src/apps] share when they read their arguments: a
    monad for code that prints and may [exit], access to [argv], [strncmp] on
    option names, a loop over options, and [strtof] with the single-precision
    arithmetic that the loss rates use (IEEE 754 binary32, the standard
    library's [SpecFloat] at precision 24 and exponent 128). *)
From stdpp Require Import base tactics list numbers option.
From Stdlib Require Import ZArith Lia SpecFloat.
From Stdlib Require Import (notations) String.
From S2P Require Import Prelude Text.

(** What the rest of the program sees of a computation that may call [exit]. *)
Inductive ending (A : Type) : Type :=
  | Returns (a : A)
  | Exits (status : Z).
Arguments Returns {A} a.
Arguments Exits {A} status.

Definition EXIT_SUCCESS : Z := 0.
Definition EXIT_FAILURE : Z := 1.

(** Code that prints on an output stream, may exit, and may throw. *)
Definition cli (A : Type) : Type := ostream -> ostream * outcome (ending A).
#[global] Instance cli_ret : MRet cli := fun A a os => (os, Ok (Returns a)).
#[global] Instance cli_bind : MBind cli := fun A B f m os =>
  match m os with
  | (os, Ok (Returns a)) => f a os
  | (os, Ok (Exits n)) => (os, Ok (Exits n))
  | (os, Throw e) => (os, Throw e)
  end.
Definition exit {A} (status : Z) : cli A := fun os => (os, Ok (Exits status)).
Definition prints (f : ostream -> ostream) : cli unit := fun os => (f os, Ok (Returns tt)).
Definition of_result {A} (o : outcome A) : cli A := fun os =>
  (os, match o with Ok a => Ok (Returns a) | Throw e => Throw e end).

(** The two output streams of a process. *)
Record Terminal := mkTerminal { cout : ostream; cerr : ostream }.
Definition on_cout (f : ostream -> ostream) : ste Terminal unit := modify (fun t => mkTerminal (f (cout t)) (cerr t)).
Definition on_cerr (f : ostream -> ostream) : ste Terminal unit := modify (fun t => mkTerminal (cout t) (f (cerr t))).

(** [argv[i]]; what follows the last argument is a null pointer. *)
Definition argument (argv : list (list byte)) (i : Z) : outcome (list byte) :=
  if i <? 0 then Throw Undefined
  else match argv !! Z.to_nat i with Some s => Ok s | None => Throw Undefined end.

(** [strncmp(a, b, n) == 0] on strings without zero characters: they agree on
    the first [n] characters, the terminator of [a] included. *)
Definition strncmp_eq (a b : list byte) (n : Z) : bool :=
  bool_decide (ztake n (a ++ [x00]) = ztake n (b ++ [x00])).

(** A loop [while (argc - curr > positional)] whose body handles the option at
    [curr] and returns the next index. *)
Fixpoint option_loop {S} (fuel : nat) (positional : Z) (body : list (list byte) -> Z -> S -> cli (Z * S))
    (argv : list (list byte)) (curr : Z) (s : S) : cli (Z * S) :=
  match fuel with
  | O => of_result (Throw Undefined)
  | Datatypes.S fuel' =>
      if Zlen argv - curr >? positional then
        r ← body argv curr s;
        option_loop fuel' positional body argv (fst r) (snd r)
      else mret (curr, s)
  end.

(** ** Single-precision numbers *)

Definition float32 : Type := spec_float.

(** The float nearest to a quotient of integers, and the product of two. *)
Definition round_quotient (negative : bool) (num den : positive) : float32 :=
  SFdiv 24 128 (S754_finite negative num 0) (S754_finite false den 0).
Definition fmul (x y : float32) : float32 := SFmul 24 128 x y.
Definition float_of_Z (z : Z) : float32 := binary_normalize 24 128 z 0 false.

(** The float nearest to [m * base ^ e]. *)
Definition scaled (negative : bool) (m base e : Z) : float32 :=
  match m with
  | Z.pos p =>
      round_quotient negative (p * Z.to_pos (base ^ Z.max 0 e)) (Z.to_pos (base ^ Z.max 0 (- e)))
  | _ => S754_zero negative
  end.

(** [static_cast<uint16_t>]: truncation; a value that does not fit is undefined. *)
Definition cast_u16 (x : float32) : outcome Z :=
  match x with
  | S754_zero _ => Ok 0
  | S754_finite negative m e =>
      let t := if 0 <=? e then Z.pos m * 2 ^ e else Z.pos m / 2 ^ (- e) in
      if negative then if t =? 0 then Ok 0 else Throw Undefined
      else if t <? 2 ^ 16 then Ok t else Throw Undefined
  | _ => Throw Undefined
  end.

Definition lower (c : byte) : byte := let z := b2z c in if (65 <=? z) && (z <=? 90) then z2b (z + 32) else c.
Definition starts_with (p s : list byte) : bool := bool_decide (take (length p) (map lower s) = p).

(** An exponent, introduced by [mark]: absent unless it has a digit. *)
Definition read_exponent (mark : list byte) (s : list byte) : Z :=
  if starts_with mark s then
    let '(negative, s) := read_sign (drop 1 s) in
    match take_while (is_digit 10) s with
    | [] => 0
    | ds => if negative then - value 10 ds else value 10 ds
    end
  else 0.

(** The digits before and after the point, and what follows. *)
Definition read_mantissa (base : Z) (s : list byte) : list byte * list byte * list byte :=
  let whole := take_while (is_digit base) s in
  let s := drop_while (is_digit base) s in
  if starts_with (str! ".") s then
    (whole, take_while (is_digit base) (drop 1 s), drop_while (is_digit base) (drop 1 s))
  else (whole, [], s).

(** [strtof(s, nullptr)]: decimal and hexadecimal numbers, [inf] and [nan]; zero
    when there is no number. *)
Definition strtof (s : list byte) : float32 :=
  let '(negative, s) := read_sign (drop_while isspace s) in
  if starts_with (str! "inf") s then S754_infinity negative
  else if starts_with (str! "nan") s then S754_nan
  else
    let '(hw, hf, hs) := read_mantissa 16 (drop 2 s) in
    if starts_with (str! "0x") s && negb (bool_decide (hw ++ hf = [])) then
      scaled negative (value 16 (hw ++ hf)) 2 (read_exponent (str! "p") hs - 4 * Zlen hf)
    else
      let '(w, f, s) := read_mantissa 10 s in
      if bool_decide (w ++ f = []) then S754_zero false
      else scaled negative (value 10 (w ++ f)) 10 (read_exponent (str! "e") s - Zlen f).

(** The assignment of a loss rate: [65535.0f * lossrate] as a [uint16_t]. *)
Definition loss_rate (s : list byte) : outcome Z :=
  let lossrate := strtof s in cast_u16 (fmul (float_of_Z 65535) lossrate).

Example loss_rates :
  map (fun s => loss_rate (lit s)) ["0"; "0.5"; "1"; "0.25e0x"; ".1"; "1e-3"; "0x1.8p-1"; ""; "-0"; "-0.1"; "2"; "nan"]%string =
  [Ok 0; Ok 32767; Ok 65535; Ok 16383; Ok 6553; Ok 65; Ok 49151; Ok 0; Ok 0; Throw Undefined; Throw Undefined; Throw Undefined].
Proof. by vm_compute. Qed.

Example strtof_rounds :
  strtof (str! "0.1") = S754_finite false 13421773 (-27) /\ strtof (str! "1e-45") = S754_finite false 1 (-149) /\
  strtof (str! "16777217") = S754_finite false 8388608 1 /\ strtof (str! "1e39") = S754_infinity false.
Proof. by vm_compute. Qed.

(** ** The loop over options *)

Lemma argument_ok argv i : 0 <= i < Zlen argv -> exists s, argument argv i = Ok s.
Proof.
  intros Hi. unfold argument. rewrite (proj2 (Z.ltb_ge i 0)) by lia.
  destruct (lookup_lt_is_Some_2 argv (Z.to_nat i)) as [s ->]; [unfold Zlen in Hi; lia|by exists s].
Qed.

Lemma argument_app pre s post : argument (pre ++ s :: post) (Zlen pre) = Ok s.
Proof.
  unfold argument, Zlen. destruct (Z.ltb_spec (Z.of_nat (length pre)) 0); [lia|].
  by rewrite Nat2Z.id, list_lookup_middle.
Qed.

Lemma argument_at argv pre s post i : argv = pre ++ s :: post -> i = Zlen pre -> argument argv i = Ok s.
Proof. intros -> ->. apply argument_app. Qed.

(** An option of a given name and value, at the front of what is left. *)
Lemma option_loop_step {S} fuel positional (body : list (list byte) -> Z -> S -> cli (Z * S)) pre opt rest s s' os :
  positional < Zlen (opt ++ rest) ->
  body (pre ++ opt ++ rest) (Zlen pre) s os = (os, Ok (Returns (Zlen (pre ++ opt), s'))) ->
  option_loop (Datatypes.S fuel) positional body (pre ++ opt ++ rest) (Zlen pre) s os =
  option_loop fuel positional body ((pre ++ opt) ++ rest) (Zlen (pre ++ opt)) s' os.
Proof.
  intros Hl E. cbn [option_loop]. destruct (Z.gtb_spec (Zlen (pre ++ opt ++ rest) - Zlen pre) positional) as [_|Hle].
  - unfold mbind, cli_bind. rewrite E. cbn [fst snd]. by rewrite <- app_assoc.
  - rewrite (Zlen_app pre) in Hle. lia.
Qed.
