(* ===== verification/Capture.v ===== *)
(** * The packet monitors

    Models [src/apps/udp_tcpdump.cc], which prints the TCP segments that a
    packet capture finds inside UDP datagrams.  The capture library and
    [inet_ntop] are parameters.  The captured bytes of a packet are a list;
    reading past them is [Undefined]. *)
From stdpp Require Import base tactics list numbers option.
From Stdlib Require Import ZArith Lia.
From Stdlib Require Import (notations) String.
From S2P Require Import NetParser Prelude WrappingIntegers Text CommandLine Buffer Printed.
From S2P Require TCPHeader TCPSegment.

(** *** The command line *)

Definition show_usage (arg0 : list byte) (errmsg : option (list byte)) (cout : ostream) : ostream :=
  let cout := cout <<< str! "Usage: " <<< arg0 <<< str! " [-i <intf>] [-F <file>] [-h|--help] <expression>" <<< newline <<< newline
    <<< str! "  -i <intf>    only capture packets from <intf> (default: all)" <<< newline <<< newline
    <<< str! "  -F <file>    reads in a filter expression from <file>" <<< newline
    <<< str! "               <expression> is ignored if -F is supplied." <<< newline <<< newline
    <<< str! "  -h, --help   show this message" <<< newline <<< newline
    <<< str! "  <expression> a filter expression in pcap-filter(7) syntax" <<< newline in
  let cout := match errmsg with Some m => cout <<< newline <<< m | None => cout end in
  cout <<< newline.

Definition check_arg (argv : list (list byte)) (curr : Z) (errmsg : list byte) : cli unit :=
  if Zlen argv <=? curr + 1 then
    arg0 ← of_result (argument argv 0);
    _ ← prints (show_usage arg0 (Some errmsg));
    exit 1
  else mret tt.

(** [parse_arguments]: every iteration but the last takes an option. *)
Fixpoint parse_loop (fuel : nat) (argv : list (list byte)) (curr : Z) (dev : option (list byte))
    : cli (Z * option (list byte)) :=
  match fuel with
  | O => of_result (Throw Undefined)
  | S fuel' =>
      if curr <? Zlen argv then
        a ← of_result (argument argv curr);
        if strncmp_eq (str! "-i") a 3 then
          _ ← check_arg argv curr (str! "ERROR: -i requires an argument");
          d ← of_result (argument argv (curr + 1));
          parse_loop fuel' argv (curr + 2) (Some d)
        else if strncmp_eq (str! "-h") a 3 || strncmp_eq (str! "--help") a 7 then
          arg0 ← of_result (argument argv 0);
          _ ← prints (show_usage arg0 None);
          exit 0
        else mret (curr, dev)
      else mret (curr, dev)
  end.
Definition parse_arguments (argv : list (list byte)) : cli (Z * option (list byte)) :=
  parse_loop (S (length argv)) argv 1 None.

(** Every command line is read without leaving [argv]: the program exits, or
    the filter starts within the arguments, and the options before it are over. *)
Lemma parse_arguments_total argv os :
  0 < Zlen argv ->
  match snd (parse_arguments argv os) with
  | Ok (Returns (curr, _)) => 1 <= curr <= Zlen argv /\
      forall a, argument argv curr = Ok a -> strncmp_eq (str! "-i") a 3 = false
  | Ok (Exits n) => n = 0 \/ n = 1
  | Throw _ => False
  end.
Proof.
  intros Hl. unfold parse_arguments.
  assert (forall fuel curr dev, 1 <= curr <= Zlen argv -> Zlen argv - curr < Z.of_nat fuel ->
    match snd (parse_loop fuel argv curr dev os) with
    | Ok (Returns (curr, _)) => 1 <= curr <= Zlen argv /\
        forall a, argument argv curr = Ok a -> strncmp_eq (str! "-i") a 3 = false
    | Ok (Exits n) => n = 0 \/ n = 1
    | Throw _ => False
    end) as H; [|apply H; [lia|unfold Zlen in *; lia]].
  intros fuel. induction fuel as [|fuel IH]; intros curr dev Hc Hf; [lia|]. cbn [parse_loop].
  destruct (argument_ok argv 0 ltac:(lia)) as [a0 E0].
  destruct (Z.ltb_spec curr (Zlen argv)) as [Hlt|Hge].
  - destruct (argument_ok argv curr ltac:(lia)) as [a Ea].
    unfold check_arg, mbind, cli_bind, of_result. rewrite Ea, E0.
    destruct (strncmp_eq (str! "-i") a 3) eqn:Ei.
    + destruct (Z.leb_spec (Zlen argv) (curr + 1)); [cbn; by right|].
      destruct (argument_ok argv (curr + 1) ltac:(lia)) as [d ->]. apply IH; lia.
    + destruct (_ || _); [cbn; by left|]. unfold mret, cli_ret; cbn [snd]. split; [lia|]. intros a' E. congruence.
  - cbn. split; [lia|]. intros a E. unfold argument in E. destruct (curr <? 0); [done|].
    rewrite lookup_ge_None_2 in E by (unfold Zlen in *; lia). done.
Qed.

(** *** Packets *)

Definition AF_INET : Z := 2.
Definition AF_INET6 : Z := 10.

(** [data[i]], and the [n] bytes at [data + i]. *)
Definition byte_at (data : list byte) (i : Z) : outcome Z :=
  if i <? 0 then Throw Undefined else match data !! Z.to_nat i with Some b => Ok (b2z b) | None => Throw Undefined end.
Definition bytes_at (data : list byte) (i n : Z) : outcome (list byte) :=
  if (0 <=? i) && (i + n <=? Zlen data) then Ok (ztake n (zdrop i data)) else Throw Undefined.

Section Packets.
(** [inet_ntop(family, address)]: a text, or nothing for an error. *)
Context (inet_ntop : Z -> list byte -> option (list byte)).

Definition inet4_addr (data : list byte) (i : Z) : outcome (list byte) :=
  a ← bytes_at data i 4; Ok (default (str! "unknown") (inet_ntop AF_INET a)).
Definition inet6_addr (data : list byte) (i : Z) : outcome (list byte) :=
  a ← bytes_at data i 16; Ok (default (str! "unknown") (inet_ntop AF_INET6 a)).

(** The loop over the IPv6 extension headers: the offset after the last, or -1. *)
Fixpoint extension_loop (fuel : nat) (data : list byte) (nxt data_offset : Z) : ste ostream Z :=
  match fuel with
  | O => throw Undefined
  | S fuel' =>
      if negb (nxt =? 17) then
        if negb (nxt =? 0) && negb (nxt =? 43) && negb (nxt =? 60) then
          _ ← modify (fun cerr => cerr <<< str! "Not UDP or fragmented; ");
          mret (-1)
        else
          nxt ← lift (byte_at data data_offset);
          hdr_len ← lift (byte_at data (data_offset + 1));
          let data_offset := data_offset + 8 * (1 + hdr_len) in
          if Zlen data <? data_offset + 2 then mret (-1) else extension_loop fuel' data nxt data_offset
      else mret data_offset
  end.

(** [process_ipv4_ipv6]: the offset of the UDP payload, or -1, and the two
    addresses.  The length argument is that of the captured bytes. *)
Definition process_ipv4_ipv6 (data : list byte) : ste ostream (Z * (list byte * list byte)) :=
  let len := Zlen data in
  let fail := mret (-1, ([], [])) in
  if len <? 1 then fail
  else
    first ← lift (byte_at data 0);
    let pt := Z.land first 240 in
    if pt =? 64 then
      let data_offset := Z.land first 15 * 4 in
      if len <? data_offset then fail
      else
        proto ← lift (byte_at data 9);
        if negb (proto =? 17) then
          _ ← modify (fun cerr => cerr <<< str! "Not UDP; ");
          fail
        else
          src_addr ← lift (inet4_addr data 12);
          dst_addr ← lift (inet4_addr data 16);
          mret (data_offset + 8, (src_addr, dst_addr))
    else if pt =? 96 then
      if len <? 42 then fail
      else
        nxt ← lift (byte_at data 6);
        data_offset ← extension_loop (length data) data nxt 40;
        if data_offset <? 0 then fail
        else
          src_addr ← lift (inet6_addr data 8);
          dst_addr ← lift (inet6_addr data 24);
          mret (data_offset + 8, (src_addr, dst_addr))
    else fail.

(** The link types that the program knows. *)
Inductive Link : Type :=
  | DLT_RAW | DLT_NULL | DLT_EN10MB | DLT_LINUX_SLL | DLT_LINUX_SLL2
  | DLT_other (n : Z).

Definition with_cerr {A} (m : ste ostream A) : ste Terminal A := fun t =>
  let '(e, a) := m (cerr t) in (mkTerminal (cout t) e, a).

Definition malformed : list byte := str! "[INFO] Skipping malformed packet." ++ [newline].
Definition not_ip : list byte := str! "[INFO] Skipping non-IP packet." ++ [newline].

(** Where the datagram starts by the link type: the offset, a reason to skip
    the packet, or a link type that ends the program. *)
Inductive start := At (hdr_off : Z) | Skip (why : list byte) | Give_up.
Definition ether_start (pkt : list byte) (hdr_off type_off : Z) : outcome start :=
  if Zlen pkt <? hdr_off then Ok (Skip malformed)
  else
    hi ← byte_at pkt type_off;
    lo ← byte_at pkt (type_off + 1);
    let pt := Z.lor (Z.shiftl hi 8) lo in
    Ok (if negb (pt =? 2048) && negb (pt =? 34525) then Skip not_ip else At hdr_off).
Definition datagram_start (dl_type : Link) (pkt : list byte) : outcome start :=
  match dl_type with
  | DLT_NULL =>
      if Zlen pkt <? 4 then Ok (Skip malformed)
      else
        pt ← byte_at pkt 3;
        Ok (if negb (pt =? 2) && negb (pt =? 24) && negb (pt =? 28) && negb (pt =? 30) then Skip not_ip else At 4)
  | DLT_EN10MB => ether_start pkt 14 12
  | DLT_LINUX_SLL => ether_start pkt 16 14
  | DLT_LINUX_SLL2 => ether_start pkt 20 0
  | DLT_RAW => Ok (At 0)
  | DLT_other _ => Ok Give_up
  end.

(** [string(payload)] for the view of [payload_len] bytes at [payload_off]: a
    length above the largest string throws. *)
Definition view (pkt : list byte) (payload_off payload_len : Z) : outcome (list byte) :=
  if 2 ^ 63 <=? payload_len then Throw LengthError else bytes_at pkt payload_off payload_len.

(** The lines printed for a payload. *)
Definition describe (src dst payload : list byte) (payload_len : Z) (cout : ostream) : ostream :=
  let '(seg, res) := TCPSegment.parse TCPSegment.default_segment (buf_of_string payload) 0 in
  if (ParseResult_index BadChecksum <? ParseResult_index res)%nat then
    cout <<< str! "(did not recognize TCP header) src: " <<< src <<< str! " dst: " <<< dst <<< newline
  else
    let tcp_hdr := TCPSegment._header seg in
    let seqlen := u32 (TCPSegment.length_in_sequence_space seg) in
    let cout := cout <<< src <<< str! ":" <<< TCPHeader.sport tcp_hdr <<< str! " > " <<< dst <<< str! ":"
      <<< TCPHeader.dport tcp_hdr <<< newline <<< str! "    Flags ["
      <<< flag (TCPHeader.urg tcp_hdr) (str! "U") <<< flag (TCPHeader.psh tcp_hdr) (str! "P")
      <<< flag (TCPHeader.rst tcp_hdr) (str! "R") <<< flag (TCPHeader.syn tcp_hdr) (str! "S")
      <<< flag (TCPHeader.fin tcp_hdr) (str! "F") <<< flag (TCPHeader.ack tcp_hdr) (str! ".")
      <<< str! "] cksum 0x" <<< hex <<< setw 4 <<< TCPHeader.cksum tcp_hdr <<< dec
      <<< (if bool_decide (res = NoError) then str! " (correct)" else str! " (incorrect!)")
      <<< str! " seq " <<< TCPHeader.seqno tcp_hdr in
    let cout := if seqlen >? 0 then cout <<< str! ":" <<< wi_add (TCPHeader.seqno tcp_hdr) seqlen else cout in
    cout <<< str! " ack " <<< TCPHeader.ackno tcp_hdr <<< str! " win " <<< TCPHeader.win tcp_hdr
      <<< str! " length " <<< payload_len <<< newline.

(** The body of the loop for a captured packet: whether the program goes on. *)
Definition handle_packet (dl_type : Link) (pkt : list byte) : ste Terminal bool :=
  s ← lift (datagram_start dl_type pkt);
  match s with
  | Give_up => _ ← on_cerr (fun e => e <<< str! "Mysterious datalink type. Giving up."); mret false
  | Skip why => _ ← on_cerr (fun e => e <<< why); mret true
  | At hdr_off =>
      r ← with_cerr (process_ipv4_ipv6 (zdrop hdr_off pkt));
      let '(start_off, (src, dst)) := r in
      if start_off <? 0 then
        _ ← on_cerr (fun e => e <<< str! "Error parsing IPv4/IPv6 packet. Skipping." <<< newline);
        mret true
      else
        let payload_off := hdr_off + start_off in
        let payload_len := u64 (Zlen pkt - payload_off) in
        payload ← lift (view pkt payload_off payload_len);
        _ ← on_cout (describe src dst payload payload_len);
        _ ← on_cout (hexdump payload 8);
        mret true
  end.

(** The capture library: an open capture has a state [P]. *)
Class Pcap (P : Type) := {
  (** [pcap_open_live(dev, ...)]: the capture, or the text of [errbuf] *)
  pcap_open_live : option (list byte) -> P + list byte;
  pcap_datalink : P -> Link;
  pcap_datalink_val_to_description : Link -> list byte;
  pcap_compile : list byte -> P -> P * Z;
  pcap_setfilter : P -> P * Z;
  pcap_geterr : P -> list byte;
  (** [pcap_next_ex]: its value and, when that is positive, the captured bytes *)
  pcap_next_ex : P -> P * (Z * list byte)
}.

Section Main.
Context {P : Type} `{Pcap P}.

(** The loop, for [fuel] packets and timeouts: the status the program returns,
    or nothing yet.  After the loop the capture is closed; its error text is
    then read from freed memory. *)
Fixpoint capture_loop (fuel : nat) (dl_type : Link) (p : P) : ste Terminal (option Z) :=
  match fuel with
  | O => mret None
  | S fuel' =>
      let '(p, (next_ret, pkt)) := pcap_next_ex p in
      if next_ret <? 0 then
        if next_ret =? -1 then throw Undefined else mret (Some EXIT_SUCCESS)
      else if next_ret =? 0 then capture_loop fuel' dl_type p
      else
        go_on ← handle_packet dl_type pkt;
        if go_on : bool then capture_loop fuel' dl_type p else mret (Some EXIT_FAILURE)
  end.

Definition supported_link (dlt : Link) : bool := match dlt with DLT_other _ => false | _ => true end.

(** The arguments that are the filter, each followed by a space. *)
Definition filter_expression (argv : list (list byte)) (exp_start : Z) : list byte :=
  concat (map (fun a => a ++ str! " ") (zdrop exp_start argv)).

Definition main (fuel : nat) (argv : list (list byte)) : ste Terminal (option Z) := fun t =>
  let '(c, o) := parse_arguments argv (cout t) in
  let t := mkTerminal c (cerr t) in
  match o with
  | Throw e => (t, Throw e)
  | Ok (Exits n) => (t, Ok (Some n))
  | Ok (Returns (exp_start, dev)) =>
      (_ ← on_cout (fun c => match dev with
           | Some d => c <<< str! "Capturing on interface " <<< d
           | None => c <<< str! "Capturing on all interfaces" end);
       match pcap_open_live dev with
       | inr errbuf =>
           _ ← on_cout (fun c => c <<< newline <<< str! "Error initiating capture: " <<< errbuf <<< newline);
           mret (Some 1)
       | inl p_hdl =>
           let dlt := pcap_datalink p_hdl in
           if negb (supported_link dlt) then
             _ ← on_cout (fun c => c <<< newline <<< str! "Error: unsupported datalink type "
                   <<< pcap_datalink_val_to_description dlt <<< newline);
             mret (Some 1)
           else
             _ ← on_cout (fun c => c <<< str! " (type: " <<< pcap_datalink_val_to_description dlt <<< str! ")" <<< newline);
             let expression := filter_expression argv exp_start in
             _ ← on_cout (fun c => c <<< str! "Using filter expression: " <<< expression <<< newline);
             let '(p_hdl, r) := pcap_compile expression p_hdl in
             if negb (r =? 0) then
               _ ← on_cout (fun c => c <<< str! "Error compiling filter expression: " <<< pcap_geterr p_hdl <<< newline);
               mret (Some EXIT_FAILURE)
             else
               let '(p_hdl, r) := pcap_setfilter p_hdl in
               if negb (r =? 0) then
                 _ ← on_cout (fun c => c <<< str! "Error configuring packet filter: " <<< pcap_geterr p_hdl <<< newline);
                 mret (Some EXIT_FAILURE)
               else
                 _ ← on_cout (setfill x30);
                 capture_loop fuel dlt p_hdl
       end) t
  end.
End Main.

(** ** The payload that is found *)

(** The bytes of one IPv6 extension header: the type of the next one, its
    length in units of eight bytes less one, and its content. *)
Record extension := mkExtension { ext_kind : Z; ext_body : list byte }.
Definition extension_ok (e : extension) : Prop :=
  (ext_kind e = 0 \/ ext_kind e = 43 \/ ext_kind e = 60) /\
  exists n, 0 <= n < 256 /\ Zlen (ext_body e) = 8 * (1 + n) - 2.
Definition ext_units (e : extension) : Z := (Zlen (ext_body e) + 2) / 8 - 1.

(** A chain of headers before UDP (17), and the kind of the first. *)
Definition first_kind (es : list extension) : Z := match es with e :: _ => ext_kind e | [] => 17 end.
Fixpoint chain_bytes (es : list extension) : list byte :=
  match es with
  | [] => []
  | e :: es' => z2b (first_kind es') :: z2b (ext_units e) :: ext_body e ++ chain_bytes es'
  end.

Lemma byte_at_app pre c post : byte_at (pre ++ c :: post) (Zlen pre) = Ok (b2z c).
Proof.
  unfold byte_at, Zlen. destruct (Z.ltb_spec (Z.of_nat (length pre)) 0); [lia|].
  by rewrite Nat2Z.id, list_lookup_middle.
Qed.

Lemma bytes_at_app pre s post : bytes_at (pre ++ s ++ post) (Zlen pre) (Zlen s) = Ok s.
Proof.
  unfold bytes_at. pose proof (Zlen_nonneg pre). pose proof (Zlen_nonneg post).
  rewrite (proj2 (Z.leb_le _ _)), (proj2 (Z.leb_le _ _)) by (rewrite ?Zlen_app; lia).
  by rewrite zdrop_app_len, ztake_app_len.
Qed.

(** The loop walks the chain, and stops at UDP. *)
Lemma extension_loop_chain fuel pre es rest e0 :
  Forall extension_ok es -> (length es < fuel)%nat -> 2 <= Zlen rest ->
  extension_loop fuel (pre ++ chain_bytes es ++ rest) (first_kind es) (Zlen pre) e0
  = (e0, Ok (Zlen pre + Zlen (chain_bytes es))).
Proof.
  revert pre es. induction fuel as [|fuel IH]; intros pre es Hes Hf Hr; [lia|].
  destruct Hes as [|e es (Hk & n & Hn & Hb) Hes]; cbn [extension_loop first_kind].
  - cbn. do 2 f_equal. rewrite Z.add_0_r. done.
  - assert (ext_units e = n) as Hu by (unfold ext_units; rewrite Hb; replace (8 * (1 + n) - 2 + 2) with ((1 + n) * 8) by lia; rewrite Z.div_mul; lia).
    rewrite (proj2 (Z.eqb_neq (ext_kind e) 17)) by lia. cbn [negb].
    assert (negb (ext_kind e =? 0) && negb (ext_kind e =? 43) && negb (ext_kind e =? 60) = false) as ->.
    { destruct Hk as [-> | [-> | ->]]; done. }
    cbn [chain_bytes app]. unfold mbind, ste_bind, lift.
    rewrite byte_at_app, b2z_z2b.
    replace (pre ++ z2b (first_kind es) :: z2b (ext_units e) :: (ext_body e ++ chain_bytes es) ++ rest)
      with ((pre ++ [z2b (first_kind es)]) ++ z2b (ext_units e) :: (ext_body e ++ chain_bytes es) ++ rest)
      by (by rewrite <- app_assoc).
    replace (Zlen pre + 1) with (Zlen (pre ++ [z2b (first_kind es)])) by (by rewrite Zlen_app).
    rewrite byte_at_app, b2z_z2b, Hu, (u8_small n) by lia.
    set (data := (pre ++ [z2b (first_kind es)]) ++ z2b n :: (ext_body e ++ chain_bytes es) ++ rest).
    set (pre2 := (pre ++ [z2b (first_kind es)]) ++ z2b n :: ext_body e).
    assert (data = pre2 ++ chain_bytes es ++ rest) as Ed by (unfold data, pre2; by rewrite <- !app_assoc).
    assert (Zlen pre2 = Zlen pre + 8 * (1 + n)) as Epre.
    { unfold pre2. rewrite !Zlen_app, (Zlen_cons (z2b n)), Hb. change (Zlen [_]) with 1. lia. }
    assert (u8 (first_kind es) = first_kind es) as ->.
    { apply u8_small. destruct Hes as [|e' es' (Hk' & _)]; cbn; lia. }
    pose proof (Zlen_nonneg (chain_bytes es)).
    destruct (Z.ltb_spec (Zlen data) (Zlen pre + 8 * (1 + n) + 2)) as [Hlt|_].
    { rewrite Ed, !Zlen_app, Epre in Hlt. lia. }
    rewrite Ed, <- Epre, IH by (done || cbn in Hf; lia). rewrite Epre. do 2 f_equal.
    rewrite !Zlen_cons, Zlen_app, Hb. lia.
Qed.

Lemma chain_length es : Forall extension_ok es -> (length es <= length (chain_bytes es))%nat.
Proof. induction 1 as [|e es _ _ IH]; [done|]. cbn. rewrite length_app. lia. Qed.

(** The IP headers that lead to a UDP datagram: the bytes, and those of the
    two addresses with their family. *)
Inductive ip_header : list byte -> Z -> list byte -> list byte -> Prop :=
  | ip4_header (n : Z) (ihl proto : byte) (before after src dst options : list byte) :
      5 <= n <= 15 -> b2z ihl = 64 + n -> proto = x11 -> Zlen before = 8 -> Zlen after = 2 ->
      Zlen src = 4 -> Zlen dst = 4 -> Zlen options = 4 * n - 20 ->
      ip_header (ihl :: before ++ proto :: after ++ src ++ dst ++ options) AF_INET src dst
  | ip6_header (version : byte) (before after src dst : list byte) (es : list extension) :
      Z.land (b2z version) 240 = 96 -> Zlen before = 5 -> Zlen after = 1 ->
      Zlen src = 16 -> Zlen dst = 16 -> Forall extension_ok es ->
      ip_header (version :: before ++ z2b (first_kind es) :: after ++ src ++ dst ++ chain_bytes es) AF_INET6 src dst.

(** [show_address] is what the program prints for an address. *)
Definition show_address (family : Z) (a : list byte) : list byte := default (str! "unknown") (inet_ntop family a).

Lemma byte_at_split l pre c post i : l = pre ++ c :: post -> i = Zlen pre -> byte_at l i = Ok (b2z c).
Proof. intros -> ->. apply byte_at_app. Qed.
Lemma bytes_at_split l pre s post i n : l = pre ++ s ++ post -> i = Zlen pre -> n = Zlen s -> bytes_at l i n = Ok s.
Proof. intros -> -> ->. apply bytes_at_app. Qed.

Ltac same_list := repeat match goal with d := _ : list byte |- _ => progress unfold d end; by list_simplifier.

Lemma process_header ip family src dst udp e0 :
  ip_header ip family src dst -> 2 <= Zlen udp ->
  process_ipv4_ipv6 (ip ++ udp) e0 = (e0, Ok (Zlen ip + 8, (show_address family src, show_address family dst))).
Proof.
  intros H Hu. unfold process_ipv4_ipv6. pose proof (Zlen_nonneg udp). unfold mbind, ste_bind, lift.
  destruct H as [n ihl proto before after src dst options Hn Hi -> Hb Ha Hs Hd Ho|version before after src dst es Hv Hb Ha Hs Hd Hes].
  - set (data := _ ++ udp).
    assert (Zlen (ihl :: before ++ x11 :: after ++ src ++ dst ++ options) = 4 * n) as El.
    { rewrite Zlen_cons, Zlen_app, Zlen_cons, !Zlen_app. lia. }
    assert (Zlen data = 4 * n + Zlen udp) as Ed by (unfold data; rewrite Zlen_app, El; lia).
    assert (Z.land (64 + n) 240 = 64 /\ Z.land (64 + n) 15 = n) as [E1 E2].
    { assert (n = 5 \/ n = 6 \/ n = 7 \/ n = 8 \/ n = 9 \/ n = 10 \/ n = 11 \/ n = 12 \/ n = 13 \/ n = 14 \/ n = 15) as Hc by lia.
      repeat destruct Hc as [-> | Hc]; subst; done. }
    rewrite (byte_at_split data [] ihl (before ++ x11 :: after ++ src ++ dst ++ options ++ udp) 0), Hi, E1, E2;
      [|same_list|done]. cbn [Z.eqb].
    rewrite (byte_at_split data (ihl :: before) x11 (after ++ src ++ dst ++ options ++ udp) 9);
      [|same_list|rewrite Zlen_cons; lia].
    unfold inet4_addr, mbind, outcome_bind.
    rewrite (bytes_at_split data (ihl :: before ++ x11 :: after) src (dst ++ options ++ udp));
      [|same_list|rewrite Zlen_cons, Zlen_app, Zlen_cons; lia|lia].
    rewrite (bytes_at_split data (ihl :: before ++ x11 :: after ++ src) dst (options ++ udp));
      [|same_list|rewrite Zlen_cons, Zlen_app, Zlen_cons, Zlen_app; lia|lia].
    rewrite (proj2 (Z.ltb_ge _ _)), (proj2 (Z.ltb_ge _ _)) by lia. rewrite El. by replace (n * 4 + 8) with (4 * n + 8) by lia.
  - set (data := _ ++ udp). set (first := z2b (first_kind es)) in *.
    set (fixed := version :: before ++ first :: after ++ src ++ dst).
    assert (Zlen fixed = 40) as Ef
      by (unfold fixed; rewrite Zlen_cons, Zlen_app, Zlen_cons, !Zlen_app; lia).
    assert (data = fixed ++ chain_bytes es ++ udp) as Ed by same_list.
    pose proof (Zlen_nonneg (chain_bytes es)).
    assert (Zlen data = 40 + Zlen (chain_bytes es) + Zlen udp) as Edl by (rewrite Ed, !Zlen_app; lia).
    rewrite (byte_at_split data [] version (before ++ first :: after ++ src ++ dst ++ chain_bytes es ++ udp) 0), Hv;
      [|same_list|done]. cbn [Z.eqb].
    rewrite (byte_at_split data (version :: before) first (after ++ src ++ dst ++ chain_bytes es ++ udp) 6);
      [|same_list|rewrite Zlen_cons; lia].
    assert (b2z first = first_kind es) as ->.
    { unfold first. rewrite b2z_z2b, u8_small; [done|]. destruct Hes as [|e' es' (Hk' & _)]; cbn; lia. }
    rewrite (proj2 (Z.ltb_ge (Zlen data) 1)), (proj2 (Z.ltb_ge (Zlen data) 42)) by lia.
    pose proof (chain_length es Hes) as Hlen.
    assert (extension_loop (length data) data (first_kind es) 40 e0 = (e0, Ok (40 + Zlen (chain_bytes es)))) as Eloop.
    { rewrite <- Ef, Ed. apply extension_loop_chain; [done|rewrite !length_app; unfold Zlen in *; lia|done]. }
    cbn [Z.eqb Pos.eqb]. rewrite Eloop. destruct (Z.ltb_spec (40 + Zlen (chain_bytes es)) 0); [lia|].
    unfold inet6_addr, mbind, outcome_bind.
    rewrite (bytes_at_split data (version :: before ++ first :: after) src (dst ++ chain_bytes es ++ udp));
      [|same_list|rewrite Zlen_cons, Zlen_app, Zlen_cons; lia|lia].
    rewrite (bytes_at_split data (version :: before ++ first :: after ++ src) dst (chain_bytes es ++ udp));
      [|same_list|rewrite Zlen_cons, Zlen_app, Zlen_cons, Zlen_app; lia|lia].
    replace (40 + Zlen (chain_bytes es)) with (Zlen (version :: before ++ first :: after ++ src ++ dst ++ chain_bytes es))
      by (rewrite Zlen_cons, Zlen_app, Zlen_cons, !Zlen_app; lia).
    done.
Qed.

(** What precedes an IP datagram on each kind of link. *)
Inductive link_header : Link -> list byte -> Prop :=
  | raw_header : link_header DLT_RAW []
  | null_header a b c pt : pt ∈ [x02; x18; x1c; x1e] -> link_header DLT_NULL [a; b; c; pt]
  | ethernet_header addrs type : Zlen addrs = 12 -> type ∈ [[x08; x00]; [x86; xdd]] ->
      link_header DLT_EN10MB (addrs ++ type)
  | cooked_header before type : Zlen before = 14 -> type ∈ [[x08; x00]; [x86; xdd]] ->
      link_header DLT_LINUX_SLL (before ++ type)
  | cooked2_header type after : Zlen after = 18 -> type ∈ [[x08; x00]; [x86; xdd]] ->
      link_header DLT_LINUX_SLL2 (type ++ after).

Lemma ether_start_header pre type post hdr_off type_off :
  type ∈ [[x08; x00]; [x86; xdd]] -> Zlen pre = type_off -> hdr_off <= Zlen (pre ++ type ++ post) ->
  ether_start (pre ++ type ++ post) hdr_off type_off = Ok (At hdr_off).
Proof.
  intros Ht Hpre Hl. unfold ether_start. destruct (Z.ltb_spec (Zlen (pre ++ type ++ post)) hdr_off); [lia|].
  rewrite !elem_of_cons in Ht. destruct Ht as [-> | [-> | Ht]]; [..|by apply elem_of_nil in Ht]; cbn [app].
  all: rewrite (byte_at_split _ pre _ _ type_off eq_refl) by done; unfold mbind, outcome_bind.
  - rewrite (byte_at_split _ (pre ++ [x08]) x00 post); [done|by list_simplifier|rewrite Zlen_app, Hpre; done].
  - rewrite (byte_at_split _ (pre ++ [x86]) xdd post); [done|by list_simplifier|rewrite Zlen_app, Hpre; done].
Qed.

Lemma start_header dl hdr rest : link_header dl hdr -> datagram_start dl (hdr ++ rest) = Ok (At (Zlen hdr)).
Proof.
  pose proof (Zlen_nonneg rest). intros [|a b c pt Hpt|addrs type Ha Ht|before type Hb Ht|type after Ha Ht]; cbn [datagram_start].
  - done.
  - change ([a; b; c; pt] ++ rest) with ([a; b; c] ++ pt :: rest).
    rewrite (byte_at_split _ [a; b; c] pt rest 3 eq_refl eq_refl).
    destruct (Z.ltb_spec (Zlen ([a; b; c] ++ pt :: rest)) 4) as [Hlt|_]; [rewrite Zlen_app, !Zlen_cons in Hlt; pose proof (Zlen_nonneg (@nil byte)); lia|].
    rewrite !elem_of_cons in Hpt. by destruct Hpt as [-> | [-> | [-> | [-> | Hpt%elem_of_nil]]]].
  - assert (Zlen type = 2) as Et by (rewrite !elem_of_cons in Ht; by destruct Ht as [-> | [-> | Ht%elem_of_nil]]).
    rewrite <- app_assoc, ether_start_header by (done || rewrite !Zlen_app; lia). by rewrite Zlen_app, Ha, Et.
  - assert (Zlen type = 2) as Et by (rewrite !elem_of_cons in Ht; by destruct Ht as [-> | [-> | Ht%elem_of_nil]]).
    rewrite <- app_assoc, ether_start_header by (done || rewrite !Zlen_app; lia). by rewrite Zlen_app, Hb, Et.
  - assert (Zlen type = 2) as Et by (rewrite !elem_of_cons in Ht; by destruct Ht as [-> | [-> | Ht%elem_of_nil]]).
    rewrite <- app_assoc. change (type ++ after ++ rest) with ([] ++ type ++ (after ++ rest)).
    rewrite ether_start_header by (done || cbn [app]; rewrite !Zlen_app; lia). by rewrite Zlen_app, Ha, Et.
Qed.

Lemma payload_found_spec dl hdr ip family src dst udp payload t :
  link_header dl hdr -> ip_header ip family src dst -> Zlen udp = 8 ->
  Zlen (hdr ++ ip ++ udp ++ payload) < 2 ^ 31 ->
  handle_packet dl (hdr ++ ip ++ udp ++ payload) t =
    (mkTerminal (hexdump payload 8 (describe (show_address family src) (show_address family dst) payload
                   (Zlen payload) (cout t))) (cerr t), Ok true).
Proof.
  intros Hh Hip Hu Hsz. unfold handle_packet. rewrite (start_header dl hdr _ Hh). unfold mbind, ste_bind, lift, with_cerr.
  pose proof (Zlen_nonneg payload). pose proof (Zlen_nonneg ip). pose proof (Zlen_nonneg hdr).
  rewrite zdrop_app_len, (process_header ip family src dst (udp ++ payload)) by (done || rewrite Zlen_app; lia).
  rewrite (proj2 (Z.ltb_ge (Zlen ip + 8) 0)) by lia.
  assert (u64 (Zlen (hdr ++ ip ++ udp ++ payload) - (Zlen hdr + (Zlen ip + 8))) = Zlen payload) as ->
    by (rewrite !Zlen_app, u64_small; rewrite !Zlen_app in Hsz; lia).
  assert (Zlen payload < 2 ^ 63) as Hp by (rewrite !Zlen_app in Hsz; lia).
  unfold view. rewrite (proj2 (Z.leb_gt _ _) Hp).
  rewrite (bytes_at_split _ (hdr ++ ip ++ udp) payload []); [|by list_simplifier|rewrite !Zlen_app; lia|done].
  done.
Qed.

(** *** What can go wrong *)

Lemma byte_at_ok data i : 0 <= i < Zlen data -> exists b, byte_at data i = Ok b /\ 0 <= b < 256.
Proof.
  intros Hi. unfold byte_at. rewrite (proj2 (Z.ltb_ge i 0)) by lia.
  destruct (lookup_lt_is_Some_2 data (Z.to_nat i)) as [b ->]; [unfold Zlen in Hi; lia|].
  exists (b2z b). split; [done|apply b2z_bound].
Qed.

Lemma bytes_at_ok data i n : 0 <= i -> i + n <= Zlen data -> exists s, bytes_at data i n = Ok s.
Proof. intros Hi Hn. unfold bytes_at. rewrite (proj2 (Z.leb_le _ _)), (proj2 (Z.leb_le _ _)) by lia. by eexists. Qed.

Lemma extension_loop_bounds fuel data nxt off e0 :
  0 <= off -> off + 2 <= Zlen data -> Zlen data - off < Z.of_nat fuel ->
  exists e r, extension_loop fuel data nxt off e0 = (e, Ok r) /\ (r = -1 \/ off <= r /\ r + 2 <= Zlen data).
Proof.
  revert nxt off e0. induction fuel as [|fuel IH]; intros nxt off e0 Ho Hl Hf; [lia|].
  cbn [extension_loop]. unfold mbind, ste_bind, lift, modify.
  destruct (negb (nxt =? 17)); [|do 2 eexists; split; [done|right; lia]].
  destruct (_ && _ && _); [do 2 eexists; split; [done|by left]|].
  destruct (byte_at_ok data off ltac:(lia)) as (b & -> & _). destruct (byte_at_ok data (off + 1) ltac:(lia)) as (h & -> & Hh).
  destruct (Z.ltb_spec (Zlen data) (off + 8 * (1 + h) + 2)); [do 2 eexists; split; [done|by left]|].
  destruct (IH b (off + 8 * (1 + h)) e0) as (e & r & E & Hr); [lia..|].
  do 2 eexists. split; [exact E|]. lia.
Qed.

(** The first byte announces IPv4, and there is not even a whole header. *)
Definition short_ipv4 (data : list byte) : Prop :=
  Zlen data < 20 /\ exists b, byte_at data 0 = Ok b /\ Z.land b 240 = 64.

Lemma process_bounds data e0 :
  match snd (process_ipv4_ipv6 data e0) with
  | Ok (r, _) => r = -1 \/ 8 <= r <= Zlen data + 8
  | Throw e => e = Undefined /\ short_ipv4 data
  end.
Proof.
  unfold process_ipv4_ipv6, mbind, ste_bind, lift, modify, inet4_addr, inet6_addr, mbind, outcome_bind.
  destruct (Z.ltb_spec (Zlen data) 1); [by left|].
  destruct (byte_at data 0) as [first|e] eqn:E0; [|destruct (byte_at_ok data 0 ltac:(lia)) as (? & ? & _); congruence].
  destruct (Z.eqb_spec (Z.land first 240) 64) as [E4|_]; [|destruct (Z.eqb_spec (Z.land first 240) 96)].
  - assert (0 <= Z.land first 15 * 4) as Hoff.
    { assert (0 <= Z.land first 15); [|lia]. apply Z.land_nonneg. by right. }
    destruct (Z.ltb_spec (Zlen data) (Z.land first 15 * 4)); [by left|].
    destruct (decide (20 <= Zlen data)) as [Hge|Hlt].
    + destruct (byte_at_ok data 9 ltac:(lia)) as (b & -> & _). destruct (negb _); [by left|].
      destruct (bytes_at_ok data 12 4 ltac:(lia) ltac:(lia)) as (s & ->).
      destruct (bytes_at_ok data 16 4 ltac:(lia) ltac:(lia)) as (d & ->). cbn. right. lia.
    + assert (short_ipv4 data) as Hs by (split; [lia|by exists first]).
      assert (forall i e, byte_at data i = Throw e -> e = Undefined) as Hb.
      { intros i e. unfold byte_at. destruct (i <? 0); [by intros [= <-]|]. by destruct (_ !! _); intros [= <-]. }
      assert (forall i n e, bytes_at data i n = Throw e -> e = Undefined) as Hbs.
      { intros i n e. unfold bytes_at. destruct (_ && _); by intros [= <-]. }
      destruct (byte_at data 9) as [b|e] eqn:E9; [|by apply Hb in E9 as ->].
      destruct (negb _); [by left|].
      destruct (bytes_at data 12 4) as [x|e] eqn:E12; [|by apply Hbs in E12 as ->].
      destruct (bytes_at data 16 4) as [y|e] eqn:E16; [|by apply Hbs in E16 as ->]. cbn. right. lia.
  - destruct (Z.ltb_spec (Zlen data) 42); [by left|].
    destruct (byte_at_ok data 6 ltac:(lia)) as (b & -> & _).
    destruct (extension_loop_bounds (length data) data b 40 e0) as (e1 & r & -> & Hr); [lia|lia|unfold Zlen; lia|].
    destruct (Z.ltb_spec r 0); [by left|].
    destruct (bytes_at_ok data 8 16 ltac:(lia) ltac:(lia)) as (s & ->).
    destruct (bytes_at_ok data 24 16 ltac:(lia) ltac:(lia)) as (d & ->). cbn. right. lia.
  - by left.
Qed.

Lemma start_bounds dl pkt : exists s, datagram_start dl pkt = Ok s /\
  match s with At off => 0 <= off <= Zlen pkt | _ => True end.
Proof.
  assert (forall hdr_off type_off, 0 <= type_off -> type_off + 2 <= hdr_off ->
    exists s, ether_start pkt hdr_off type_off = Ok s /\ match s with At off => 0 <= off <= Zlen pkt | _ => True end) as He.
  { intros hdr_off type_off Ht Hh. unfold ether_start. destruct (Z.ltb_spec (Zlen pkt) hdr_off); [by eexists|].
    destruct (byte_at_ok pkt type_off ltac:(lia)) as (a & -> & _).
    destruct (byte_at_ok pkt (type_off + 1) ltac:(lia)) as (b & -> & _). unfold mbind, outcome_bind.
    destruct (_ && _); eexists; (split; [done|]); cbn; done || lia. }
  pose proof (Zlen_nonneg pkt). destruct dl; cbn [datagram_start]; try (by apply He); [|..|by eexists].
  - eexists. split; [done|]. cbn. lia.
  - destruct (Z.ltb_spec (Zlen pkt) 4); [by eexists|].
    destruct (byte_at_ok pkt 3 ltac:(lia)) as (b & -> & _). unfold mbind, outcome_bind.
    destruct (_ && _); eexists; (split; [done|]); cbn; done || lia.
Qed.

(** C38. The monitor finds the segment.  Whatever the link type, for an IPv4
    header with any options or an IPv6 header with any chain of extension
    headers, in front of a UDP header and a payload, one round of the loop
    prints the description and the dump of exactly the payload, with the
    addresses of the header, reports nothing on the error output and goes on:
    in particular the loop over the extension headers ends. *)
Theorem payload_found dl hdr ip family src dst udp payload t :
  link_header dl hdr -> ip_header ip family src dst -> Zlen udp = 8 ->
  Zlen (hdr ++ ip ++ udp ++ payload) < 2 ^ 31 ->
  handle_packet dl (hdr ++ ip ++ udp ++ payload) t =
    (mkTerminal (hexdump payload 8 (describe (show_address family src) (show_address family dst) payload
                   (Zlen payload) (cout t))) (cerr t), Ok true).
Proof. apply payload_found_spec. Qed.

(** What any captured packet can do to the program: it is handled, or the
    UDP header that its IP header announces runs past the captured bytes, and
    the length of the payload wraps around and throws; or it starts like IPv4
    with less than a header, and the program reads past it. *)
Lemma capture_failures dl pkt t :
  Zlen pkt < 2 ^ 31 ->
  match snd (handle_packet dl pkt t) with
  | Ok _ => True
  | Throw e => exists off, datagram_start dl pkt = Ok (At off) /\
      ((e = Undefined /\ short_ipv4 (zdrop off pkt)) \/
       (e = LengthError /\ exists r a, snd (process_ipv4_ipv6 (zdrop off pkt) (cerr t)) = Ok (r, a) /\
          0 <= r /\ Zlen pkt < off + r))
  end.
Proof.
  intros Hsz. unfold handle_packet, mbind, ste_bind, lift, with_cerr.
  destruct (start_bounds dl pkt) as (s & -> & Hs). destruct s as [off| |]; [|done..].
  pose proof (process_bounds (zdrop off pkt) (cerr t)) as Hp.
  destruct (process_ipv4_ipv6 (zdrop off pkt) (cerr t)) as [e o] eqn:E. cbn [snd] in Hp.
  destruct o as [[r [a b]]|x].
  - destruct (Z.ltb_spec r 0); [done|]. destruct Hp as [->|[Hlo Hhi]]; [lia|].
    rewrite Zlen_zdrop in Hhi by lia. unfold view.
    destruct (Z.leb_spec (off + r) (Zlen pkt)) as [Hin|Hout].
    + rewrite u64_small, (proj2 (Z.leb_gt _ _)) by lia.
      destruct (bytes_at_ok pkt (off + r) (Zlen pkt - (off + r)) ltac:(lia) ltac:(lia)) as (v & ->). done.
    + assert (2 ^ 63 <= u64 (Zlen pkt - (off + r))) as Hwrap by wrap_lia.
      rewrite (proj2 (Z.leb_le _ _) Hwrap). cbn [snd]. exists off. split; [done|]. right. split; [done|].
      exists r, (a, b). rewrite E. split; [done|lia].
  - cbn [snd]. exists off. split; [done|]. left. exact Hp.
Qed.
End Packets.

(** An Ethernet frame whose IPv6 datagram has two extension headers. *)
Lemma payload_found_witness :
  let es := [mkExtension 0 (replicate 6 x00); mkExtension 60 (replicate 14 x00)] in
  let ip := x60 :: replicate 5 x00 ++ z2b (first_kind es) :: [x40] ++ replicate 16 x01 ++ replicate 16 x02 ++ chain_bytes es in
  let pkt := (replicate 12 x00 ++ [x86; xdd]) ++ ip ++ replicate 8 x00 ++ [x61; x62] in
  snd (handle_packet (fun _ _ => None) DLT_EN10MB pkt (mkTerminal stringstream stringstream)) = Ok true.
Proof.
  intros es ip pkt.
  pose proof (payload_found (fun _ _ => None) DLT_EN10MB (replicate 12 x00 ++ [x86; xdd]) ip AF_INET6
    (replicate 16 x01) (replicate 16 x02) (replicate 8 x00) [x61; x62] (mkTerminal stringstream stringstream)) as H.
  fold pkt in H. rewrite H; [reflexivity|..].
  - apply ethernet_header; [reflexivity|right; left].
  - apply (ip6_header x60 (replicate 5 x00) [x40] (replicate 16 x01) (replicate 16 x02) es); try reflexivity.
    constructor; [split; [left; reflexivity|exists 0; split; [lia|reflexivity]]|].
    constructor; [split; [right; right; reflexivity|exists 1; split; [lia|reflexivity]]|constructor].
  - reflexivity.
  - reflexivity.
Defined.

(** A datagram that is cut inside its UDP header ends the program. *)
Example truncated_capture :
  snd (handle_packet (fun _ _ => None) DLT_RAW
    (x45 :: replicate 8 x00 ++ x11 :: replicate 10 x00) (mkTerminal stringstream stringstream)) = Throw LengthError.
Proof. by vm_compute. Qed.

(** A packet of one byte is read past its end. *)
Example overread_capture :
  snd (handle_packet (fun _ _ => None) DLT_RAW [x40] (mkTerminal stringstream stringstream)) = Throw Undefined.
Proof. by vm_compute. Qed.
