(* ===== verification/Resolution.v ===== *)
(** * Addresses as they are stored, and their resolution

    Models [src/libsponge/util/address.hh] and [address.cc] at the level of
    the [sockaddr_storage] that an [Address] holds: the constructors, name
    resolution, the conversions and the comparison.  The resolver of the C
    library is a parameter.  The rest of the development uses the IPv4
    addresses of [Address.v]; [address_faithful] shows that the stored form
    implements them. *)
From stdpp Require Import base tactics list numbers option.
From Stdlib Require Import ZArith Lia.
From Stdlib Require Import (notations) String.
From S2P Require Import Prelude Text.
From S2P Require Address Socket Printed.

(** [netdb.h], [sys/socket.h] and [netinet/in.h]. *)
Definition AF_INET : Z := 2.
Definition AI_NUMERICHOST : Z := 4.
Definition AI_ALL : Z := 16.
Definition AI_NUMERICSERV : Z := 1024.
Definition NI_NUMERICHOST : Z := 1.
Definition NI_NUMERICSERV : Z := 2.
Definition NI_MAXHOST : Z := 1025.
Definition NI_MAXSERV : Z := 32.
Definition sizeof_sockaddr_storage : Z := 128.
Definition sizeof_sockaddr_in : Z := 16.

(** The hints: the other fields of [struct addrinfo] are zero. *)
Record addrinfo := mkAddrinfo { ai_flags : Z; ai_family : Z }.
Definition make_hints (flags family : Z) : addrinfo := mkAddrinfo flags family.

(** The resolver: [getaddrinfo] returns its result and the address and length
    of the first answer, [getnameinfo] its result and the strings it stores
    in the two arrays. *)
Class NetDb := {
  getaddrinfo : list byte -> list byte -> addrinfo -> Z * option (list byte * Z);
  getnameinfo : list byte -> Z -> Z -> Z -> Z -> Z * (list byte * list byte)
}.

(** [_size] and the bytes of [_address.storage]. *)
Record Address := mkAddress { _size : Z; _address : list byte }.

(** [Address(addr, size)]: reading past the end of [addr] is undefined. *)
Definition of_sockaddr (addr : list byte) (size : Z) : outcome Address :=
  if sizeof_sockaddr_storage <? size then Throw RuntimeError
  else if Zlen addr <? size then Throw Undefined
  else Ok (mkAddress size (ztake size addr ++ zdrop size (replicate (Z.to_nat sizeof_sockaddr_storage) x00))).

Section Operations.
Context `{NetDb}.

(** [Address(node, service, hints)]. *)
Definition lookup (node service : list byte) (hints : addrinfo) : outcome Address :=
  let '(gai_ret, resolved_address) := getaddrinfo (Socket.c_string node) (Socket.c_string service) hints in
  if negb (gai_ret =? 0) then Throw (GaiError gai_ret)
  else match resolved_address with
       | None => Throw RuntimeError
       | Some (ai_addr, ai_addrlen) => of_sockaddr ai_addr ai_addrlen
       end.

(** [Address(hostname, service)] and [Address(ip, port)]. *)
Definition of_host (hostname service : list byte) : outcome Address :=
  lookup hostname service (make_hints AI_ALL AF_INET).
Definition of_ip (ip : list byte) (port : Z) : outcome Address :=
  lookup ip (Text.to_string port) (make_hints (Z.lor AI_NUMERICHOST AI_NUMERICSERV) AF_INET).

Definition ip_port (a : Address) : outcome (list byte * Z) :=
  let '(gni_ret, (ip, port)) :=
    getnameinfo (_address a) (_size a) NI_MAXHOST NI_MAXSERV (Z.lor NI_NUMERICHOST NI_NUMERICSERV) in
  if negb (gni_ret =? 0) then Throw (GaiError gni_ret)
  else p ← stoi (Socket.c_string port); Ok (Socket.c_string ip, u16 p).
Definition ip (a : Address) : outcome (list byte) := r ← ip_port a; Ok (fst r).
Definition port (a : Address) : outcome Z := r ← ip_port a; Ok (snd r).

Definition to_string (a : Address) : outcome (list byte) :=
  ip_and_port ← ip_port a;
  Ok (fst ip_and_port ++ str! ":" ++ Text.to_string (snd ip_and_port)).
End Operations.

(** [ss_family], in the byte order of the machine, and [s_addr], in that of the network. *)
Definition ss_family (storage : list byte) : Z := b2z (storage !!! 0%nat) + 256 * b2z (storage !!! 1%nat).
Definition be32 (b : list byte) : Z :=
  2 ^ 24 * b2z (b !!! 0%nat) + 2 ^ 16 * b2z (b !!! 1%nat) + 2 ^ 8 * b2z (b !!! 2%nat) + b2z (b !!! 3%nat).
Definition htobe32 (v : Z) : list byte := [z2b (v / 2 ^ 24); z2b (v / 2 ^ 16); z2b (v / 2 ^ 8); z2b v].

Definition ipv4_numeric (a : Address) : outcome Z :=
  if negb (ss_family (_address a) =? AF_INET) || negb (_size a =? sizeof_sockaddr_in) then Throw RuntimeError
  else Ok (be32 (zdrop 4 (_address a))).

(** [struct sockaddr_in]: the family, the port and the address in network
    order, and eight bytes that mean nothing. *)
Definition sockaddr_in (port ip : Z) (sin_zero : list byte) : list byte :=
  [z2b AF_INET; x00] ++ [z2b (port / 2 ^ 8); z2b port] ++ htobe32 ip ++ sin_zero.
Definition blank : list byte := replicate 8 x00.

Definition from_ipv4_numeric (ip_address : Z) : outcome Address :=
  of_sockaddr (sockaddr_in 0 (u32 ip_address) blank) sizeof_sockaddr_in.

(** [operator==]: [memcmp] over the first [_size] bytes. *)
Definition equals (a b : Address) : bool :=
  if negb (_size a =? _size b) then false
  else bool_decide (ztake (_size a) (_address a) = ztake (_size a) (_address b)).

(** ** The stored form implements the IPv4 addresses *)

(** [s] stores the address [a]; the last eight bytes of its [sockaddr_in] are [pad]. *)
Definition stores (pad : list byte) (s : Address) (a : Address.Address) : Prop :=
  Zlen pad = 8 /\
  s = mkAddress sizeof_sockaddr_in
        (sockaddr_in (Address.port a) (Address.ipv4_numeric a) pad ++ replicate 112 x00).

(** The text of an IPv4 address. *)
Definition dotted (a : Address.Address) : list byte := Printed.inet_ntoa (Address.ipv4_numeric a).
Definition show_address (a : Address.Address) : list byte :=
  dotted a ++ str! ":" ++ Text.to_string (Address.port a).

(** What the resolver does with the dotted quad and the decimal port of [a]:
    [getaddrinfo] with numeric flags makes a [sockaddr_in] of them, and
    [getnameinfo] writes them. *)
Definition numeric_forms `{NetDb} (pad : list byte) (a : Address.Address) : Prop :=
  getaddrinfo (dotted a) (Text.to_string (Address.port a)) (make_hints 1028 AF_INET) =
    (0, Some (sockaddr_in (Address.port a) (Address.ipv4_numeric a) pad, sizeof_sockaddr_in)) /\
  forall storage, ztake 16 storage = sockaddr_in (Address.port a) (Address.ipv4_numeric a) pad ->
    getnameinfo storage 16 NI_MAXHOST NI_MAXSERV 3 = (0, (dotted a, Text.to_string (Address.port a))).

Lemma c_string_plain s : Forall (fun c => c <> x00) s -> Socket.c_string s = s.
Proof. induction 1 as [|c s Hc _ IH]; [done|]. cbn. by rewrite bool_decide_eq_false_2, IH. Qed.

Lemma to_string_plain n : 0 <= n -> Forall (fun c => c <> x00) (Text.to_string n).
Proof.
  intros Hn. destruct (digits_decimal n Hn) as (c & s & -> & Hd & _).
  eapply List.Forall_impl; [|exact Hd]. intros b Hb ->. apply digit10_plain in Hb. change (b2z x00) with 0 in Hb. lia.
Qed.

Lemma dotted_plain a : Address.address_valid a -> Forall (fun c => c <> x00) (dotted a).
Proof.
  intros [Ha _]. unfold dotted, Printed.inet_ntoa.
  rewrite !Forall_app. split_and!; try (apply to_string_plain; rewrite ?Z.land_nonneg, ?Z.shiftr_nonneg; lia);
    by apply Forall_singleton.
Qed.

Lemma Zlen_sockaddr_in port ip pad : Zlen pad = 8 -> Zlen (sockaddr_in port ip pad) = 16.
Proof. intros Hp. unfold sockaddr_in, htobe32. zlen. Qed.

Lemma be32_htobe32 v rest : 0 <= v < 2 ^ 32 -> be32 (htobe32 v ++ rest) = v.
Proof. intros Hv. unfold be32, htobe32. cbn -[Z.pow Z.mul Z.add]. rewrite !b2z_z2b. wrap_lia. Qed.

Lemma sockaddr_in_inj p q i j pad pad' :
  0 <= p < 2 ^ 16 -> 0 <= q < 2 ^ 16 -> 0 <= i < 2 ^ 32 -> 0 <= j < 2 ^ 32 ->
  sockaddr_in p i pad = sockaddr_in q j pad' -> p = q /\ i = j /\ pad = pad'.
Proof.
  intros Hp Hq Hi Hj E. unfold sockaddr_in in E. injection E as E1 E2 E3 E4 E5 E6 E7.
  apply (f_equal b2z) in E1, E2, E3, E4, E5, E6. rewrite !b2z_z2b in *.
  split; [wrap_lia|]. split; [wrap_lia|done].
Qed.

Lemma stores_sockaddr pad a :
  Zlen pad = 8 -> exists s, of_sockaddr (sockaddr_in (Address.port a) (Address.ipv4_numeric a) pad) 16 = Ok s /\ stores pad s a.
Proof.
  intros Hp. unfold of_sockaddr. pose proof (Zlen_sockaddr_in (Address.port a) (Address.ipv4_numeric a) pad Hp) as Hl.
  rewrite Hl. cbn [Z.ltb Z.compare]. eexists. split; [done|]. split; [done|]. rewrite ztake_ge by lia. done.
Qed.

Lemma ztake_exact {A} n (l k : list A) : Zlen l = n -> ztake n (l ++ k) = l.
Proof. intros <-. apply ztake_app_len. Qed.

Section Faithful.
Context `{NetDb} (pad : list byte) (a : Address.Address) (Hpad : Zlen pad = 8)
  (Ha : Address.address_valid a).

Lemma of_ip_stores : numeric_forms pad a -> exists s, of_ip (dotted a) (Address.port a) = Ok s /\ stores pad s a.
Proof.
  intros [Hg _]. unfold of_ip, lookup. rewrite !c_string_plain by ((by apply dotted_plain) || apply to_string_plain, Ha).
  change (Z.lor AI_NUMERICHOST AI_NUMERICSERV) with 1028. rewrite Hg. by apply stores_sockaddr.
Qed.

Lemma stored_numeric s : stores pad s a -> ipv4_numeric s = Ok (Address.ipv4_numeric a).
Proof.
  intros [_ ->]. unfold ipv4_numeric. cbn -[be32]. f_equal.
  change (zdrop 4 _) with (htobe32 (Address.ipv4_numeric a) ++ (pad ++ replicate 112 x00)).
  apply be32_htobe32, Ha.
Qed.

Lemma stored_ip_port s :
  numeric_forms pad a -> stores pad s a -> ip_port s = Ok (dotted a, Address.port a).
Proof.
  intros [_ Hg] [_ ->]. unfold ip_port. cbn [_address _size].
  change (Z.lor NI_NUMERICHOST NI_NUMERICSERV) with 3. destruct Ha as [Hi Hp].
  rewrite Hg. 2:{ by apply ztake_exact, Zlen_sockaddr_in. }
  cbn [Z.eqb negb]. rewrite !c_string_plain by (done || (by apply dotted_plain) || (apply to_string_plain; lia)).
  rewrite stoi_to_string by lia. unfold mbind, outcome_bind. by rewrite u16_small.
Qed.
End Faithful.

Lemma stored_equal pad pad' a b s t :
  Address.address_valid a -> Address.address_valid b -> stores pad s a -> stores pad' t b ->
  equals s t = true <-> a = b /\ pad = pad'.
Proof.
  intros [Hai Hap] [Hbi Hbp] [Hp ->] [Hp' ->]. unfold equals. cbn [_size _address].
  pose proof (Zlen_sockaddr_in (Address.port a) (Address.ipv4_numeric a) pad Hp) as Hl.
  pose proof (Zlen_sockaddr_in (Address.port b) (Address.ipv4_numeric b) pad' Hp') as Hl'.
  rewrite Z.eqb_refl. cbn [negb]. unfold sizeof_sockaddr_in.
  rewrite !ztake_exact, bool_decide_eq_true by done.
  split; [|by intros [-> ->]]. intros E. apply sockaddr_in_inj in E as (Ep & Ei & Epad); [|done..].
  split; [|done]. destruct a, b. cbn in *. by subst.
Qed.

(** Every way a lookup can end: the storage holds the first answer and zeros,
    the resolver's error is thrown with its code, or there is no answer or one
    that does not fit. *)
Lemma lookup_spec `{NetDb} node service hints :
  let '(ret, answer) := getaddrinfo (Socket.c_string node) (Socket.c_string service) hints in
  (forall addr size, answer = Some (addr, size) -> 0 <= size <= Zlen addr) ->
  match lookup node service hints with
  | Ok s => exists addr, ret = 0 /\ answer = Some (addr, _size s) /\ _size s <= 128 /\
      _address s = ztake (_size s) addr ++ replicate (Z.to_nat (128 - _size s)) x00
  | Throw e => (ret <> 0 /\ e = GaiError ret) \/
      (ret = 0 /\ e = RuntimeError /\ (answer = None \/ exists addr size, answer = Some (addr, size) /\ 128 < size))
  end.
Proof.
  unfold lookup. destruct (getaddrinfo _ _ _) as [ret answer]. intros Hok.
  destruct (Z.eqb_spec ret 0) as [->|]; cbn [negb]; [|by left].
  destruct answer as [[addr size]|]; [|right; auto]. specialize (Hok _ _ eq_refl).
  unfold of_sockaddr, sizeof_sockaddr_storage. destruct (Z.ltb_spec 128 size); [right; eauto 7|].
  destruct (Z.ltb_spec (Zlen addr) size); [lia|]. exists addr. cbn [_size _address]. split_and!; try done.
  unfold zdrop. rewrite drop_replicate. do 2 f_equal. lia.
Qed.

(** The IPv4 address that a host and a service resolve to, as the
    configurations of the programs use it. *)
Definition resolve_ipv4 `{NetDb} (host service : list byte) : outcome Address.Address :=
  s ← of_host host service;
  i ← ipv4_numeric s;
  p ← port s;
  Ok (Address.mkAddress i p).

(** C31. The stored addresses implement the IPv4 addresses of the model.  Built
    from a dotted quad and a port, an [Address] stores that address; every
    stored address gives back its dotted quad and port, prints as them with a
    colon, and has its number; two of them compare equal exactly when they
    store the same address and the same padding bytes (the comparison reads
    the padding, so that equal addresses of different origin can compare
    different); [from_ipv4_numeric] stores its number with port zero. *)
Theorem address_faithful `{NetDb} (pad : list byte) (a : Address.Address) :
  Zlen pad = 8 -> Address.address_valid a -> numeric_forms pad a ->
  (exists s, of_ip (dotted a) (Address.port a) = Ok s /\ stores pad s a) /\
  (forall s, stores pad s a ->
     ip_port s = Ok (dotted a, Address.port a) /\
     to_string s = Ok (show_address a) /\
     ipv4_numeric s = Ok (Address.ipv4_numeric a) /\
     forall pad' t b, Address.address_valid b -> stores pad' t b -> equals s t = true <-> a = b /\ pad = pad') /\
  (exists s, from_ipv4_numeric (Address.ipv4_numeric a) = Ok s /\
     stores blank s (Address.from_ipv4_numeric (Address.ipv4_numeric a))).
Proof.
  intros Hp Ha Hn. split; [by apply of_ip_stores|]. split.
  - intros s Hs. pose proof (stored_ip_port pad a Hp Ha s Hn Hs) as E. split_and!; [done| | |].
    + unfold to_string. rewrite E. done.
    + by eapply stored_numeric.
    + intros pad' t b Hb Ht. by eapply stored_equal.
  - apply (stores_sockaddr blank (Address.from_ipv4_numeric (Address.ipv4_numeric a))). done.
Qed.

(** A resolver that knows 10.0.0.2, port 80. *)
Definition ex_address : Address.Address := Address.mkAddress 167772162 80.
#[local] Instance ex_netdb : NetDb := {
  getaddrinfo node service _ :=
    if bool_decide (node = str! "10.0.0.2") then (0, Some (sockaddr_in (strtol service 10) 167772162 blank, 16))
    else (-2, None);
  getnameinfo _ _ _ _ _ := (0, (str! "10.0.0.2", str! "80"))
}.

Lemma address_faithful_witness :
  exists s, of_ip (str! "10.0.0.2") 80 = Ok s /\ to_string s = Ok (str! "10.0.0.2:80") /\
    ipv4_numeric s = Ok 167772162 /\ equals s s = true /\ of_ip (str! "10.0.0.3") 80 = Throw (GaiError (-2)).
Proof.
  destruct (address_faithful blank ex_address) as [(s & E & Hs) [H _]];
    [reflexivity|split; vm_compute; intuition discriminate|split; [vm_compute; reflexivity|reflexivity]|].
  destruct (H s Hs) as (_ & Et & Ei & Heq). exists s. split; [exact E|]. split; [exact Et|]. split; [exact Ei|].
  split; [|vm_compute; reflexivity]. apply (Heq blank s ex_address); [split; vm_compute; intuition discriminate|exact Hs|done].
Defined.

(** The same address with another padding does not compare equal. *)
Example padding_compared :
  let s := mkAddress 16 (sockaddr_in 80 167772162 blank ++ replicate 112 x00) in
  let t := mkAddress 16 (sockaddr_in 80 167772162 (replicate 8 x01) ++ replicate 112 x00) in
  equals s t = false /\ ipv4_numeric s = ipv4_numeric t.
Proof. by vm_compute. Qed.
