(* ===== verification/Clients.v ===== *)
(** * Small programs on sockets and devices

    Models [src/apps/webget.cc], [src/apps/tcp_native.cc] and
    [src/apps/tun.cc]: programs over the kernel parameter that print on the
    terminal.  [getaddrinfo] and the texts of exceptions are parameters. *)
From stdpp Require Import base tactics list numbers option gmap.
From Stdlib Require Import ZArith Lia.
From Stdlib Require Import (notations) String.
From S2P Require Import NetParser Prelude Text CommandLine Address Buffer Kernel FileDescriptor Socket.
From S2P Require Import EventLoop StreamCopy Printed.
From S2P Require IPv4Header IPv4Datagram TCPHeader TCPSegment.

(** A local descriptor lives until its block is left, in whatever way. *)
Definition scoped {K U R} `{Kernel K} (l : FileDescriptor) (m : ste (World K U) R) : ste (World K U) R := fun w =>
  let '(w, o) := m w in (fst (destroy l w), o).

Section Webget.
Context {K : Type} `{Kernel K} `{SocketKernel K} (resolve : list byte -> list byte -> outcome Address)
  (what : exn -> list byte).
Abbreviation W := (World K Terminal).

Definition say (s : list byte) : ste W unit := modify (set_app (fun t => mkTerminal (cout t <<< s) (cerr t))).
Definition complain (s : list byte) : ste W unit := modify (set_app (fun t => mkTerminal (cout t) (cerr t <<< s))).

Definition crlf : list byte := [x0d; x0a].
Definition request (host path : list byte) : list byte :=
  str! "GET " ++ path ++ str! " HTTP/1.1" ++ crlf ++ str! "Host: " ++ host ++ crlf ++
  str! "Connection: close" ++ crlf ++ crlf.

(** [while (!sock.eof()) cout << sock.read();] *)
Fixpoint print_all (fuel : nat) (sock : FileDescriptor) : ste W unit :=
  match fuel with
  | O => throw Undefined
  | S fuel' =>
      at_end ← gets (fun w => eof w sock);
      if at_end : bool then mret tt
      else
        s ← read_all sock;
        _ ← say s;
        print_all fuel' sock
  end.

(** [get_URL] once the address is known and the socket connected. *)
Definition exchange (fuel : nat) (sock : FileDescriptor) (host path : list byte) : ste W unit :=
  _ ← write_string sock (request host path) true;
  _ ← print_all fuel sock;
  close sock.

Definition get_URL (fuel : nat) (host path : list byte) : ste W unit :=
  sock ← TCPSocket;
  scoped sock
    (address ← lift (resolve host (str! "http"));
     _ ← connect sock address;
     exchange fuel sock host path).

(** [main] of a process that has a name; the exceptions are caught. *)
Definition webget (fuel : nat) (argv : list (list byte)) : ste W Z :=
  if negb (Zlen argv =? 3) then
    name ← lift (argument argv 0);
    _ ← complain (str! "Usage: " ++ name ++ str! " HOST PATH" ++ [newline]);
    _ ← complain ([x09] ++ str! "Example: " ++ name ++ str! " stanford.edu /class/cs144" ++ [newline]);
    mret EXIT_FAILURE
  else fun w =>
    match (host ← lift (argument argv 1); path ← lift (argument argv 2); get_URL fuel host path) w with
    | (w, Ok _) => (w, Ok EXIT_SUCCESS)
    | (w, Throw Undefined) => (w, Throw Undefined)
    | (w, Throw e) => (complain (what e ++ [newline]) ≫= fun _ => mret EXIT_FAILURE) w
    end.
End Webget.

(** *** [tun] *)

(** One round of the loop of [main], on the packet it read. *)
Definition show_packet (buffer : list byte) (cout : ostream) : ostream * outcome unit :=
  let endl := [newline] in
  let cout := cout <<< (endl ++ endl ++ str! "***" ++ endl ++ str! "*** Got packet:" ++ endl ++ str! "***" ++ endl) in
  let cout := hexdump buffer 0 cout in
  let cout := cout <<< str! "attempting to parse as ipv4 datagram... " in
  let '(ip_dgram, r) := IPv4Datagram.parse IPv4Datagram.default_datagram (buf_of_string buffer) in
  if negb (bool_decide (r = NoError)) then (cout <<< (str! "failed." ++ endl), Ok tt)
  else
    let header := IPv4Datagram._header ip_dgram in
    let cout := cout <<< str! "success! totlen=" <<< IPv4Header.len header <<< (str! ", IPv4 header contents:" ++ endl) in
    let cout := cout <<< IPv4Header_to_string header in
    if negb (IPv4Header.proto header =? IPv4Header.PROTO_TCP) then (cout <<< (endl ++ str! "Not TCP, skipping." ++ endl), Ok tt)
    else
      let cout := cout <<< (endl ++ str! "Attempting to parse as a TCP segment... ") in
      match bl_to_buffer (IPv4Datagram._payload ip_dgram) with
      | Throw e => (cout, Throw e)
      | Ok payload =>
          let '(tcp_seg, r) := TCPSegment.parse TCPSegment.default_segment payload (IPv4Header.pseudo_cksum header) in
          if negb (bool_decide (r = NoError)) then (cout <<< (str! "failed." ++ endl), Ok tt)
          else
            let cout := cout <<< str! "success! payload len=" <<< Zlen (str (TCPSegment._payload tcp_seg))
              <<< (str! ", TCP header contents:" ++ endl) in
            (cout <<< TCPHeader_to_string (TCPSegment._header tcp_seg) <<< endl, Ok tt)
      end.

Section Tun.
Context {K : Type} `{Kernel K} `{SocketKernel K} (what : exn -> list byte).
Abbreviation W := (World K Terminal).

(** [while (true)], for [fuel] packets; it is left by an exception only. *)
Fixpoint packet_loop (fuel : nat) (tun : FileDescriptor) : ste W unit :=
  match fuel with
  | O => mret tt
  | S fuel' =>
      buffer ← read_all tun;
      _ ← (fun w => let '(c, o) := show_packet buffer (cout (app w)) in
                    (set_app (fun t => mkTerminal c (cerr t)) w, o));
      packet_loop fuel' tun
  end.

(** [main]: nothing while it runs, its status when it has ended. *)
Definition tun (fuel : nat) : ste W (option Z) := fun w =>
  let finish e (w : W) :=
    match e with
    | Undefined => (w, Throw Undefined)
    | _ => (say (str! "Exception: " ++ what e ++ [newline]) ≫= fun _ => mret (Some EXIT_FAILURE)) w
    end in
  match TunTapFD (str! "tun144") true w with
  | (w, Throw e) => finish e w
  | (w, Ok tun) =>
      match packet_loop fuel tun w with
      | (w, Ok _) => (w, Ok None)
      | (w, Throw e) => finish e (fst (destroy tun w))
      end
  end.
End Tun.

(** *** [tcp_native] *)

Section TcpNative.
Context {K : Type} `{Kernel K} `{SocketKernel K} (resolve : list byte -> list byte -> outcome Address)
  (what : exn -> list byte).
Abbreviation W := (World K Copy).

Definition native_usage (argv0 : list byte) (cerr : ostream) : ostream :=
  cerr <<< str! "Usage: " <<< argv0 <<< str! " [-l] <host> <port>" <<< newline <<< newline
    <<< str! "  -l specifies listen mode; <host>:<port> is the listening address." <<< newline.

(** [argc < 3 || ((server_mode = ...) && argc < 4)]: nothing when the usage
    message is due, else [server_mode]. *)
Definition native_mode (argv : list (list byte)) : outcome (option bool) :=
  if Zlen argv <? 3 then Ok None
  else
    first ← argument argv 1;
    let server_mode := strncmp_eq (str! "-l") first 3 in
    Ok (if server_mode && (Zlen argv <? 4) then None else Some server_mode).

(** The lambda that makes the socket: connect, or accept exactly one connection. *)
Definition open_socket (server_mode : bool) (argv : list (list byte)) : ste W FileDescriptor :=
  if server_mode then
    listening_socket ← TCPSocket;
    scoped listening_socket
      (_ ← set_reuseaddr listening_socket;
       host ← lift (argument argv 2);
       service ← lift (argument argv 3);
       address ← lift (resolve host service);
       _ ← Socket.bind listening_socket address;
       _ ← Socket.listen listening_socket 16;
       accept listening_socket)
  else
    connecting_socket ← TCPSocket;
    guarded connecting_socket
      (host ← lift (argument argv 1);
       service ← lift (argument argv 2);
       address ← lift (resolve host service);
       connect connecting_socket address).

(** [main]: the error output, and nothing while the copy runs or the status. *)
Definition tcp_native (fuel : nat) (argv : list (list byte)) (cerr : ostream) (w : W)
    : W * ostream * outcome (option Z) :=
  let failed e (w : W) :=
    match e with
    | Undefined => (w, cerr, Throw Undefined)
    | _ => (w, cerr <<< str! "Exception: " <<< what e <<< newline, Ok (Some EXIT_FAILURE))
    end in
  match native_mode argv with
  | Throw e => failed e w
  | Ok None =>
      match argument argv 0 with
      | Ok name => (w, native_usage name cerr, Ok (Some EXIT_FAILURE))
      | Throw e => (w, cerr, Throw e)
      end
  | Ok (Some server_mode) =>
      match open_socket server_mode argv w with
      | (w, Throw e) => failed e w
      | (w, Ok socket) =>
          match bidirectional_stream_copy fuel socket w with
          | (w, Ok false) => (w, cerr, Ok None)
          | (w, Ok true) => (fst (destroy socket w), cerr, Ok (Some EXIT_SUCCESS))
          | (w, Throw e) => failed e (fst (destroy socket w))
          end
      end
  end.
End TcpNative.

(** ** What [webget] prints *)

(** The stream after plain output of [d]. *)
Definition wrote (d : list byte) (os : ostream) : ostream :=
  mkOstream (base16 os) (alpha os) (fill os) 0 (text os ++ d).

Lemma put_wrote (s : list byte) os : width os = 0 -> os <<< s = wrote s os.
Proof. destruct os. cbn. intros ->. apply put_plain. Qed.
Lemma wrote_wrote s t os : wrote t (wrote s os) = wrote (s ++ t) os.
Proof. unfold wrote. cbn. by rewrite app_assoc. Qed.
Lemma wrote_nil os : width os = 0 -> wrote [] os = os.
Proof. destruct os. unfold wrote. cbn. intros ->. by rewrite app_nil_r. Qed.

Section WebgetProperties.
Context {K : Type} `{KernelLaws K} `{!SocketKernel K} `{!SocketLaws K}.
Context (resolve : list byte -> list byte -> outcome Address).
Implicit Types (w : World K Terminal).

Definition printed (d : list byte) (w w' : World K Terminal) : Prop :=
  app w' = mkTerminal (wrote d (cout (app w))) (cerr (app w)).

(** What is left to read, and what one run of the loop does with it. *)
Definition left_to_read (f : Z) w : nat := length (stream_of (kernel w) f) - length (bytes_in (kernel w) f).
Definition printed_all (f : Z) w w' (o : outcome unit) : Prop :=
  exists d, bytes_in (kernel w') f = bytes_in (kernel w) f ++ d /\ printed d w w' /\
    (forall g, writes (kernel w') g = writes (kernel w) g) /\ (forall l, fd_num w' l = fd_num w l) /\
    match o with Ok _ => drained f w' | Throw e => exists c, e = UnixError c end.

Lemma print_all_end n sock w :
  width (cout (app w)) = 0 -> eof w sock = true -> drained (fd_num w sock) w ->
  exists w' o, (forall fuel, (n < fuel)%nat -> print_all fuel sock w = (w', o)) /\
    printed_all (fd_num w sock) w w' o.
Proof.
  intros Hwd Ee Hd. exists w, (Ok tt).
  split; [intros [|fuel] Hf; [lia|]; cbn; unfold mbind, ste_bind, gets; by rewrite Ee|].
  exists []. rewrite app_nil_r. split_and!; auto. unfold printed. rewrite wrote_nil by done. by destruct (app w).
Qed.

(** One round that is not at the end: an error, or bytes that are printed,
    or the end of the stream. *)
Lemma print_all_step sock w :
  let f := fd_num w sock in
  packets f = false -> width (cout (app w)) = 0 -> eof w sock = false ->
  (exists w' e, (forall fuel, print_all (S fuel) sock w = (w', Throw e)) /\ printed_all f w w' (Throw e)) \/
  (exists w' d, (forall fuel, print_all (S fuel) sock w = print_all fuel sock w') /\
     bytes_in (kernel w') f = bytes_in (kernel w) f ++ d /\ bytes_in (kernel w) f ++ d `prefix_of` stream_of (kernel w) f /\
     printed d w w' /\ eof w' sock = bool_decide (d = []) /\ (d = [] -> drained f w') /\
     stream_of (kernel w') f = stream_of (kernel w) f /\
     (forall g, writes (kernel w') g = writes (kernel w) g) /\ (forall l, fd_num w' l = fd_num w l)).
Proof.
  intros f Hp Hwd Ee.
  assert (forall fuel, print_all (S fuel) sock w =
    match read_all sock w with
    | (w1, Ok s) => (say s ≫= fun _ => print_all fuel sock) w1
    | (w1, Throw e) => (w1, Throw e) end) as Estep
    by (intros fuel; cbn [print_all]; unfold mbind at 1, ste_bind at 1, gets; by rewrite Ee).
  destruct (read_all sock w) as [w1 o1] eqn:Er. unfold read_all in Er.
  pose proof (fd_read_evolves _ _ _ _ _ Er ltac:(lia)) as Hev.
  apply fd_read_spec in Er as [(e & -> & (Hu1 & Hu2 & _) & Ha & _)|(d & -> & _ & Hh & [Ha Hw] & Hd)]; [| |lia].
  - left. exists w1, (UnixError e). split; [done|]. exists []. rewrite app_nil_r.
    split_and!; [by unfold bytes_in; rewrite Hu1| |done|apply Hev|by eexists].
    unfold printed. rewrite wrote_nil by done. rewrite Ha. by destruct (app w).
  - right. fold f in Hh, Hd. rewrite Hp in Hd. destruct Hd as [Hpre Hnil].
    pose proof (has_read_in _ _ _ _ f Hh) as Hin. rewrite decide_True in Hin by done.
    assert (stream_of (kernel w1) f = stream_of (kernel w) f) as Hst by apply Hev.
    exists (set_app (fun t => mkTerminal (cout t <<< d) (cerr t)) w1), d. split_and!; try done.
    + unfold printed. cbn. rewrite Ha, put_wrote by done. done.
    + unfold eof. change (wrapper (set_app _ w1) sock) with (wrapper w1 sock). rewrite Hw, decide_True by done.
      unfold after_read. cbn [_eof]. unfold eof in Ee. by rewrite Ee.
    + intros ->. unfold drained. cbn [kernel set_app]. rewrite Hin, Hst, app_nil_r. by apply Hnil.
    + apply Hh.
    + apply (ev_fd _ _ Hev).
Qed.

Lemma print_all_spec n sock w :
  packets (fd_num w sock) = false -> width (cout (app w)) = 0 ->
  (eof w sock = true -> drained (fd_num w sock) w) ->
  (eof w sock = false -> (S (left_to_read (fd_num w sock) w) <= n)%nat) ->
  exists w' o, (forall fuel, (n < fuel)%nat -> print_all fuel sock w = (w', o)) /\
    printed_all (fd_num w sock) w w' o.
Proof.
  revert w. induction n as [|n IH]; intros w Hp Hwd Hend Hn; destruct (eof w sock) eqn:Ee;
    [by apply print_all_end; auto|specialize (Hn eq_refl); lia|by apply print_all_end; auto|].
  specialize (Hn eq_refl).
  destruct (print_all_step sock w Hp Hwd Ee) as [(w1 & e & Hrun & Hall)|
    (w1 & d & Hrun & Hb & Hpre & Hpr & Ee1 & Hd & Hst & Hwr & Hfd)].
  - exists w1, (Throw e). split; [intros [|fuel] ?; [lia|done]|done].
  - destruct (IH w1) as (w' & o & Hrun' & d' & Hb' & Hpr' & Hwr' & Hfd' & Ho); rewrite ?Hfd in *.
    + done.
    + by rewrite Hpr.
    + by rewrite Ee1, bool_decide_eq_true.
    + rewrite Ee1, bool_decide_eq_false. intros Hne. unfold left_to_read in *. rewrite Hst, Hb, length_app.
      assert (0 < length d)%nat by (destruct d; [done|cbn; lia]).
      apply prefix_length in Hpre. rewrite length_app in Hpre. lia.
    + exists w', o. split; [intros [|fuel] Hf; [lia|rewrite Hrun; apply Hrun'; lia]|].
      exists (d ++ d'). split_and!; [by rewrite Hb', Hb, app_assoc| |congruence|congruence|done].
      unfold printed in *. rewrite Hpr', Hpr. cbn. by rewrite wrote_wrote.
Qed.

(** The exchange on the descriptor [f]: the request goes out, and what comes
    in is printed, up to its end unless something fails. *)
Definition fetched (f : Z) (req : list byte) w w' (o : outcome unit) : Prop :=
  exists d, bytes_in (kernel w') f = bytes_in (kernel w) f ++ d /\ printed d w w' /\
    match o with
    | Ok _ => bytes_out (kernel w') f = bytes_out (kernel w) f ++ req /\ drained f w'
    | Throw e => (e = RuntimeError \/ exists c, e = UnixError c) /\
        exists s, s `prefix_of` req /\ bytes_out (kernel w') f = bytes_out (kernel w) f ++ s
    end.

Lemma quietly_fetched f req w w1 w2 o o' :
  quietly w1 w2 -> fetched f req w w1 o ->
  (o' = o \/ exists c, o' = Throw (UnixError c)) -> fetched f req w w2 o'.
Proof.
  intros ((Hr & Hw & Hs & _) & Ha & _) (d & Hb & Hp & Ho) Ho'.
  assert (forall g, bytes_in (kernel w2) g = bytes_in (kernel w1) g) as Ein by (intros g; unfold bytes_in; by rewrite Hr).
  assert (forall g, bytes_out (kernel w2) g = bytes_out (kernel w1) g) as Eout by (intros g; unfold bytes_out; by rewrite Hw).
  exists d. split; [by rewrite Ein|]. split; [unfold printed in *; by rewrite Ha|].
  destruct Ho' as [->|[c ->]].
  - unfold drained. by rewrite Ein, Eout, Hs.
  - split; [eauto|]. rewrite Eout. destruct o as [u|e]; [exists req; by destruct Ho|by destruct Ho].
Qed.

Lemma close_outcome l w w' o : close l w = (w', o) -> o = Ok tt \/ exists c, o = Throw (UnixError c).
Proof.
  unfold close, mbind, ste_bind, gets, syscall, lift, SystemCall. destruct (sys_close _ _) as [k r].
  destruct (_ || _); intros [= <- <-]; eauto.
Qed.

Lemma exchange_spec sock host path w :
  let f := fd_num w sock in
  packets f = false -> width (cout (app w)) = 0 -> eof w sock = false -> Zlen (request host path) < 2 ^ 63 ->
  exists n w' o, (forall fuel, (n <= fuel)%nat -> exchange fuel sock host path w = (w', o)) /\
    fetched f (request host path) w w' o.
Proof.
  intros f Hp Hwd Ee Hsz. unfold exchange, mbind at 1, ste_bind at 1.
  assert (concat (bvl_of_string (request host path)) = request host path) as Ec by apply app_nil_r.
  destruct (write_string sock (request host path) true w) as [w1 o1] eqn:Ew. unfold write_string, write in Ew.
  apply write_iter_spec in Ew as ([Ha Hwr] & ds & Hh & Ho); rewrite ?Ec in *; [|lia|lia|lia].
  pose proof (has_written_out _ _ _ _ f Hh) as Hout. rewrite decide_True in Hout by done.
  destruct Hh as (_ & Hr & Hst & _). fold f in Ho.
  assert (forall g, bytes_in (kernel w1) g = bytes_in (kernel w) g) as Ein by (intros g; unfold bytes_in; by rewrite Hr).
  assert (printed [] w w1) as Hpr1 by (unfold printed; rewrite wrote_nil, Ha by done; by destruct (app w)).
  destruct o1 as [m|e].
  - assert (fd_num w1 sock = f) as Ef by apply (Hwr sock).
    assert (eof w1 sock = false) as Ee1 by (unfold eof in *; by rewrite (proj1 (proj2 (proj2 (Hwr sock))))).
    destruct (print_all_spec (S (left_to_read f w1)) sock w1) as (w2 & o2 & Hrun & d & Hb & Hpr & Hws & Hfd & Ho2);
      rewrite ?Ef in *; [done|by rewrite Ha|by rewrite Ee1|done|].
    destruct (close sock w2) as [w3 o3] eqn:Ecl. pose proof (close_outcome _ _ _ _ Ecl) as Hoc. apply quiet_close in Ecl as Hq.
    assert (fetched f (request host path) w w2 o2) as Hf2.
    { exists d. rewrite Hb, Ein. split; [done|]. split; [unfold printed in *; by rewrite Hpr, Ha|].
      assert (bytes_out (kernel w2) f = bytes_out (kernel w) f ++ request host path) as Eo2.
      { unfold bytes_out in *. rewrite Hws, Hout. by destruct Ho as (_ & -> & _). }
      destruct o2; [done|]. split; [eauto|]. by exists (request host path). }
    exists (S (S (left_to_read f w1))). destruct o2 as [u|e].
    + exists w3, o3. split.
      * intros fuel Hfu. unfold mbind, ste_bind. by rewrite Hrun by lia.
      * eapply quietly_fetched; [done|exact Hf2|]. destruct u. by destruct Hoc as [->|Hoc]; auto.
    + exists w2, (Throw e). split; [|done]. intros fuel Hfu. unfold mbind, ste_bind. by rewrite Hrun by lia.
  - exists O, w1, (Throw e). split; [done|]. destruct Ho as (Hpre & _ & He & _).
    exists []. rewrite app_nil_r, Ein. split_and!; [done|done|done|]. by exists (concat ds).
Qed.

(** The start of the program: a connected socket that nothing went through
    yet, or an error. *)
Lemma fetched_from f req w w1 w2 o :
  silent (kernel w) (kernel w1) -> app w1 = app w -> fetched f req w1 w2 o -> fetched f req w w2 o.
Proof.
  intros [Hr Hw] Ha (d & Hb & Hp & Ho). exists d. unfold bytes_in, bytes_out, printed in *.
  rewrite <- Hr, <- Hw, <- Ha. done.
Qed.

Definition not_connected (host : list byte) (e : exn) : Prop :=
  e = RuntimeError \/ (exists c, e = UnixError c) \/ resolve host (str! "http") = Throw e.

Lemma new_socket_spec w :
  (exists l w1, TCPSocket w = (w1, Ok l) /\ silent (kernel w) (kernel w1) /\ app w1 = app w /\
     packets (fd_num w1 l) = false /\ eof w1 l = false) \/
  (exists w1 e, TCPSocket w = (w1, Throw e) /\ app w1 = app w /\ (e = RuntimeError \/ exists c, e = UnixError c)).
Proof.
  unfold TCPSocket, Socket, mbind, ste_bind, syscall, lift.
  destruct (sys_socket _ _ (kernel w)) as [k r] eqn:E. apply socket_law in E as [Hs [Hf|[Hr Hp]]].
  - right. rewrite (SystemCall_failed _ Hf). eauto 7.
  - left. rewrite SystemCall_ok by done. unfold new_fd. destruct (Z.ltb_spec (return_value r) 0); [lia|].
    eexists _, _. split; [done|]. cbn [kernel app]. split_and!; [done|done| |].
    + unfold fd_num, wrapper. cbn [wrappers]. by rewrite lookup_total_insert_eq.
    + unfold eof, wrapper. cbn [wrappers]. by rewrite lookup_total_insert_eq.
Qed.

Lemma connect_spec l a w :
  exists w1 o, connect l a w = (w1, o) /\ silent (kernel w) (kernel w1) /\ app w1 = app w /\
    wrappers w1 = wrappers w /\ (o = Ok tt \/ exists c, o = Throw (UnixError c)).
Proof.
  unfold connect, call_on, mbind, ste_bind, gets, syscall, lift, SystemCall.
  destruct (sys_connect _ _ (kernel w)) as [k r] eqn:E. apply connect_law in E.
  destruct (_ || _); eexists _, _; (split; [done|]); cbn; split_and!; eauto.
Qed.

(** C27. [webget] gets the whole page.  For every host, path and resolver, over
    every kernel that keeps its promises, [get_URL] terminates (there is an
    amount of fuel from which on the outcome is the same); if it returns, the
    whole request was written to the socket, everything the server sent up to
    the end of its stream was read, and exactly that was printed, in order;
    if it throws, what was printed is what was read, what was written is a
    beginning of the request, and the error is one of a system call, of a
    write that makes no progress, or of the resolver. *)
Theorem webget_complete host path w :
  width (cout (app w)) = 0 -> Zlen (request host path) < 2 ^ 63 ->
  exists n w' o, (forall fuel, (n <= fuel)%nat -> get_URL resolve fuel host path w = (w', o)) /\
    ((exists f, packets f = false /\ fetched f (request host path) w w' o) \/
     (app w' = app w /\ exists e, o = Throw e /\ not_connected host e)).
Proof.
  intros Hwd Hsz. unfold get_URL, mbind at 1, ste_bind at 1.
  destruct (new_socket_spec w) as [(l & w1 & -> & Hs1 & Ha1 & Hp & Ee)|(w1 & e & -> & Ha & He)];
    [|exists O, w1, (Throw e); split; [done|]; right; split; [done|]; exists e; split; [done|]; destruct He; [by left|by right; left]].
  unfold scoped. destruct (resolve host (str! "http")) as [a|e] eqn:Er.
  2:{ unfold mbind, ste_bind, lift. exists O, (fst (destroy l w1)), (Throw e). split; [done|]. right.
      destruct (destroy l w1) as [w2 o2] eqn:Ed. apply quiet_destroy in Ed as (_ & Ha2 & _). cbn.
      split; [by rewrite Ha2|]. eexists. split; [done|]. right; by right. }
  unfold lift, mbind, ste_bind. destruct (connect_spec l a w1) as (w2 & o2 & -> & Hs2 & Ha2 & Hw2 & Ho2).
  assert (silent (kernel w) (kernel w2)) as Hs by (destruct Hs1, Hs2; split; congruence).
  assert (app w2 = app w) as Ha by congruence.
  destruct Ho2 as [->|[c ->]].
  - destruct (exchange_spec l host path w2) as (n & w3 & o3 & Hrun & Hf); [unfold fd_num, wrapper; by rewrite Hw2|
      by rewrite Ha|unfold eof, wrapper; by rewrite Hw2|done|].
    destruct (destroy l w3) as [w4 o4] eqn:Ed. pose proof (quiet_destroy _ _ _ _ Ed) as Hq.
    exists n, w4, o3. split; [intros fuel Hfu; rewrite Hrun by lia; cbn -[destroy]; by rewrite Ed|]. left. exists (fd_num w2 l).
    split; [unfold fd_num, wrapper; by rewrite Hw2|]. eapply fetched_from; [exact Hs|exact Ha|].
    eapply quietly_fetched; [exact Hq|exact Hf|by left].
  - destruct (destroy l w2) as [w4 o4] eqn:Ed. pose proof (quiet_destroy _ _ _ _ Ed) as (_ & Ha4 & _).
    exists O, w4, (Throw (UnixError c)). split; [done|]. right.
    split; [by rewrite Ha4|]. eexists. split; [done|]. right; left. by eexists.
Qed.
End WebgetProperties.

(** A server that answers in two pieces. *)
Definition ex_client : World SimKernel Terminal :=
  mkWorld (mkSimKernel {[ 5 := mkSimfile [str! "HTTP/1.1 "; str! "200 OK"] [] [] 7 0 ]} 0) ∅
    (mkTerminal stringstream stringstream).
Definition ex_hosts (host service : list byte) : outcome Address :=
  if bool_decide (host = str! "h") then Ok (mkAddress 167772161 80) else Throw (GaiError (-2)).

Lemma webget_complete_witness :
  exists n w', (forall fuel, (n <= fuel)%nat -> get_URL ex_hosts fuel (str! "h") (str! "/") ex_client = (w', Ok tt)) /\
    text (cout (app w')) = str! "HTTP/1.1 200 OK" /\
    concat (writes (kernel w') 5) = request (str! "h") (str! "/").
Proof.
  destruct (webget_complete ex_hosts (str! "h") (str! "/") ex_client) as (n & w' & o & Hrun & _);
    [reflexivity|vm_compute; reflexivity|].
  pose proof (Hrun (10 + n)%nat ltac:(lia)) as E.
  assert (o = Ok tt /\ text (cout (app w')) = str! "HTTP/1.1 200 OK" /\
    concat (writes (kernel w') 5) = request (str! "h") (str! "/")) as (-> & Ht & Hw)
    by (clear Hrun; revert E; vm_compute; intros [= <- <-]; done).
  exists n, w'. split; [exact Hrun|]. split; [exact Ht|exact Hw].
Defined.

(** ** The other programs *)

(** No packet stops [tun]: whatever bytes come, the round ends without an
    exception, and the terminal has the dump of the packet. *)
Lemma show_packet_total buffer cout : exists cout', show_packet buffer cout = (cout', Ok tt).
Proof.
  unfold show_packet, IPv4Datagram.parse. destruct (IPv4Header.parse _ _) as [p [h r]].
  destruct (negb _); [by eexists|].
  destruct (negb (bool_decide _)); [by eexists|]. cbn [IPv4Datagram._header IPv4Datagram._payload].
  destruct (negb _); [by eexists|]. cbn [bl_of_buffer bl_to_buffer].
  destruct (TCPSegment.parse _ _ _) as [seg r']. by destruct (negb _); eexists.
Qed.

(** So the program ends only when a read, or opening the device, fails. *)
Lemma packet_loop_outcome {K} `{KernelLaws K} fuel l (w : World K Terminal) :
  match snd (packet_loop fuel l w) with Ok _ => True | Throw e => exists c, e = UnixError c end.
Proof.
  revert w. induction fuel as [|fuel IH]; intros w; [done|]. cbn [packet_loop]. unfold mbind, ste_bind.
  destruct (read_all l w) as [w1 o1] eqn:Er. unfold read_all in Er.
  apply fd_read_spec in Er as [(e & -> & _)|(d & -> & _)]; [by eexists| |lia].
  destruct (show_packet_total d (cout (app w1))) as [c ->]. apply IH.
Qed.

(** [tcp_native] reads only arguments that are there. *)
Lemma native_mode_total argv :
  exists m, native_mode argv = Ok m /\
    (m = Some true -> 4 <= Zlen argv) /\ (m = Some false -> 3 <= Zlen argv).
Proof.
  unfold native_mode. destruct (Z.ltb_spec (Zlen argv) 3); [by exists None|].
  destruct (argument_ok argv 1 ltac:(lia)) as (s & E). rewrite E. unfold mbind, outcome_bind.
  destruct (strncmp_eq _ s 3); cbn [andb]; [destruct (Z.ltb_spec (Zlen argv) 4)|]; eexists; (split; [done|]); split; intros [=]; lia.
Qed.
