(* ===== verification/Bouncer.v ===== *)
(** * The bouncer

    Models [src/apps/bouncer.cc]: pairs of UDP sockets on neighbouring ports,
    each of which learns the address of its peer from the datagrams that come
    in and passes them on through the other socket of its pair.

    [bouncer_relays]: on every pair, what goes out of one socket is, in order
    and unaltered, a selection of what came in at the other, whatever the
    event loop does; and the callback of a socket stores the source of the
    datagram that it receives, and sends it from the other socket to the
    address stored there, when there is one.  [open_pairs_spec]: the set-up ends and stays within the reserved
    vectors, so that the references that the callbacks hold stay valid. *)
From stdpp Require Import base tactics list numbers option gmap.
From Stdlib Require Import ZArith Lia.
From Stdlib Require Import (notations) String.
From S2P Require Import Prelude Text CommandLine Address Buffer Kernel FileDescriptor Socket EventLoop.
From S2P Require Import Resolution.

(** The local variables of [program_body], and the error output. *)
Record Bouncer := mkBouncer {
  sockets : list FileDescriptor;
  peers : list (option Address.Address);
  cerr : ostream
}.
Definition set_peer (i : nat) (a : Address.Address) (b : Bouncer) : Bouncer :=
  mkBouncer (sockets b) (<[i := Some a]> (peers b)) (cerr b).
Definition put_err (s : list byte) (b : Bouncer) : Bouncer := mkBouncer (sockets b) (peers b) (cerr b <<< s).
Definition add_socket (x : FileDescriptor) (b : Bouncer) : Bouncer :=
  mkBouncer (sockets b ++ [x]) (peers b) (cerr b).
Definition add_peer (b : Bouncer) : Bouncer := mkBouncer (sockets b) (peers b ++ [None]) (cerr b).

Definition MTU : Z := 65536.
Definition reserved : Z := 66000.
Definition first_port : Z := 1024.
Definition last_port : Z := 64000.

Section Program.
Context {K : Type} `{Kernel K} `{SocketKernel K}.
Context (resolve_ip : list byte -> Z -> outcome Address.Address) (what : exn -> list byte).
Abbreviation W := (World K Bouncer).

Definition print_err (s : list byte) : ste W unit := modify (set_app (put_err s)).

(** The first half of a callback: the source is the peer at [i] from now on. *)
Definition learn (from : FileDescriptor) (i : nat) (name : list byte) (source_address : Address.Address) : ste W unit :=
  my_peer ← gets (fun w => peers (app w) !! i ≫= id);
  if bool_decide (my_peer = Some source_address) then mret tt
  else
    _ ← modify (set_app (set_peer i source_address));
    _ ← print_err (str! "Learned new address for " ++ name ++ str! " ( ");
    here ← local_address from;
    _ ← print_err (show_address here);
    _ ← print_err (str! " at ");
    _ ← print_err (show_address source_address);
    print_err [x0a].

(** The callback of a socket: [from] with its peer at [i], [to] with its peer at [j]. *)
Definition relay (from to : FileDescriptor) (i j : nat) (name : list byte) : ste W unit :=
  rec ← recv from MTU;
  let '(source_address, payload) := rec in
  _ ← learn from i name source_address;
  other ← gets (fun w => peers (app w) !! j ≫= id);
  match other with
  | Some a => if bool_decide (payload = []) then mret tt else sendto to a (bvl_of_string payload)
  | None => mret tt
  end.

Definition relay_rule (from to : FileDescriptor) (i j : nat) (name : list byte) : Rule K Bouncer :=
  mkRule from In (relay from to i j name) (mret true) (mret tt).

(** The body of the [for] loop: two sockets and two unknown peers, their ports
    and their rules.  The vectors have room, so that the references [x], [y],
    [x_peer] and [y_peer] stay valid. *)
Definition new_pair : ste W (FileDescriptor * FileDescriptor) :=
  x ← UDPSocket;
  _ ← modify (set_app (add_socket x));
  y ← UDPSocket;
  _ ← modify (set_app (fun b => add_peer (add_peer (add_socket y b))));
  mret (x, y).
Definition bind_pair (x y : FileDescriptor) (lower_port : Z) : ste W unit :=
  a ← lift (resolve_ip (str! "0") lower_port);
  _ ← bind x a;
  b ← lift (resolve_ip (str! "0") (u16 (lower_port + 1)));
  bind y b.
Definition open_pair (lower_port : Z) (rules : list (Rule K Bouncer)) : ste W (list (Rule K Bouncer)) :=
  pair ← new_pair;
  let '(x, y) := pair in
  n ← gets (fun w => length (peers (app w)));
  let '(i, j) := ((n - 2)%nat, (n - 1)%nat) in
  _ ← bind_pair x y lower_port;
  let rules := add_rule x In (relay x y i j (str! "X")) (mret true) (mret tt) rules in
  mret (add_rule y In (relay y x j i (str! "Y")) (mret true) (mret tt) rules).

Fixpoint open_pairs (fuel : nat) (lower_port : Z) (rules : list (Rule K Bouncer)) : ste W (list (Rule K Bouncer)) :=
  match fuel with
  | O => throw Undefined
  | S fuel' =>
      if lower_port <=? last_port then
        rules ← open_pair lower_port rules;
        open_pairs fuel' (u16 (lower_port + 2)) rules
      else mret rules
  end.

(** [while (EventLoop::Result::Exit != loop.wait_next_event(-1))], for [fuel]
    rounds: [Ok true] once it has ended. *)
Fixpoint event_loop (fuel : nat) (rules : list (Rule K Bouncer)) (w : W) : W * outcome bool :=
  match fuel with
  | O => (w, Ok false)
  | S fuel' =>
      match wait_next_event (-1) rules w with
      | (w, rules, Throw e) => (w, Throw e)
      | (w, rules, Ok r) => if bool_decide (r = Exit) then (w, Ok true) else event_loop fuel' rules w
      end
  end.

Definition ports : nat := Z.to_nat ((last_port - first_port) / 2 + 1).

(** [program_body], without the destructors. *)
Definition program_body (fuel : nat) : ste W bool :=
  _ ← modify (set_app (fun b => mkBouncer [] [] (cerr b)));
  rules ← open_pairs (S ports) first_port [];
  _ ← print_err (str! "Starting event loop..." ++ [x0a]);
  event_loop fuel rules.

(** [main]: nothing while it runs, its status when it has ended. *)
Definition bouncer (fuel : nat) : ste W (option Z) := fun w =>
  let destroy_all (w : W) := fold_left (fun w l => fst (destroy l w)) (sockets (app w)) w in
  match program_body fuel w with
  | (w, Ok false) => (w, Ok None)
  | (w, Ok true) => (destroy_all w, Ok (Some EXIT_SUCCESS))
  | (w, Throw Undefined) => (w, Throw Undefined)
  | (w, Throw e) => (print_err (what e ++ [x0a]) ≫= fun _ => mret (Some EXIT_FAILURE)) (destroy_all w)
  end.
End Program.

(** ** The calls it makes *)

Section Calls.
Context {K : Type} `{KernelLaws K} `{!SocketKernel K} `{!SocketLaws K}.
Context {U : Type}.
Implicit Types (w : World K U).

(** The call that stored the whole datagram [d] from [src], and the one that
    handed [d] to the network for [a]. *)
Definition received_from (f n : Z) (d : list byte) (src : Address.Address) (k k' : K) : Prop :=
  exists r, sys_recvfrom f n k = (k', (r, (d, src))) /\ return_value r = Zlen d.
Definition sent_to (f : Z) (a : Address.Address) (d : list byte) (k k' : K) : Prop :=
  exists r, sys_sendmsg f (Some a) (as_iovecs (bvl_of_string d)) k = (k', r) /\ return_value r = Zlen d.

(** [recv] on a packet socket: nothing is read, or one chunk, which is
    returned with its source when it is the whole datagram. *)
Lemma recv_spec l mtu w w' o :
  packets (fd_num w l) = true -> 0 <= mtu < 2 ^ 31 -> recv l mtu w = (w', o) ->
  app w' = app w /\ (forall g, fd_num w' g = fd_num w g) /\
  match o with
  | Ok (src, d) => has_read (fd_num w l) d (kernel w) (kernel w') /\ Zlen d <= mtu /\
      received_from (fd_num w l) mtu d src (kernel w) (kernel w')
  | Throw e => (unchanged (kernel w) (kernel w') \/ exists d, has_read (fd_num w l) d (kernel w) (kernel w')) /\
      (e = RuntimeError \/ exists c, e = UnixError c)
  end.
Proof.
  intros Hp Hm. unfold recv, recv_into, mbind, ste_bind, gets, syscall, lift. rewrite Zlen_str_resize by lia.
  destruct (sys_recvfrom (fd_num w l) mtu (kernel w)) as [k' [r [stored src]]] eqn:E. cbn [fst snd].
  pose proof E as Ecall. apply recvfrom_law in E as [[Hf Hu]|(d & _ & Hr & Hd & -> & Hh)]; [| |done|lia].
  - rewrite (SystemCall_failed _ Hf). intros [= <- <-]. split; [done|]. split; [done|]. eauto.
  - pose proof (Zlen_nonneg d). rewrite SystemCall_ok, Hr by lia. assert (s64 mtu = mtu) as -> by wrap_lia.
    destruct (Z.ltb_spec mtu (Zlen d)); [intros [= <- <-]; split_and!; eauto|].
    cbn [register_read modify]. destruct (Z.ltb_spec (Zlen d) 0); [lia|]. rewrite (ztake_ge mtu d) in * by lia.
    intros [= <- <-]. rewrite str_resize_app. split; [done|]. split; [|split; [done|split; [lia|]]].
    + intros g. unfold fd_num. rewrite wrapper_set. by case_decide; subst.
    + by exists r.
Qed.

(** [sendto] on a packet socket: nothing is written, or the whole payload. *)
Lemma sendto_spec l a payload w w' o :
  packets (fd_num w l) = true -> Zlen payload < 2 ^ 31 -> sendto l a (bvl_of_string payload) w = (w', o) ->
  app w' = app w /\ (forall g, fd_num w' g = fd_num w g) /\
  match o with
  | Ok _ => has_written (fd_num w l) [payload] (kernel w) (kernel w') /\
      sent_to (fd_num w l) a payload (kernel w) (kernel w')
  | Throw e => unchanged (kernel w) (kernel w')
  end.
Proof.
  intros Hp Hsz. unfold sendto, sendmsg_helper, mbind, ste_bind, gets, syscall, lift.
  assert (concat (map fst (as_iovecs (bvl_of_string payload))) = payload) as Ev by apply app_nil_r.
  destruct (sys_sendmsg _ _ _ (kernel w)) as [k' r] eqn:E. pose proof E as Ecall. apply sendmsg_law in E; [|done]. cbv zeta in E. rewrite Ev in E.
  destruct E as [[Hf Hu]|[Hr Hh]].
  - rewrite (SystemCall_failed _ Hf). by intros [= <- <-].
  - pose proof (Zlen_nonneg payload). rewrite SystemCall_ok, Hr by lia.
    rewrite bvl_size_spec. replace (concat (bvl_of_string payload)) with payload by (symmetry; apply app_nil_r).
    rewrite Z.eqb_refl. cbn [negb]. intros [= <- <-]. split; [done|]. split; [|split; [done|by exists r]].
    intros g. unfold fd_num. rewrite wrapper_set. by case_decide; subst.
Qed.

Lemma quiet_local_address l : quiet (U := U) (local_address l).
Proof.
  unfold local_address, get_address. apply quiet_bind; [apply quiet_gets|]. intros n.
  apply quiet_bind; [apply quiet_syscall; intros k k' [r a]; apply getsockname_law|]. intros res.
  apply quiet_bind; [apply quiet_lift|]. intros _. apply quiet_ret.
Qed.
End Calls.

(** ** What the callbacks move *)

Section Relays.
Context {K : Type} `{KernelLaws K} `{!SocketKernel K} `{!SocketLaws K}.
Implicit Types (w : World K Bouncer).

(** [got] came in at [f], [sent] went out at [t], and nothing else moved. *)
Definition moved (f t : Z) (got sent : list (list byte)) (k k' : K) : Prop :=
  (forall g, reads k' g = reads k g ++ (if decide (g = f) then got else [])) /\
  (forall g, writes k' g = writes k g ++ (if decide (g = t) then sent else [])) /\ same_peers k k'.

Lemma moved_nothing f t k k' : unchanged k k' -> moved f t [] [] k k'.
Proof. intros (Hr & Hw & Hp). split; [|split]; [|..|done]; intros g; rewrite ?Hr, ?Hw; case_decide; by rewrite app_nil_r. Qed.
Lemma moved_read f t d k k' : has_read f d k k' -> moved f t [d] [] k k'.
Proof. intros (Hr & Hw & Hp). split; [|split]; [|..|done]; intros g; rewrite ?Hr, ?Hw; case_decide; by rewrite ?app_nil_r. Qed.
Lemma moved_written f t d k k' : has_written t [d] k k' -> moved f t [] [d] k k'.
Proof. intros (Hw & Hr & Hp). split; [|split]; [|..|done]; intros g; rewrite ?Hr, ?Hw; case_decide; by rewrite ?app_nil_r. Qed.
Lemma moved_trans f t g1 s1 g2 s2 k1 k2 k3 :
  moved f t g1 s1 k1 k2 -> moved f t g2 s2 k2 k3 -> moved f t (g1 ++ g2) (s1 ++ s2) k1 k3.
Proof.
  intros (A1 & B1 & C1 & D1) (A2 & B2 & C2 & D2). split; [|split; [|split]]; intros g; [| |congruence|].
  - rewrite A2, A1, <- app_assoc. by case_decide.
  - rewrite B2, B1, <- app_assoc. by case_decide.
  - intros d Hd. by apply D1, D2.
Qed.

Lemma learn_spec l i name src w w' o :
  learn l i name src w = (w', o) ->
  unchanged (kernel w) (kernel w') /\ (forall g, fd_num w' g = fd_num w g) /\
  sockets (app w') = sockets (app w) /\ peers (app w') = <[i := Some src]> (peers (app w)).
Proof.
  unfold learn, mbind at 1, ste_bind at 1, gets.
  case_bool_decide as E.
  - intros [= <- <-]. split_and!; try done. symmetry. apply list_insert_id.
    destruct (peers (app w) !! i) as [p|]; cbn in E; congruence.
  - unfold mbind, ste_bind, print_err, modify.
    destruct (local_address l _) as [w1 [a|e]] eqn:El; apply quiet_local_address in El as (Hu & Ha & Hf);
      intros [= <- <-]; cbn [kernel app set_app put_err sockets peers] in *; rewrite Ha; split_and!; done.
Qed.

(** From [k] to [k'], [d] went to the peer [other] when there is one, unless it is empty. *)
Definition handed_on (f : Z) (other : option (option Address.Address)) (d : list byte) (k k' : K) : Prop :=
  match other with
  | Some (Some a) => if decide (d = []) then k' = k else sent_to f a d k k'
  | _ => k' = k
  end.

(** One callback: what came in, if anything, is one datagram; what goes out
    is that datagram or nothing.  When the callback returns, its source is the
    peer, and the datagram has gone out, to the other side's peer, if it is not
    empty and that peer is known. *)
Lemma relay_spec from to i j name w w' o :
  let '(f, t) := (fd_num w from, fd_num w to) in
  i <> j -> packets f = true -> packets t = true -> relay from to i j name w = (w', o) ->
  (forall g, fd_num w' g = fd_num w g) /\ sockets (app w') = sockets (app w) /\
  exists got sent, moved f t got sent (kernel w) (kernel w') /\ sent `sublist_of` filter (fun d => d <> []) got /\
    (o = Ok tt -> exists d src, got = [d] /\ peers (app w') = <[i := Some src]> (peers (app w)) /\
       sent = (if decide (d = []) then [] else match peers (app w) !! j with Some (Some _) => [d] | _ => [] end) /\
       exists k1 k2, received_from f MTU d src (kernel w) k1 /\ unchanged k1 k2 /\
         handed_on t (peers (app w) !! j) d k2 (kernel w')).
Proof.
  intros Hij Hpf Hpt. unfold relay, mbind at 1, ste_bind at 1.
  destruct (recv from MTU w) as [w1 o1] eqn:Er. apply recv_spec in Er as (Ha1 & Hf1 & Ho1); [|done|unfold MTU; lia].
  destruct o1 as [[src d]|e].
  2:{ intros [= <- <-]. split; [done|]. split; [by rewrite Ha1|]. destruct Ho1 as [[Hu|[d Hh]] _].
      - exists [], []. split; [by apply moved_nothing|]. by split.
      - exists [d], []. split; [by apply moved_read|]. split; [apply sublist_nil_l|done]. }
  destruct Ho1 as (Hh & Hd & Hrec). apply (moved_read _ (fd_num w to)) in Hh. unfold mbind, ste_bind.
  destruct (learn from i name src w1) as [w2 o2] eqn:El. apply learn_spec in El as (Hu2 & Hf2 & Hs2 & Hp2).
  pose proof Hu2 as Hq. apply (moved_nothing (fd_num w from) (fd_num w to)) in Hu2. pose proof (moved_trans _ _ _ _ _ _ _ _ _ Hh Hu2) as Hm.
  assert (forall g, fd_num w2 g = fd_num w g) as Hf by (intros g; by rewrite Hf2).
  assert (peers (app w2) !! j = peers (app w) !! j) as Ej by (by rewrite Hp2, Ha1, list_lookup_insert_ne).
  destruct o2 as [u|e]; [|intros [= <- <-]; split; [done|]; split; [by rewrite Hs2, Ha1|]; eexists _, _;
    split; [exact Hm|]; split; [apply sublist_nil_l|done]].
  unfold gets. rewrite Ej. destruct (peers (app w) !! j) as [[a|]|] eqn:Eo; cbn [mbind option_bind id];
    [case_bool_decide as Ed|..].
  2:{ intros Es. apply sendto_spec in Es as (Ha3 & Hf3 & Ho3); [|by rewrite Hf|unfold MTU in Hd; lia].
      rewrite Hf in Ho3. split; [intros g; by rewrite Hf3|]. split; [by rewrite Ha3, Hs2, Ha1|]. destruct o as [u'|e].
      - destruct Ho3 as [Ho3 Hsent]. apply (moved_written (fd_num w from)) in Ho3. eexists _, _.
        split; [exact (moved_trans _ _ _ _ _ _ _ _ _ Hm Ho3)|]. cbn [app List.app]. rewrite filter_cons_True by done.
        split; [done|]. intros _. exists d, src. split; [done|]. split; [by rewrite Ha3, Hp2, Ha1|].
        split; [by rewrite decide_False|]. eexists _, _. split; [exact Hrec|]. split; [exact Hq|].
        unfold handed_on. by rewrite decide_False.
      - apply (moved_nothing (fd_num w from) (fd_num w to)) in Ho3. eexists _, _.
        split; [exact (moved_trans _ _ _ _ _ _ _ _ _ Hm Ho3)|]. split; [apply sublist_nil_l|done]. }
  all: intros [= <- <-]; split; [done|]; split; [by rewrite Hs2, Ha1|]; eexists _, _; split; [exact Hm|];
    split; [apply sublist_nil_l|]; intros _; exists d, src; split; [done|]; split; [by rewrite Hp2, Ha1|];
    split; [by case_decide|]; eexists _, _; split; [exact Hrec|]; split; [exact Hq|];
    unfold handed_on; rewrite ?decide_True by done; done.
Qed.
End Relays.

(** ** The set-up *)

(** The rules of a list of pairs, whose peers start at [i]. *)
Fixpoint rules_of {K} `{Kernel K} `{SocketKernel K} (i : nat) (ps : list (FileDescriptor * FileDescriptor))
    : list (Rule K Bouncer) :=
  match ps with
  | [] => []
  | (x, y) :: ps =>
      relay_rule x y i (S i) (str! "X") :: relay_rule y x (S i) i (str! "Y") :: rules_of (S (S i)) ps
  end.
Definition flat (ps : list (FileDescriptor * FileDescriptor)) : list FileDescriptor :=
  concat (map (fun p => [fst p; snd p]) ps).

Lemma flat_snoc ps x y : flat (ps ++ [(x, y)]) = flat ps ++ [x; y].
Proof. unfold flat. by rewrite map_app, concat_app. Qed.
Lemma length_flat ps : length (flat ps) = (2 * length ps)%nat.
Proof. unfold flat. induction ps; cbn in *; lia. Qed.

Section SetUp.
Context {K : Type} `{Kernel K} `{SocketKernel K}.
Context (resolve_ip : list byte -> Z -> outcome Address.Address).
Implicit Types (w : World K Bouncer).

Lemma rules_of_snoc i ps x y :
  rules_of i (ps ++ [(x, y)]) =
  rules_of i ps ++ [relay_rule x y (i + 2 * length ps) (S (i + 2 * length ps)) (str! "X");
                    relay_rule y x (S (i + 2 * length ps)) (i + 2 * length ps) (str! "Y")].
Proof.
  revert i. induction ps as [|[a b] ps IH]; intros i.
  - cbn [rules_of List.app length]. by replace (i + 2 * 0)%nat with i by lia.
  - cbn [rules_of List.app length]. rewrite IH. cbn [List.app].
    by replace (S (S i) + 2 * length ps)%nat with (i + 2 * S (length ps))%nat by lia.
Qed.

(** What the set-up has made: pairs, their rules, and no peer yet. *)
Definition opened (ps : list (FileDescriptor * FileDescriptor)) (rules : list (Rule K Bouncer)) w : Prop :=
  sockets (app w) = flat ps /\ peers (app w) = replicate (2 * length ps) None /\ rules = rules_of 0 ps.

Lemma udp_socket_app w w' o : UDPSocket w = (w', o) ->
  app w' = app w /\ match o with Ok _ => True | Throw e => e <> Undefined end.
Proof.
  unfold UDPSocket, Socket, mbind, ste_bind, syscall, lift, SystemCall, new_fd.
  destruct (sys_socket _ _ _) as [k r]. destruct (_ || _); [|by intros [= <- <-]].
  destruct (_ <? 0); by intros [= <- <-].
Qed.

Lemma bind_app l a w w' o : bind l a w = (w', o) ->
  app w' = app w /\ match o with Ok _ => True | Throw e => e <> Undefined end.
Proof.
  unfold bind, call_on, mbind, ste_bind, gets, syscall, lift, SystemCall.
  destruct (sys_bind _ _ _) as [k r]. destruct (_ || _); by intros [= <- <-].
Qed.

Context (Hresolve : forall a p, resolve_ip a p <> Throw Undefined).

Lemma new_pair_spec w w' o : new_pair w = (w', o) ->
  match o with
  | Ok (x, y) => app w' = add_peer (add_peer (add_socket y (add_socket x (app w))))
  | Throw e => e <> Undefined /\ (length (sockets (app w')) <= S (length (sockets (app w))))%nat
  end.
Proof.
  unfold new_pair, mbind, ste_bind, modify. destruct (UDPSocket w) as [w1 o1] eqn:E1.
  apply udp_socket_app in E1 as [Ha1 Ho1].
  destruct o1 as [x|e]; [|intros [= <- <-]; rewrite Ha1; split; [done|lia]].
  destruct (UDPSocket _) as [w2 o2] eqn:E2. apply udp_socket_app in E2 as [Ha2 Ho2]. cbn in Ha2. rewrite Ha1 in Ha2.
  destruct o2 as [y|e]; intros [= <- <-]; cbn [set_app app]; rewrite Ha2; [done|].
  split; [done|]. cbn [add_socket sockets]. rewrite length_app. cbn. lia.
Qed.

Lemma bind_pair_spec x y port w w' o : bind_pair resolve_ip x y port w = (w', o) ->
  app w' = app w /\ match o with Ok _ => True | Throw e => e <> Undefined end.
Proof.
  unfold bind_pair, mbind, ste_bind, lift.
  destruct (resolve_ip _ port) as [a|e] eqn:Er; [|intros [= <- <-]; split; [done|intros ->; by eapply Hresolve]].
  destruct (bind x a w) as [w1 o1] eqn:E1. apply bind_app in E1 as [Ha1 Ho1].
  destruct o1 as [u|e]; [|by intros [= <- <-]].
  destruct (resolve_ip _ (u16 _)) as [b|e] eqn:Er2; [|intros [= <- <-]; split; [done|intros ->; by eapply Hresolve]].
  destruct (bind y b w1) as [w2 o2] eqn:E2. apply bind_app in E2 as [Ha2 Ho2]. intros [= <- <-].
  split; [congruence|done].
Qed.

Lemma open_pair_spec port ps rules w w' o :
  opened ps rules w -> open_pair resolve_ip port rules w = (w', o) ->
  match o with
  | Ok rules' => exists x y, opened (ps ++ [(x, y)]) rules' w'
  | Throw e => e <> Undefined /\ (length (sockets (app w')) <= 2 * length ps + 2)%nat
  end.
Proof.
  intros (Es & Ep & ->). unfold open_pair, mbind, ste_bind, gets.
  assert (length (sockets (app w)) = 2 * length ps)%nat as El by (by rewrite Es, length_flat).
  destruct (new_pair w) as [w1 o1] eqn:E1. apply new_pair_spec in E1.
  destruct o1 as [[x y]|e]; [|intros [= <- <-]; split; [apply E1|destruct E1; lia]].
  destruct (bind_pair resolve_ip x y port w1) as [w2 o2] eqn:E2. apply bind_pair_spec in E2 as [Ha2 Ho2].
  assert (sockets (app w1) = flat (ps ++ [(x, y)])) as Es1
    by (rewrite E1, flat_snoc; cbn [add_peer add_socket sockets]; by rewrite Es, <- app_assoc).
  assert (peers (app w1) = replicate (2 * length ps + 2) None) as Ep1
    by (rewrite E1; cbn [add_peer add_socket peers]; by rewrite Ep, <- app_assoc, replicate_add).
  destruct o2 as [u|e]; intros [= <- <-].
  - exists x, y. unfold opened. rewrite Ha2, Es1. split; [done|]. split; [by rewrite Ep1, (length_app ps), Nat.mul_add_distr_l|].
    rewrite Ep1, length_replicate. unfold add_rule, duplicate. rewrite rules_of_snoc, <- app_assoc. cbn [List.app].
    replace (2 * length ps + 2 - 2)%nat with (0 + 2 * length ps)%nat by lia.
    by replace (2 * length ps + 2 - 1)%nat with (S (0 + 2 * length ps)) by lia.
  - split; [done|]. rewrite Ha2, Es1, length_flat, length_app. cbn. lia.
Qed.

(** The loop over the ports ends, and makes [ports] pairs: 62978 sockets, less
    than the vectors have room for. *)
Lemma open_pairs_spec n port ps rules w w' o :
  opened ps rules w -> 0 <= port -> port + 2 * Z.of_nat n = last_port + 2 ->
  open_pairs resolve_ip (S n) port rules w = (w', o) ->
  match o with
  | Ok rules' => exists ps', length ps' = (length ps + n)%nat /\ opened ps' rules' w'
  | Throw e => e <> Undefined /\ (length (sockets (app w')) <= 2 * (length ps + n))%nat
  end.
Proof.
  unfold last_port. revert port ps rules w. induction n as [|n IH]; intros port ps rules w Ho Hp Hn; cbn [open_pairs]; unfold last_port.
  - destruct (Z.leb_spec port 64000); [lia|]. intros [= <- <-]. exists ps. split; [lia|done].
  - destruct (Z.leb_spec port 64000); [|lia]. unfold mbind, ste_bind.
    destruct (open_pair resolve_ip port rules w) as [w1 o1] eqn:E1. eapply open_pair_spec in E1; [|done].
    destruct o1 as [rules1|e]; [|intros [= <- <-]; destruct E1; split; [done|lia]].
    destruct E1 as (x & y & Ho1). intros E.
    assert (u16 (port + 2) = port + 2) as Hu by (apply u16_small; lia). rewrite Hu in E.
    pose proof (IH (port + 2) _ _ _ Ho1 ltac:(lia) ltac:(lia) E) as Hrest. rewrite length_app in Hrest. cbn [length] in Hrest.
    destruct o as [rules'|e]; [destruct Hrest as (ps' & El & Ho'); exists ps'; split; [lia|done]|destruct Hrest; split; [done|lia]].
Qed.

Lemma set_up_spec w w' o :
  opened [] [] w -> open_pairs resolve_ip (S ports) first_port [] w = (w', o) ->
  match o with
  | Ok rules => exists ps, opened ps rules w' /\ Zlen (sockets (app w')) = 62978
  | Throw e => e <> Undefined
  end /\ Zlen (sockets (app w')) <= reserved.
Proof.
  intros Ho E. apply (open_pairs_spec _ _ [] [] w) in E; [|done|unfold first_port; lia|reflexivity].
  change ports with (Z.to_nat 31489) in E. cbn [length] in E. unfold reserved, Zlen.
  destruct o as [rules|e].
  - destruct E as (ps & El & Hps). destruct (Hps) as (Es & _). rewrite Es, length_flat.
    split; [exists ps; split; [done|]|]; lia.
  - destruct E as [He Hl]. split; [done|lia].
Qed.
End SetUp.

(** ** What the loop relays *)

(** The other socket of a pair. *)
Definition partner (m : nat) : nat := if Nat.even m then S m else pred m.

(** Each socket's rule reads from it and writes to its partner, with their peers. *)
Lemma rule_at {K} `{Kernel K} `{SocketKernel K} ps i m (r : Rule K Bouncer) :
  rules_of i ps !! m = Some r ->
  exists x y name, flat ps !! m = Some x /\ flat ps !! partner m = Some y /\
    r = relay_rule x y (i + m) (i + partner m) name.
Proof.
  revert i m. induction ps as [|[a b] ps IH]; intros i m; [done|]. cbn [rules_of].
  change (flat ((a, b) :: ps)) with (a :: b :: flat ps).
  destruct m as [|[|m]]; cbn [lookup list_lookup].
  - intros [= <-]. exists a, b, (str! "X"). by rewrite Nat.add_0_r, Nat.add_1_r.
  - intros [= <-]. exists b, a, (str! "Y"). by rewrite Nat.add_0_r, Nat.add_1_r.
  - intros E. apply IH in E as (x & y & name & Hx & Hy & ->). exists x, y, name.
    assert (partner (S (S m)) = S (S (partner m))) as ->
      by (unfold partner; cbn [Nat.even]; destruct m; [done|by destruct (Nat.even _)]).
    split; [done|]. split; [done|]. by rewrite !Nat.add_succ_r, !Nat.add_succ_l.
Qed.

Lemma partner_ne m : partner m <> m.
Proof. unfold partner. destruct m as [|m]; [done|]. destruct (Nat.even _); cbn; lia. Qed.

(** The two directions of every pair. *)
Definition links (ps : list (FileDescriptor * FileDescriptor)) : list (FileDescriptor * FileDescriptor) :=
  concat (map (fun p => [(fst p, snd p); (snd p, fst p)]) ps).

Lemma links_in ps x y : (x, y) ∈ links ps -> x ∈ flat ps /\ y ∈ flat ps.
Proof.
  unfold links, flat. induction ps as [|[a b] ps IH]; cbn; [by intros ?%not_elem_of_nil|].
  rewrite !elem_of_cons. intros [[= -> ->]|[[= -> ->]|Hin]]; [tauto|tauto|]. apply IH in Hin. tauto.
Qed.

(** A socket has one partner. *)
Lemma links_unique ps x x' y : NoDup (flat ps) -> (x, y) ∈ links ps -> (x', y) ∈ links ps -> x = x'.
Proof.
  induction ps as [|[a b] ps IH]; [by intros _ ?%not_elem_of_nil|].
  change (flat ((a, b) :: ps)) with (a :: b :: flat ps). change (links ((a, b) :: ps)) with ((a, b) :: (b, a) :: links ps).
  rewrite !NoDup_cons, !elem_of_cons. intros (Ha & Hb & Hnd) H1 H2.
  assert (forall u v, (u, v) ∈ links ps -> v <> a /\ v <> b) as Hout.
  { intros u v Hin. apply links_in in Hin as [_ Hv]. split; intros ->; tauto. }
  destruct H1 as [E1|[E1|H1]], H2 as [E2|[E2|H2]]; simplify_eq; try tauto;
    try (destruct (Hout _ _ H2); tauto); try (destruct (Hout _ _ H1); tauto).
Qed.

Section Invariant.
Context {K : Type} `{KernelLaws K} `{!SocketKernel K} `{!SocketLaws K}.
Implicit Types (w : World K Bouncer).

(** From [w0] to [w], what went out of [y] is a selection of what came in at
    [x], in order, without the empty datagrams. *)
Definition selected w0 w (x y : FileDescriptor) : Prop :=
  exists got sent,
    reads (kernel w) (fd_num w0 x) = reads (kernel w0) (fd_num w0 x) ++ got /\
    writes (kernel w) (fd_num w0 y) = writes (kernel w0) (fd_num w0 y) ++ sent /\
    sent `sublist_of` filter (fun d => d <> []) got.

Context (ps : list (FileDescriptor * FileDescriptor)) (w0 : World K Bouncer).
Context (Hnd : NoDup (map (fd_num w0) (flat ps))) (Hpk : Forall (fun l => packets (fd_num w0 l) = true) (flat ps)).

Record relayed w : Prop := {
  rel_fd : forall l, fd_num w l = fd_num w0 l;
  rel_links : forall x y, (x, y) ∈ links ps -> selected w0 w x y
}.

Lemma fd_inj x y : x ∈ flat ps -> y ∈ flat ps -> fd_num w0 x = fd_num w0 y -> x = y.
Proof.
  intros Hx Hy E. apply list_elem_of_lookup in Hx as [i Hi], Hy as [j Hj].
  assert (i = j) as ->; [|congruence].
  eapply NoDup_lookup; [exact Hnd| |]; [by rewrite list_lookup_fmap, Hi|by rewrite list_lookup_fmap, Hj, E].
Qed.

Lemma moved_evolves f t got sent w w' :
  packets f = true -> moved f t got sent (kernel w) (kernel w') -> (forall l, fd_num w' l = fd_num w l) -> evolves w w'.
Proof.
  intros Hf (Hr & Hw & Hp) Hfd. split; [done|done|..].
  - intros g Hg. left. unfold bytes_in. rewrite Hr, decide_False by congruence. by rewrite app_nil_r.
  - intros g. rewrite Hw. by apply prefix_app_r.
Qed.

Lemma relay_steps x y i j name : (x, y) ∈ links ps -> i <> j -> steps relayed (relay x y i j name).
Proof.
  intros Hl Hij w w' o [Hfd Hsel] E. pose proof (links_in _ _ _ Hl) as [Hx Hy].
  rewrite Forall_forall in Hpk. pose proof (relay_spec x y i j name w w' o) as Hs.
  rewrite !Hfd in Hs. destruct Hs as (Hf & _ & got & sent & Hm & Hsub & _); [done|by apply Hpk..|done|].
  pose proof (moved_evolves _ _ _ _ _ _ (Hpk _ Hx) Hm Hf) as Hev. split; [|done].
  split; [intros l; by rewrite Hf|]. intros a b Hab. pose proof (links_in _ _ _ Hab) as [Hina Hinb].
  destruct (Hsel a b Hab) as (g & s & Hg & Hs & Hgs). destruct Hm as (Hr & Hw & _).
  exists (g ++ if decide (fd_num w0 a = fd_num w0 x) then got else []), (s ++ if decide (fd_num w0 b = fd_num w0 y) then sent else []).
  rewrite Hr, Hw, Hg, Hs, <- !app_assoc. split; [done|]. split; [done|]. rewrite filter_app. apply sublist_app; [done|].
  destruct (decide (fd_num w0 b = fd_num w0 y)) as [Eb|]; [|apply sublist_nil_l].
  apply fd_inj in Eb as ->; [|done..]. assert (a = x) as ->; [|by rewrite decide_True].
  eapply links_unique; [by eapply NoDup_fmap_1|done..].
Qed.

Lemma rules_ok i qs : (forall x y, (x, y) ∈ links qs -> (x, y) ∈ links ps) -> Forall (rule_ok relayed) (rules_of i qs).
Proof.
  assert (forall a b u v name, (a, b) ∈ links ps -> u <> v -> rule_ok relayed (relay_rule a b u v name)) as Hrule.
  { intros a b u v name Hl Huv. split; cbn; [apply steps_ret|by apply relay_steps|..];
      intros w w' o Hw _; [intros [= <- _]..]; done. }
  revert i. induction qs as [|[a b] qs IH]; intros i Hl; [constructor|]. cbn [rules_of].
  change (links ((a, b) :: qs)) with ((a, b) :: (b, a) :: links qs) in Hl.
  apply Forall_cons_2; [apply Hrule; [apply Hl; by left|lia]|].
  apply Forall_cons_2; [apply Hrule; [apply Hl; right; by left|lia]|].
  apply IH. intros x y Hin. apply Hl. by do 2 right.
Qed.

Lemma event_loop_relays fuel rules w w' o :
  relayed w -> Forall (rule_ok relayed) rules -> event_loop fuel rules w = (w', o) -> relayed w'.
Proof.
  revert rules w. induction fuel as [|fuel IH]; intros rules w Hw Hr; cbn [event_loop]; [by intros [= <- _]|].
  destruct (wait_next_event (-1) rules w) as [[w1 rules1] o1] eqn:E.
  destruct (wait_next_event_keeps relayed (-1) rules w w1 rules1 o1) as (Hw1 & _ & Hsub); try done.
  { intros w2 k [Hf Hs] (Hrd & Hwr & _). split; [done|]. intros x y Hl. destruct (Hs x y Hl) as (g & s & Hg & Hs' & Hgs).
    exists g, s. cbn [kernel]. by rewrite Hrd, Hwr. }
  destruct o1 as [r|e]; [|by intros [= <- _]].
  destruct (bool_decide _); [by intros [= <- _]|]. apply IH; [done|by eapply sublist_Forall].
Qed.

Lemma relayed_start : relayed w0.
Proof. split; [done|]. intros x y _. exists [], []. rewrite !app_nil_r. split_and!; done. Qed.
End Invariant.

(** C25. The bouncer relays what it receives and nothing else.  Sockets in
    pairs, with descriptors that differ, over a kernel that keeps its promises:
    after any number of rounds of the event loop, however the loop ended, what
    was sent from each socket of a pair is a selection, in order and unaltered,
    of the non-empty datagrams received by the other.  And the callback that
    the bouncer has installed for a socket, when it returns, has received one
    datagram there and stored its source as that socket's peer; and it has
    sent the datagram, whole and in one piece, from the other socket of the
    pair to the peer stored for that one, when the datagram is not empty and
    that peer is known, and nothing otherwise. *)
Theorem bouncer_relays {K} `{KernelLaws K} `{!SocketKernel K} `{!SocketLaws K}
    (ps : list (FileDescriptor * FileDescriptor)) (w : World K Bouncer) fuel w' o :
  NoDup (map (fd_num w) (flat ps)) -> Forall (fun l => packets (fd_num w l) = true) (flat ps) ->
  event_loop fuel (rules_of 0 ps) w = (w', o) ->
  (forall x y, (x, y) ∈ links ps -> selected w w' x y) /\
  forall m r w1 w2, rules_of 0 ps !! m = Some r -> (forall l, fd_num w1 l = fd_num w l) ->
    callback r w1 = (w2, Ok tt) ->
    exists from to d src k1 k2,
      flat ps !! m = Some from /\ flat ps !! partner m = Some to /\ rfd r = from /\
      received_from (fd_num w1 from) MTU d src (kernel w1) k1 /\
      peers (app w2) = <[m := Some src]> (peers (app w1)) /\
      unchanged k1 k2 /\
      handed_on (fd_num w1 to) (peers (app w1) !! partner m) d k2 (kernel w2) /\
      moved (fd_num w1 from) (fd_num w1 to) [d]
        (if decide (d = []) then [] else match peers (app w1) !! partner m with Some (Some _) => [d] | _ => [] end)
        (kernel w1) (kernel w2).
Proof.
  intros Hnd Hpk E. split.
  - apply (rel_links ps w w'). eapply (event_loop_relays ps w); [by apply relayed_start| |exact E].
    by eapply rules_ok.
  - intros m r w1 w2 Hm Hfd Er. apply rule_at in Hm as (x & y & name & Hx & Hy & ->). cbn [callback relay_rule] in Er.
    rewrite Forall_lookup in Hpk. pose proof (relay_spec x y m (partner m) name w1 w2 (Ok tt)) as Hs.
    destruct Hs as (_ & _ & got & sent & Hmv & _ & Hok); [by apply not_eq_sym, partner_ne|by rewrite Hfd; eapply Hpk..|done|].
    destruct (Hok eq_refl) as (d & src & -> & Hp & -> & k1 & k2 & Hrec & Hu & Hon).
    by exists x, y, d, src, k1, k2.
Qed.

(** One pair: two datagrams for X, of which the second finds Y's peer known. *)
Definition ex_bouncer : World SimKernel Bouncer :=
  mkWorld (mkSimKernel {[ 100 := mkSimfile [str! "a"; str! "b"] [] [] 0 0; 101 := mkSimfile [str! "c"] [] [] 0 0 ]} 0)
    {[ 0%nat := mkFDWrapper 100 false false 0 0; 1%nat := mkFDWrapper 101 false false 0 0 ]}
    (mkBouncer [0%nat; 1%nat] [None; None] stringstream).

Lemma bouncer_relays_witness :
  (let '(w', o) := event_loop 3 (rules_of 0 [(0%nat, 1%nat)]) ex_bouncer in
   writes (kernel w') 101 = [str! "b"] /\ writes (kernel w') 100 = [str! "c"] /\
   selected ex_bouncer w' 0%nat 1%nat) /\
  (let w1 := set_app (set_peer 1 (Address.mkAddress 7 9)) ex_bouncer in
   let '(w2, o2) := relay 0%nat 1%nat 0 1 (str! "X") w1 in
   exists src k1 k2, received_from 100 MTU (str! "a") src (kernel w1) k1 /\ peers (app w2) !! 0%nat = Some (Some src) /\
     sent_to 101 (Address.mkAddress 7 9) (str! "a") k2 (kernel w2)).
Proof.
  destruct (event_loop 3 (rules_of 0 [(0%nat, 1%nat)]) ex_bouncer) as [w' o] eqn:E.
  destruct (bouncer_relays [(0%nat, 1%nat)] ex_bouncer 3 w' o) as [H Hcall];
    [apply (bool_decide_unpack (NoDup (map (fd_num ex_bouncer) (flat [(0%nat, 1%nat)])))); vm_compute; reflexivity | repeat constructor | exact E |].
  split; [split; [|split; [|apply H; vm_compute; left]]|].
  - revert E. vm_compute. by intros [= <- <-].
  - revert E. vm_compute. by intros [= <- <-].
  - cbv zeta. set (w1 := set_app (set_peer 1 (Address.mkAddress 7 9)) ex_bouncer).
    destruct (relay 0%nat 1%nat 0 1 (str! "X") w1) as [w2 o2] eqn:Er.
    assert (o2 = Ok tt) as -> by (revert Er; vm_compute; by intros [= _ <-]).
    destruct (Hcall 0%nat _ w1 w2 eq_refl ltac:(done) Er) as (x & y & d & src & k1 & k2 & [= <-] & [= <-] & _ & Hrec & Hp & _ & Hon & Hmv).
    assert (d = str! "a") as ->.
    { destruct Hmv as (Hr & _). specialize (Hr 100). revert Hr. revert Er. vm_compute. intros [= <-]. by intros [= ->]. }
    exists src, k1, k2. split; [exact Hrec|]. split; [rewrite Hp; reflexivity|]. exact Hon.
Defined.
