(* ===== verification/Lab7.v ===== *)
(** * The virtual network of lab 7

    Models [src/apps/lab7.cc]: a host whose TCP socket sends Ethernet frames
    over a pair of local sockets, the router between the host and the
    Internet, and the thread that moves frames between the host, the router
    and a UDP socket to the bouncer.  Its other threads work on the
    socket ([SpongeSocket.v], with the adapter below); the program that joins
    them is in [Gateway.v]. *)
From stdpp Require Import base tactics list numbers option gmap.
From Stdlib Require Import ZArith Lia.
From Stdlib Require Import (notations) String.
From S2P Require Import NetParser Prelude Text CommandLine Buffer Address Ethernet ARP IPv4Header IPv4Datagram.
From S2P Require Import NetworkInterface Kernel FileDescriptor Socket EventLoop Router.
From S2P Require TCPSegment FdAdapter SpongeSocket Printed Resolution TCPConnection Simulator.

(** *** The socket of the host *)

Section Host.
Context (rd : nat -> Z).

(** Six numbers are drawn for an address, from the [k]-th on. *)
Definition drawn_bytes (k : nat) : list Z := map (fun j => u8 (rd (k + j)%nat)) (seq 0 6).
Definition random_host_ethernet_address (k : nat) : EthernetAddress :=
  match drawn_bytes k with
  | b :: rest => Z.land (Z.lor b 2) 254 :: rest
  | [] => []
  end.
Definition random_router_ethernet_address (k : nat) : EthernetAddress :=
  match drawn_bytes k with
  | _ :: _ :: _ :: rest => 2 :: 0 :: 0 :: rest
  | l => l
  end.

(** [NetworkInterfaceAdapter]: the members are those of the Ethernet adapter,
    over a local socket instead of a TAP device, and no dummy frame is sent. *)
Definition NetworkInterfaceAdapter : Type := FdAdapter.EthernetAdapter.
Definition new_adapter (k : nat) (ip_address next_hop : Address) : NetworkInterfaceAdapter :=
  FdAdapter.mkEthernetAdapter (FdAdapter.mkFdAdapterBase FdAdapter.default_config false)
    (NetworkInterface.new (random_host_ethernet_address k) ip_address) next_hop.
Definition adapter_send_pending := FdAdapter.send_pending.
Definition adapter_read := FdAdapter.ethernet_read.
Definition adapter_write := FdAdapter.ethernet_write.
Definition adapter_tick := FdAdapter.ethernet_tick.
End Host.

(** [TCPSocketLab7]: the local address, and the configurations that it gives
    to the socket it inherits from. *)
Definition same_host (a : Address) (port : Z) : Address := mkAddress (ipv4_numeric a) port.
Definition connect_config (_local_address address : Address) : FdAdapter.FdAdapterConfig :=
  FdAdapter.mkFdAdapterConfig _local_address address 0 0.
Definition listen_config (_local_address : Address) : FdAdapter.FdAdapterConfig :=
  FdAdapter.set_source FdAdapter.default_config _local_address.

Section Lab7Socket.
Context {K : Type} `{Kernel K}.
Context (owner _thread_data device : FileDescriptor).

(** [connect]: the new local address, and what the base class does. *)
Definition socket_connect (fuel : nat) (_local_address : Address) (port_random isn_random : Z) (address : Address)
    (w : World K (SpongeSocket.Sponge NetworkInterfaceAdapter)) :=
  let _local_address := same_host _local_address (u16 port_random) in
  (_local_address,
   SpongeSocket.connect (I := list byte) (O := BufferList) _thread_data device fuel TCPConnection.default_config isn_random
     (connect_config _local_address address) w).

Definition socket_bind (_local_address address : Address) : outcome Address :=
  if negb (ipv4_numeric address =? ipv4_numeric _local_address) then Throw RuntimeError
  else Ok (same_host _local_address (port address)).

Definition socket_listen_and_accept (fuel : nat) (_local_address : Address) (isn_random : Z)
    (w : World K (SpongeSocket.Sponge NetworkInterfaceAdapter)) :=
  SpongeSocket.listen_and_accept (I := list byte) (O := BufferList) _thread_data device fuel TCPConnection.default_config isn_random
    (listen_config _local_address) w.
End Lab7Socket.

(** *** The router *)

Definition host_side : nat := 0.
Definition internet_side : nat := 1.
Definition async (eth : EthernetAddress) (a : Address) : AsyncNetworkInterface :=
  mkAsync (NetworkInterface.new eth a) [].
Definition quad := Simulator.quad.
Definition ip := Simulator.ip.

(** The set-up of the router: its two interfaces and its three routes. *)
Definition set_up_router (rd : nat -> Z) (is_client : bool) : Router :=
  let '(host_address, internet_address) :=
    if is_client then (quad 192 168 0 1, quad 10 0 0 192) else (quad 172 16 0 1, quad 10 0 0 172) in
  let '(r, host_side) := add_interface (async (random_router_ethernet_address rd 0) host_address) Router.new in
  let '(r, internet_side) := add_interface (async (random_router_ethernet_address rd 6) internet_address) r in
  if is_client then
    let r := add_route (ip 192 168 0 0) 16 None host_side r in
    let r := add_route (ip 10 0 0 0) 8 None internet_side r in
    add_route (ip 172 16 0 0) 12 (Some (quad 10 0 0 172)) internet_side r
  else
    let r := add_route (ip 172 16 0 0) 12 None host_side r in
    let r := add_route (ip 10 0 0 0) 8 None internet_side r in
    add_route (ip 192 168 0 0) 16 (Some (quad 10 0 0 192)) internet_side r.

(** The addresses of the host and of its next hop. *)
Definition host_addresses (is_client : bool) : Address * Address :=
  if is_client then (quad 192 168 0 50, quad 192 168 0 1) else (quad 172 16 0 100, quad 172 16 0 1).

(** *** The network thread *)

Record Net := mkNet { router : Router; cerr : ostream }.
Definition put_err (s : list byte) (n : Net) : Net := mkNet (router n) (cerr n <<< s).
Definition set_router (r : Router) (n : Net) : Net := mkNet r (cerr n).

Section Network.
Context {K : Type} `{Kernel K} `{SocketKernel K}.
Context (frame_fd internet_socket : FileDescriptor) (bounce_address : Address) (debug : bool) (what : exn -> list byte).
Abbreviation W := (World K Net).

Definition print_err (s : list byte) : ste W unit := modify (set_app (put_err s)).

(** The message of the debug mode. *)
Definition announce (label : list byte) (frame : EthernetFrame) : ste W unit :=
  if debug then
    _ ← print_err label;
    s ← lift (Printed.lab7_summary frame);
    _ ← print_err s;
    print_err [x0a]
  else mret tt.

(** A call on the router, and one on [router.interface(side)]. *)
Definition on_router (f : Router -> Router * outcome unit) : ste W unit := fun w =>
  let '(r, o) := f (router (app w)) in (set_app (set_router r) w, o).
Definition on_interface (side : nat) (f : ste AsyncNetworkInterface unit) (r : Router) : Router * outcome unit :=
  match _interfaces r !! side with
  | None => (r, Throw OutOfRange)
  | Some a => let '(a, o) := f a in (mkRouter (<[side := a]> (_interfaces r)) (_routing_table r), o)
  end.

(** The frames that wait at an interface, and [pop]. *)
Definition frames_out (side : nat) (r : Router) : list EthernetFrame :=
  match _interfaces r !! side with Some a => _frames_out (base_interface a) | None => [] end.
Definition pop_frame_of (side : nat) : Router -> Router * outcome unit :=
  on_interface side (fun a => (mkAsync (pop_frame (base_interface a)) (_datagrams_out a), Ok tt)).
Definition tick_of (ms : Z) (side : nat) : Router -> Router * outcome unit :=
  on_interface side (fun a => (mkAsync (NetworkInterface.tick ms (base_interface a)) (_datagrams_out a), Ok tt)).

(** The first and the fourth rule: a frame comes in at a side of the router. *)
Definition frame_in (fd : FileDescriptor) (side : nat) (label : list byte) : ste W unit :=
  bytes ← read_all fd;
  let '(frame, r) := Ethernet.parse default_frame (buf_of_string bytes) in
  if negb (bool_decide (r = NoError)) then mret tt
  else
    _ ← announce label frame;
    _ ← on_router (on_interface side (async_recv_frame frame));
    on_router Router.route.

(** The second and the third: the first frame of a side goes out; undefined
    when there is none. *)
Definition frame_out (side : nat) (label : list byte) (send : EthernetFrame -> ste W unit) : ste W unit :=
  f ← gets (fun w => frames_out side (router (app w)));
  match f with
  | [] => throw Undefined
  | front :: _ =>
      _ ← announce label front;
      _ ← send front;
      on_router (pop_frame_of side)
  end.
Definition to_host (f : EthernetFrame) : ste W unit :=
  _ ← write frame_fd (bvl_of_buffers (Ethernet.serialize f)) true; mret tt.
Definition to_internet (f : EthernetFrame) : ste W unit :=
  sendto internet_socket bounce_address (bvl_of_buffers (Ethernet.serialize f)).
Definition frames_wait (side : nat) : ste W bool :=
  gets (fun w => negb (bool_decide (frames_out side (router (app w)) = []))).

Definition network_rules : list (Rule K Net) :=
  let rules := add_rule frame_fd In (frame_in frame_fd host_side (str! "     Host->router:     ")) (mret true) (mret tt) [] in
  let rules := add_rule frame_fd Out (frame_out host_side (str! "     Router->host:     ") to_host)
                 (frames_wait host_side) (mret tt) rules in
  let rules := add_rule internet_socket Out (frame_out internet_side (str! "     Router->Internet: ") to_internet)
                 (frames_wait internet_side) (mret tt) rules in
  add_rule internet_socket In (frame_in internet_socket internet_side (str! "     Internet->router: ")) (mret true) (mret tt) rules.

(** One iteration of the loop after its events, and the loop, for [fuel]
    iterations: [Ok true] once it has ended.  [exit_flag] says what the flag
    is at the end of each. *)
Definition time_passes : ste W unit :=
  _ ← on_router (tick_of 50 host_side);
  on_router (tick_of 50 internet_side).
Fixpoint network_loop (fuel : nat) (exit_flag : nat -> bool) (rules : list (Rule K Net)) (w : W) : W * outcome bool :=
  match fuel with
  | O => (w, Ok false)
  | S fuel' =>
      match wait_next_event 50 rules w with
      | (w, rules, Throw e) => (w, Throw e)
      | (w, rules, Ok r) =>
          if bool_decide (r = Exit) then (set_app (put_err (str! "Exiting..." ++ [x0a])) w, Ok true)
          else
            match time_passes w with
            | (w, Throw e) => (w, Throw e)
            | (w, Ok _) => if exit_flag fuel' then (w, Ok true) else network_loop fuel' exit_flag rules w
            end
      end
  end.

(** The function of the thread: whether it has ended. *)
Definition network_thread (fuel : nat) (exit_flag : nat -> bool) (w : W) : W * outcome bool :=
  match network_loop fuel exit_flag network_rules w with
  | (w, Ok b) => (w, Ok b)
  | (w, Throw Undefined) => (w, Throw Undefined)
  | (w, Throw e) => (set_app (put_err (str! "Thread ending from exception: " ++ what e ++ [x0a])) w, Ok true)
  end.

(** What [program_body] does before its threads: the bouncer is told three
    times where we are, and the router is set up. *)
Definition hello : ste W unit :=
  _ ← sendto internet_socket bounce_address (bvl_of_string []);
  _ ← sendto internet_socket bounce_address (bvl_of_string []);
  sendto internet_socket bounce_address (bvl_of_string []).
Definition before_threads (rd : nat -> Z) (is_client : bool) : ste W unit :=
  _ ← hello;
  modify (set_app (set_router (set_up_router rd is_client))).
End Network.

(** *** The command line *)

Definition print_usage (argv0 : list byte) (cerr : ostream) : ostream :=
  cerr <<< str! "Usage: " <<< argv0 <<< str! " client HOST PORT [debug]" <<< x0a
       <<< str! "or     " <<< argv0 <<< str! " server HOST PORT [debug]" <<< x0a.

(** The role, the bouncer's host and port and the debug flag, of a process
    that has a name; or the usage message is due. *)
Definition lab7_arguments (argv : list (list byte)) : outcome (option (bool * list byte * list byte * bool)) :=
  if negb (Zlen argv =? 4) && negb (Zlen argv =? 5) then Ok None
  else
    role ← argument argv 1;
    if negb (bool_decide (role = str! "client")) && negb (bool_decide (role = str! "server")) then Ok None
    else
      host ← argument argv 2;
      service ← argument argv 3;
      Ok (Some (bool_decide (role = str! "client"), host, service, Zlen argv =? 5)).

(** ** Where the gateway sends what it receives *)

(** The routes, and what they mean. *)
Definition lab7_table (is_client : bool) : list Route_Information := _routing_table (set_up_router (fun _ => 0) is_client).
Definition in_net (net len dst : Z) : bool := Z.shiftr dst (32 - len) =? Z.shiftr net (32 - len).
Definition client_net := in_net (ip 192 168 0 0) 16.
Definition server_net := in_net (ip 172 16 0 0) 12.
Definition middle_net := in_net (ip 10 0 0 0) 8.

(** The interface, the datagram as it leaves and the next hop, of a datagram
    that comes in at the gateway of the client's or of the server's side. *)
Definition gateway_sends (is_client : bool) (d : IPv4Datagram) : option (nat * IPv4Datagram * Address) :=
  let dst := IPv4Header.dst (_header d) in
  let direct := from_ipv4_numeric dst in
  if ttl (_header d) <=? 1 then None
  else if client_net dst then
    Some (if is_client then (host_side, one_hop d, direct) else (internet_side, one_hop d, quad 10 0 0 192))
  else if server_net dst then
    Some (if is_client then (internet_side, one_hop d, quad 10 0 0 172) else (host_side, one_hop d, direct))
  else if middle_net dst then Some (internet_side, one_hop d, direct)
  else None.

Lemma set_up_table rd is_client :
  _routing_table (set_up_router rd is_client) = lab7_table is_client /\
  length (_interfaces (set_up_router rd is_client)) = 2%nat /\ queues (set_up_router rd is_client) = [[]; []].
Proof. by destruct is_client. Qed.

Lemma lab7_canonical is_client : Forall (fun el => canonical el /\ (interface_num el < 2)%nat) (lab7_table is_client).
Proof. destruct is_client; repeat constructor; vm_compute; congruence. Qed.

Lemma select_step_covers dst s el :
  canonical el -> 0 <= dst < 2 ^ 32 ->
  select_step dst s el = Ok (if covers el dst && (matched_length s <=? prefix_length el)
                             then mkSelection true (prefix_length el) (interface_num el) (next_hop el) else s).
Proof. intros Hc Hd. unfold select_step. by rewrite route_matches_covers. Qed.

Definition chosen (el : Route_Information) : selection :=
  mkSelection true (prefix_length el) (interface_num el) (next_hop el).

(** Three routes to networks that do not meet: the loop finds the one that covers. *)
Lemma select_disjoint dst r1 r2 r3 :
  Forall (fun el => canonical el /\ (interface_num el < 2)%nat) [r1; r2; r3] -> 0 <= dst < 2 ^ 32 ->
  (covers r1 dst = true -> covers r2 dst = false /\ covers r3 dst = false) ->
  (covers r2 dst = true -> covers r3 dst = false) ->
  select_route dst [r1; r2; r3] =
    Ok (if covers r1 dst then chosen r1 else if covers r2 dst then chosen r2 else if covers r3 dst then chosen r3
        else mkSelection false 0 0 None).
Proof.
  intros Hc Hd H1 H2. unfold select_route. cbn [select_loop].
  inversion_clear Hc as [|? ? [C1 _] Hc']. inversion_clear Hc' as [|? ? [C2 _] Hc]. inversion_clear Hc as [|? ? [C3 _] _].
  assert (0 <= prefix_length r1 /\ 0 <= prefix_length r2 /\ 0 <= prefix_length r3) as (L1 & L2 & L3)
    by (split_and!; [apply C1|apply C2|apply C3]).
  rewrite select_step_covers by done. cbn [mbind outcome_bind matched_length]. rewrite (proj2 (Z.leb_le 0 _) L1), andb_true_r.
  destruct (covers r1 dst).
  - destruct (H1 eq_refl) as [E2 E3]. rewrite !select_step_covers, E2 by done. cbn [mbind outcome_bind andb].
    rewrite !select_step_covers, E3 by done. done.
  - rewrite select_step_covers by done. cbn [mbind outcome_bind matched_length].
    rewrite (proj2 (Z.leb_le 0 _) L2), andb_true_r. destruct (covers r2 dst).
    + rewrite select_step_covers, H2 by done. done.
    + rewrite select_step_covers by done. cbn [mbind outcome_bind matched_length].
      rewrite (proj2 (Z.leb_le 0 _) L3), andb_true_r. by destruct (covers r3 dst).
Qed.

(** The three networks do not meet. *)
Lemma in_net_div net len dst :
  0 <= len <= 32 -> in_net net len dst = (dst / 2 ^ (32 - len) =? net / 2 ^ (32 - len)).
Proof. intros Hl. unfold in_net. by rewrite !Z.shiftr_div_pow2 by lia. Qed.

Lemma nets_disjoint dst :
  0 <= dst < 2 ^ 32 ->
  (client_net dst = true -> server_net dst = false /\ middle_net dst = false) /\
  (server_net dst = true -> middle_net dst = false).
Proof.
  intros Hd. unfold client_net, server_net, middle_net. rewrite !in_net_div by lia.
  change (ip 192 168 0 0 / 2 ^ (32 - 16)) with 49320. change (ip 172 16 0 0 / 2 ^ (32 - 12)) with 2753.
  change (ip 10 0 0 0 / 2 ^ (32 - 8)) with 10.
  change (2 ^ (32 - 16)) with 65536. change (2 ^ (32 - 12)) with 1048576. change (2 ^ (32 - 8)) with 16777216.
  rewrite !Z.eqb_eq, !Z.eqb_neq. split; [intros E; split|intros E]; Z.to_euclidean_division_equations; lia.
Qed.

(** The loop over the table finds the route of the network. *)
Lemma gateway_forward is_client d :
  0 <= IPv4Header.dst (_header d) < 2 ^ 32 -> forward (lab7_table is_client) d = gateway_sends is_client d.
Proof.
  intros Hd. rewrite forward_select; [|eapply Forall_impl; [apply lab7_canonical|]; by intros el [? _]|done].
  unfold gateway_sends. destruct (_ <=? 1); [done|]. set (dst := IPv4Header.dst (_header d)) in *.
  pose proof (lab7_canonical is_client) as Hc. destruct (nets_disjoint dst Hd) as [H1 H2].
  destruct is_client.
  - change (lab7_table true) with
      [mkRoute (ip 192 168 0 0) 16 None host_side; mkRoute (ip 10 0 0 0) 8 None internet_side;
       mkRoute (ip 172 16 0 0) 12 (Some (quad 10 0 0 172)) internet_side] in *.
    rewrite select_disjoint; [|done..| |].
    + change (covers (mkRoute (ip 192 168 0 0) 16 None host_side) dst) with (client_net dst).
      change (covers (mkRoute (ip 10 0 0 0) 8 None internet_side) dst) with (middle_net dst).
      change (covers (mkRoute (ip 172 16 0 0) 12 (Some (quad 10 0 0 172)) internet_side) dst) with (server_net dst).
      destruct (client_net dst), (middle_net dst), (server_net dst); intuition congruence.
    + intros E. by destruct (H1 E).
    + intros E. destruct (covers (mkRoute (ip 172 16 0 0) _ _ _) dst) eqn:E3; [|done].
      change (middle_net dst = true) in E. by rewrite (H2 E3) in E.
  - change (lab7_table false) with
      [mkRoute (ip 172 16 0 0) 12 None host_side; mkRoute (ip 10 0 0 0) 8 None internet_side;
       mkRoute (ip 192 168 0 0) 16 (Some (quad 10 0 0 192)) internet_side] in *.
    rewrite select_disjoint; [|done..| |].
    + change (covers (mkRoute (ip 172 16 0 0) 12 None host_side) dst) with (server_net dst).
      change (covers (mkRoute (ip 10 0 0 0) 8 None internet_side) dst) with (middle_net dst).
      change (covers (mkRoute (ip 192 168 0 0) 16 (Some (quad 10 0 0 192)) internet_side) dst) with (client_net dst).
      destruct (client_net dst), (middle_net dst), (server_net dst); intuition congruence.
    + intros E. destruct (covers (mkRoute (ip 192 168 0 0) _ _ _) dst) eqn:E3.
      * destruct (H1 E3) as [Es _]. change (server_net dst = true) in E. by rewrite Es in E.
      * split; [by apply H2|done].
    + intros E. destruct (covers (mkRoute (ip 192 168 0 0) _ _ _) dst) eqn:E3; [|done].
      destruct (H1 E3) as [_ Em]. change (middle_net dst = true) in E. by rewrite Em in E.
Qed.

(** *** The callbacks *)

(** The frame that carries [d] in its payload, as it is read from the wire by
    the interface that it is addressed to. *)
Lemma datagram_frame ni h d bl :
  Ethernet.header_ok h -> for_us ni (Ethernet.dst h) -> Ethernet.type h = TYPE_IPv4 ->
  datagram_ok d -> IPv4Datagram.serialize d = Ok bl ->
  exists b d' c, Ethernet.parse default_frame (buf_of_string (concatenate (Ethernet.serialize (mkEthernetFrame h bl)))) =
      (mkEthernetFrame h (bl_of_buffer b), NoError) /\
    recv_frame (mkEthernetFrame h (bl_of_buffer b)) ni = (ni, Ok (Some d')) /\
    IPv4Datagram._header d' = set_cksum (IPv4Datagram._header d) c /\
    concatenate (IPv4Datagram._payload d') = concatenate (IPv4Datagram._payload d) /\ datagram_ok d'.
Proof.
  intros Hh Hu Ht Hd E. destruct (datagram_over_wire d default_datagram Hd) as (bl' & c & E' & Hc & Hl & Hp).
  rewrite E in E'. apply Ok_inj in E' as <-.
  destruct (frame_parse_serialize (mkEthernetFrame h bl) default_frame Hh) as (b & Ef & Hb & Hs);
    [cbn [Ethernet._payload]; destruct Hd as [[] _]; lia|].
  destruct (Hp b Hb Hs) as (_ & d' & Ed & H1 & H2 & _). exists b, d', c. split; [exact Ef|].
  split; [|split; [done|split; [done|]]].
  - unfold recv_frame. cbn [Ethernet._header Ethernet._payload]. rewrite (for_us_test _ _ Hu), Ht. cbn [bl_to_buffer bl_of_buffer].
    change (TYPE_IPv4 =? TYPE_ARP) with false. change (TYPE_IPv4 =? TYPE_IPv4) with true. cbv iota. by rewrite Ed.
  - split; rewrite H1; [apply set_cksum_ok; [apply Hd|done]|]. rewrite H2. apply Hd.
Qed.

(** The summary of a parsed frame: its payload is one buffer, so that no
    conversion throws. *)
Lemma summary_total h b : exists s, Printed.lab7_summary (mkEthernetFrame h (bl_of_buffer b)) = Ok s.
Proof.
  unfold Printed.lab7_summary. cbn [Ethernet._header Ethernet._payload bl_to_buffer bl_of_buffer mbind outcome_bind].
  destruct (Ethernet.type h =? TYPE_IPv4).
  - destruct (IPv4Datagram.parse _ _) as [dgram r]. case_bool_decide; [|by eexists].
    destruct (_ =? _); [|by eexists]. destruct (TCPSegment.parse _ _ _) as [seg r']. case_bool_decide; by eexists.
  - destruct (_ =? TYPE_ARP); [|by eexists]. destruct (ARP.parse _ _) as [m r]. case_bool_decide; by eexists.
Qed.

Section Callbacks.
Context {K : Type} `{KernelLaws K} `{!SocketKernel K}.
Implicit Types (w : World K Net).

Lemma announce_total debug label h b w :
  exists s, announce debug label (mkEthernetFrame h (bl_of_buffer b)) w = (set_app (fun n => mkNet (router n) s) w, Ok tt).
Proof.
  unfold announce. destruct debug.
  - destruct (summary_total h b) as [s Es]. unfold print_err, mbind, ste_bind, modify, lift. rewrite Es.
    eexists. unfold set_app, put_err. cbn [kernel wrappers app router cerr]. done.
  - exists (cerr (app w)). unfold set_app. destruct w as [k l [r s]]. done.
Qed.

(** A gateway between two events: the routes of its side, two interfaces, and
    nothing left to route. *)
Record gateway (is_client : bool) (r : Router) : Prop := {
  gw_table : _routing_table r = lab7_table is_client;
  gw_two : length (_interfaces r) = 2%nat;
  gw_queues : queues r = [[]; []]
}.

Lemma set_up_gateway rd is_client : gateway is_client (set_up_router rd is_client).
Proof. by destruct is_client. Qed.

(** A datagram that an interface of the gateway has received is routed. *)
Lemma gateway_routes is_client r side a d :
  gateway is_client r -> _interfaces r !! side = Some a -> datagram_ok d ->
  exists r', Router.route (mkRouter (<[side := mkAsync (base_interface a) (_datagrams_out a ++ [d])]> (_interfaces r)) (_routing_table r))
      = (r', Ok tt) /\
    gateway is_client r' /\ bases r' = fold_left deliver (option_list (gateway_sends is_client d)) (bases r).
Proof.
  intros [Ht Hn Hq] Ha Hd. set (r1 := mkRouter _ _).
  assert (length (_interfaces r1) = 2%nat) as Hn1 by (cbn; by rewrite length_insert).
  assert (_datagrams_out a = []) as Hempty.
  { assert (queues r !! side = Some (_datagrams_out a)) as E by (unfold queues; by rewrite list_lookup_fmap, Ha).
    rewrite Hq in E. destruct side as [|[|[|?]]]; cbn in E; congruence. }
  assert (queues r1 = <[side := [d]]> [[]; []]) as Hq1
    by (unfold queues in *; cbn [r1 _interfaces]; rewrite list_fmap_insert, Hq; cbn; by rewrite Hempty).
  assert (bases r1 = bases r) as Hb1.
  { unfold bases. cbn [r1 _interfaces]. rewrite list_fmap_insert. cbn [base_interface]. apply list_insert_id.
    by rewrite list_lookup_fmap, Ha. }
  assert (side < 2)%nat as Hside by (rewrite <- Hn; by eapply lookup_lt_Some).
  destruct (route_interfaces_spec (length (_interfaces r1)) 0 r1 eq_refl) as (r' & E & Hb & Hqr & Htr).
  - unfold table_ok. rewrite Hn1. change (_routing_table r1) with (_routing_table r). rewrite Ht. apply lab7_canonical.
  - assert (Forall datagram_ok [d]) as Hone by (constructor; [done|constructor]).
    rewrite Hq1. destruct side as [|[|?]]; [| |lia]; (constructor; [|constructor; [|constructor]]); done || constructor.
  - exists r'. split; [exact E|]. split.
    + split; [by rewrite Htr, <- Ht| |rewrite Hqr, Hn1; by rewrite take_0].
      apply (f_equal length) in Hqr. unfold queues in Hqr. rewrite length_fmap, Hn1, take_0 in Hqr. exact Hqr.
    + rewrite Hb, Hb1. change (_routing_table r1) with (_routing_table r). rewrite Ht, drop_0, Hq1. f_equal.
      rewrite <- gateway_forward by apply Hd.
      destruct side as [|[|?]]; [| |lia]; cbn;
        by destruct (forward (lab7_table is_client) d).
Qed.
End Callbacks.

(** Two gateways in a row carry a datagram from one side to the other: what
    the first sends into the middle, the second hands to its host, with the
    time to live reduced by two and the same payload. *)
Lemma gateways_in_tandem (is_client : bool) (d : IPv4Datagram) :
  2 < ttl (_header d) < 256 -> 0 <= IPv4Header.dst (_header d) < 2 ^ 32 ->
  (if is_client then server_net else client_net) (IPv4Header.dst (_header d)) = true ->
  exists (d1 d2 : IPv4Datagram) (hop : Address), gateway_sends is_client d = Some (internet_side, d1, hop) /\
    hop = snd (if is_client then (quad 10 0 0 192, quad 10 0 0 172) else (quad 10 0 0 172, quad 10 0 0 192)) /\
    gateway_sends (negb is_client) d1 = Some (host_side, d2, from_ipv4_numeric (IPv4Header.dst (_header d))) /\
    ttl (_header d2) = ttl (_header d) - 2 /\ IPv4Datagram._payload d2 = IPv4Datagram._payload d.
Proof.
  intros Ht Hd Hn. destruct (nets_disjoint _ Hd) as [H1 _].
  assert (ttl (_header (one_hop d)) = ttl (_header d) - 1) as E1 by done.
  exists (one_hop d), (one_hop (one_hop d)).
  assert (ttl (_header (one_hop (one_hop d))) = ttl (_header d) - 2) as E2
    by (cbn; lia).
  unfold gateway_sends. rewrite E1, !(proj2 (Z.leb_gt _ 1)) by lia.
  change (IPv4Header.dst (_header (one_hop d))) with (IPv4Header.dst (_header d)).
  destruct is_client; cbn [negb].
  - destruct (client_net _) eqn:Ec; [by destruct (H1 eq_refl) as [E _]; rewrite E in Hn|]. rewrite Hn. by eexists.
  - rewrite Hn. by eexists.
Qed.

(** C36. The gateway of lab 7 routes what it receives.  When the read of the
    rule returns the bytes of an Ethernet frame for the interface on that side
    which carries a valid datagram, the callback returns, and the router has
    done exactly this: the datagram, as it was parsed, is dropped when its time
    to live is spent or no network of the set-up has its destination, and
    otherwise handed, with the time to live reduced by one, to the interface
    and the next hop that the role of the gateway (client's or server's side)
    gives for its network; nothing is left in the queues, so that the gateway
    is ready for the next frame.  This holds with and without the debug
    output. *)
Theorem lab7_gateway {K} `{KernelLaws K} `{!SocketKernel K} is_client debug fd side label
    (w w1 : World K Net) bytes a h d bl :
  gateway is_client (router (app w)) -> read_all fd w = (w1, Ok bytes) ->
  bytes = concatenate (Ethernet.serialize (mkEthernetFrame h bl)) ->
  _interfaces (router (app w)) !! side = Some a ->
  Ethernet.header_ok h -> for_us (base_interface a) (Ethernet.dst h) -> Ethernet.type h = TYPE_IPv4 ->
  datagram_ok d -> IPv4Datagram.serialize d = Ok bl ->
  exists d' c w', IPv4Datagram._header d' = set_cksum (IPv4Datagram._header d) c /\
    concatenate (IPv4Datagram._payload d') = concatenate (IPv4Datagram._payload d) /\
    frame_in debug fd side label w = (w', Ok tt) /\ gateway is_client (router (app w')) /\
    bases (router (app w')) = fold_left deliver (option_list (gateway_sends is_client d')) (bases (router (app w))).
Proof.
  intros Hg Er -> Ha Hh Hu Ht Hd E.
  destruct (datagram_frame (base_interface a) h d bl Hh Hu Ht Hd E) as (b & d' & c & Ep & Erf & H1' & H2' & Hd').
  assert (app w1 = app w) as Happ.
  { unfold read_all in Er. apply fd_read_spec in Er as [(e & ? & _)|(? & _ & _ & _ & [Hw _] & _)]; [done|exact Hw|lia]. }
  destruct (gateway_routes is_client (router (app w)) side a d' Hg Ha Hd') as (r' & Eroute & Hg' & Hb').
  destruct (announce_total debug label h b w1) as [s Es].
  exists d', c, (set_app (set_router r') (set_app (fun n => mkNet (router n) s) w1)).
  split; [done|]. split; [done|]. split; [|split; [exact Hg'|exact Hb']].
  unfold frame_in, mbind, ste_bind. rewrite Er, Ep. cbn [negb bool_decide decide_rel]. rewrite bool_decide_eq_true_2 by done.
  cbn [negb]. rewrite Es. unfold on_router, on_interface. cbn [set_app app router]. rewrite Happ, Ha.
  unfold async_recv_frame. rewrite Erf. cbn [set_app set_router app router kernel wrappers]. rewrite Eroute. done.
Qed.

Module Examples.
Definition rd : nat -> Z := fun n => Z.of_nat n.
Definition d : IPv4Datagram :=
  mkIPv4Datagram (set_addrs (set_len default_header 23) (ip 192 168 0 50) (ip 172 16 0 100)) (bl_of_string (str! "abc")).
Definition h : EthernetHeader := mkEthernetHeader [2; 0; 0; 3; 4; 5] [2; 1; 1; 1; 1; 1] TYPE_IPv4.
Definition bytes : list byte :=
  match IPv4Datagram.serialize d with Ok bl => concatenate (Ethernet.serialize (mkEthernetFrame h bl)) | Throw _ => [] end.
Definition w : World SimKernel Net :=
  mkWorld (mkSimKernel {[ 100 := mkSimfile [bytes] [] [] 0 0 ]} 0) {[ 0%nat := mkFDWrapper 100 false false 0 0 ]}
    (mkNet (set_up_router rd true) stringstream).
End Examples.

(** A datagram from the client's host for the server's: it waits at the
    Internet side for the address of the server's gateway. *)
Lemma lab7_gateway_witness :
  exists d' w', frame_in true 0%nat host_side (str! "     Host->router:     ") Examples.w = (w', Ok tt) /\
    concatenate (IPv4Datagram._payload d') = str! "abc" /\
    gateway_sends true d' = Some (internet_side, one_hop d', quad 10 0 0 172) /\
    bases (router (app w')) = deliver (bases (set_up_router Examples.rd true)) (internet_side, one_hop d', quad 10 0 0 172).
Proof.
  destruct (read_all 0%nat Examples.w) as [w1 o] eqn:Er.
  assert (o = Ok Examples.bytes) as -> by (revert Er; vm_compute; by intros [= _ <-]).
  destruct (IPv4Datagram.serialize Examples.d) as [bl|] eqn:Eb; [|by vm_compute in Eb].
  destruct (lab7_gateway true true 0%nat host_side (str! "     Host->router:     ") Examples.w w1 Examples.bytes
      (async [2; 0; 0; 3; 4; 5] (quad 192 168 0 1)) Examples.h Examples.d bl)
    as (d' & c & w' & Hh & Hp & E & _ & Hb).
  - apply set_up_gateway.
  - exact Er.
  - unfold Examples.bytes. by rewrite Eb.
  - vm_compute. reflexivity.
  - split; [split; [done|repeat constructor; lia]|split; [done|repeat constructor; lia]|cbn; unfold TYPE_IPv4; lia].
  - right. reflexivity.
  - reflexivity.
  - split; [split; vm_compute; repeat split; (reflexivity || discriminate) | vm_compute; reflexivity].
  - exact Eb.
  - assert (gateway_sends true d' = Some (internet_side, one_hop d', quad 10 0 0 172)) as Eg.
    { unfold gateway_sends. rewrite Hh. reflexivity. }
    exists d', w'. split; [exact E|]. split; [rewrite Hp; vm_compute; reflexivity|]. split; [exact Eg|].
    rewrite Hb, Eg. change (router (app Examples.w)) with (set_up_router Examples.rd true). done.
Defined.
