(* ===== verification/Programs.v ===== *)
(** * The programs that join a terminal to a TCP connection

    Models the threads of a [TCPSpongeSocket]
    ([src/libsponge/tcp_helpers/tcp_sponge_socket.cc]: where [connect] and
    [listen_and_accept] start the thread, [wait_until_closed] and the
    destructor that join it) and the [main] functions of
    [src/apps/tcp_ipv4.cc], [tcp_udp.cc] and [tcp_ip_ethernet.cc].  A process
    has one kernel and one table of descriptors for its two threads; a step is
    an iteration of a loop of one of them, in any order.

    [programs_deliver]: between two such processes over any network of
    datagrams, what one prints is a prefix of what the other was given. *)
From stdpp Require Import base tactics list numbers option gmap.
From Stdlib Require Import ZArith Lia.
From Stdlib Require Import (notations) String.
From S2P Require Import Prelude WrappingIntegers ByteStream Text CommandLine Buffer Address Kernel FileDescriptor.
From S2P Require Import Socket EventLoop Confined TCPSender TCPConnection TCPState.
From S2P Require FdAdapter StreamCopy SpongeSocket WireReady Options.

Import SpongeSocket (AdapterIO, dev_write, Sponge, mkSponge, tcp_iteration, in_state).

(** What a thread of the program has at its disposal: the descriptors of the
    owner's end of the socket pair, the thread's end, and the device. *)
Record Handles := mkHandles { owner : FileDescriptor; _thread_data : FileDescriptor; device : FileDescriptor }.

(** [_tcp_thread]: not yet constructed, started, in its loop, or ended. *)
Inductive TcpThread : Type := NotStarted | Starting | Running | Finished.

Record App (A : Type) := mkApp { sponge : Sponge A; copy : StreamCopy.Copy }.
Arguments mkApp {A}.
Arguments sponge {A}.
Arguments copy {A}.

(** Where the main thread is: in the loop of [connect] or [listen_and_accept]
    while the connection is in one of the [states], about to enter the stream
    copy, in its loop, leaving the scope of the socket by an exception, joining
    the thread (and then ending with a status), ended; or the process was
    terminated by an exception of the thread. *)
Inductive MainThread (K : Type) : Type :=
  | Opening (states : list State)
  | Entering
  | Copying (_input _output : FileDescriptor) (rules : list (Rule K StreamCopy.Copy))
  | Unwinding
  | Joining (status : Z)
  | Exited (status : Z)
  | Aborted.
Arguments Opening {K}.
Arguments Entering {K}.
Arguments Copying {K}.
Arguments Unwinding {K}.
Arguments Joining {K}.
Arguments Exited {K}.
Arguments Aborted {K}.

(** A process: [_eventloop] and the [base_time] of the loop that runs it. *)
Record Process (K A : Type) := mkProcess {
  memory : World K (App A);
  _eventloop : list (Rule K (Sponge A));
  base_time : Z;
  _tcp_thread : TcpThread;
  main_thread : MainThread K
}.
Arguments mkProcess {K A}.
Arguments memory {K A}.
Arguments _eventloop {K A}.
Arguments base_time {K A}.
Arguments _tcp_thread {K A}.
Arguments main_thread {K A}.

(** What a thread sees of the memory, and the memory after it has changed that. *)
Definition socket_view {K A} (w : World K (App A)) : World K (Sponge A) :=
  mkWorld (kernel w) (wrappers w) (sponge (app w)).
Definition copy_view {K A} (w : World K (App A)) : World K StreamCopy.Copy :=
  mkWorld (kernel w) (wrappers w) (copy (app w)).
Definition with_socket {K A} (w : World K (App A)) (v : World K (Sponge A)) : World K (App A) :=
  mkWorld (kernel v) (wrappers v) (mkApp (app v) (copy (app w))).
Definition with_copy {K A} (w : World K (App A)) (v : World K StreamCopy.Copy) : World K (App A) :=
  mkWorld (kernel v) (wrappers v) (mkApp (sponge (app w)) (app v)).

Definition set_abort {A} (u : App A) : App A :=
  mkApp (mkSponge (SpongeSocket._datagram_adapter (sponge u)) (SpongeSocket._tcp (sponge u)) true
    (SpongeSocket._inbound_shutdown (sponge u)) (SpongeSocket._outbound_shutdown (sponge u))
    (SpongeSocket._fully_acked (sponge u))) (copy u).

Section Steps.
Context {K A I O : Type} `{Kernel K} `{SocketKernel K} `{FdAdapter.FdAdapter A I O} `{AdapterIO K I O}.
Context (h : Handles).
Abbreviation P := (Process K A).

Definition at_main (p : P) (w : World K (App A)) (m : MainThread K) : P :=
  mkProcess w (_eventloop p) (base_time p) (_tcp_thread p) m.

(** The end of [connect] and of [listen_and_accept]: the thread is started,
    and the main thread goes on to the stream copy. *)
Definition launch (p : P) (w : World K (App A)) (rules : list (Rule K (Sponge A))) : P :=
  mkProcess w rules (base_time p) Starting Entering.

(** An exception in the main thread once the other runs; the destructor of the
    socket asks it to abort and joins it, and the handler returns
    [EXIT_FAILURE]. *)
Definition unwind (p : P) (w : World K (App A)) : P := at_main p w Unwinding.
Definition destroy_socket (p : P) : P := at_main p (set_app set_abort (memory p)) (Joining EXIT_FAILURE).

Definition opening_step (states : list State) (p : P) : P :=
  let w := memory p in
  match in_state states (socket_view w) with
  | (v, Throw _) => at_main p (with_socket w v) (Exited EXIT_FAILURE)
  | (v, Ok false) => launch p (with_socket w v) (_eventloop p)
  | (v, Ok true) =>
      match tcp_iteration (device h) (base_time p) (_eventloop p) v with
      | (v, rules, Throw _) => mkProcess (with_socket w v) rules (base_time p) (_tcp_thread p) (Exited EXIT_FAILURE)
      | (v, rules, Ok None) => launch p (with_socket w v) rules
      | (v, rules, Ok (Some t)) => mkProcess (with_socket w v) rules t (_tcp_thread p) (main_thread p)
      end
  end.

(** [bidirectional_stream_copy] up to its loop. *)
Definition open_terminal : ste (World K StreamCopy.Copy) (FileDescriptor * FileDescriptor) :=
  _ ← modify (set_app (fun _ => StreamCopy.initial_copy));
  _input ← new_fd StreamCopy.STDIN_FILENO;
  _output ← new_fd StreamCopy.STDOUT_FILENO;
  mret (_input, _output).
Definition entering_step (p : P) : P :=
  let w := memory p in
  match open_terminal (copy_view w) with
  | (v, Throw _) => unwind p (with_copy w v)
  | (v, Ok (_input, _output)) =>
      match StreamCopy.set_nonblocking (owner h) _input _output v with
      | (v, Throw _) => unwind p (with_copy w (StreamCopy.release _input _output [] v))
      | (v, Ok _) => at_main p (with_copy w v) (Copying _input _output (StreamCopy.copy_rules (owner h) _input _output))
      end
  end.

(** [wait_until_closed] up to the join. *)
Definition closing (p : P) (w : World K (App A)) : P :=
  match SpongeSocket.wait_until_closed (owner h) (socket_view w) with
  | (v, Throw _) => unwind p (with_socket w v)
  | (v, Ok _) => at_main p (with_socket w v) (Joining EXIT_SUCCESS)
  end.

Definition copying_step (_input _output : FileDescriptor) (rules : list (Rule K StreamCopy.Copy)) (p : P) : P :=
  let w := memory p in
  match wait_next_event (-1) rules (copy_view w) with
  | (v, rules, Throw _) => unwind p (with_copy w (StreamCopy.release _input _output rules v))
  | (v, rules, Ok r) =>
      if bool_decide (r = Exit) then closing p (with_copy w (StreamCopy.release _input _output rules v))
      else at_main p (with_copy w v) (Copying _input _output rules)
  end.

(** A step of the main thread. *)
Definition main_step (p : P) : P :=
  match main_thread p with
  | Opening states => opening_step states p
  | Entering => entering_step p
  | Copying _input _output rules => copying_step _input _output rules p
  | Unwinding => destroy_socket p
  | Joining status =>
      match _tcp_thread p with
      | Finished => at_main p (memory p) (Exited status)
      | _ => p
      end
  | Exited _ | Aborted => p
  end.

(** The thread: [_tcp_main] up to its loop, an iteration, and what follows the
    loop.  An exception leaves the thread's function and ends the process. *)
Definition abort (p : P) (w : World K (App A)) (rules : list (Rule K (Sponge A))) : P :=
  mkProcess w rules (base_time p) (_tcp_thread p) Aborted.

Definition starting_step (p : P) : P :=
  match SpongeSocket._tcp (sponge (app (memory p))) with
  | None => abort p (memory p) (_eventloop p)
  | Some _ =>
      let '(k, t) := sys_clock (kernel (memory p)) in
      mkProcess (mkWorld k (wrappers (memory p)) (app (memory p))) (_eventloop p) t Running (main_thread p)
  end.

Definition finishing (p : P) (w : World K (App A)) (rules : list (Rule K (Sponge A))) : P :=
  match SpongeSocket.finish (owner h) (socket_view w) with
  | (v, Throw _) => abort p (with_socket w v) rules
  | (v, Ok _) => mkProcess (with_socket w v) rules (base_time p) Finished (main_thread p)
  end.

Definition running_step (p : P) : P :=
  let w := memory p in
  match tcp_iteration (device h) (base_time p) (_eventloop p) (socket_view w) with
  | (v, rules, Throw _) => abort p (with_socket w v) rules
  | (v, rules, Ok None) => finishing p (with_socket w v) rules
  | (v, rules, Ok (Some t)) => mkProcess (with_socket w v) rules t Running (main_thread p)
  end.

Definition thread_step (p : P) : P :=
  match main_thread p with
  | Exited _ | Aborted => p
  | _ =>
      match _tcp_thread p with
      | Starting => starting_step p
      | Running => running_step p
      | NotStarted | Finished => p
      end
  end.

(** [connect] or [listen_and_accept] up to its loop. *)
Definition start_process (listening : bool) (c_tcp : TCPConfig) (random : Z) (c_ad : FdAdapter.FdAdapterConfig)
    (w : World K (Sponge A)) : option P :=
  match (if listening then SpongeSocket.listen_start (_thread_data h) (device h) c_tcp random c_ad w
         else SpongeSocket.connect_start (_thread_data h) (device h) c_tcp random c_ad w) with
  | (_, Throw _) => None
  | (w, Ok rules) =>
      let '(k, t) := sys_clock (kernel w) in
      Some (mkProcess (mkWorld k (wrappers w) (mkApp (app w) StreamCopy.initial_copy)) rules t NotStarted
        (Opening (if listening then [LISTEN; SYN_RCVD; SYN_SENT] else [SYN_SENT])))
  end.
End Steps.

(** *** The main functions up to the loop *)

(** A program has ended with a status, or has a process that goes on. *)
Inductive Launched (K A : Type) : Type :=
  | Ends (status : Z)
  | Serves (h : Handles) (p : Process K A).
Arguments Ends {K A}.
Arguments Serves {K A}.

(** [catch (const exception &)]; undefined behaviour is not caught. *)
Definition handled {K A} (e : exn) : outcome (Launched K A) :=
  match e with Undefined => Throw Undefined | _ => Ok (Ends EXIT_FAILURE) end.

Section Mains.
Context {K : Type} `{Kernel K} `{SocketKernel K}.
(** Resolution; the random numbers of the source port, of the connection, of
    the Ethernet address and of the lossy adapter. *)
Context (resolve : list byte -> list byte -> outcome Address) (port_random isn_random : Z) (address_random rand : nat -> Z).

Definition usage_error (usage : list byte -> option (list byte) -> ostream -> ostream) {X} (argv : list (list byte)) : cli X :=
  argv0 ← Options.argv_at argv 0;
  _ ← prints (usage argv0 (Some (str! "ERROR: required arguments are missing.")));
  exit EXIT_FAILURE.

(** The socket over an adapter on the descriptor [device]. *)
Definition socket_over (device : FileDescriptor) : ste (World K unit) Handles :=
  ends ← SpongeSocket.protect [device] SpongeSocket.new_socket;
  mret (mkHandles (fst ends) (snd ends) device).

(** From a configuration to a process. *)
Definition serve_with {A I O} `{FdAdapter.FdAdapter A I O} `{AdapterIO K I O} (make : ste (World K unit) (A * Handles))
    (listening : bool) (c_tcp : TCPConfig) (c_ad : FdAdapter.FdAdapterConfig) (k : K) : outcome (Launched K A) :=
  match make (mkWorld k ∅ tt) with
  | (_, Throw e) => handled e
  | (w, Ok (a, h)) =>
      match start_process h listening c_tcp isn_random c_ad
              (mkWorld (kernel w) (wrappers w) (mkSponge a None false false false false)) with
      | None => Ok (Ends EXIT_FAILURE)
      | Some p => Ok (Serves h p)
      end
  end.

(** What follows the configuration, in each [main]. *)
Definition main_with {A C} (config : cli C) (serve : C -> K -> outcome (Launched K A)) (os : ostream) (k : K)
    : ostream * outcome (Launched K A) :=
  match config os with
  | (os, Throw e) => (os, handled e)
  | (os, Ok (Exits status)) => (os, Ok (Ends status))
  | (os, Ok (Returns c)) => (os, serve c k)
  end.

(** [tcp_ipv4]. *)
Definition ipv4_config (argv : list (list byte)) : cli Options.TcpIpv4.Config :=
  if Zlen argv <? 3 then usage_error Options.TcpIpv4.show_usage argv
  else Options.TcpIpv4.get_config resolve port_random argv.
Definition ipv4_socket (c : Options.TcpIpv4.Config)
    : ste (World K unit) (FdAdapter.LossyFdAdapter FdAdapter.FdAdapterBase * Handles) :=
  device ← TunTapFD (default Options.TcpIpv4.TUN_DFLT (Options.TcpIpv4.tundev c)) true;
  h ← socket_over device;
  mret (FdAdapter.mkLossyFdAdapter (FdAdapter.mkFdAdapterBase FdAdapter.default_config false) rand 0, h).
Definition tcp_ipv4_main (argv : list (list byte)) :=
  main_with (ipv4_config argv) (fun c =>
    serve_with (I := list byte) (O := BufferList) (ipv4_socket c) (Options.TcpIpv4.listen c)
      (Options.TcpIpv4.c_fsm c) (Options.TcpIpv4.c_filt c)).

(** [tcp_udp]: a server binds its socket. *)
Definition udp_config (argv : list (list byte)) : cli Options.TcpUdp.Config :=
  if Zlen argv <? 3 then usage_error Options.TcpUdp.show_usage argv
  else Options.TcpUdp.get_config resolve argv.
Definition udp_socket (c : Options.TcpUdp.Config)
    : ste (World K unit) (FdAdapter.LossyFdAdapter FdAdapter.FdAdapterBase * Handles) :=
  device ← UDPSocket;
  _ ← SpongeSocket.protect [device]
        (when (Options.TcpUdp.listen c) (Socket.bind device (FdAdapter.source (Options.TcpUdp.c_filt c))));
  h ← socket_over device;
  mret (FdAdapter.mkLossyFdAdapter (FdAdapter.mkFdAdapterBase FdAdapter.default_config false) rand 0, h).
Definition tcp_udp_main (argv : list (list byte)) :=
  main_with (udp_config argv) (fun c =>
    serve_with (I := Address * list byte) (O := Address * BufferList) (udp_socket c) (Options.TcpUdp.listen c)
      (Options.TcpUdp.c_fsm c) (Options.TcpUdp.c_filt c)).

(** [tcp_ip_ethernet]: always a client; the adapter's constructor writes to the device. *)
Fixpoint write_frames (device : FileDescriptor) (frames : list BufferList) : ste (World K unit) unit :=
  match frames with
  | [] => mret tt
  | f :: frames => _ ← dev_write device f; write_frames device frames
  end.
Definition ethernet_config (argv : list (list byte)) : cli (Options.TcpIpEthernet.Config * Address) :=
  if Zlen argv <? 3 then usage_error Options.TcpIpEthernet.show_usage argv
  else Options.TcpIpEthernet.get_config resolve port_random argv.
Definition ethernet_socket (c : Options.TcpIpEthernet.Config * Address)
    : ste (World K unit) (FdAdapter.EthernetAdapter * Handles) :=
  device ← TunTapFD (Options.TcpIpEthernet.tapdev (fst c)) false;
  let '(adapter, frames) := FdAdapter.new_ethernet (Options.TcpIpEthernet.local_ethernet_address address_random)
    (FdAdapter.source (Options.TcpIpEthernet.c_filt (fst c))) (snd c) in
  _ ← SpongeSocket.protect [device] (write_frames device frames);
  h ← socket_over device;
  mret (adapter, h).
Definition tcp_ip_ethernet_main (argv : list (list byte)) :=
  main_with (ethernet_config argv) (fun c =>
    serve_with (I := list byte) (O := BufferList) (ethernet_socket c) false
      (Options.TcpIpEthernet.c_fsm (fst c)) (Options.TcpIpEthernet.c_filt (fst c))).
End Mains.

(** ** What a process keeps *)

(** The numbers of the owner's end, the thread's end and the device. *)
Record Numbers := mkNumbers { n_owner : Z; n_thread : Z; n_device : Z }.
Abbreviation STDIN := StreamCopy.STDIN_FILENO.
Abbreviation STDOUT := StreamCopy.STDOUT_FILENO.

Section OneProcess.
Context {K : Type} {HK : Kernel K} {HO : Observe K} {HL : KernelLaws K} {HSK : SocketKernel K}.
Context {A : Type} {HFA : FdAdapter.FdAdapter A (list byte) BufferList} {HA : FdAdapter.OverTun A}.
Context (h : Handles) (n : Numbers).
Abbreviation td := (_thread_data h).
Abbreviation dev := (device h).
Abbreviation on := (n_owner n).
Abbreviation tdn := (n_thread n).
Abbreviation devn := (n_device n).
Implicit Types (w : World K (App A)) (p : Process K A).

(** What the main thread has to do with. *)
Definition terminal : list Z := [STDIN; STDOUT; on].

Record apart : Prop := {
  ap_thread : packets tdn = false;
  ap_device : packets devn = true;
  ap_owner : on <> STDIN /\ on <> STDOUT;
  ap_disjoint : (tdn ∉ terminal) /\ (devn ∉ terminal)
}.
Context (Hap : apart).

(** Nothing has been copied; and in general, what has been. *)
Definition untouched (k : K) : Prop := forall f, f ∈ terminal -> bytes_in k f = [] /\ bytes_out k f = [].
Definition moved (k : K) : Prop :=
  bytes_out k on `prefix_of` bytes_in k STDIN /\ bytes_out k STDOUT `prefix_of` bytes_in k on.

Definition nothing (_ : Z) : list byte := [].
Abbreviation copied i o := (StreamCopy.conserved (owner h) i o on nothing nothing).

Definition main_ok w (m : MainThread K) : Prop :=
  match m with
  | Opening _ | Entering => untouched (kernel w)
  | Copying i o rules =>
      copied i o (copy_view w) /\ Forall (rule_ok (copied i o)) rules /\ Forall (rule_confined [owner h; i; o]) rules
  | Unwinding | Joining _ | Exited _ | Aborted => moved (kernel w)
  end.

Lemma copied_moved i o w : copied i o (copy_view w) -> moved (kernel w).
Proof.
  intros [_ _ _ (_ & _ & up & E1 & E2) (_ & _ & down & E3 & E4)]. cbn in *.
  unfold moved. rewrite E1, E2, E3, E4. split; cbn; by apply prefix_app_r.
Qed.

Lemma main_moved w m : main_ok w m -> moved (kernel w).
Proof.
  assert (untouched (kernel w) -> moved (kernel w)) as Hm.
  { intros Hu. assert (on ∈ terminal /\ STDOUT ∈ terminal) as [H1 H2] by (unfold terminal; rewrite !elem_of_cons; tauto).
    unfold moved. rewrite (proj2 (Hu _ H1)), (proj2 (Hu _ H2)). split; apply prefix_nil. }
  destruct m; cbn; try done. intros (Hc & _). by eapply copied_moved.
Qed.

(** Code that leaves the terminal alone. *)
Lemma main_frame w w' m :
  (forall f, f ∈ terminal -> reads (kernel w') f = reads (kernel w) f /\ writes (kernel w') f = writes (kernel w) f) ->
  (forall l, fd_num w' l = fd_num w l) -> copy (app w') = copy (app w) -> main_ok w m -> main_ok w' m.
Proof.
  intros Hk Hl Hc.
  assert (forall f, f ∈ terminal -> bytes_in (kernel w') f = bytes_in (kernel w) f /\ bytes_out (kernel w') f = bytes_out (kernel w) f) as Hb
    by (intros f Hf; unfold bytes_in, bytes_out; by destruct (Hk f Hf) as [-> ->]).
  assert (forall f, f = STDIN \/ f = STDOUT \/ f = on -> bytes_in (kernel w') f = bytes_in (kernel w) f /\ bytes_out (kernel w') f = bytes_out (kernel w) f) as Hb'
    by (intros f Hf; apply Hb; unfold terminal; rewrite !elem_of_cons; tauto).
  assert (moved (kernel w) -> moved (kernel w')) as Hmv.
  { unfold moved. destruct (Hb' STDIN) as [-> _]; [tauto|]. destruct (Hb' STDOUT) as [_ ->]; [tauto|].
    destruct (Hb' on) as [-> ->]; tauto. }
  destruct m as [states| |i o rules| |s|s|]; cbn [main_ok].
  - intros Hu f Hf. destruct (Hb f Hf) as [-> ->]. auto.
  - intros Hu f Hf. destruct (Hb f Hf) as [-> ->]. auto.
  - intros (Hcv & Hr & Hrc). split; [|done].
    apply (StreamCopy.conserved_framed _ _ _ _ _ _ (copy_view w)); [exact Hb| | | |done];
      cbn [copy_view app]; [intros l _; apply Hl|by rewrite Hc|by rewrite Hc].
  - by apply Hmv.
  - by apply Hmv.
  - by apply Hmv.
  - by apply Hmv.
Qed.

(** *** The other thread *)

Abbreviation undisturbed := (SpongeSocket.undisturbed td dev tdn devn).

#[local] Instance undisturbed_preorder : PreOrder (SpongeSocket.undisturbed (K := K) (A := A) td dev tdn devn []).
Proof.
  split.
  - intros w. split; try done. by left.
  - intros w1 w2 w3 [[A1 A2] [A3 A4] A5 [A6 A7] A8 A9 A10 A11 A12] [[B1 B2] [B3 B4] B5 [B6 B7] B8 B9 B10 B11 B12].
    split; try (split; congruence); try congruence. intros d Hd. destruct (B9 d Hd) as [Hd'|[]%elem_of_nil]. auto.
Qed.

Definition numbered w : Prop := fd_num w (owner h) = on /\ fd_num w td = tdn /\ fd_num w dev = devn.

Lemma apart_handles w (L : list FileDescriptor) : numbered w -> (forall l, l ∈ L -> fd_num w l ∈ terminal) -> (td ∉ L) /\ (dev ∉ L).
Proof.
  intros (_ & H1 & H2) HL'. destruct (ap_disjoint Hap) as [D1 D2]. split; intros Hin; apply HL' in Hin; congruence.
Qed.

Lemma touches_undisturbed {U} (L : list FileDescriptor) w (v v' : World K U) (u : App A) :
  numbered w -> (forall l, l ∈ L -> fd_num w l ∈ terminal) -> kernel v = kernel w -> wrappers v = wrappers w ->
  touches L v v' -> sponge u = sponge (app w) ->
  undisturbed [] (socket_view w) (socket_view (mkWorld (kernel v') (wrappers v') u)).
Proof.
  intros Hn HL' Ek Ew [Hev Hwr Hk] Eu. destruct (apart_handles w L Hn HL') as [D1 D2].
  destruct Hn as (N1 & N2 & N3). destruct (ap_disjoint Hap) as [T1 T2].
  assert (forall l, wrapper v l = wrapper (socket_view w) l) as Ewl by (intros l; unfold wrapper; cbn; by rewrite Ew).
  assert (forall l, l ∉ L -> wrapper (socket_view (mkWorld (kernel v') (wrappers v') u)) l = wrapper (socket_view w) l) as Ewr
    by (intros l Hl; rewrite <- Ewl, <- (Hwr l Hl); done).
  assert (forall f, f ∉ terminal -> reads (kernel v') f = reads (kernel w) f /\ writes (kernel v') f = writes (kernel w) f) as Hkf.
  { intros f Hf. rewrite <- Ek. apply Hk. intros l Hl E. apply Hf. rewrite <- E. unfold fd_num. rewrite Ewl. by apply HL'. }
  split; unfold fd_num, FileDescriptor.eof, FileDescriptor.closed; rewrite ?(Ewr td D1), ?(Ewr dev D2); try done;
    cbn [socket_view kernel app]; rewrite ?Eu; try done.
  - by apply Hkf.
  - split; by apply Hkf.
  - rewrite <- Ek. apply Hev.
  - intros d Hd. left. rewrite <- Ek. by apply Hev.
Qed.
(** *** The invariant of a process *)

Context (Sf S' : list byte) (cfg : TCPConfig) (i i' : WrappingInt32).
Context (Hsup : SpongeSocket.supported Sf cfg i) (HS' : Zlen S' < 2 ^ 31 - 2) (Hi' : valid i').
Abbreviation socket_inv := (SpongeSocket.thread_inv Sf S' cfg i i' td dev tdn devn).

(** What stays true of a connection after its thread has ended. *)
Record settled (k : K) : Prop := {
  se_read : bytes_in k tdn `prefix_of` Sf;
  se_out : bytes_out k tdn `prefix_of` S';
  se_sent : forall T, bytes_in k tdn `prefix_of` T -> T `prefix_of` Sf ->
    Forall (WireReady.datagram_of T i) (writes k devn)
}.

Definition loop_ok p : Prop :=
  socket_inv (socket_view (memory p)) /\ Forall (rule_ok socket_inv) (_eventloop p) /\
  Forall (rule_confined [td; dev]) (_eventloop p).

Record process_ok p : Prop := {
  po_numbered : numbered (memory p);
  po_settled : settled (kernel (memory p));
  po_loop : _tcp_thread p <> Finished -> loop_ok p;
  po_opening : forall states, main_thread p = Opening states -> _tcp_thread p = NotStarted;
  po_main : main_ok (memory p) (main_thread p)
}.

Lemma inv_settled w : socket_inv (socket_view w) -> settled (kernel w).
Proof.
  intros Hw. split.
  - apply (SpongeSocket.ti_read _ _ _ _ _ _ _ _ _ _ Hw).
  - apply (SpongeSocket.thread_delivers td dev tdn devn Sf S' cfg i i' (SpongeSocket.mkThread (socket_view w) [] 0)).
    by split.
  - intros T H1 H2. by apply (SpongeSocket.so_sent _ _ _ _ _ _ _ _ _ _ (SpongeSocket.ti_ok _ _ _ _ _ _ _ _ _ _ Hw T (conj H1 H2))).
Qed.

Lemma settled_frame w w' : undisturbed [] (socket_view w) (socket_view w') -> settled (kernel w) -> settled (kernel w').
Proof.
  intros [_ _ Hr [Hw1 Hw2] _ _ _ _ _] [S1 S2 S3]. cbn in Hr, Hw1, Hw2.
  split; unfold bytes_in, bytes_out in *; rewrite ?Hr, ?Hw1, ?Hw2; done.
Qed.

(** The main thread has done something of its own. *)
Lemma main_moves p w' m :
  process_ok p -> undisturbed [] (socket_view (memory p)) (socket_view w') -> fd_num w' (owner h) = on ->
  main_ok w' m -> (forall states, m <> Opening states) ->
  process_ok (at_main p w' m) /\ bytes_in (kernel w') tdn = bytes_in (kernel (memory p)) tdn.
Proof.
  intros [(N1 & N2 & N3) Hse Hlo Hop Hma] Hu Ho Hm Hne. split.
  - split; cbn [at_main memory _tcp_thread main_thread].
    + destruct (SpongeSocket.un_fd _ _ _ _ _ _ _ Hu) as [U1 U2]. split; [done|].
      split; [exact (eq_trans U1 N2)|exact (eq_trans U2 N3)].
    + by eapply settled_frame.
    + intros Hf. destruct (Hlo Hf) as (L1 & L2 & L3). split; [|done]. cbn [at_main memory].
      eapply SpongeSocket.undisturbed_inv; [..|exact Hu|exact L1]. constructor.
    + intros states Es. by destruct (Hne states).
    + done.
  - unfold bytes_in. f_equal. apply (SpongeSocket.un_reads _ _ _ _ _ _ _ Hu).
Qed.

(** The thread has run in the world of the socket. *)
Lemma thread_frame w v m :
  numbered w -> touches [td; dev] (socket_view w) v -> main_ok w m ->
  numbered (with_socket w v) /\ main_ok (with_socket w v) m.
Proof.
  intros (N1 & N2 & N3) [Hev _ Hk] Hm. destruct (ap_disjoint Hap) as [D1 D2].
  assert (forall l, fd_num (with_socket w v) l = fd_num w l) as Hfd by (intros l; exact (ev_fd _ _ Hev l)).
  split; [split; [|split]; by rewrite Hfd|]. apply (main_frame w); [|done|done|done].
  intros f Hf. apply Hk. intros l Hl E. change (fd_num w l = f) in E. apply elem_of_cons in Hl as [->|Hl].
  - apply D1. by rewrite <- N2, E.
  - apply list_elem_of_singleton in Hl as ->. apply D2. by rewrite <- N3, E.
Qed.

Lemma iteration_ok p w v rules o t :
  numbered w -> main_ok w (main_thread p) -> socket_inv (socket_view w) -> w = memory p ->
  Forall (rule_ok socket_inv) (_eventloop p) -> Forall (rule_confined [td; dev]) (_eventloop p) ->
  tcp_iteration dev t (_eventloop p) (socket_view w) = (v, rules, o) ->
  let w' := with_socket w v in
  numbered w' /\ main_ok w' (main_thread p) /\ socket_inv (socket_view w') /\
  Forall (rule_ok socket_inv) rules /\ Forall (rule_confined [td; dev]) rules /\
  bytes_in (kernel w) tdn `prefix_of` bytes_in (kernel w') tdn.
Proof.
  intros Hn Hm Hi -> Hr Hrc E w'. pose proof Hsup as [Hlen Hisn _ Hs Hrcv].
  apply (SpongeSocket.confined_iteration td dev) in E as Hc; [|done]. destruct Hc as [Ht Hrc'].
  eapply (SpongeSocket.tcp_iteration_ok Sf S' cfg i i') in E as (Hv & Hev & Hr'); [|try done..]; [|apply Hap].
  destruct (thread_frame _ v _ Hn Ht Hm) as [Hn' Hm'].
  assert (socket_view w' = v) as Ev by by destruct v. rewrite Ev. split_and!; try done.
  destruct (ev_reads _ _ Hev tdn (ap_thread Hap)) as [E'|[? _]]; [|done]. cbn in E' |- *. by rewrite E'.
Qed.
(** *** The steps of the main thread *)

Abbreviation read_so_far p := (bytes_in (kernel (memory p)) tdn).

Lemma with_view w : with_socket w (socket_view w) = w.
Proof. by destruct w as [k ws [s c]]. Qed.

Lemma in_state_pure states (v v' : World K (Sponge A)) o : in_state states v = (v', o) -> v' = v.
Proof. unfold in_state, SpongeSocket.tcp, mbind, ste_bind. destruct (SpongeSocket._tcp _); by intros [= <- <-]. Qed.

Lemma opening_ok states p :
  process_ok p -> main_thread p = Opening states ->
  process_ok (opening_step h states p) /\ read_so_far p `prefix_of` read_so_far (opening_step h states p).
Proof.
  intros Hp Em. pose proof Hp as [Hn Hse Hlo Hop Hma]. pose proof (Hop _ Em) as Et.
  destruct (Hlo ltac:(by rewrite Et)) as (L1 & L2 & L3). pose proof Hma as Hmo. rewrite Em in Hmo.
  unfold opening_step. destruct (in_state states (socket_view (memory p))) as [v o] eqn:E.
  apply in_state_pure in E as ->. destruct o as [[]|e].
  - destruct (tcp_iteration _ _ _ _) as [[v rules] o] eqn:E.
    eapply iteration_ok in E as (I1 & I2 & I3 & I4 & I5 & I6); [|done..]. pose proof (inv_settled _ I3) as Hs.
    rewrite Em in I2. destruct o as [[t|]|e]; (split; [|exact I6]); split; cbn [memory _tcp_thread main_thread _eventloop launch];
      try done; try (rewrite Em; exact I2); try (by eapply main_moved).
  - rewrite with_view. split; [|done]. split; cbn [memory _tcp_thread main_thread _eventloop launch]; try done.
  - rewrite with_view. destruct (main_moves p (memory p) (Exited EXIT_FAILURE)) as [J _]; try done; [apply Hn|].
    by eapply main_moved.
Qed.

(** [bidirectional_stream_copy] opens the terminal under new descriptors. *)
Lemma open_terminal_spec (v : World K StreamCopy.Copy) :
  exists a b v', open_terminal v = (v', Ok (a, b)) /\ kernel v' = kernel v /\ app v' = StreamCopy.initial_copy /\
    fd_num v' a = STDIN /\ fd_num v' b = STDOUT /\ forall g, fd_num v g <> 0 -> wrapper v' g = wrapper v g.
Proof.
  assert (forall m (v : World K StreamCopy.Copy), 0 <= m -> exists l v', new_fd m v = (v', Ok l) /\ kernel v' = kernel v /\
    app v' = app v /\ fd_num v' l = m /\ fd_num v l = 0 /\ ((l ∉ dom (wrappers v)) /\ l ∈ dom (wrappers v')) /\
    forall g, g <> l -> wrapper v' g = wrapper v g) as Hnew.
  { intros m v0 Hm. unfold new_fd. destruct (Z.ltb_spec m 0); [lia|]. eexists _, _. split; [done|]. do 2 (split; [done|]).
    unfold fd_num, wrapper. cbn [wrappers]. split; [by rewrite lookup_total_insert_eq|].
    split; [by rewrite lookup_total_alt, (proj1 (not_elem_of_dom _ _)) by apply is_fresh|].
    split; [split; [apply is_fresh|rewrite dom_insert; set_solver]|]. intros g Hg. by rewrite lookup_total_insert_ne. }
  unfold open_terminal, mbind, ste_bind. cbn [modify]. set (v0 := set_app (fun _ => StreamCopy.initial_copy) v).
  destruct (Hnew STDIN v0) as (a & v1 & -> & K1 & A1 & F1 & Z1 & D1 & W1); [done|].
  destruct (Hnew STDOUT v1) as (b & v2 & -> & K2 & A2 & F2 & Z2 & D2 & W2); [done|].
  exists a, b, v2. split; [done|]. rewrite K2, K1, A2, A1.
  split; [done|]. split; [done|]. split; [|split; [done|]].
  - unfold fd_num. rewrite W2; [exact F1|]. intros ->. by apply (proj1 D2), D1.
  - intros g Hg. change (fd_num v0 g <> 0) in Hg. assert (g <> a) as Hgi by (intros ->; congruence).
    change (wrapper v g) with (wrapper v0 g). rewrite <- (W1 g Hgi). apply W2. intros ->. apply Hg.
    unfold fd_num in *. by rewrite <- (W1 _ Hgi).
Qed.
Lemma release_touches L _input _output rules (v : World K StreamCopy.Copy) :
  _input ∈ L -> _output ∈ L -> touches L v (StreamCopy.release _input _output rules v).
Proof.
  intros Hi1 Ho1. unfold StreamCopy.release.
  assert (forall fd (v : World K StreamCopy.Copy), fd ∈ L -> touches L v (fst (FileDescriptor.destroy fd v))) as Hd.
  { intros fd v0 Hfd. destruct (FileDescriptor.destroy fd v0) as [v1 o] eqn:E. by eapply confined_destroy. }
  assert (forall v1, touches L v v1 -> touches L v (fold_left (fun v0 r =>
    if bool_decide (rfd r = _input) || bool_decide (rfd r = _output) then fst (FileDescriptor.destroy (rfd r) v0) else v0) rules v1)) as Hf.
  { induction rules as [|r rules IH]; intros v1 Hv1; [done|]. cbn [fold_left]. apply IH.
    destruct (bool_decide (rfd r = _input)) eqn:E1; [apply bool_decide_eq_true in E1; etrans; [exact Hv1|apply Hd; by rewrite E1]|].
    destruct (bool_decide (rfd r = _output)) eqn:E2; [apply bool_decide_eq_true in E2; etrans; [exact Hv1|apply Hd; by rewrite E2]|].
    done. }
  apply Hf. destruct (existsb _ _), (existsb _ _); try reflexivity; try (by apply Hd). etrans; by apply Hd.
Qed.

(** The three descriptors of the copy. *)
Lemma copied_numbers _input _output w l :
  copied _input _output (copy_view w) -> l ∈ [owner h; _input; _output] -> fd_num w l ∈ terminal.
Proof.
  intros [C1 C2 C3 _ _] Hl. unfold terminal. change (fd_num (copy_view w) l ∈ [STDIN; STDOUT; on]).
  apply elem_of_cons in Hl as [->|Hl]; [rewrite C3; set_solver|].
  apply elem_of_cons in Hl as [->|Hl]; [rewrite C1; set_solver|]. apply list_elem_of_singleton in Hl as ->. rewrite C2. set_solver.
Qed.

(** A step of the copy, in the memory of the process. *)
Lemma copy_undisturbed _input _output w (v : World K StreamCopy.Copy) :
  numbered w -> copied _input _output (copy_view w) -> touches [owner h; _input; _output] (copy_view w) v ->
  undisturbed [] (socket_view w) (socket_view (with_copy w v)) /\ fd_num (with_copy w v) (owner h) = on.
Proof.
  intros Hn Hc Ht. split.
  - eapply (touches_undisturbed _ w (copy_view w) v); [done| |done|done|exact Ht|done].
    intros l. by apply (copied_numbers _ _ _ _ Hc).
  - destruct Hn as (N1 & _). rewrite <- N1. exact (ev_fd _ _ (to_evolves _ _ _ Ht) (owner h)).
Qed.

Lemma abort_undisturbed w : undisturbed [] (socket_view w) (socket_view (set_app set_abort w)).
Proof. split; try done. by left. Qed.

(** After the copy, however it ended. *)
Lemma unwind_ok p w :
  process_ok p -> undisturbed [] (socket_view (memory p)) (socket_view w) -> fd_num w (owner h) = on -> moved (kernel w) ->
  process_ok (unwind p w) /\ read_so_far (unwind p w) = read_so_far p.
Proof. intros Hp Hu Ho Hm. by apply main_moves. Qed.

Lemma undisturbed_numbered w w' :
  numbered w -> undisturbed [] (socket_view w) (socket_view w') -> fd_num w' (owner h) = on -> numbered w'.
Proof.
  intros (N1 & N2 & N3) Hu Ho. destruct (SpongeSocket.un_fd _ _ _ _ _ _ _ Hu) as [U1 U2].
  split; [done|]. split; [exact (eq_trans U1 N2)|exact (eq_trans U2 N3)].
Qed.

Lemma moved_unchanged k k' : unchanged k k' -> moved k -> moved k'.
Proof. intros (Hr & Hw & _). unfold moved, bytes_in, bytes_out. by rewrite !Hr, !Hw. Qed.

Lemma owner_terminal : on ∈ terminal.
Proof. unfold terminal. set_solver. Qed.

(** A shutdown of the owner's end, by either thread. *)
Lemma shutdown_undisturbed w (v : World K (Sponge A)) how o :
  numbered w -> shutdown (owner h) how (socket_view w) = (v, o) ->
  undisturbed [] (socket_view w) (socket_view (with_socket w v)) /\ fd_num (with_socket w v) (owner h) = on /\
  unchanged (kernel w) (kernel v) /\ app v = sponge (app w) /\ forall l, fd_num (with_socket w v) l = fd_num w l.
Proof.
  intros Hn E. assert (touches [owner h] (socket_view w) v) as Ht by (eapply confined_shutdown; [|exact E]; set_solver).
  apply shutdown_spec in E as (Hu & Ha & _ & _). pose proof (to_evolves _ _ _ Ht) as Hev.
  assert (forall l, fd_num (with_socket w v) l = fd_num w l) as Hfd by (intros l; exact (ev_fd _ _ Hev l)).
  split; [|split; [rewrite Hfd; apply Hn|split_and!; try done]].
  apply (touches_undisturbed [owner h] w (socket_view w) v); try done.
  intros l ->%list_elem_of_singleton. rewrite (proj1 Hn). apply owner_terminal.
Qed.

Lemma closing_ok p w :
  process_ok p -> undisturbed [] (socket_view (memory p)) (socket_view w) -> fd_num w (owner h) = on -> moved (kernel w) ->
  process_ok (closing h p w) /\ read_so_far (closing h p w) = read_so_far p.
Proof.
  intros Hp Hu Ho Hm. unfold closing, SpongeSocket.wait_until_closed.
  destruct (shutdown (owner h) SHUT_RDWR (socket_view w)) as [v o] eqn:E.
  apply shutdown_undisturbed in E as (U1 & U2 & U3 & _); [|eapply undisturbed_numbered; [apply Hp|done..]].
  assert (undisturbed [] (socket_view (memory p)) (socket_view (with_socket w v))) as U by by etrans.
  pose proof (moved_unchanged _ _ U3 Hm) as Hm'.
  destruct o as [[]|e]; [by apply main_moves|by apply unwind_ok].
Qed.

Lemma copied_fresh _input _output (v : World K StreamCopy.Copy) :
  fd_num v _input = STDIN -> fd_num v _output = STDOUT -> fd_num v (owner h) = on -> app v = StreamCopy.initial_copy ->
  untouched (kernel v) -> copied _input _output v.
Proof.
  intros H1 H2 H3 Ha Hu.
  assert (wf (ByteStream.new StreamCopy.buffer_size_limit)) as Hwf by (apply new_wf; unfold StreamCopy.buffer_size_limit; lia).
  assert (forall f, f = STDIN \/ f = STDOUT \/ f = on -> bytes_in (kernel v) f = [] /\ bytes_out (kernel v) f = []) as Hu'
    by (intros f Hf; apply Hu; unfold terminal; rewrite !elem_of_cons; tauto).
  split; try done; rewrite Ha; (split; [done|]; split; [done|]; exists []; split; apply Hu'; tauto).
Qed.

Lemma view_with w (v : World K StreamCopy.Copy) : copy_view (with_copy w v) = v.
Proof. by destruct v. Qed.

(** The copy has ended: its descriptors are released. *)
Lemma released _input _output rules w :
  numbered w -> copied _input _output (copy_view w) ->
  let w' := with_copy w (StreamCopy.release _input _output rules (copy_view w)) in
  undisturbed [] (socket_view w) (socket_view w') /\ fd_num w' (owner h) = on /\ moved (kernel w').
Proof.
  intros Hn Hc w'. destruct (copy_undisturbed _input _output w (StreamCopy.release _input _output rules (copy_view w)))
    as [U1 U2]; [done..|apply release_touches; set_solver|]. split; [done|]. split; [done|].
  apply (copied_moved _input _output). unfold w'. rewrite view_with.
  eapply StreamCopy.conserved_unchanged; [apply StreamCopy.release_quietly|done].
Qed.

Lemma entering_ok p :
  process_ok p -> main_thread p = Entering ->
  process_ok (entering_step h p) /\ read_so_far (entering_step h p) = read_so_far p.
Proof.
  intros Hp Em. pose proof Hp as [Hn _ _ _ Hma]. rewrite Em in Hma. cbn [main_ok] in Hma.
  unfold entering_step. set (w := memory p) in *.
  destruct (open_terminal_spec (copy_view w)) as (fi & fo & v1 & -> & K1 & A1 & F1 & F2 & W1).
  destruct (ap_owner Hap) as [O1 O2]. destruct (ap_disjoint Hap) as [D1 D2]. pose proof Hn as (N1 & N2 & N3).
  assert (forall g m, fd_num w g = m -> (m = on \/ m ∉ terminal) -> wrapper v1 g = wrapper (copy_view w) g) as Wg.
  { intros g m Hg Hm. apply W1. change (fd_num w g <> 0). rewrite Hg. destruct Hm as [->|Hm]; [exact O1|].
    intros ->. apply Hm, elem_of_cons. by left. }
  pose proof (Wg (owner h) on N1 (or_introl eq_refl)) as Wo. pose proof (Wg td tdn N2 (or_intror D1)) as Wt.
  pose proof (Wg dev devn N3 (or_intror D2)) as Wd.
  set (w1 := with_copy w v1). assert (copy_view w1 = v1) as Ev by apply view_with.
  assert (undisturbed [] (socket_view w) (socket_view w1)) as U1.
  { unfold w1, with_copy. split; unfold fd_num, FileDescriptor.eof, FileDescriptor.closed;
      change (wrapper (socket_view (mkWorld (kernel v1) (wrappers v1) (mkApp (sponge (app w)) (app v1))))) with (wrapper v1);
      change (wrapper (socket_view w)) with (wrapper (copy_view w)); rewrite ?Wt, ?Wd; try done;
      cbn [socket_view kernel]; rewrite K1; try done. by left. }
  assert (fd_num w1 (owner h) = on) as U2 by (rewrite <- N1; unfold fd_num; by f_equal).
  assert (copied fi fo (copy_view w1)) as Hc by (rewrite Ev; apply copied_fresh; [exact F1|exact F2|exact U2|exact A1|rewrite K1; exact Hma]).
  assert (numbered w1) as Hn1 by by eapply undisturbed_numbered.
  destruct (StreamCopy.set_nonblocking (owner h) fi fo v1) as [v2 o2] eqn:E2.
  assert (touches [owner h; fi; fo] v1 v2) as Ht.
  { revert E2. apply (confined_bind [owner h; fi; fo]); [apply confined_set_blocking|]. intros _.
    apply confined_bind; [apply confined_set_blocking|]. intros _. apply confined_set_blocking. }
  rewrite <- Ev in Ht. destruct (copy_undisturbed fi fo w1 v2 Hn1 Hc Ht) as [U3 U4].
  apply StreamCopy.quiet_nonblocking in E2. rewrite <- Ev in E2.
  apply (StreamCopy.conserved_unchanged _ _ _ _ _ _ _ _ E2) in Hc as Hc2.
  change (with_copy w1 v2) with (with_copy w v2) in *. set (w2 := with_copy w v2) in *.
  rewrite <- (view_with w v2) in Hc2. fold w2 in Hc2. assert (numbered w2) as Hn2 by by eapply undisturbed_numbered.
  assert (undisturbed [] (socket_view w) (socket_view w2)) as U by by etrans.
  destruct o2 as [[]|e].
  - apply main_moves; try done. cbn [main_ok]. split; [done|].
    split; [apply StreamCopy.copy_rules_ok; apply Hap|apply StreamCopy.confined_copy_rules].
  - destruct (released fi fo [] w2 Hn2 Hc2) as (R1 & R2 & R3). unfold w2 in R1, R2, R3. rewrite view_with in R1, R2, R3.
    apply unwind_ok; try done. etrans; [exact U|exact R1].
Qed.
Lemma copying_ok p _input _output rules :
  process_ok p -> main_thread p = Copying _input _output rules ->
  process_ok (copying_step h _input _output rules p) /\
  read_so_far (copying_step h _input _output rules p) = read_so_far p.
Proof.
  intros Hp Em. pose proof Hp as [Hn _ _ _ Hma]. rewrite Em in Hma. destruct Hma as (Hc & Hr & Hrc).
  unfold copying_step. set (w := memory p) in *.
  destruct (wait_next_event (-1) rules (copy_view w)) as [[v rules'] o] eqn:E.
  apply (confined_wait [owner h; _input; _output]) in E as Hcw; [|done]. destruct Hcw as [Ht Hrc'].
  destruct (copy_undisturbed _input _output w v Hn Hc Ht) as [U1 U2].
  destruct (wait_next_event_keeps (copied _input _output) (-1) rules (copy_view w) v rules' o) as (Hv & _ & Hsub); try done.
  { intros w0 k Hw0 Hu. eapply StreamCopy.conserved_unchanged; [|exact Hw0]. by split. }
  set (w1 := with_copy w v) in *. rewrite <- (view_with w v) in Hv. fold w1 in Hv.
  assert (numbered w1) as Hn1 by by eapply undisturbed_numbered.
  destruct (released _input _output rules' w1 Hn1 Hv) as (R1 & R2 & R3).
  unfold w1 in R1, R2, R3. rewrite view_with in R1, R2, R3.
  assert (undisturbed [] (socket_view w) (socket_view (with_copy w (StreamCopy.release _input _output rules' v)))) as U
    by (etrans; [exact U1|exact R1]).
  destruct o as [r|e]; [|by apply unwind_ok]. destruct (bool_decide (r = Exit)); [by apply closing_ok|].
  apply main_moves; try done. cbn [main_ok]. split; [done|]. split; [by eapply sublist_Forall|done].
Qed.

Lemma main_step_ok p :
  process_ok p -> process_ok (main_step h p) /\ read_so_far p `prefix_of` read_so_far (main_step h p).
Proof.
  intros Hp. unfold main_step. destruct (main_thread p) as [states| |fi fo rules| |status|status|] eqn:Em; try (by split).
  - by apply opening_ok.
  - destruct (entering_ok p Hp Em) as [? ->]. by split.
  - destruct (copying_ok p fi fo rules Hp Em) as [? ->]. by split.
  - destruct (main_moves p (set_app set_abort (memory p)) (Joining EXIT_FAILURE)) as [Hp' E]; try done.
    + apply abort_undisturbed.
    + apply Hp.
    + pose proof (po_main _ Hp) as Hm. rewrite Em in Hm. exact Hm.
  - destruct (_tcp_thread p) eqn:Et; try (by split). destruct (main_moves p (memory p) (Exited status)) as [Hp' _]; try done.
    + apply Hp.
    + pose proof (po_main _ Hp) as Hm. rewrite Em in Hm. exact Hm.
Qed.

(** *** The steps of the connection's thread *)

Lemma starting_ok p :
  process_ok p -> _tcp_thread p = Starting ->
  process_ok (starting_step p) /\ read_so_far p `prefix_of` read_so_far (starting_step p).
Proof.
  intros Hp Et. pose proof Hp as [Hn Hse Hlo Hop Hma]. destruct (Hlo ltac:(by rewrite Et)) as (L1 & L2 & L3).
  unfold starting_step. destruct (SpongeSocket._tcp _) as [conn|].
  - destruct (sys_clock (kernel (memory p))) as [k t] eqn:E. apply clock_law in E. set (w := memory p) in *.
    set (w' := mkWorld k (wrappers w) (app w)).
    assert (socket_inv (socket_view w')) as Hi.
    { apply (SpongeSocket.inv_kernel Sf S' cfg i i' td dev tdn devn (ap_thread Hap) (socket_view w) k L1 E). }
    cbn [memory]. split; [|unfold bytes_in; cbn [kernel]; by rewrite (proj1 E)].
    split; cbn [memory _tcp_thread main_thread _eventloop]; try done.
    + by apply (inv_settled w').
    + intros states Es. specialize (Hop _ Es). congruence.
    + apply (main_frame w); try done. intros f _. split; apply E.
  - split; [|done]. split; cbn [memory _tcp_thread main_thread _eventloop abort]; try done. by eapply main_moved.
Qed.

Lemma abort_ok p w rules :
  numbered w -> main_ok w (main_thread p) -> socket_inv (socket_view w) -> Forall (rule_ok socket_inv) rules ->
  Forall (rule_confined [td; dev]) rules -> process_ok (abort p w rules).
Proof.
  intros Hn Hm Hi Hr Hrc. split; cbn [memory _tcp_thread main_thread _eventloop abort]; try done.
  - by apply inv_settled.
  - by eapply main_moved.
Qed.

Lemma finishing_ok p w rules :
  numbered w -> main_ok w (main_thread p) -> socket_inv (socket_view w) -> Forall (rule_ok socket_inv) rules ->
  Forall (rule_confined [td; dev]) rules -> (forall states, main_thread p <> Opening states) ->
  process_ok (finishing h p w rules) /\ read_so_far (finishing h p w rules) = bytes_in (kernel w) tdn.
Proof.
  intros Hn Hm Hi Hr Hrc Hno. unfold finishing, SpongeSocket.finish, mbind, ste_bind.
  destruct (shutdown (owner h) SHUT_RDWR (socket_view w)) as [v o] eqn:E.
  apply shutdown_undisturbed in E as (U1 & U2 & U3 & U4 & U5); [|done].
  assert (main_ok (with_socket w v) (main_thread p)) as Hm'
    by (apply (main_frame w); try done; intros f _; split; apply U3).
  assert (bytes_in (kernel v) tdn = bytes_in (kernel w) tdn) as Er by (unfold bytes_in; by rewrite (proj1 U3)).
  destruct o as [[]|e].
  - cbn [modify]. split; [|exact Er]. split; cbn [memory _tcp_thread main_thread _eventloop]; try done.
    + by apply (undisturbed_numbered w (with_socket w v)).
    + apply (settled_frame w (with_socket w v)); [done|by apply inv_settled].
    + intros states Es. by destruct (Hno states).
  - split; [|exact Er]. apply abort_ok; try done; [by apply (undisturbed_numbered w (with_socket w v))|].
    eapply SpongeSocket.undisturbed_inv; [..|exact U1|exact Hi]. constructor.
Qed.

Lemma running_ok p :
  process_ok p -> _tcp_thread p = Running ->
  process_ok (running_step h p) /\ read_so_far p `prefix_of` read_so_far (running_step h p).
Proof.
  intros Hp Et. pose proof Hp as [Hn Hse Hlo Hop Hma]. destruct (Hlo ltac:(by rewrite Et)) as (L1 & L2 & L3).
  assert (forall states, main_thread p <> Opening states) as Hno by (intros states Es; specialize (Hop _ Es); congruence).
  unfold running_step. destruct (tcp_iteration _ _ _ _) as [[v rules] o] eqn:E.
  eapply iteration_ok in E as (I1 & I2 & I3 & I4 & I5 & I6); [|done..].
  destruct o as [[t|]|e].
  - split; [|exact I6]. split; cbn [memory _tcp_thread main_thread _eventloop]; try done.
    + by apply inv_settled.
    + intros states Es. by destruct (Hno states).
  - destruct (finishing_ok p (with_socket (memory p) v) rules) as [? ->]; try done.
  - split; [by apply abort_ok|exact I6].
Qed.

Lemma thread_step_ok p :
  process_ok p -> process_ok (thread_step h p) /\ read_so_far p `prefix_of` read_so_far (thread_step h p).
Proof.
  intros Hp. unfold thread_step. destruct (main_thread p), (_tcp_thread p) eqn:Et; try (by split);
    try (by apply starting_ok); by apply running_ok.
Qed.
(** *** The network, and the beginning *)

(** Datagrams are lost, or arrive of those that were [sent]. *)
Definition arrives (sent : list (list byte)) p p' : Prop :=
  exists k, p' = mkProcess (mkWorld k (wrappers (memory p)) (app (memory p))) (_eventloop p) (base_time p)
                   (_tcp_thread p) (main_thread p) /\
  (forall f, reads k f = reads (kernel (memory p)) f) /\ (forall f, writes k f = writes (kernel (memory p)) f) /\
  (forall f, stream_of k f = stream_of (kernel (memory p)) f) /\
  (forall d, network k devn d -> network (kernel (memory p)) devn d \/ d ∈ sent).

Lemma arrives_ok sent p p' :
  Forall (WireReady.datagram_of S' i') sent -> arrives sent p p' -> process_ok p ->
  process_ok p' /\ read_so_far p' = read_so_far p.
Proof.
  intros Hsent (k & -> & Hr & Hw & Hs & Hnet) [Hn [S1 S2 S3] Hlo Hop Hma]. split; [|unfold bytes_in; cbn; by rewrite Hr].
  split; cbn [memory _tcp_thread main_thread _eventloop]; try done.
  - split; unfold bytes_in, bytes_out in *; cbn [kernel]; rewrite ?Hr, ?Hw; done.
  - intros Hf. destruct (Hlo Hf) as (L1 & L2 & L3). split; [|done]. cbn [memory].
    eapply SpongeSocket.undisturbed_inv; [exact Hsent| |exact L1]. by split.
  - by apply (main_frame (memory p)).
Qed.

(** A process whose owner will write [Sf], at the loop of [connect] or
    [listen_and_accept]: its socket is new, and nothing has been copied. *)
Definition begun p : Prop :=
  exists (v : World K (Sponge A)) listening random ad, SpongeSocket.fresh_socket td dev tdn devn Sf v /\ SpongeSocket.config_valid ad /\
    fd_num v (owner h) = on /\ untouched (kernel v) /\ start_process h listening cfg random ad v = Some p.

Lemma begun_process_ok p : begun p -> process_ok p /\ read_so_far p = [].
Proof.
  intros (w & listening & random & ad & Hw & Had & Ho & Hu & E). unfold start_process in E.
  destruct (if listening then _ else _) as [w1 [rs|e]] eqn:E1; [|done].
  assert (SpongeSocket.connect_start td dev cfg random ad w = (w1, Ok rs) \/
          SpongeSocket.listen_start td dev cfg random ad w = (w1, Ok rs)) as Est by (destruct listening; auto).
  pose proof (SpongeSocket.start_same _ _ _ _ _ _ _ _ Est) as (Ek & Ew & ->).
  destruct (SpongeSocket.started_ok td dev tdn devn Sf S' cfg i i' Hsup HS' Hi' (ap_thread Hap) (ap_device Hap)
    w random ad w1 _ 0 Hw Had Est) as [Hinv Hrules].
  destruct (sys_clock (kernel w1)) as [k t] eqn:Ec. apply clock_law in Ec. injection E as <-.
  apply (SpongeSocket.inv_kernel Sf S' cfg i i' td dev tdn devn (ap_thread Hap) _ k) in Hinv as Hi; [|exact Ec].
  set (w2 := mkWorld k (wrappers w1) (mkApp (app w1) StreamCopy.initial_copy)).
  assert (socket_inv (socket_view w2)) as Hi2 by exact Hi. split.
  - split; cbn [memory _tcp_thread main_thread _eventloop]; try done.
    + destruct Hw as [F1 F2 _ _ _ _ _]. unfold numbered, fd_num, wrapper, w2 in *. cbn [wrappers]. rewrite Ew. split; [exact Ho|by split].
    + by apply (inv_settled w2).
    + intros _. split; [exact Hi2|]. split; [exact Hrules|by apply SpongeSocket.confined_rules].
    + cbn [main_ok]. intros f Hf. cbn [kernel]. unfold bytes_in, bytes_out. rewrite (proj1 Ec), (proj1 (proj2 Ec)), Ek. by apply Hu.
  - unfold bytes_in. cbn. rewrite (proj1 Ec), Ek, (SpongeSocket.fs_reads _ _ _ _ _ _ Hw). done.
Qed.
End OneProcess.

(** ** Two processes *)

Section TwoProcesses.
Context {K : Type} {HK : Kernel K} {HO : Observe K} {HL : KernelLaws K} {HSK : SocketKernel K}.
Context {Al Ar : Type} {Hfl : FdAdapter.FdAdapter Al (list byte) BufferList} {Hol : FdAdapter.OverTun Al}.
Context {Hfr : FdAdapter.FdAdapter Ar (list byte) BufferList} {Hor : FdAdapter.OverTun Ar}.
Context (hl hr : Handles) (nl nr : Numbers) (Hapl : apart nl) (Hapr : apart nr).
Abbreviation System := (Process K Al * Process K Ar)%type.

Definition sent {A} (n : Numbers) (p : Process K A) : list (list byte) := writes (kernel (memory p)) (n_device n).
Definition from_owner {A} (n : Numbers) (p : Process K A) : list byte := bytes_in (kernel (memory p)) (n_thread n).
Definition to_owner {A} (n : Numbers) (p : Process K A) : list byte := bytes_out (kernel (memory p)) (n_thread n).

(** The threads of both run in any order, and the network delivers. *)
Inductive step : System -> System -> Prop :=
  | left_main l r : step (l, r) (main_step hl l, r)
  | left_thread l r : step (l, r) (thread_step hl l, r)
  | left_network l l' r : arrives nl (sent nr r) l l' -> step (l, r) (l', r)
  | right_main l r : step (l, r) (l, main_step hr r)
  | right_thread l r : step (l, r) (l, thread_step hr r)
  | right_network l r r' : arrives nr (sent nl l) r r' -> step (l, r) (l, r').

(** A socket pair is a pair of pipes: what one end has read was written at the other. *)
Definition joined (n : Numbers) (k : K) : Prop :=
  bytes_in k (n_owner n) `prefix_of` bytes_out k (n_thread n) /\
  bytes_in k (n_thread n) `prefix_of` bytes_out k (n_owner n).

Definition given {A} (p : Process K A) : list byte := bytes_in (kernel (memory p)) STDIN.
Definition printed {A} (p : Process K A) : list byte := bytes_out (kernel (memory p)) STDOUT.

Context (Sl Sr : list byte) (cl cr : TCPConfig) (il ir : WrappingInt32).
Context (Hl : SpongeSocket.supported Sl cl il) (Hr : SpongeSocket.supported Sr cr ir).

(** As for two sockets: each process keeps its invariant for everything the
    other may have read. *)
Record system_ok (s : System) : Prop := {
  sys_left_read : from_owner nl (fst s) `prefix_of` Sl;
  sys_right_read : from_owner nr (snd s) `prefix_of` Sr;
  sys_left : forall T, from_owner nr (snd s) `prefix_of` T -> T `prefix_of` Sr ->
    process_ok hl nl Sl T cl il ir (fst s);
  sys_right : forall T, from_owner nl (fst s) `prefix_of` T -> T `prefix_of` Sl ->
    process_ok hr nr Sr T cr ir il (snd s)
}.

Lemma left_moves l l' r :
  system_ok (l, r) -> from_owner nl l `prefix_of` from_owner nl l' ->
  (forall T, from_owner nr r `prefix_of` T -> T `prefix_of` Sr -> process_ok hl nl Sl T cl il ir l') -> system_ok (l', r).
Proof.
  intros [H1 H2 H3 H4] Hgrow Hok. cbn [fst snd] in *. split; cbn [fst snd]; [|done|done|].
  - apply (se_read _ _ _ _ _ (po_settled _ _ _ _ _ _ _ _ (Hok Sr H2 (reflexivity _)))).
  - intros T HT1 HT2. apply H4; [by etrans|done].
Qed.

Lemma right_moves l r r' :
  system_ok (l, r) -> from_owner nr r `prefix_of` from_owner nr r' ->
  (forall T, from_owner nl l `prefix_of` T -> T `prefix_of` Sl -> process_ok hr nr Sr T cr ir il r') -> system_ok (l, r').
Proof.
  intros [H1 H2 H3 H4] Hgrow Hok. cbn [fst snd] in *. split; cbn [fst snd]; [done| | |done].
  - apply (se_read _ _ _ _ _ (po_settled _ _ _ _ _ _ _ _ (Hok Sl H1 (reflexivity _)))).
  - intros T HT1 HT2. apply H3; [by etrans|done].
Qed.

Lemma step_ok s s' : step s s' -> system_ok s -> system_ok s'.
Proof.
  pose proof Hl as [HSl _ Vil _ _]. pose proof Hr as [HSr _ Vir _ _].
  intros Hs Hok. pose proof Hok as [H1 H2 H3 H4].
  destruct Hs as [l r|l r|l l' r Ha|l r|l r|l r r' Ha]; cbn [fst snd] in *.
  - eapply left_moves; [done|apply (main_step_ok hl nl Hapl Sl Sr cl il ir Hl HSr Vir l), H3; done|].
    intros T HT1 HT2. apply main_step_ok; [done|done|exact (SpongeSocket.part_len Sr T _ HSr HT2)|done|by apply H3].
  - eapply left_moves; [done|apply (thread_step_ok hl nl Hapl Sl Sr cl il ir Hl HSr Vir l), H3; done|].
    intros T HT1 HT2. apply thread_step_ok; [done|done|exact (SpongeSocket.part_len Sr T _ HSr HT2)|done|by apply H3].
  - assert (forall T, from_owner nr r `prefix_of` T -> T `prefix_of` Sr ->
      process_ok hl nl Sl T cl il ir l' /\ from_owner nl l' = from_owner nl l) as Hl'.
    { intros T HT1 HT2. eapply arrives_ok; [|exact Ha|by apply H3].
      apply (se_sent _ _ _ _ _ (po_settled _ _ _ _ _ _ _ _ (H4 Sl H1 (reflexivity _)))); done. }
    eapply left_moves; [done| |by apply Hl']. destruct (Hl' Sr H2 (reflexivity _)) as [_ ->]. done.
  - eapply right_moves; [done|apply (main_step_ok hr nr Hapr Sr Sl cr ir il Hr HSl Vil r), H4; done|].
    intros T HT1 HT2. apply main_step_ok; [done|done|exact (SpongeSocket.part_len Sl T _ HSl HT2)|done|by apply H4].
  - eapply right_moves; [done|apply (thread_step_ok hr nr Hapr Sr Sl cr ir il Hr HSl Vil r), H4; done|].
    intros T HT1 HT2. apply thread_step_ok; [done|done|exact (SpongeSocket.part_len Sl T _ HSl HT2)|done|by apply H4].
  - assert (forall T, from_owner nl l `prefix_of` T -> T `prefix_of` Sl ->
      process_ok hr nr Sr T cr ir il r' /\ from_owner nr r' = from_owner nr r) as Hr'.
    { intros T HT1 HT2. eapply arrives_ok; [|exact Ha|by apply H4].
      apply (se_sent _ _ _ _ _ (po_settled _ _ _ _ _ _ _ _ (H3 Sr H2 (reflexivity _)))); done. }
    eapply right_moves; [done| |by apply Hr']. destruct (Hr' Sl H1 (reflexivity _)) as [_ ->]. done.
Qed.

Lemma processes_deliver l0 r0 l r :
  begun hl nl Sl cl l0 -> begun hr nr Sr cr r0 -> rtc step (l0, r0) (l, r) ->
  to_owner nr r `prefix_of` from_owner nl l /\ to_owner nl l `prefix_of` from_owner nr r /\
  moved nl (kernel (memory l)) /\ moved nr (kernel (memory r)).
Proof.
  intros Hl0 Hr0 Hrun. pose proof Hl as [HSl _ Vil _ _]. pose proof Hr as [HSr _ Vir _ _].
  assert (system_ok (l0, r0)) as H0.
  { destruct (begun_process_ok hl nl Hapl Sl Sr cl il ir Hl HSr Vir l0 Hl0) as [_ El].
    destruct (begun_process_ok hr nr Hapr Sr Sl cr ir il Hr HSl Vil r0 Hr0) as [_ Er].
    split; cbn [fst snd]; unfold from_owner; rewrite ?El, ?Er; try apply prefix_nil; intros T _ HT.
    - apply begun_process_ok; [done|done|exact (SpongeSocket.part_len Sr T _ HSr HT)|done|done].
    - apply begun_process_ok; [done|done|exact (SpongeSocket.part_len Sl T _ HSl HT)|done|done]. }
  assert (system_ok (l, r)) as [H1 H2 H3 H4].
  { revert H0. induction Hrun as [|s1 s2 s3 Hs _ IH]; [done|]. intros Hs1. apply IH. by eapply step_ok. }
  cbn [fst snd] in *. pose proof (H3 _ (reflexivity _) H2) as Pl. pose proof (H4 _ (reflexivity _) H1) as Pr.
  split_and!.
  - apply (se_out _ _ _ _ _ (po_settled _ _ _ _ _ _ _ _ Pr)).
  - apply (se_out _ _ _ _ _ (po_settled _ _ _ _ _ _ _ _ Pl)).
  - by eapply (main_moved hl), (po_main _ _ _ _ _ _ _ _ Pl).
  - by eapply (main_moved hr), (po_main _ _ _ _ _ _ _ _ Pr).
Qed.

(** C1. Reliable delivery from terminal to terminal.  Two processes, each with
    the two threads of a program like [tcp_ipv4] on one kernel and one table
    of descriptors, have begun to connect or to listen.  Whatever the order of
    the steps of the four threads, whatever each kernel decides (readiness,
    partial transfers, failures of calls, the clock), whatever the network
    between the devices loses, repeats or reorders, however each thread ends,
    and as long as the socket pair of each process is a pair of pipes: what
    one process has printed is a prefix of what the other was given. *)
Theorem programs_deliver l0 r0 l r :
  begun hl nl Sl cl l0 -> begun hr nr Sr cr r0 -> rtc step (l0, r0) (l, r) ->
  joined nl (kernel (memory l)) -> joined nr (kernel (memory r)) ->
  printed r `prefix_of` given l /\ printed l `prefix_of` given r.
Proof.
  intros Hl0 Hr0 Hrun [L1 L2] [R1 R2].
  destruct (processes_deliver l0 r0 l r Hl0 Hr0 Hrun) as (D1 & D2 & [M1 M2] & [M3 M4]). unfold printed, given.
  split; (etrans; [eassumption|]); (etrans; [eassumption|]); (etrans; [eassumption|]); (etrans; [eassumption|]); done.
Qed.
End TwoProcesses.

(** *** A run *)

Module Examples.
Definition h : Handles := mkHandles 0%nat 1%nat 2%nat.
Definition n : Numbers := mkNumbers 9 10 100.
Abbreviation LossyTun := (FdAdapter.LossyFdAdapter FdAdapter.FdAdapterBase).

(** A machine whose terminal gives [d] and whose socket pair will bring [e]. *)
Definition machine (d e : list byte) : World SimKernel (Sponge LossyTun) :=
  mkWorld (mkSimKernel (<[0 := mkSimfile [d] [] [] 0 0]> (<[1 := mkSimfile [] [] [] 10 0]>
      (<[9 := mkSimfile [e] [] [] 10 0]> (<[10 := mkSimfile [d] [] [] 10 0]> {[ 100 := mkSimfile [] [] [] 0 0 ]})))) 0)
    (<[0%nat := mkFDWrapper 9 false false 0 0]> (<[1%nat := mkFDWrapper 10 false false 0 0]>
      {[ 2%nat := mkFDWrapper 100 false false 0 0 ]}))
    (mkSponge (FdAdapter.mkLossyFdAdapter (FdAdapter.mkFdAdapterBase FdAdapter.default_config false) (fun k => if Nat.eqb k 1 then 0 else 60000) 0)
       None false false false false).

Definition stream : list byte := [x61; x62; x63; x64; x65].
Definition reply : list byte := [x79; x7a].
Definition cfg (isn : Z) : TCPConfig := mkTCPConfig 20 20 20 (Some (mkWrappingInt32 isn)).
Definition client_config : FdAdapter.FdAdapterConfig :=
  FdAdapter.mkFdAdapterConfig (mkAddress 167772161 4000) (mkAddress 167772162 80) 0 20000.
Definition server_config : FdAdapter.FdAdapterConfig := FdAdapter.mkFdAdapterConfig (mkAddress 0 80) (mkAddress 0 0) 0 0.

Definition client_start := start_process h false (cfg 4294967290) 0 client_config (machine stream reply).
Definition server_start := start_process h true (cfg 17) 0 server_config (machine reply stream).
Definition empty : Process SimKernel LossyTun :=
  mkProcess (mkWorld (mkSimKernel ∅ 0) ∅ (mkApp (app (machine [] [])) StreamCopy.initial_copy)) [] 0 NotStarted Aborted.
Definition client : Process SimKernel LossyTun := default empty client_start.
Definition server : Process SimKernel LossyTun := default empty server_start.

(** The network brings what it has not brought yet. *)
Definition deliver (from to : Process SimKernel LossyTun) : Process SimKernel LossyTun :=
  let w := memory to in
  let x := file (kernel w) 100 in
  mkProcess (mkWorld (set_file (kernel w) 100
      (mkSimfile (incoming x ++ drop (length (past_reads x) + length (incoming x)) (writes (kernel (memory from)) 100)) (past_reads x) (past_writes x) (quota x) (flags x)))
    (wrappers w) (app w)) (_eventloop to) (base_time to) (_tcp_thread to) (main_thread to).

Inductive act : Type := LeftMain | LeftThread | ToLeft | RightMain | RightThread | ToRight.
Definition play (s : Process SimKernel LossyTun * Process SimKernel LossyTun) (a : act) :=
  let '(l, r) := s in
  match a with
  | LeftMain => (main_step h l, r)
  | LeftThread => (thread_step h l, r)
  | ToLeft => (deliver r l, r)
  | RightMain => (l, main_step h r)
  | RightThread => (l, thread_step h r)
  | ToRight => (l, deliver l r)
  end.
Definition schedule : list act :=
  [LeftMain; ToRight; RightMain; RightMain; ToLeft; LeftMain; LeftMain; LeftMain; LeftMain; LeftMain; LeftThread; LeftThread;
   ToRight; RightMain; RightMain; RightMain; RightThread; RightThread; RightMain; RightMain; RightThread; ToLeft; LeftThread; LeftThread; LeftThread].
Definition final := fold_left play schedule (client, server).
End Examples.

Lemma delivery_arrives (from to : Process SimKernel Examples.LossyTun) :
  arrives Examples.n (sent Examples.n from) to (Examples.deliver from to).
Proof.
  exists (kernel (memory (Examples.deliver from to))). split; [done|].
  unfold Examples.deliver. cbn [memory kernel]. split; [|split; [|split]]; cbn [reads writes stream_of sim_observe].
  - intros f. rewrite file_set. by case_decide; subst.
  - intros f. rewrite file_set. by case_decide; subst.
  - intros f. rewrite file_set. case_decide; [by subst|done].
  - intros d [_ Hin]. cbn [n_device Examples.n] in Hin |- *. rewrite file_set, decide_True in Hin by done. cbn [incoming] in Hin.
    apply elem_of_app in Hin as [?|Hin]; [left; by split|right].
    rewrite <- (take_drop (length (past_reads (file (kernel (memory to)) 100)) + length (incoming (file (kernel (memory to)) 100)))).
    apply elem_of_app. by right.
Qed.

Lemma schedule_steps acts s : rtc (step Examples.h Examples.h Examples.n Examples.n) s (fold_left Examples.play acts s).
Proof.
  revert s. induction acts as [|a acts IH]; intros [l r]; [done|]. cbn [fold_left]. eapply rtc_l; [|apply IH].
  destruct a; cbn [Examples.play]; constructor; apply delivery_arrives.
Qed.

Lemma given_default {X} (d : X) (o : option X) : is_Some o -> o = Some (default d o).
Proof. by intros [x ->]. Qed.

Lemma example_apart : apart (K := SimKernel) Examples.n.
Proof. split; [done|done|by split|split; unfold terminal; cbn; rewrite !elem_of_cons, elem_of_nil; intuition discriminate]. Qed.

Lemma client_started :
  start_process Examples.h false (Examples.cfg 4294967290) 0 Examples.client_config (Examples.machine Examples.stream Examples.reply) =
  Some Examples.client.
Proof.
  unfold Examples.client, Examples.client_start. apply given_default.
  apply not_eq_None_Some. intros E. apply (f_equal (fun o => match o with Some _ => true | None => false end)) in E. vm_compute in E. discriminate.
Qed.

Lemma server_started :
  start_process Examples.h true (Examples.cfg 17) 0 Examples.server_config (Examples.machine Examples.reply Examples.stream) =
  Some Examples.server.
Proof.
  unfold Examples.server, Examples.server_start. apply given_default.
  apply not_eq_None_Some. intros E. apply (f_equal (fun o => match o with Some _ => true | None => false end)) in E. vm_compute in E. discriminate.
Qed.

Lemma example_begun (listening : bool) isn ad d e p :
  SpongeSocket.config_valid ad -> start_process Examples.h listening (Examples.cfg isn) 0 ad (Examples.machine d e) = Some p ->
  begun Examples.h Examples.n d (Examples.cfg isn) p.
Proof.
  intros Had E. exists (Examples.machine d e), listening, 0, ad. split_and!; try done.
  - split; try (vm_compute; repeat split; reflexivity); [exact (app_nil_r d)|].
    intros x [_ Hd]. vm_compute in Hd. by apply elem_of_nil in Hd.
  - intros f Hf. unfold terminal in Hf. rewrite !elem_of_cons, elem_of_nil in Hf.
    destruct Hf as [->|[->|[->|[]]]]; done.
Qed.

(** What the descriptors of both have seen at the end of the run. *)
Definition traffic (p : Process SimKernel Examples.LossyTun) : list (list byte * list byte) :=
  map (fun f => (bytes_in (kernel (memory p)) f, bytes_out (kernel (memory p)) f)) [0; 1; 9; 10]%Z.
Lemma final_traffic :
  (let '(l, r) := Examples.final in (traffic l, traffic r)) =
  ([(Examples.stream, []); ([], Examples.reply); (Examples.reply, Examples.stream); (Examples.stream, Examples.reply)],
   [(Examples.reply, []); ([], Examples.stream); (Examples.stream, Examples.reply); (Examples.reply, Examples.stream)]).
Proof. vm_compute. reflexivity. Qed.

(** The client's five bytes and the server's two are printed at the other end,
    although the second segment of the client is lost. *)
Lemma programs_deliver_witness :
  printed (snd Examples.final) = Examples.stream /\ printed (fst Examples.final) = Examples.reply /\
  printed (snd Examples.final) `prefix_of` given (fst Examples.final) /\
  printed (fst Examples.final) `prefix_of` given (snd Examples.final).
Proof.
  pose proof final_traffic as Ht. pose proof (schedule_steps Examples.schedule (Examples.client, Examples.server)) as Hrun.
  fold Examples.final in Hrun. destruct Examples.final as [l r]. cbn [fst snd]. injection Ht as L1 _ _ L2 L3 L4 L5 L6 R1 _ _ R2 R3 R4 R5 R6.
  split; [exact R2|]. split; [exact L2|].
  apply (programs_deliver (HO := sim_observe) Examples.h Examples.h Examples.n Examples.n example_apart example_apart
    Examples.stream Examples.reply (Examples.cfg 4294967290) (Examples.cfg 17) (mkWrappingInt32 4294967290) (mkWrappingInt32 17))
    with (l0 := Examples.client) (r0 := Examples.server).
  - split; (reflexivity || (split; (discriminate || reflexivity))).
  - split; (reflexivity || (split; (discriminate || reflexivity))).
  - apply (example_begun false _ Examples.client_config _ Examples.reply);
      [split; split; vm_compute; split; (reflexivity || discriminate)|exact client_started].
  - apply (example_begun true _ Examples.server_config _ Examples.stream);
      [split; split; vm_compute; split; (reflexivity || discriminate)|exact server_started].
  - exact Hrun.
  - split; cbn [n_owner n_thread Examples.n]; [rewrite L3, L6|rewrite L5, L4]; done.
  - split; cbn [n_owner n_thread Examples.n]; [rewrite R3, R6|rewrite R5, R4]; done.
Defined.
