(* ===== verification/Executions.v ===== *)
(** * The steps of a process and the functions of its threads

    The components model the functions a thread runs as functions with fuel
    ([StreamCopy.bidirectional_stream_copy], [SpongeSocket.connect],
    [listen_and_accept], [_tcp_main]); [Programs] cuts them into steps so that
    threads can interleave.  [steps_are_functions]: a thread that is not
    interrupted does by its steps exactly what the function does.

    [exit_joined]: a process never ends while the thread of its connection is
    running; it ends with status 0 only after that thread has ended its
    connection. *)
From stdpp Require Import base tactics list numbers option gmap.
From Stdlib Require Import ZArith Lia.
From S2P Require Import Prelude WrappingIntegers Buffer Address Kernel FileDescriptor Socket EventLoop.
From S2P Require Import TCPSender TCPConnection TCPState CommandLine Programs.
From S2P Require FdAdapter StreamCopy SpongeSocket.

Import SpongeSocket (AdapterIO, Sponge, tcp_iteration, in_state).

(** ** Without interruption *)

Section Uninterrupted.
Context {K A I O : Type} `{Kernel K} `{SocketKernel K} `{FdAdapter.FdAdapter A I O} `{AdapterIO K I O}.
Context (h : Handles).
Implicit Types (p : Process K A).

Lemma copy_view_with (w : World K (App A)) v : copy_view (with_copy w v) = v.
Proof. by destruct v. Qed.
Lemma with_copy_twice (w : World K (App A)) v v' : with_copy (with_copy w v) v' = with_copy w v'.
Proof. by destruct w as [? ? []]. Qed.
Lemma socket_view_with (w : World K (App A)) v : socket_view (with_socket w v) = v.
Proof. by destruct v. Qed.
Lemma with_socket_twice (w : World K (App A)) v v' : with_socket (with_socket w v) v' = with_socket w v'.
Proof. by destruct w as [? ? []]. Qed.

(** A step that has no effect has none however often it is taken. *)
Lemma iter_fixed {X} (f : X -> X) x k : f x = x -> Nat.iter k f x = x.
Proof. intros Hx. induction k as [|k IH]; [done|]. by rewrite Nat.iter_succ, IH. Qed.

(** [p] becomes [p'] within [fuel] steps of the main thread. *)
Definition within (fuel : nat) p p' : Prop := exists m, (m <= fuel)%nat /\ Nat.iter m (main_step h) p = p'.

Lemma within_step fuel p p' : within fuel (main_step h p) p' -> within (S fuel) p p'.
Proof. intros (m & Hm & E). exists (S m). split; [lia|]. by rewrite Nat.iter_succ_r. Qed.
Lemma within_next fuel p : within (S fuel) p (main_step h p).
Proof. exists 1%nat. split; [lia|done]. Qed.

(** The loop of the copy. *)
Lemma copying_iterates i o m p rules :
  main_thread p = Copying i o rules ->
  match StreamCopy.copy_loop m rules (copy_view (memory p)) with
  | (v, rules, Ok false) => Nat.iter m (main_step h) p = at_main p (with_copy (memory p) v) (Copying i o rules)
  | (v, rules, Ok true) => within m p (closing h p (with_copy (memory p) (StreamCopy.release i o rules v)))
  | (v, rules, Throw _) => within m p (unwind p (with_copy (memory p) (StreamCopy.release i o rules v)))
  end.
Proof.
  revert p rules. induction m as [|m IH]; intros p rules Hm.
  - destruct p as [[k ws [s c]] el b t mt]. cbn in Hm. by subst.
  - assert (main_step h p = copying_step h i o rules p) as Es by (unfold main_step; by rewrite Hm).
    pose proof (within_next m p) as Hn. rewrite Es in Hn. unfold copying_step in Es, Hn. cbn [StreamCopy.copy_loop].
    destruct (wait_next_event (-1) rules (copy_view (memory p))) as [[v rules'] [r|e]] eqn:E; [|done].
    destruct (bool_decide (r = Exit)); [done|]. specialize (IH (main_step h p) rules').
    rewrite Es in IH. cbn [at_main memory main_thread] in IH. rewrite copy_view_with in IH. specialize (IH eq_refl).
    rewrite <- Es in IH.
    destruct (StreamCopy.copy_loop m rules' v) as [[v2 rules2] [[]|e]]; [apply within_step| |apply within_step];
      [|rewrite Nat.iter_succ_r|]; rewrite Es in IH |- *; unfold closing, unwind, at_main in *;
      by rewrite with_copy_twice in IH.
Qed.

(** What [bidirectional_stream_copy] does in [fuel] iterations, the main thread
    does in as many steps and one more. *)
Definition has_copied (fuel : nat) p : Prop :=
  match StreamCopy.bidirectional_stream_copy fuel (owner h) (copy_view (memory p)) with
  | (v, Ok false) => exists i o rules, Nat.iter (S fuel) (main_step h) p = at_main p (with_copy (memory p) v) (Copying i o rules)
  | (v, Ok true) => within (S fuel) p (closing h p (with_copy (memory p) v))
  | (v, Throw _) => within (S fuel) p (unwind p (with_copy (memory p) v))
  end.

Lemma entering_iterates fuel p : main_thread p = Entering -> has_copied fuel p.
Proof.
  intros Hm. assert (main_step h p = entering_step h p) as Es by (unfold main_step; by rewrite Hm).
  pose proof (within_next fuel p) as Hn. rewrite Es in Hn.
  unfold has_copied, StreamCopy.bidirectional_stream_copy.
  unfold entering_step, open_terminal, mbind, ste_bind in *.
  destruct (modify _ _) as [v0 [[]|e0]]; [|done].
  destruct (new_fd StreamCopy.STDIN_FILENO v0) as [v1 [i|e1]]; [|done].
  destruct (new_fd StreamCopy.STDOUT_FILENO v1) as [v2 [o|e2]]; [|done].
  unfold mret, ste_ret, StreamCopy.copy_with in *.
  destruct (StreamCopy.set_nonblocking _ _ _ v2) as [v3 [[]|e3]]; [|done].
  pose proof (copying_iterates i o fuel (main_step h p) (StreamCopy.copy_rules (owner h) i o)) as Hc.
  rewrite Es in Hc. cbn [at_main memory main_thread] in Hc. rewrite copy_view_with in Hc. specialize (Hc eq_refl). rewrite <- Es in Hc.
  destruct (StreamCopy.copy_loop fuel _ v3) as [[v rules] [[]|e]]; [apply within_step| |apply within_step];
    [|exists i, o, rules; rewrite Nat.iter_succ_r|]; rewrite Es in Hc |- *; unfold closing, unwind, at_main in *;
    by rewrite with_copy_twice in Hc.
Qed.

(** The loop of the thread. *)
Lemma stopped_fixed p : main_thread p = Aborted \/ _tcp_thread p = Finished -> thread_step h p = p.
Proof. unfold thread_step. intros [->| ->]; [done|]. by destruct (main_thread p). Qed.

Definition alive p : Prop := match main_thread p with Exited _ | Aborted => False | _ => True end.
Lemma alive_step p : alive p -> _tcp_thread p = Running -> thread_step h p = running_step h p.
Proof. unfold alive, thread_step. intros Ha ->. by destruct (main_thread p). Qed.

Lemma finishing_fixed p w rules : thread_step h (finishing h p w rules) = finishing h p w rules.
Proof.
  apply stopped_fixed. unfold finishing. destruct (SpongeSocket.finish _ _) as [v [[]|e]]; [by right|by left].
Qed.

(** A process whose thread has had the [result] of a function. *)
Definition thread_did p (result : World K (Sponge A) * list (Rule K (Sponge A)) * outcome bool) p' : Prop :=
  match result with
  | (v, rules, Ok false) => exists t, p' = mkProcess (with_socket (memory p) v) rules t Running (main_thread p)
  | (v, rules, Ok true) => exists t, p' = mkProcess (with_socket (memory p) v) rules t Finished (main_thread p)
  | (v, rules, Throw _) => exists t s, p' = mkProcess (with_socket (memory p) v) rules t s Aborted
  end.

Lemma running_iterates m p :
  alive p -> _tcp_thread p = Running ->
  thread_did p (match SpongeSocket.loop_from (device h) m (mret true) (base_time p) (_eventloop p) (socket_view (memory p)) with
                | (w, rules, Ok true) =>
                    match SpongeSocket.finish (owner h) w with
                    | (w, Throw e) => (w, rules, Throw e)
                    | (w, Ok _) => (w, rules, Ok true)
                    end
                | res => res
                end) (Nat.iter m (thread_step h) p).
Proof.
  revert p. induction m as [|m IH]; intros p Ha Ht.
  - cbn. exists (base_time p). destruct p as [[k ws [s c]] el b t mt]. cbn in Ht. by subst.
  - rewrite Nat.iter_succ_r. cbn [SpongeSocket.loop_from]. unfold mret at 1, ste_ret at 1.
    rewrite (alive_step p Ha Ht). unfold running_step.
    destruct (tcp_iteration (device h) (base_time p) (_eventloop p) (socket_view (memory p))) as [[v rules] [[t|]|e]] eqn:E.
    + set (p1 := mkProcess (with_socket (memory p) v) rules t Running (main_thread p)).
      specialize (IH p1 Ha eq_refl). cbn [p1 base_time _eventloop memory] in IH. rewrite socket_view_with in IH.
      unfold thread_did in *. cbn [p1 memory main_thread] in IH. clearbody p1.
      destruct (SpongeSocket.loop_from _ m _ t rules v) as [[v2 rules2] [[]|e]]; [destruct (SpongeSocket.finish _ v2) as [v3 [[]|e]]|..];
        by setoid_rewrite with_socket_twice in IH.
    + rewrite iter_fixed by apply finishing_fixed. unfold finishing. rewrite socket_view_with.
      destruct (SpongeSocket.finish _ v) as [v3 [[]|e]];
        unfold abort; rewrite ?with_socket_twice; [by exists (base_time p)|by exists (base_time p), (_tcp_thread p)].
    + rewrite iter_fixed by (apply stopped_fixed; by left). by exists (base_time p), (_tcp_thread p).
Qed.

Lemma starting_iterates fuel p :
  alive p -> _tcp_thread p = Starting ->
  thread_did p (SpongeSocket._tcp_main (owner h) (device h) fuel (_eventloop p) (socket_view (memory p)))
    (Nat.iter (S fuel) (thread_step h) p).
Proof.
  intros Ha Ht. rewrite Nat.iter_succ_r.
  assert (thread_step h p = starting_step p) as -> by (unfold thread_step; rewrite Ht; unfold alive in Ha; by destruct (main_thread p)).
  unfold starting_step, SpongeSocket._tcp_main. cbn [socket_view app].
  destruct (SpongeSocket._tcp (sponge (app (memory p)))) as [c|].
  - unfold SpongeSocket._tcp_loop, syscall. cbn [socket_view kernel].
    destruct (sys_clock (kernel (memory p))) as [k t].
    exact (running_iterates fuel (mkProcess (mkWorld k (wrappers (memory p)) (app (memory p))) (_eventloop p) t Running (main_thread p)) Ha eq_refl).
  - rewrite iter_fixed by (apply stopped_fixed; by left). exists (base_time p), (_tcp_thread p).
    unfold abort. by destruct p as [[? ? []] ? ? ? ?].
Qed.

(** The loop of [connect] and of [listen_and_accept]: where the process is
    after [fuel] steps, or was after those it took. *)
Definition opened (fuel : nat) (states : list State) (c : StreamCopy.Copy) p
    (result : World K (Sponge A) * list (Rule K (Sponge A)) * outcome bool) : Prop :=
  let at_ (v : World K (Sponge A)) := mkWorld (kernel v) (wrappers v) (mkApp (app v) c) in
  match result with
  | (v, rules, Ok false) => exists t, Nat.iter fuel (main_step h) p = mkProcess (at_ v) rules t NotStarted (Opening states)
  | (v, rules, Ok true) => exists m t, (m <= fuel)%nat /\ Nat.iter m (main_step h) p = mkProcess (at_ v) rules t Starting Entering
  | (v, rules, Throw _) =>
      exists m t, (m <= fuel)%nat /\ Nat.iter m (main_step h) p = mkProcess (at_ v) rules t NotStarted (Exited EXIT_FAILURE)
  end.

Lemma in_state_same states (v v' : World K (Sponge A)) o : in_state states v = (v', o) -> v' = v.
Proof. unfold in_state, SpongeSocket.tcp, mbind, ste_bind. destruct (SpongeSocket._tcp _); by intros [= <- <-]. Qed.

Lemma opening_iterates fuel states v c rules t :
  opened fuel states c (mkProcess (mkWorld (kernel v) (wrappers v) (mkApp (app v) c)) rules t NotStarted (Opening states))
    (SpongeSocket.loop_from (device h) fuel (in_state states) t rules v).
Proof.
  revert v rules t. induction fuel as [|fuel IH]; intros v rules t; [by exists t|]. cbn [SpongeSocket.loop_from].
  set (p := mkProcess (mkWorld (kernel v) (wrappers v) (mkApp (app v) c)) rules t NotStarted (Opening states)).
  assert (socket_view (memory p) = v) as Ev by by destruct v.
  assert (main_step h p = opening_step h states p) as Es by done. unfold opening_step in Es. rewrite Ev in Es.
  destruct (in_state states v) as [v' o] eqn:E. apply in_state_same in E as ->. destruct o as [[]|e].
  - change (base_time p) with t in Es. change (_eventloop p) with rules in Es.
    destruct (tcp_iteration (device h) t rules v) as [[v1 rules1] [[t1|]|e]]; cbn -[Nat.iter main_step] in Es |- *.
    + specialize (IH v1 rules1 t1). unfold opened in *.
      destruct (SpongeSocket.loop_from _ fuel _ t1 rules1 v1) as [[v2 rules2] [[]|e]];
        [destruct IH as (m & t2 & Hm & IH); exists (S m), t2; split; [lia|]|
         destruct IH as (t2 & IH); exists t2|destruct IH as (m & t2 & Hm & IH); exists (S m), t2; split; [lia|]];
        rewrite Nat.iter_succ_r, Es; exact IH.
    + exists 1%nat, t. split; [lia|]. exact Es.
    + exists 1%nat, t. split; [lia|]. exact Es.
  - exists 1%nat, t. split; [lia|]. exact Es.
  - exists 1%nat, t. split; [lia|]. exact Es.
Qed.

(** [connect] or [listen_and_accept] from its beginning, of a new process. *)
Definition has_opened (fuel : nat) (listening : bool) (c_tcp : TCPConfig) (random : Z) (c_ad : FdAdapter.FdAdapterConfig)
    (w : World K (Sponge A)) : Prop :=
  let result := (if listening then SpongeSocket.listen_and_accept (_thread_data h) (device h) fuel c_tcp random c_ad w
                 else SpongeSocket.connect (_thread_data h) (device h) fuel c_tcp random c_ad w) in
  match start_process h listening c_tcp random c_ad w with
  | None => exists v e, result = (v, [], Throw e)
  | Some p => opened fuel (if listening then [LISTEN; SYN_RCVD; SYN_SENT] else [SYN_SENT]) StreamCopy.initial_copy p result
  end.

Lemma start_opens fuel listening c_tcp random c_ad w : has_opened fuel listening c_tcp random c_ad w.
Proof.
  unfold has_opened, start_process, SpongeSocket.listen_and_accept, SpongeSocket.connect.
  destruct listening; [destruct (SpongeSocket.listen_start _ _ _ _ _ _) as [w' [rules|e]]|
                       destruct (SpongeSocket.connect_start _ _ _ _ _ _) as [w' [rules|e]]]; try by eauto;
    unfold SpongeSocket._tcp_loop, syscall; destruct (sys_clock (kernel w')) as [k t];
    exact (opening_iterates fuel _ (mkWorld k (wrappers w') (app w')) StreamCopy.initial_copy rules t).
Qed.

(** The step functions of the threads, taken without interruption, are the
    functions of the program: the first steps of a process do what [connect] or
    [listen_and_accept] does, those of its main thread after that what
    [bidirectional_stream_copy] does with [wait_until_closed] or the unwinding
    after it, and those of the connection's thread what [_tcp_main] does; each
    with the same memory, the same rules and the same outcome, for any number of
    iterations, over any kernel. *)
Theorem steps_are_functions fuel p :
  (forall listening c_tcp random c_ad w, has_opened fuel listening c_tcp random c_ad w) /\
  (main_thread p = Entering -> has_copied fuel p) /\
  (alive p -> _tcp_thread p = Starting ->
   thread_did p (SpongeSocket._tcp_main (owner h) (device h) fuel (_eventloop p) (socket_view (memory p)))
     (Nat.iter (S fuel) (thread_step h) p)).
Proof. split; [intros; apply start_opens|]. split; [apply entering_iterates|apply starting_iterates]. Qed.
End Uninterrupted.

(** ** The end of a process *)

Section Ending.
Context {K : Type} {HK : Kernel K} {HO : Observe K} {HL : KernelLaws K} {HSK : SocketKernel K}.
Context {A I O : Type} {HFA : FdAdapter.FdAdapter A I O} {HIO : AdapterIO K I O}.
Context (h : Handles).
Abbreviation P := (Process K A).

(** A step of one of the threads, or anything outside the process. *)
Inductive moves : P -> P -> Prop :=
  | by_main p : moves p (main_step h p)
  | by_thread p : moves p (thread_step h p)
  | by_others p k : moves p (mkProcess (mkWorld k (wrappers (memory p)) (app (memory p))) (_eventloop p) (base_time p)
      (_tcp_thread p) (main_thread p)).

Definition over (p : P) : Prop := _tcp_thread p = Finished /\ SpongeSocket._tcp (sponge (app (memory p))) = None.

(** What the end of the main thread says of the other. *)
Record orderly (p : P) : Prop := {
  or_opening : match main_thread p with Opening _ => _tcp_thread p = NotStarted | _ => True end;
  or_started : match main_thread p with Entering | Copying _ _ _ | Unwinding | Joining _ => _tcp_thread p <> NotStarted | _ => True end;
  or_over : _tcp_thread p = Finished -> SpongeSocket._tcp (sponge (app (memory p))) = None;
  or_exited : forall s, main_thread p = Exited s -> over p \/ (s = EXIT_FAILURE /\ _tcp_thread p = NotStarted)
}.

(** The main thread goes on while the other has been started. *)
Lemma main_orderly p w m :
  orderly p -> _tcp_thread p <> NotStarted -> SpongeSocket._tcp (sponge (app w)) = SpongeSocket._tcp (sponge (app (memory p))) ->
  (match m with Opening _ | Exited _ => False | _ => True end) -> orderly (at_main p w m).
Proof.
  intros [_ _ H3 _] Ht Ew Hm. split; cbn [at_main main_thread _tcp_thread memory]; try (by destruct m).
  intros Hf. rewrite Ew. auto.
Qed.

Lemma unwind_orderly p w :
  orderly p -> _tcp_thread p <> NotStarted -> SpongeSocket._tcp (sponge (app w)) = SpongeSocket._tcp (sponge (app (memory p))) ->
  orderly (unwind p w).
Proof. intros. by apply main_orderly. Qed.

Lemma closing_orderly p w :
  orderly p -> _tcp_thread p <> NotStarted -> SpongeSocket._tcp (sponge (app w)) = SpongeSocket._tcp (sponge (app (memory p))) ->
  orderly (closing h p w).
Proof.
  intros Hp Ht Ew. unfold closing, SpongeSocket.wait_until_closed. destruct (shutdown _ _ _) as [v o] eqn:E.
  apply shutdown_spec in E as (_ & Ea & _). destruct o as [[]|e]; [apply main_orderly|apply unwind_orderly]; try done;
    cbn [with_socket app sponge]; by rewrite Ea.
Qed.

Lemma opening_orderly states p : orderly p -> main_thread p = Opening states -> orderly (opening_step h states p).
Proof.
  intros [H1 _ _ _] Em. rewrite Em in H1. unfold opening_step. destruct (in_state _ _) as [v [[]|e]].
  - destruct (tcp_iteration _ _ _ v) as [[v1 rules] [[t|]|e]]; split; cbn; rewrite ?H1, ?Em; try done.
    by intros s [= <-]; right.
  - by split.
  - split; cbn; rewrite ?H1; try done. intros s [= <-]. by right.
Qed.

Lemma main_step_orderly p : orderly p -> orderly (main_step h p).
Proof.
  intros Hp. pose proof Hp as [_ H2 H3 _]. unfold main_step. destruct (main_thread p) as [states| |i o rules| |s|s|] eqn:Em; try done.
  - by apply opening_orderly.
  - unfold entering_step. destruct (open_terminal _) as [v [[i o]|e]]; [|by apply unwind_orderly].
    destruct (StreamCopy.set_nonblocking _ _ _ v) as [v1 [[]|e]]; [by apply main_orderly|by apply unwind_orderly].
  - unfold copying_step. destruct (wait_next_event _ _ _) as [[v rules1] [r|e]]; [|by apply unwind_orderly].
    destruct (bool_decide _); [by apply closing_orderly|by apply main_orderly].
  - destruct (_tcp_thread p) eqn:Et; try done. split; cbn; rewrite ?Et; try done.
    intros s' [= <-]. left. split; [done|auto].
Qed.

Lemma thread_step_orderly p : orderly p -> orderly (thread_step h p).
Proof.
  intros Hp. pose proof Hp as [H1 H2 H3 H4]. unfold thread_step.
  assert (forall p', _tcp_thread p' <> NotStarted -> (_tcp_thread p' = Finished -> SpongeSocket._tcp (sponge (app (memory p'))) = None) ->
    (main_thread p' = Aborted \/ main_thread p' = main_thread p /\ _tcp_thread p <> NotStarted /\ forall s, main_thread p <> Exited s) ->
    orderly p') as Hgo.
  { intros p' N1 N2 [E|(E & N3 & N4)]; split; rewrite ?E; try done.
    all: destruct (main_thread p); try done. all: intros s' [= ->]; by destruct (N4 s'). }
  assert ((forall s, main_thread p <> Exited s) -> _tcp_thread p = Running -> orderly (running_step h p)) as Hrun.
  { intros Hs Et. unfold running_step. destruct (tcp_iteration _ _ _ _) as [[v rules] [[t|]|e]].
    - apply Hgo; cbn; try done. right. split; [done|]. split; [congruence|done].
    - unfold finishing, SpongeSocket.finish, mbind, ste_bind. destruct (shutdown _ _ _) as [v1 [[]|e]]; apply Hgo; cbn; rewrite ?Et; try done.
      + right. split; [done|]. split; [congruence|done].
      + by left.
    - apply Hgo; cbn; rewrite ?Et; try done. by left. }
  assert ((forall s, main_thread p <> Exited s) -> _tcp_thread p = Starting -> orderly (starting_step p)) as Hstart.
  { intros Hs Et. unfold starting_step. destruct (SpongeSocket._tcp _); [destruct (sys_clock _) as [k t0]|]; apply Hgo; cbn; rewrite ?Et; try done.
    - right. split; [done|]. split; [congruence|done].
    - by left. }
  destruct (main_thread p), (_tcp_thread p) eqn:Et; try done; (by apply Hrun) || (by apply Hstart).
Qed.

Lemma moves_orderly p p' : moves p p' -> orderly p -> orderly p'.
Proof.
  intros Hs Hp. destruct Hs as [p|p|p k]; [by apply main_step_orderly|by apply thread_step_orderly|].
  destruct Hp as [H1 H2 H3 H4]. by split.
Qed.

(** C20. A process never ends while the thread of its connection is running:
    whatever the threads, the kernel and the outside do, when the main thread
    has ended with a status, either the other thread has ended too and has
    given up its connection, or it was never started and the status is
    [EXIT_FAILURE]; so the status 0 means that both threads came to their end. *)
Theorem exit_joined listening c_tcp random c_ad w p0 p s :
  start_process h listening c_tcp random c_ad w = Some p0 -> rtc moves p0 p -> main_thread p = Exited s ->
  over p \/ (s = EXIT_FAILURE /\ _tcp_thread p = NotStarted).
Proof.
  intros E Hrun. assert (orderly p0) as H0.
  { unfold start_process in E. destruct (if listening then _ else _) as [v [rules|e]]; [|done].
    destruct (sys_clock _) as [k t]. by injection E as <-. }
  assert (orderly p) as Hp by (clear E; induction Hrun; [done|]; eauto using moves_orderly).
  apply (or_exited _ Hp).
Qed.
End Ending.

(** *** A client that nobody answers *)

Module Lone.
Abbreviation LossyTun := Examples.LossyTun.
Inductive act : Type := Main | Thread | Wait.
Definition later (p : Process SimKernel LossyTun) : SimKernel :=
  mkSimKernel (files (kernel (memory p))) (now (kernel (memory p)) + 10000).
Definition play (p : Process SimKernel LossyTun) (a : act) : Process SimKernel LossyTun :=
  match a with
  | Main => main_step Examples.h p
  | Thread => thread_step Examples.h p
  | Wait => mkProcess (mkWorld (later p) (wrappers (memory p)) (app (memory p)))
      (_eventloop p) (base_time p) (_tcp_thread p) (main_thread p)
  end.
(** The SYN is sent again until the connection is given up. *)
Definition given_up : Process SimKernel LossyTun := fold_left play (concat (replicate 10 [Wait; Main])) Examples.client.
Definition final : Process SimKernel LossyTun := fold_left play [Main; Main; Main; Main; Thread; Thread; Thread; Main] given_up.
End Lone.

Lemma lone_moves acts p : rtc (moves Examples.h) p (fold_left Lone.play acts p).
Proof.
  revert p. induction acts as [|a acts IH]; intros p; [done|]. cbn [fold_left]. eapply rtc_l; [|apply IH].
  destruct a; constructor.
Qed.

Lemma lone_run : rtc (moves Examples.h) Examples.client Lone.final.
Proof.
  unfold Lone.final. transitivity Lone.given_up; [|apply lone_moves].
  unfold Lone.given_up. apply lone_moves.
Qed.

(** [connect] returns although the connection was given up, and so the program
    ends with status 0. *)
Lemma exit_joined_witness :
  (main_thread Lone.final = Exited EXIT_SUCCESS /\ _tcp_thread Lone.final = Finished) /\
  (over Lone.final \/ (EXIT_SUCCESS = EXIT_FAILURE /\ _tcp_thread Lone.final = NotStarted)).
Proof.
  assert (main_thread Lone.final = Exited EXIT_SUCCESS) as Hm by (vm_compute; reflexivity).
  split; [split; [exact Hm|vm_compute; reflexivity]|].
  eapply (exit_joined Examples.h false (Examples.cfg 4294967290) 0 Examples.client_config
    (Examples.machine Examples.stream Examples.reply) Examples.client).
  - exact client_started.
  - exact lone_run.
  - exact Hm.
Defined.

(** The client that has given up, at the stream copy. *)
Lemma steps_are_functions_witness :
  main_thread Lone.given_up = Entering /\ _tcp_thread Lone.given_up = Starting /\
  has_copied Examples.h 3 Lone.given_up /\
  thread_did Lone.given_up
    (SpongeSocket._tcp_main (owner Examples.h) (device Examples.h) 3 (_eventloop Lone.given_up) (socket_view (memory Lone.given_up)))
    (Nat.iter 4 (thread_step Examples.h) Lone.given_up).
Proof.
  assert (main_thread Lone.given_up = Entering) as Hm by (vm_compute; reflexivity).
  assert (_tcp_thread Lone.given_up = Starting) as Ht by (vm_compute; reflexivity).
  destruct (steps_are_functions Examples.h 3 Lone.given_up) as (_ & Hc & Hd).
  split; [exact Hm|]. split; [exact Ht|]. split.
  - apply Hc. exact Hm.
  - apply Hd; [|exact Ht]. unfold alive. rewrite Hm. exact I.
Defined.
