(* ===== verification/Gateway.v ===== *)
(** * The program of lab 7

    Models the threads of [src/apps/lab7.cc]: [program_body] and [main] around
    the socket, the router and the rules of [Lab7.v].  Three threads share one
    kernel and one table of descriptors: the main thread, the thread of the
    host's connection ([Programs.v]), and the network thread with its router.
    A step is an iteration of a loop of one of them, in any order.  What the
    main thread prints on [cerr] is left out.

    [lab7_ends]: the program comes to its end only after both other threads,
    and the flag that the main thread raises stops the network thread. *)
From stdpp Require Import base tactics list numbers option gmap.
From Stdlib Require Import ZArith Lia.
From Stdlib Require Import (notations) String.
From S2P Require Import Prelude WrappingIntegers Text CommandLine Buffer Address Kernel FileDescriptor Socket EventLoop.
From S2P Require Import TCPSender TCPConnection TCPState Router Lab7 Programs Executions.
From S2P Require FdAdapter StreamCopy SpongeSocket Simulator NetworkInterface.

Import SpongeSocket (Sponge, mkSponge).

(** [program_body] after its set-up: about to call [connect] or
    [listen_and_accept], within the [try] block, joining the network thread,
    in the destructor of the socket, at its end. *)
Inductive Phase : Type := Beginning | Trying | Leaving | Destroying | Returned.

Record Gateway (K : Type) := mkGateway {
  host : Process K NetworkInterfaceAdapter;
  net : Net;
  event_loop : list (Rule K Net);
  network_running : bool;
  exit_flag : bool;
  phase : Phase
}.
Arguments mkGateway {K}.
Arguments host {K}.
Arguments net {K}.
Arguments event_loop {K}.
Arguments network_running {K}.
Arguments exit_flag {K}.
Arguments phase {K}.

Definition set_host {K} (p : Process K NetworkInterfaceAdapter) (s : Gateway K) : Gateway K :=
  mkGateway p (net s) (event_loop s) (network_running s) (exit_flag s) (phase s).
Definition set_phase {K} (x : Phase) (s : Gateway K) : Gateway K :=
  mkGateway (host s) (net s) (event_loop s) (network_running s) (exit_flag s) x.

(** What the network thread sees, and the program after it has changed that. *)
Definition net_view {K} (s : Gateway K) : World K Net :=
  mkWorld (kernel (memory (host s))) (wrappers (memory (host s))) (net s).
Definition with_memory {K A} (p : Process K A) (k : K) (ws : gmap nat FDWrapper) : Process K A :=
  mkProcess (mkWorld k ws (app (memory p))) (_eventloop p) (base_time p) (_tcp_thread p) (main_thread p).
Definition with_net {K} (s : Gateway K) (v : World K Net) (rules : list (Rule K Net)) (running : bool) : Gateway K :=
  mkGateway (with_memory (host s) (kernel v) (wrappers v)) (app v) rules running (exit_flag s) (phase s).

Section Steps.
Context {K : Type} {HK : Kernel K} {HSK : SocketKernel K}.
Context (h : Handles) (what : exn -> list byte) (is_client : bool) (port_random isn_random : Z).
Implicit Types (s : Gateway K).

(** The first calls of the [try] block. *)
Definition SERVER : Address := mkAddress (ip 172 16 0 100) 1234.
Definition socket_config : outcome FdAdapter.FdAdapterConfig :=
  let _local_address := fst (host_addresses is_client) in
  if is_client then Ok (connect_config (same_host _local_address (u16 port_random)) SERVER)
  else
    _local_address ← socket_bind _local_address SERVER;
    Ok (listen_config _local_address).
Definition begin_step (p : Process K NetworkInterfaceAdapter) : Process K NetworkInterfaceAdapter :=
  let w := memory p in
  match socket_config with
  | Throw _ => at_main p w (Exited EXIT_FAILURE)
  | Ok c_ad =>
      match (if is_client
             then SpongeSocket.connect_start (_thread_data h) (device h) TCPConnection.default_config isn_random c_ad (socket_view w)
             else SpongeSocket.listen_start (_thread_data h) (device h) TCPConnection.default_config isn_random c_ad (socket_view w)) with
      | (v, Throw _) => at_main p (with_socket w v) (Exited EXIT_FAILURE)
      | (v, Ok rules) =>
          let '(k, t) := sys_clock (kernel v) in
          mkProcess (mkWorld k (wrappers v) (mkApp (app v) (copy (app w)))) rules t (_tcp_thread p)
            (Opening (if is_client then [SYN_SENT] else [LISTEN; SYN_RCVD; SYN_SENT]))
      end
  end.

(** A step of the main thread.  An exception that leaves the [try] block does
    not leave the scope of the socket: its destructor runs after the network
    thread has been joined. *)
Definition raise_flag s : Gateway K := mkGateway (host s) (net s) (event_loop s) (network_running s) true Leaving.
Definition gateway_main_step s : Gateway K :=
  match phase s, main_thread (host s) with
  | _, Aborted => s
  | Beginning, _ => set_phase Trying (set_host (begin_step (host s)) s)
  | Trying, (Exited _ | Unwinding) => raise_flag s
  | Trying, _ => set_host (main_step h (host s)) s
  | Leaving, _ => if network_running s then s else set_phase Destroying s
  | Destroying, Exited _ => set_phase Returned s
  | Destroying, _ => set_host (main_step h (host s)) s
  | Returned, _ => s
  end.

(** A step of the network thread: an iteration of its loop.  An exception ends
    it with a message; undefined behaviour ends the program. *)
Definition network_throws s (v : World K Net) (rules : list (Rule K Net)) (e : exn) : Gateway K :=
  match e with
  | Undefined => set_host (abort (host (with_net s v rules false)) (memory (host (with_net s v rules false))) (_eventloop (host s)))
                   (with_net s v rules false)
  | _ => with_net s (set_app (put_err (str! "Thread ending from exception: " ++ what e ++ [x0a])) v) rules false
  end.
Definition network_step s : Gateway K :=
  if negb (network_running s) then s
  else
    match main_thread (host s) with
    | Aborted => s
    | _ =>
        match wait_next_event 50 (event_loop s) (net_view s) with
        | (v, rules, Throw e) => network_throws s v rules e
        | (v, rules, Ok r) =>
            if bool_decide (r = Exit) then with_net s (set_app (put_err (str! "Exiting..." ++ [x0a])) v) rules false
            else
              match time_passes v with
              | (v, Throw e) => network_throws s v rules e
              | (v, Ok _) => with_net s v rules (negb (exit_flag s))
              end
        end
    end.

(** A step of the thread of the connection. *)
Definition socket_step s : Gateway K := set_host (thread_step h (host s)) s.
End Steps.

(** *** The set-up *)

Section SetUp.
Context {K : Type} {HK : Kernel K} {HSK : SocketKernel K}.
Context (resolve : list byte -> list byte -> outcome Address) (rd : nat -> Z).
Abbreviation protect := SpongeSocket.protect.

(** The descriptors: of the Internet, of the adapter and of the socket. *)
Record Plugs := mkPlugs { internet_socket : FileDescriptor; frame_fd : FileDescriptor; handles : Handles; bounce_address : Address }.

Definition program_set_up (is_client : bool) (bounce_host bounce_port : list byte) : ste (World K Net) Plugs :=
  internet_socket ← UDPSocket;
  protect [internet_socket]
    (bounce_address ← lift (resolve bounce_host bounce_port);
     _ ← before_threads internet_socket bounce_address rd is_client;
     frames ← socket_pair_helper SOCK_DGRAM;
     ends ← protect [fst frames; snd frames] SpongeSocket.new_socket;
     mret (mkPlugs internet_socket (snd frames) (mkHandles (fst ends) (snd ends) (fst frames)) bounce_address)).

(** [program_body] up to its threads, and the program then. *)
Definition program_body (is_client : bool) (bounce_host bounce_port : list byte) (debug : bool) (cerr : ostream) (k : K)
    : outcome (Plugs * Gateway K) :=
  match program_set_up is_client bounce_host bounce_port (mkWorld k ∅ (mkNet Router.new cerr)) with
  | (_, Throw e) => Throw e
  | (w, Ok f) =>
      let adapter := new_adapter rd 12 (fst (host_addresses is_client)) (snd (host_addresses is_client)) in
      Ok (f, mkGateway
        (mkProcess (mkWorld (kernel w) (wrappers w) (mkApp (mkSponge adapter None false false false false) StreamCopy.initial_copy))
           [] 0 NotStarted (Opening []))
        (app w) (network_rules (frame_fd f) (internet_socket f) (bounce_address f) debug) true false Beginning)
  end.

(** [main] of a process that has a name: an exit status, or the program. *)
Inductive Gateways : Type :=
  | GatewayEnds (status : Z)
  | GatewayRuns (f : Plugs) (is_client : bool) (s : Gateway K).
Definition lab7_main (argv0 : list byte) (args : list (list byte)) (cerr : ostream) (k : K) : ostream * outcome Gateways :=
  match lab7_arguments (argv0 :: args) with
  | Throw e => (cerr, Throw e)
  | Ok None => (print_usage argv0 cerr, Ok (GatewayEnds EXIT_FAILURE))
  | Ok (Some (is_client, bounce_host, bounce_port, debug)) =>
      match program_body is_client bounce_host bounce_port debug cerr k with
      | Throw Undefined => (cerr, Throw Undefined)
      | Throw _ => (cerr, Ok (GatewayEnds EXIT_FAILURE))
      | Ok (f, s) => (cerr, Ok (GatewayRuns f is_client s))
      end
  end.
End SetUp.

(** ** The end of the program *)

Section Ends.
Context {K : Type} {HK : Kernel K} {HO : Observe K} {HL : KernelLaws K} {HSK : SocketKernel K}.
Context (h : Handles) (what : exn -> list byte) (is_client : bool) (port_random isn_random : Z).

(** A step of one of the three threads, or anything outside. *)
Inductive goes : Gateway K -> Gateway K -> Prop :=
  | main_goes s : goes s (gateway_main_step h is_client port_random isn_random s)
  | network_goes s : goes s (network_step what s)
  | socket_goes s : goes s (socket_step h s)
  | others_go s k : goes s (set_host (with_memory (host s) k (wrappers (memory (host s)))) s).

(** Where the main thread is, and what it has seen of the others. *)
Definition settled_in (s : Gateway K) : Prop :=
  match phase s with
  | Beginning => _tcp_thread (host s) = NotStarted
  | Trying => True
  | Leaving => exit_flag s = true
  | Destroying => exit_flag s = true /\ network_running s = false
  | Returned => network_running s = false /\ exists status, main_thread (host s) = Exited status
  end.
Record lab7_ok (s : Gateway K) : Prop := { lo_orderly : orderly (host s); lo_phase : settled_in s }.

Lemma with_memory_orderly (p : Process K NetworkInterfaceAdapter) k ws : orderly p -> orderly (with_memory p k ws).
Proof. intros [H1 H2 H3 H4]. by split. Qed.

Lemma begin_orderly p :
  orderly p -> _tcp_thread p = NotStarted -> orderly (begin_step h is_client port_random isn_random p).
Proof.
  intros _ Et. unfold begin_step.
  assert (forall w, orderly (at_main p w (Exited EXIT_FAILURE))) as Hfail.
  { intros w. split; cbn; rewrite ?Et; try done. intros s [= <-]. by right. }
  destruct (socket_config _ _) as [c_ad|e]; [|apply Hfail].
  destruct (if is_client then _ else _) as [v [rules|e]]; [|apply Hfail].
  destruct (sys_clock _) as [k t]. split; cbn; rewrite ?Et; done.
Qed.

Lemma abort_orderly (p : Process K NetworkInterfaceAdapter) w rules : orderly p -> (_tcp_thread p = Finished -> SpongeSocket._tcp (sponge (app w)) = None) -> orderly (abort p w rules).
Proof. intros Hp Hw. by split. Qed.

Lemma main_goes_ok s : lab7_ok s -> lab7_ok (gateway_main_step h is_client port_random isn_random s).
Proof.
  intros [Ho Hs]. unfold gateway_main_step.
  pose proof (main_step_orderly h (host s) Ho) as Hstep. unfold settled_in in Hs.
  destruct (phase s) eqn:Ep, (main_thread (host s)) eqn:Em; try (by split; [|unfold settled_in; rewrite Ep]);
    try (by split; [by apply begin_orderly|]); try (by split; [|unfold settled_in; cbn; rewrite ?Ep]);
    try (destruct (network_running s) eqn:En; by split; [|unfold settled_in; cbn; rewrite ?Ep, ?En]);
    try (split; [done|]; unfold settled_in; cbn; split; [apply Hs|by eexists]);
    try (split; [done|]; unfold settled_in; rewrite Ep, Em; exact Hs).
Qed.


Lemma with_net_ok s v rules running :
  lab7_ok s -> (network_running s = false -> running = false) -> lab7_ok (with_net s v rules running).
Proof.
  intros [Ho Hs] Hr. split; [by apply with_memory_orderly|]. unfold settled_in in *. cbn.
  destruct (phase s); cbn in *; try done; destruct Hs; auto.
Qed.

Lemma network_throws_ok s v rules e :
  lab7_ok s -> network_running s = true -> lab7_ok (network_throws what s v rules e).
Proof.
  intros Hok Hn. unfold network_throws. destruct e; try by apply with_net_ok.
  pose proof (with_net_ok s v rules false Hok ltac:(done)) as [Ho _]. destruct Hok as [_ Hs]. split.
  - apply abort_orderly; [exact Ho|]. apply (or_over _ Ho).
  - unfold settled_in in *. cbn in *. destruct (phase s); try done; destruct Hs; congruence.
Qed.

Lemma network_goes_ok s : lab7_ok s -> lab7_ok (network_step what s).
Proof.
  intros Hok. unfold network_step. destruct (network_running s) eqn:En; cbn [negb]; [|done].
  destruct (main_thread (host s)); try done;
    (destruct (wait_next_event _ _ _) as [[v rs] [r|e]]; [|by apply network_throws_ok]);
    (destruct (bool_decide _); [by apply with_net_ok|]);
    (destruct (time_passes v) as [v1 [[]|e]]; [apply with_net_ok; congruence|by apply network_throws_ok]).
Qed.

Lemma socket_goes_ok s : lab7_ok s -> lab7_ok (socket_step h s).
Proof.
  intros [Ho Hs]. split; [by apply thread_step_orderly|]. unfold settled_in, socket_step in *. cbn.
  destruct (phase s); try done.
  - unfold thread_step. rewrite Hs. destruct (main_thread (host s)); exact Hs.
  - destruct Hs as [Hn [x Hx]]. split; [done|]. exists x. unfold thread_step. by rewrite Hx.
Qed.

Lemma goes_ok s s' : goes s s' -> lab7_ok s -> lab7_ok s'.
Proof.
  intros Hs Hok. destruct Hs as [s|s|s|s k].
  - by apply main_goes_ok.
  - by apply network_goes_ok.
  - by apply socket_goes_ok.
  - destruct Hok as [Ho Hs]. split; [by apply with_memory_orderly|exact Hs].
Qed.

(** Once the flag is up, the iteration that the network thread is in is its last. *)
Lemma flag_stops s :
  exit_flag s = true -> main_thread (host s) <> Aborted -> network_running (network_step what s) = false.
Proof.
  intros Hf Ha. unfold network_step. destruct (network_running s) eqn:En; [cbn [negb]|exact En].
  assert (forall v rules e, network_running (network_throws what s v rules e) = false) as Ht by (by intros v rules []).
  destruct (main_thread (host s)); try done; destruct (wait_next_event _ _ _) as [[v rs] [r|e]]; try apply Ht;
    (destruct (bool_decide _); [done|]); destruct (time_passes v) as [v1 [[]|e]]; try apply Ht; cbn; by rewrite Hf.
Qed.

(** C37. The end of the program of lab 7.  Whatever the three threads, the kernel
    and the outside do from its beginning: when [program_body] returns, the
    network thread has ended, and the thread of the connection has ended and
    given up its connection or was never started; and while the main thread is
    joining the network thread, an iteration of that thread is its last, so
    that the join ends. *)
Theorem lab7_ends resolve rd bounce_host bounce_port debug cerr k f s0 s :
  program_body resolve rd is_client bounce_host bounce_port debug cerr k = Ok (f, s0) -> rtc goes s0 s ->
  (phase s = Returned ->
   network_running s = false /\ (over (host s) \/ _tcp_thread (host s) = NotStarted)) /\
  (phase s = Leaving -> main_thread (host s) <> Aborted ->
   phase (gateway_main_step h is_client port_random isn_random (network_step what s)) = Destroying \/
   main_thread (host (network_step what s)) = Aborted).
Proof.
  intros E Hrun. assert (lab7_ok s) as [Ho Hs].
  { assert (lab7_ok s0) as H0 by (unfold program_body in E; destruct (program_set_up _ _ _ _ _ _) as [w [f0|e]]; [by injection E as <- <-|done]).
    clear E. induction Hrun; [done|]. eauto using goes_ok. }
  unfold settled_in in Hs. split; intros Ep; rewrite Ep in Hs.
  - destruct Hs as [Hn [x Hx]]. split; [done|]. destruct (or_exited _ Ho x Hx) as [?|[_ ?]]; auto.
  - intros Ha. assert (phase (network_step what s) = Leaving) as Ep'.
    { unfold network_step, network_throws. destruct (negb _); [done|]. destruct (main_thread (host s)); try done;
        destruct (wait_next_event _ _ _) as [[v rs] [r|[]]]; try done; (destruct (bool_decide _); [done|]);
        by destruct (time_passes v) as [v1 [[]|[]]]. }
    pose proof (flag_stops s Hs Ha) as Hn. unfold gateway_main_step. rewrite Ep', Hn.
    destruct (main_thread (host (network_step what s))); auto.
Qed.
End Ends.

(** *** A client that nobody answers *)

Module Examples.
Inductive act : Type := Main | Thread | Network | Wait.
Definition what (_ : exn) : list byte := [].
Definition resolve (_ _ : list byte) : outcome Address := Ok (Simulator.quad 10 1 2 3).
Definition start : outcome (Plugs * Gateway SimKernel) :=
  program_body resolve Z.of_nat true [] [] false stringstream (mkSimKernel ∅ 0).
Definition stopped : Gateway SimKernel :=
  mkGateway (mkProcess (mkWorld (mkSimKernel ∅ 0) ∅
      (mkApp (mkSponge (new_adapter Z.of_nat 12 SERVER SERVER) None false false false false) StreamCopy.initial_copy)) [] 0 NotStarted Aborted)
    (mkNet Router.new stringstream) [] false false Returned.
Definition plugs : Plugs := match start with Ok (f, _) => f | Throw _ => mkPlugs 0%nat 0%nat (mkHandles 0%nat 0%nat 0%nat) SERVER end.
Definition first : Gateway SimKernel := match start with Ok (_, s) => s | Throw _ => stopped end.
Definition later (s : Gateway SimKernel) : SimKernel :=
  mkSimKernel (files (kernel (memory (host s)))) (now (kernel (memory (host s))) + 1000000).
Definition play (s : Gateway SimKernel) (a : act) : Gateway SimKernel :=
  match a with
  | Main => gateway_main_step (handles plugs) true 4000 17 s
  | Thread => socket_step (handles plugs) s
  | Network => network_step what s
  | Wait => set_host (with_memory (host s) (later s) (wrappers (memory (host s)))) s
  end.
Definition leaving : Gateway SimKernel := fold_left play
  ([Main; Network] ++ concat (replicate 10 [Wait; Main]) ++ [Main; Main; Main; Main; Thread; Thread; Thread; Main; Main]) first.
Definition final : Gateway SimKernel := fold_left play [Network; Main; Main] leaving.
End Examples.

Lemma examples_go acts s :
  rtc (goes (handles Examples.plugs) Examples.what true 4000 17) s (fold_left Examples.play acts s).
Proof.
  revert s. induction acts as [|a acts IH]; intros s; [done|]. cbn [fold_left]. eapply rtc_l; [|apply IH].
  destruct a; constructor.
Qed.

Lemma example_starts :
  program_body Examples.resolve Z.of_nat true [] [] false stringstream (mkSimKernel ∅ 0) = Ok (Examples.plugs, Examples.first).
Proof.
  unfold Examples.plugs, Examples.first.
  assert (forall (o : outcome (Plugs * Gateway SimKernel)) f s, (exists x, o = Ok x) ->
    o = Ok (match o with Ok (f, _) => f | Throw _ => f end, match o with Ok (_, s) => s | Throw _ => s end)) as Hok
    by (intros o f s [[f0 s0] ->]; done).
  apply Hok. destruct Examples.start as [x|e] eqn:E; [by exists x|]. exfalso.
  apply (f_equal (fun o => match o with Ok _ => true | Throw _ => false end)) in E. vm_compute in E. discriminate.
Qed.

Lemma example_run_leaves :
  rtc (goes (handles Examples.plugs) Examples.what true 4000 17) Examples.first Examples.leaving.
Proof. unfold Examples.leaving. apply examples_go. Qed.
Lemma example_run_ends :
  rtc (goes (handles Examples.plugs) Examples.what true 4000 17) Examples.first Examples.final.
Proof. transitivity Examples.leaving; [apply example_run_leaves|]. unfold Examples.final. apply examples_go. Qed.

(** The main thread is joining the network thread; two of its steps later, with
    one of the network thread before them, the program has ended. *)
Lemma lab7_ends_witness :
  (phase (gateway_main_step (handles Examples.plugs) true 4000 17 (network_step Examples.what Examples.leaving)) = Destroying \/
   main_thread (host (network_step Examples.what Examples.leaving)) = Aborted) /\
  phase Examples.final = Returned /\
  network_running Examples.final = false /\ (over (host Examples.final) \/ _tcp_thread (host Examples.final) = NotStarted).
Proof.
  assert (phase Examples.leaving = Leaving) as Hl by (vm_compute; reflexivity).
  assert (phase Examples.final = Returned) as Hf by (vm_compute; reflexivity).
  split; [|split; [exact Hf|]].
  - eapply (lab7_ends (handles Examples.plugs) Examples.what true 4000 17);
      [exact example_starts|exact example_run_leaves|exact Hl|].
    intros Ha. apply (f_equal (fun m => match m with Aborted => true | _ => false end)) in Ha. vm_compute in Ha. discriminate.
  - eapply (lab7_ends (handles Examples.plugs) Examples.what true 4000 17);
      [exact example_starts|exact example_run_ends|exact Hf].
Defined.
